(* ===== verification/_CoqProject ===== *)
-Q . S2P
Prelude.v
Machine.v
EspIdf.v
Crc32.v
SimEnv.v
Protocol.v
Hmac.v
Auth.v
OtaManager.v
DeviceInfo.v
Lifecycle.v
Commands.v
Host.v
OtaLink.v
App.v
