(* ===== verification/Prelude.v ===== *)
(** * Verification of the ESP32 OTA link firmware

    The program is an ESP-IDF component (src/firmware/components/ota_link) that
    lets a host update, restart and roll back an ESP32 over a serial link or a
    custom byte transport, and an example application (src/firmware/main/main.c)
    that starts it. A command task reads bytes, a parser cuts packets out of
    them, a dispatcher hands every packet to its handler, and the handlers use an
    optional authentication layer (HMAC over nonces and a pre-shared key, with a
    cache of answered requests), the session that writes a firmware image to
    flash, and a report about the device. Every function of the six C files and
    of main.c that changes state is a definition of this library.

    ** Files, and what they model

    - [Prelude]: C integers as [Z] with their width written out, C arrays as lists
      with partial reads and writes ([zget], [slice], [blit], [memcpy]: [None] is
      an access outside the array), locals that are not written yet, counting
      loops, little-endian encodings, tactics and hints.
    - [Machine]: the state monad [M] of the C functions. A run returns ([Done]),
      stops the CPU ([Halted], a call that does not return) or is undefined
      ([Undef]); [wp] is its weakest precondition and excludes [Undef]; [zoom]
      runs the code of one file inside the state of the program.
    - [EspIdf]: the calls to ESP-IDF, FreeRTOS and the SHA-256 engine as classes
      over an abstract world, the trace of their effects (newest first), and the
      laws the sources rely on. [SimEnv] is a concrete world that meets them.
    - [Crc32]: [protocol_crc32] of protocol.c.
    - [Protocol]: the rest of protocol.c and protocol.h. [protocol_parser_feed] is
      the parser, with [protocol_parser_finish] for its part after a complete
      header; [protocol_send_packet] is the writer. [frame], [encode_frame] and
      [spec_stream] specify the wire format of protocol/protocol.md.
    - [Hmac]: the cryptographic half of auth.c: [hmac_sha256], the comparison, and
      the messages that are authenticated. [hmac] is RFC 2104.
    - [Auth]: the rest of auth.c. [auth_handle_packet] is the handshake,
      [auth_check_replay], [auth_unwrap_packet] and [auth_send_response] the guard
      and the answer of a protected command.
    - [OtaManager]: ota_manager.c; [ota_step] is the abstract update session it
      implements.
    - [DeviceInfo]: device_info.c, with a decoder for the CMD_INFO payload.
    - [Lifecycle]: the validation and rollback functions of ota_link.c.
    - [Commands]: commands.c on the state of the whole device ([device], the
      statics of all files).
    - [Host]: no code of its own; what a host that follows protocol/protocol.md
      achieves against [Commands]: handshake, update, repeated packets.
    - [OtaLink]: the rest of ota_link.c: configuration, start, the command loop
      turn by turn ([ota_link_step]), the confirmation task.
    - [App]: main.c, and the program as interleaved turns of its tasks
      ([firmware]).

    The statics of each C file are a record ([proto_state], [auth_state_t],
    [ota_statics], [info_state], [device], [system]); a lens shows a file's
    record inside the next larger one. Out-parameters are results. A handler is
    the whole case of the C switch, with its early returns in their order.

    ** What the theorems show

    - Authority. [App.only_the_key_holder_controls_the_firmware] is about the
      running program: with a required key, whatever bytes arrive, in whatever
      order the tasks run and whatever the chip answers, a boot switch or a
      restart has a reason among the frames received, tagged under the key.
      [Commands.device_acts_only_for_the_key_holder] is the same for packets;
      [Commands.untagged_packets_are_harmless] and the theorems of [Auth] on the
      handshake, the tags and the separation of their messages are the parts.
      Cryptographic strength is not claimed: the theorems say which tag was
      received, not that it cannot be guessed.
    - Updates. [OtaManager.ota_manager_implements_sessions] refines the C code to
      the step relation; from the relation follow that only a verified image,
      written chunk after chunk up to the announced size, becomes bootable
      ([OtaManager.boot_switch_needs_a_verified_image]), that writes stay in
      bounds, and, on flash that works, that an upload with repeated chunks
      installs a genuine image and no other ([OtaManager.upload_installs_the_image]).
      [Host.host_installs_the_image] is the same for the whole device, from the
      first handshake packet to the last signed answer.
    - Retries. [Commands.retried_update_is_executed_once] and
      [Auth.retry_is_answered_from_the_cache] show exactly-once execution inside
      the replay window; [Commands.forged_packets_reopen_a_replay] and
      [Commands.forged_packet_blocks_a_request] show, for every authenticated
      session, how packets without a valid tag disturb that window.
    - The link. [Protocol.parser_refines_stream], [Protocol.send_then_parse],
      [Protocol.delivered_packets_were_received],
      [Protocol.damaged_frame_is_dropped] and [Protocol.parser_resynchronises]
      are about the wire; [OtaLink.command_task_answers_every_frame] counts one
      answer per frame.
    - Start and report. The start is all or nothing; an unusable key stops the
      application; only unconfirmed images are confirmed; the report decodes to
      what the device knows; the boot count counts.
    - No theorem about running code assumes that it returns: [wp] and the
      existential forms prove that it does, and that no array access is out of
      bounds.

    ** Bounds

    Loops of the C code end after a number of turns their own data fixes ([c_for],
    structural recursion on strings, caches and partition lists), so no fuel is
    used. The endless loops of the tasks are run for an arbitrary number of
    turns. [FlashSpec] asks that an update partition leaves 1016 bytes below 2^32
    ([partition_fits]), because the size check of a chunk (ota_manager.c:128) is
    a 32-bit sum. [HealthyFlash] describes flash that works as ESP-IDF documents
    it; which contents are application images, and their digests, is left to
    ESP-IDF ([image_digest]). The digest a host announces is the one embedded at
    the end of the image file (protocol/protocol.md, host/otalink.py).

    ** What is not modelled

    Logging; the code of ESP-IDF, FreeRTOS and SHA-256; preemption inside a turn
    of a task (the tasks share no static except through ESP-IDF); the lifetime of
    the transport table a configuration points to; the Python host tools, the
    tests, the build files and the board profiles. *)
From Stdlib Require Export ZArith Lia.
From stdpp Require Export base tactics numbers option list.

#[global] Open Scope Z_scope.
#[global] Arguments Z.lor : simpl never.
#[global] Arguments Z.land : simpl never.
#[global] Arguments Z.lxor : simpl never.
#[global] Arguments Z.shiftl : simpl never.
#[global] Arguments Z.shiftr : simpl never.
#[global] Arguments Z.modulo : simpl never.
#[global] Arguments Z.div : simpl never.

(** * Notations of the development *)

Declare Scope ota_scope.
Delimit Scope ota_scope with ota.
#[global] Open Scope ota_scope.

(** * C integers, kept as [Z] with their width written out *)

Definition u8 (x : Z) : Prop := 0 <= x < 256.
Definition u16 (x : Z) : Prop := 0 <= x < 65536.
Definition u32 (x : Z) : Prop := 0 <= x < 2 ^ 32.

(** Conversions to an unsigned type of the given width. *)
Definition to_u8 (x : Z) : Z := x mod 256.
Definition to_u16 (x : Z) : Z := x mod 65536.
Definition to_u32 (x : Z) : Z := x mod 2 ^ 32.

(** A byte sequence: every element is a [uint8_t]. *)
Definition bytes (l : list Z) : Prop := Forall u8 l.

#[export] Instance u8_dec x : Decision (u8 x).
Proof. unfold u8. apply _. Defined.
#[export] Instance u16_dec x : Decision (u16 x).
Proof. unfold u16. apply _. Defined.
#[export] Instance u32_dec x : Decision (u32 x).
Proof. unfold u32. apply _. Defined.
#[export] Instance bytes_dec l : Decision (bytes l).
Proof. unfold bytes. apply _. Defined.

(** * C arrays as lists indexed by [Z]

    An access outside the array is undefined behaviour in C: it is [None] here,
    never a silent default. *)

Definition zlen {A} (l : list A) : Z := Z.of_nat (length l).

Notation "'len' l" := (zlen l) (at level 9, l at level 9) : ota_scope.

Section Buffers.
Context {A : Type}.
Implicit Types (l dst src : list A).

(** [l[i]] *)
Definition zget l (i : Z) : option A :=
  if 0 <=? i then l !! Z.to_nat i else None.

(** The [n] cells of [l] from [off] on: what a read through [&l[off]] sees. *)
Definition slice l (off n : Z) : option (list A) :=
  if bool_decide (0 <= off /\ 0 <= n /\ off + n <= len l)
  then Some (take (Z.to_nat n) (drop (Z.to_nat off) l)) else None.

(** [memcpy(&dst[off], src, len src)] *)
Definition blit dst (off : Z) src : option (list A) :=
  if bool_decide (0 <= off /\ off + len src <= len dst)
  then Some (take (Z.to_nat off) dst ++ src ++ drop (Z.to_nat (off + len src)) dst)
  else None.

(** [dst[i] = x] *)
Definition zset dst (i : Z) (x : A) : option (list A) := blit dst i [x].

(** [memcpy(&dst[doff], &src[soff], n)] *)
Definition memcpy dst (doff : Z) src (soff n : Z) : option (list A) :=
  s ← slice src soff n; blit dst doff s.
End Buffers.

(** A static array of [n] bytes starts as zeros; [memset(.., 0, ..)] too. *)
Definition zeros (n : Z) : list Z := replicate (Z.to_nat n) 0.

(** A local array is uninitialised: its cells are [None] until written, and a
    read of an unwritten cell is a fault like a read out of range. *)
Definition undef (n : Z) : list (option Z) := replicate (Z.to_nat n) None.
Definition lblit (dst : list (option Z)) (off : Z) (src : list Z) : option (list (option Z)) :=
  blit dst off (Some <$> src).
Definition lset (dst : list (option Z)) (i x : Z) : option (list (option Z)) := lblit dst i [x].
Definition lslice (l : list (option Z)) (off n : Z) : option (list Z) :=
  s ← slice l off n; mapM id s.

(** [for (i = i0; ...; ++i) body], [n] iterations, where the body may fault. *)
Fixpoint for_loop {A} (n : nat) (i : Z) (body : Z -> A -> option A) (acc : A) : option A :=
  match n with
  | O => Some acc
  | S n => acc ← body i acc; for_loop n (i + 1) body acc
  end.

(** [for (size_t i = 0; i < count; ++i) body] *)
Definition c_for {A} (count : Z) (body : Z -> A -> option A) (acc : A) : option A :=
  for_loop (Z.to_nat count) 0 body acc.

(** * Little-endian encodings: the reference the C readers and writers meet *)

Definition le16 (v : Z) : list Z := [v mod 256; v / 256 mod 256].
Definition le32 (v : Z) : list Z :=
  [v mod 256; v / 256 mod 256; v / 65536 mod 256; v / 16777216 mod 256].
Fixpoint le_value (l : list Z) : Z :=
  match l with
  | [] => 0
  | b :: l => b + 256 * le_value l
  end.

(** * Tactics and hints *)

Create HintDb ota discriminated.
Create Rewrite HintDb zlen.

(** ** Lengths *)

Section Lengths.
Context {A B : Type}.
Implicit Types l : list A.

Lemma zlen_nonneg l : 0 <= len l.
Proof. unfold zlen. lia. Qed.
Lemma zlen_nil : len (@nil A) = 0.
Proof. reflexivity. Qed.
Lemma zlen_cons x l : len (x :: l) = 1 + len l.
Proof. unfold zlen. simpl length. lia. Qed.
Lemma zlen_app l l' : len (l ++ l') = len l + len l'.
Proof. unfold zlen. rewrite length_app. lia. Qed.
Lemma head_app_long l1 l2 : 1 <= len l1 -> head (l1 ++ l2) = head l1.
Proof. by destruct l1. Qed.
Lemma zlen_fmap (f : A -> B) l : len (f <$> l) = len l.
Proof. unfold zlen. by rewrite length_fmap. Qed.
Lemma zlen_replicate n (x : A) : len (replicate n x) = Z.of_nat n.
Proof. unfold zlen. by rewrite length_replicate. Qed.
Lemma zlen_take n l : len (take n l) = Z.min (Z.of_nat n) (len l).
Proof. unfold zlen. rewrite length_take. lia. Qed.
Lemma zlen_drop n l : len (drop n l) = Z.max 0 (len l - Z.of_nat n).
Proof. unfold zlen. rewrite length_drop. lia. Qed.
Lemma zlen_insert i (x : A) l : len (<[i:=x]> l) = len l.
Proof. unfold zlen. by rewrite length_insert. Qed.
Lemma zlen_0_inv l : len l = 0 -> l = [].
Proof. destruct l; [done|]. rewrite zlen_cons. pose proof (zlen_nonneg l). lia. Qed.
End Lengths.

Lemma zlen_zeros n : len (zeros n) = Z.max 0 n.
Proof. unfold zeros. rewrite zlen_replicate. lia. Qed.
Lemma zlen_undef n : len (undef n) = Z.max 0 n.
Proof. unfold undef. rewrite zlen_replicate. lia. Qed.
Lemma zlen_le16 v : len (le16 v) = 2.
Proof. reflexivity. Qed.
Lemma zlen_le32 v : len (le32 v) = 4.
Proof. reflexivity. Qed.

#[export] Hint Rewrite @zlen_nil @zlen_cons @zlen_app @zlen_fmap @zlen_replicate @zlen_take
  @zlen_drop @zlen_insert zlen_zeros zlen_undef zlen_le16 zlen_le32 : zlen.

(** [sizes] closes an arithmetic goal about offsets, lengths and widths. *)
Create HintDb consts.
Ltac sizes :=
  autounfold with consts in *; unfold u8, u16, u32 in *; autorewrite with zlen in *; unfold zlen in *; lia.

(** [osteps] runs a chain of memory accesses whose results are hypotheses. *)
Ltac ostep :=
  match goal with
  | H : ?o = Some _ |- context [?o ≫= _] => rewrite H; cbn [mbind option_bind]
  end.
Ltac osteps := repeat ostep.

(** ** Array accesses *)

Section BufferLemmas.
Context {A : Type}.
Implicit Types l dst src : list A.

Lemma slice_Some l off n :
  0 <= off -> 0 <= n -> off + n <= len l ->
  slice l off n = Some (take (Z.to_nat n) (drop (Z.to_nat off) l)).
Proof. intros. unfold slice. rewrite bool_decide_true by lia. done. Qed.

Lemma slice_inv l off n s :
  slice l off n = Some s ->
  0 <= off /\ 0 <= n /\ off + n <= len l /\ s = take (Z.to_nat n) (drop (Z.to_nat off) l).
Proof. unfold slice. case_bool_decide; naive_solver. Qed.

(** A read that covers exactly one segment of a concatenation. *)
Lemma slice_mid l1 l2 l3 off n :
  off = len l1 -> n = len l2 -> slice (l1 ++ l2 ++ l3) off n = Some l2.
Proof.
  intros -> ->. rewrite slice_Some by sizes.
  unfold zlen. rewrite !Nat2Z.id, drop_app_length, take_app_length. done.
Qed.
Lemma slice_prefix l1 l2 n : n = len l1 -> slice (l1 ++ l2) 0 n = Some l1.
Proof. intros. by apply (slice_mid []). Qed.
Lemma slice_all l n : n = len l -> slice l 0 n = Some l.
Proof. intros. rewrite <-(app_nil_r l) at 1. by apply slice_prefix. Qed.

(** A write that covers exactly one segment of a concatenation. *)
Lemma blit_mid l1 l2 l3 off src :
  off = len l1 -> len src = len l2 -> blit (l1 ++ l2 ++ l3) off src = Some (l1 ++ src ++ l3).
Proof.
  intros -> Hs. unfold blit. rewrite bool_decide_true by sizes.
  unfold zlen in *. rewrite Nat2Z.id, take_app_length. do 3 f_equal.
  replace (Z.to_nat _) with (length l1 + length l2)%nat by lia.
  rewrite drop_app_add, drop_app_length. done.
Qed.
Lemma blit_prefix l1 l2 src : len src = len l1 -> blit (l1 ++ l2) 0 src = Some (src ++ l2).
Proof. intros. by apply (blit_mid []). Qed.

(** Splitting an array at an offset it contains. *)
Lemma split_at l n : 0 <= n <= len l -> exists a b, l = a ++ b /\ len a = n.
Proof.
  intros. exists (take (Z.to_nat n) l), (drop (Z.to_nat n) l).
  rewrite take_drop. split; [done|sizes].
Qed.

Lemma zget_app_r l1 l2 i : len l1 <= i -> zget (l1 ++ l2) i = zget l2 (i - len l1).
Proof.
  intros. unfold zget. rewrite !(proj2 (Z.leb_le _ _)) by sizes.
  rewrite lookup_app_r by sizes. f_equal. sizes.
Qed.
Lemma zget_mid l1 x l2 i : i = len l1 -> zget (l1 ++ x :: l2) i = Some x.
Proof. intros ->. rewrite zget_app_r by lia. by rewrite Z.sub_diag. Qed.
End BufferLemmas.

(** ** Arrays filled from the start *)

(** [l] with its first cells overwritten by [a]. *)
Definition over {A} (a l : list A) : list A := a ++ drop (length a) l.

Section Over.
Context {A : Type}.
Implicit Types a b c l s : list A.

Lemma over_nil l : over [] l = l.
Proof. done. Qed.
Lemma zlen_over a l : len a <= len l -> len (over a l) = len l.
Proof. intros. unfold over. sizes. Qed.
Lemma blit_over a l off s :
  off = len a -> len a + len s <= len l -> blit (over a l) off s = Some (over (a ++ s) l).
Proof.
  intros -> Hl. unfold over.
  rewrite <-(take_drop (length s) (drop (length a) l)), blit_mid by sizes.
  by rewrite drop_drop, length_app, <-app_assoc.
Qed.
Lemma zset_over a l off x :
  off = len a -> len a + 1 <= len l -> zset (over a l) off x = Some (over (a ++ [x]) l).
Proof. intros. apply blit_over; sizes. Qed.
Lemma slice_over a b c l off n :
  off = len a -> n = len b -> slice (over (a ++ b ++ c) l) off n = Some b.
Proof. intros. unfold over. rewrite <-!app_assoc. by apply slice_mid. Qed.
Lemma slice_over_prefix a b l n : n = len a -> slice (over (a ++ b) l) 0 n = Some a.
Proof. intros. by apply (slice_over [] a b). Qed.
End Over.

(** A local array of [n] cells whose first [len a] cells hold [a]. *)
Definition filled (a : list Z) (n : Z) : list (option Z) := over (Some <$> a) (undef n).

Lemma undef_filled n : undef n = filled [] n.
Proof. done. Qed.

Lemma lblit_filled a n off s :
  off = len a -> len a + len s <= n -> lblit (filled a n) off s = Some (filled (a ++ s) n).
Proof.
  intros -> Hn. unfold lblit, filled. rewrite blit_over by sizes. by rewrite fmap_app.
Qed.

Lemma lset_filled a n off x :
  off = len a -> len a + 1 <= n -> lset (filled a n) off x = Some (filled (a ++ [x]) n).
Proof. intros. apply lblit_filled; sizes. Qed.

Lemma mapM_id_Some (l : list Z) : mapM id (Some <$> l) = Some l.
Proof. apply mapM_Some. induction l; simpl; by constructor. Qed.

Lemma lslice_filled_mid a b c n off k :
  off = len a -> k = len b -> lslice (filled (a ++ b ++ c) n) off k = Some b.
Proof.
  intros -> ->. unfold lslice, filled. rewrite !fmap_app, slice_over by sizes. apply mapM_id_Some.
Qed.

Lemma lslice_filled a n k : k = len a -> lslice (filled a n) 0 k = Some a.
Proof.
  intros ->. rewrite <-(app_nil_r a) at 1. by apply (lslice_filled_mid [] a []).
Qed.

(** ** Loops *)

(** A loop over the elements of an array is a left fold. *)
Lemma for_loop_fold {A} (f : A -> Z -> A) (pre l post : list Z) (acc : A) i :
  i = len pre ->
  for_loop (length l) i
    (fun i acc => x ← zget (pre ++ l ++ post) i; Some (f acc x)) acc = Some (foldl f acc l).
Proof.
  revert pre acc i. induction l as [|x l IH]; intros pre acc i ->; [done|].
  cbn [for_loop length foldl].
  rewrite <-app_comm_cons, zget_mid by done. cbn [mbind option_bind].
  specialize (IH (pre ++ [x]) (f acc x) (len pre + 1)).
  rewrite <-app_assoc in IH. apply IH. sizes.
Qed.

(** A turn that cannot be taken whatever was accumulated makes the loop undefined. *)
Lemma for_loop_undefined {A} (body : Z -> A -> option A) n : forall i k acc,
  i <= k < i + Z.of_nat n -> (forall acc, body k acc = None) -> for_loop n i body acc = None.
Proof.
  induction n as [|n IH]; intros i k acc Hk Hb; [lia|]. cbn [for_loop].
  destruct (Z.eq_dec i k) as [->|]; [by rewrite Hb|].
  destruct (body i acc); [|done]. cbn [mbind option_bind]. apply (IH _ k); [lia|done].
Qed.

Lemma c_for_fold {A} (f : A -> Z -> A) (l post : list Z) (acc : A) n :
  n = len l ->
  c_for n (fun i acc => x ← zget (l ++ post) i; Some (f acc x)) acc = Some (foldl f acc l).
Proof.
  intros ->. unfold c_for, zlen. rewrite Nat2Z.id. by apply (for_loop_fold f []).
Qed.

(** ** Bit operations as arithmetic *)

Lemma land_255 v : Z.land v 255 = v mod 256.
Proof. change 255 with (Z.ones 8). by rewrite Z.land_ones by lia. Qed.

Lemma shiftr_div v n k : 0 <= n -> 2 ^ n = k -> Z.shiftr v n = v / k.
Proof. intros ? <-. by apply Z.shiftr_div_pow2. Qed.

(** [a | (b << n)] is a sum when [a] fits below bit [n]. *)
Lemma lor_shiftl_add a b n : 0 <= n -> 0 <= a < 2 ^ n -> Z.lor a (Z.shiftl b n) = a + b * 2 ^ n.
Proof.
  intros Hn Ha. rewrite <-Z.shiftl_mul_pow2 by done.
  assert (Z.land a (Z.shiftl b n) = 0) as E.
  { apply Z.bits_inj'. intros k Hk. rewrite Z.land_spec, Z.shiftl_spec, Z.bits_0 by done.
    destruct (decide (k < n)).
    - rewrite (Z.testbit_neg_r b) by lia. by rewrite andb_false_r.
    - rewrite <-(Z.mod_small a (2 ^ n)), Z.mod_pow2_bits_high by lia. done. }
  rewrite <-Z.lxor_lor, Z.add_nocarry_lxor by done. done.
Qed.

Lemma le16_value v : u16 v -> le_value (le16 v) = v.
Proof.
  intros Hv. unfold le16, le_value, u16 in *.
  rewrite (Z.mod_small (v / 256)); [pose proof (Z_div_mod_eq_full v 256); lia|].
  split; [apply Z.div_pos; lia|apply Z.div_lt_upper_bound; lia].
Qed.

Lemma le32_value v : u32 v -> le_value (le32 v) = v.
Proof.
  intros Hv. unfold le32, le_value, u32 in *.
  replace 65536 with (256 * 256) by done. replace 16777216 with (256 * 256 * 256) by done.
  rewrite <-!Z.div_div by lia. rewrite (Z.mod_small (v / 256 / 256 / 256)).
  { pose proof (Z_div_mod_eq_full v 256). pose proof (Z_div_mod_eq_full (v / 256) 256).
    pose proof (Z_div_mod_eq_full (v / 256 / 256) 256). lia. }
  rewrite !Z.div_div by lia.
  split; [apply Z.div_pos; lia|apply Z.div_lt_upper_bound; lia].
Qed.

Lemma bytes_le16 v : bytes (le16 v).
Proof. repeat constructor; apply Z.mod_pos_bound; lia. Qed.
Lemma bytes_le32 v : bytes (le32 v).
Proof. repeat constructor; apply Z.mod_pos_bound; lia. Qed.

Lemma le_value_bound l : bytes l -> 0 <= le_value l < 2 ^ (8 * len l).
Proof.
  induction 1 as [|b l Hb _ IH]; cbn [le_value]; [done|].
  rewrite zlen_cons. replace (8 * (1 + len l)) with (8 + 8 * len l) by lia.
  rewrite Z.pow_add_r by sizes. change (2 ^ 8) with 256. unfold u8 in Hb. lia.
Qed.

(** Equal lengths and equal values make equal byte strings. *)
Lemma le_value_inj l l' :
  bytes l -> bytes l' -> length l = length l' -> le_value l = le_value l' -> l = l'.
Proof.
  intros H. revert l'. induction H as [|b l Hb Hl IH]; intros l' Hl' E V.
  { by destruct l'. }
  destruct Hl' as [|b' l' Hb' Hl']; [done|]. simpl in V. unfold u8 in *.
  assert (b = b' /\ le_value l = le_value l') as [-> ?] by lia.
  f_equal. apply IH; [done|by injection E|done].
Qed.

(** ** Closure properties of [bytes] *)

Lemma bytes_nil : bytes [].
Proof. constructor. Qed.
Lemma bytes_cons x l : u8 x -> bytes l -> bytes (x :: l).
Proof. by constructor. Qed.
Lemma bytes_one x : u8 x -> bytes [x].
Proof. intros. by apply bytes_cons, bytes_nil. Qed.
Lemma bytes_app l l' : bytes l -> bytes l' -> bytes (l ++ l').
Proof. intros. by apply Forall_app. Qed.
Lemma bytes_take n l : bytes l -> bytes (take n l).
Proof. apply Forall_take. Qed.
Lemma bytes_drop n l : bytes l -> bytes (drop n l).
Proof. apply Forall_drop. Qed.
Lemma bytes_zeros n : bytes (zeros n).
Proof. apply Forall_replicate. unfold u8. lia. Qed.
Lemma to_u8_range x : u8 (to_u8 x).
Proof. apply Z.mod_pos_bound. lia. Qed.
Lemma to_u8_id x : u8 x -> to_u8 x = x.
Proof. intros Hx. by apply Z.mod_small. Qed.

#[export] Hint Resolve bytes_nil bytes_one bytes_cons bytes_app bytes_take bytes_drop bytes_zeros
  bytes_le16 bytes_le32 to_u8_range : ota.
#[export] Hint Extern 1 (u8 _) => (unfold u8; lia) : ota.
