(* ===== verification/Machine.v ===== *)
(** The execution model shared by every component: a state monad whose runs
    return, stop the CPU (a restart), or hit undefined behaviour; its weakest
    precondition; and the lenses that run a component's code inside a larger
    program state. *)
From S2P Require Import Prelude.

(** * Outcomes *)

(** [Done a s]: the function returned [a] in state [s].
    [Halted s]: a call that never returns ([esp_restart]) was reached in [s].
    [Undef]: an access outside an array or to an unwritten local. *)
Inductive outcome (S A : Type) : Type :=
| Done (a : A) (s : S)
| Halted (s : S)
| Undef.
Arguments Done {S A} a s.
Arguments Halted {S A} s.
Arguments Undef {S A}.

Definition M (S A : Type) : Type := S -> outcome S A.

#[export] Instance M_ret {S} : MRet (M S) := fun A a s => Done a s.
#[export] Instance M_bind {S} : MBind (M S) := fun A B k m s =>
  match m s with
  | Done a s' => k a s'
  | Halted s' => Halted s'
  | Undef => Undef
  end.

Section Operations.
Context {S A : Type}.

Definition get : M S S := fun s => Done s s.
Definition gets {B} (f : S -> B) : M S B := fun s => Done (f s) s.
Definition modify (f : S -> S) : M S unit := fun s => Done tt (f s).
Definition halt : M S A := fun s => Halted s.
(** A memory access: [None] is undefined behaviour. *)
Definition ub (o : option A) : M S A := fun s =>
  match o with Some a => Done a s | None => Undef end.
End Operations.

(** * Lenses: a component's statics inside the program state *)

Record lens (S T : Type) : Type := mk_lens { view : S -> T; set : T -> S -> S }.
Arguments mk_lens {S T} view set.
Arguments view {S T} l s.
Arguments set {S T} l t s.

Class LensLaws {S T} (l : lens S T) : Prop := {
  view_set t s : view l (set l t s) = t;
  set_view s : set l (view l s) s = s;
  set_set t t' s : set l t (set l t' s) = set l t s
}.

(** Run [m], which only knows [T], on the part of [S] the lens shows. *)
Definition zoom {S T A} (l : lens S T) (m : M T A) : M S A := fun s =>
  match m (view l s) with
  | Done a t => Done a (set l t s)
  | Halted t => Halted (set l t s)
  | Undef => Undef
  end.

(** * Weakest preconditions *)

(** [wp m Q H s]: run from [s], [m] has no undefined behaviour, returns in [Q]
    if it returns, and stops in [H] if it stops. *)
Definition wp {S A} (m : M S A) (Q : A -> S -> Prop) (H : S -> Prop) (s : S) : Prop :=
  match m s with
  | Done a s' => Q a s'
  | Halted s' => H s'
  | Undef => False
  end.

Section Wp.
Context {S A B : Type}.
Implicit Types (s : S) (H : S -> Prop).

Lemma wp_ret (a : A) Q H s : wp (mret a) Q H s <-> Q a s.
Proof. done. Qed.
Lemma wp_bind (m : M S A) (k : A -> M S B) Q H s :
  wp (m ≫= k) Q H s <-> wp m (fun a => wp (k a) Q H) H s.
Proof. unfold wp, mbind, M_bind. by destruct (m s). Qed.
Lemma wp_get Q H s : wp get Q H s <-> Q s s.
Proof. done. Qed.
Lemma wp_gets (f : S -> A) Q H s : wp (gets f) Q H s <-> Q (f s) s.
Proof. done. Qed.
Lemma wp_modify (f : S -> S) Q H s : wp (modify f) Q H s <-> Q tt (f s).
Proof. done. Qed.
Lemma wp_halt (Q : A -> S -> Prop) H s : wp halt Q H s <-> H s.
Proof. done. Qed.
Lemma wp_ub (o : option A) Q H s : wp (ub o) Q H s <-> exists a, o = Some a /\ Q a s.
Proof. unfold wp, ub. destruct o; naive_solver. Qed.
Lemma wp_mono (m : M S A) (Q Q' : A -> S -> Prop) (H H' : S -> Prop) s :
  wp m Q H s -> (forall a s', Q a s' -> Q' a s') -> (forall s', H s' -> H' s') -> wp m Q' H' s.
Proof. unfold wp. destruct (m s); naive_solver. Qed.
Lemma wp_Done (m : M S A) Q H s a s' : m s = Done a s' -> Q a s' -> wp m Q H s.
Proof. unfold wp. by intros ->. Qed.
Lemma wp_Done_inv (m : M S A) Q H s a s' : wp m Q H s -> m s = Done a s' -> Q a s'.
Proof. unfold wp. intros Hm E. by rewrite E in Hm. Qed.
Lemma wp_if (b : bool) (m m' : M S A) Q H s :
  wp (if b then m else m') Q H s <-> if b then wp m Q H s else wp m' Q H s.
Proof. by destruct b. Qed.
Lemma wp_and (m : M S A) (Q Q' : A -> S -> Prop) (H H' : S -> Prop) s :
  wp m Q H s -> wp m Q' H' s ->
  wp m (fun a s' => Q a s' /\ Q' a s') (fun s' => H s' /\ H' s') s.
Proof. unfold wp. by destruct (m s). Qed.
End Wp.

Lemma wp_zoom {S T A} (l : lens S T) (m : M T A) Q H s :
  wp (zoom l m) Q H s <->
  wp m (fun a t => Q a (set l t s)) (fun t => H (set l t s)) (view l s).
Proof. unfold wp, zoom. by destruct (m (view l s)). Qed.

Create Rewrite HintDb wp.
#[export] Hint Rewrite @wp_ret @wp_bind @wp_get @wp_gets @wp_modify @wp_halt @wp_zoom @wp_if : wp.

(** Equational running of a bind whose first part is known to return. *)
Lemma bind_Done {S A B} (m : M S A) (k : A -> M S B) s a s' :
  m s = Done a s' -> (m ≫= k) s = k a s'.
Proof. unfold mbind, M_bind. by intros ->. Qed.
Lemma bind_ub {S A B} (o : option A) (k : A -> M S B) s a :
  o = Some a -> (ub o ≫= k) s = k a s.
Proof. by intros ->. Qed.
Lemma zoom_Done {S T A} (l : lens S T) (m : M T A) s a t :
  m (view l s) = Done a t -> zoom l m s = Done a (set l t s).
Proof. unfold zoom. by intros ->. Qed.

(** * Iterating a step: the body of an endless loop, run [n] times *)

Fixpoint run_steps {S} (n : nat) (step : M S unit) : M S unit :=
  match n with
  | O => mret tt
  | Datatypes.S n => step ≫= fun _ => run_steps n step
  end.

(** An invariant of the step is an invariant of every number of iterations. *)
Lemma run_steps_invariant {S} (I H : S -> Prop) (step : M S unit) :
  (forall s, I s -> wp step (fun _ => I) H s) ->
  forall n s, I s -> wp (run_steps n step) (fun _ => I) H s.
Proof.
  intros Hstep n. induction n as [|n IH]; intros s Hs; simpl; [done|].
  apply wp_bind. eapply wp_mono; [by apply Hstep|intros [] s'; apply IH|done].
Qed.
