(* ===== verification/EspIdf.v ===== *)
(** The boundary of the program: the ESP-IDF and FreeRTOS calls the sources
    make. Their code is not part of the repository, so they are operations of a
    class over an abstract world [W]; what the program relies on is a second
    class of laws. Every call that has an effect is recorded in a trace, newest
    first, so that theorems can speak about the order of effects whatever the
    environment answers. *)
From S2P Require Import Prelude Machine.

(** * Data exchanged with ESP-IDF *)

Inductive esp_err_t : Type :=
| ESP_OK
| ESP_FAIL
| ESP_ERR_NO_MEM
| ESP_ERR_INVALID_ARG
| ESP_ERR_INVALID_STATE
| ESP_ERR_NVS_NOT_FOUND
| ESP_ERR_NVS_NO_FREE_PAGES
| ESP_ERR_NVS_NEW_VERSION_FOUND
| ESP_ERR_OTHER (code : Z).
#[export] Instance esp_err_t_eq_dec : EqDecision esp_err_t.
Proof. solve_decision. Defined.

(** [esp_ota_img_states_t]; the last constructor is any value outside the enum. *)
Inductive esp_ota_img_states_t : Type :=
| ESP_OTA_IMG_NEW
| ESP_OTA_IMG_PENDING_VERIFY
| ESP_OTA_IMG_VALID
| ESP_OTA_IMG_INVALID
| ESP_OTA_IMG_ABORTED
| ESP_OTA_IMG_UNDEFINED
| ESP_OTA_IMG_other (code : Z).
#[export] Instance esp_ota_img_states_t_eq_dec : EqDecision esp_ota_img_states_t.
Proof. solve_decision. Defined.

Inductive esp_chip_model_t : Type :=
| CHIP_ESP32 | CHIP_ESP32S2 | CHIP_ESP32S3 | CHIP_ESP32C2 | CHIP_ESP32C3
| CHIP_ESP32C5 | CHIP_ESP32C6 | CHIP_ESP32C61 | CHIP_ESP32H2 | CHIP_ESP32H21
| CHIP_ESP32H4 | CHIP_ESP32P4 | CHIP_ESP32S31 | CHIP_POSIX_LINUX
| CHIP_other (code : Z).

(** A C string is the list of its bytes before the terminating NUL. *)
Record esp_partition_t : Type := mk_partition {
  part_type_app : bool;
  part_subtype : Z;
  part_address : Z;
  part_size : Z;
  part_label : list Z
}.
#[export] Instance esp_partition_t_eq_dec : EqDecision esp_partition_t.
Proof. solve_decision. Defined.

Record esp_app_desc_t : Type := mk_app_desc {
  desc_version : list Z;
  desc_project_name : list Z;
  desc_date : list Z;
  desc_idf_ver : list Z
}.

(** The tasks the sources hand to [xTaskCreate]. *)
Inductive task_id : Type := task_ota_link | task_mark_valid | task_app_health.

(** * Operations *)

(** The callbacks of [ota_link_transport_t]: [void *context] is its value. *)
Definition writer (W : Type) : Type := Z -> list Z -> W -> esp_err_t * W.
Definition reader (W : Type) : Type := Z -> Z -> Z -> W -> (Z * list Z) * W.

Class EspIdf (W : Type) : Type := {
  (* driver/uart.h *)
  uart_write_bytes : Z -> list Z -> W -> Z * W;
  uart_read_bytes : Z -> Z -> Z -> W -> (Z * list Z) * W;
  uart_driver_install : Z -> Z -> W -> esp_err_t * W;
  uart_param_config : Z -> Z -> W -> esp_err_t * W;
  uart_set_pin : Z -> Z -> Z -> Z -> Z -> W -> esp_err_t * W;
  uart_driver_delete : Z -> W -> esp_err_t * W;
  (* esp_ota_ops.h *)
  esp_ota_get_running_partition : W -> option esp_partition_t;
  esp_ota_get_boot_partition : W -> option esp_partition_t;
  esp_ota_get_next_update_partition : W -> option esp_partition_t;
  (** The state is written through the out-pointer: [None] leaves it alone. *)
  esp_ota_get_state_partition : option esp_partition_t -> W -> esp_err_t * option esp_ota_img_states_t;
  esp_ota_check_rollback_is_possible : W -> bool;
  esp_ota_begin : esp_partition_t -> Z -> W -> (esp_err_t * Z) * W;
  esp_ota_write : Z -> list Z -> W -> esp_err_t * W;
  esp_ota_end : Z -> W -> esp_err_t * W;
  esp_ota_abort : Z -> W -> esp_err_t * W;
  esp_ota_set_boot_partition : esp_partition_t -> W -> esp_err_t * W;
  esp_ota_mark_app_valid_cancel_rollback : W -> esp_err_t * W;
  (** [None]: the call does not return, the chip restarts. *)
  esp_ota_mark_app_invalid_rollback_and_reboot : W -> option esp_err_t * W;
  (* esp_partition.h *)
  esp_partition_get_sha256 : esp_partition_t -> W -> (esp_err_t * list Z) * W;
  (** The application partitions the [esp_partition_find] iterator visits. *)
  esp_partition_find_app : W -> list esp_partition_t;
  (* nvs.h *)
  nvs_flash_init : W -> esp_err_t * W;
  nvs_open : W -> (esp_err_t * Z) * W;
  (** [None] leaves the out-pointer alone. *)
  nvs_get_u32 : Z -> W -> esp_err_t * option Z;
  nvs_set_u32 : Z -> Z -> W -> esp_err_t * W;
  nvs_commit : Z -> W -> esp_err_t * W;
  nvs_close : Z -> W -> W;
  (* esp_random.h, esp_timer.h, esp_heap_caps.h, esp_chip_info.h, esp_app_desc.h *)
  esp_fill_random : Z -> W -> list Z * W;
  esp_timer_get_time : W -> Z;
  heap_caps_get_free_size : W -> Z;
  esp_chip_model : W -> esp_chip_model_t;
  esp_app_get_description : W -> option esp_app_desc_t;
  ESP_PARTITION_SUBTYPE_APP_OTA_0 : Z;
  ESP_PARTITION_SUBTYPE_APP_OTA_15 : Z;
  (* freertos/task.h: [true] is [pdPASS]; the handle is written through the
     out-pointer *)
  xTaskCreate : task_id -> Z -> Z -> W -> (bool * Z) * W;
  vTaskDelay : Z -> W -> W;
  (** FreeRTOS's conversion of milliseconds; it depends on the tick rate. *)
  pdMS_TO_TICKS : Z -> Z
}.

(** [esp_sha(SHA2_256, input, ilen, output)] as a function of the input bytes. *)
Class Sha256 : Type := esp_sha : list Z -> list Z.

Class Sha256Spec `{Sha256} : Prop := {
  esp_sha_len l : len (esp_sha l) = 32;
  esp_sha_bytes l : bytes (esp_sha l)
}.

(** What the sources rely on: out-buffers are filled to the documented size, an
    update partition's size is a [uint32_t], what is read are bytes, and the
    handle of a created task is not NULL. *)
Class EspIdfSpec (W : Type) `{EspIdf W} : Prop := {
  esp_fill_random_len n w : 0 <= n -> len (esp_fill_random n w).1 = n;
  esp_fill_random_bytes n w : bytes (esp_fill_random n w).1;
  esp_partition_get_sha256_len p w : len (esp_partition_get_sha256 p w).1.2 = 32;
  next_update_partition_size w p :
    esp_ota_get_next_update_partition w = Some p -> u32 (part_size p);
  uart_read_bytes_bytes port n timeout w : bytes (uart_read_bytes port n timeout w).1.2;
  uart_read_bytes_len port n timeout w : 0 <= n -> len (uart_read_bytes port n timeout w).1.2 <= n;
  xTaskCreate_handle t stack prio w :
    (xTaskCreate t stack prio w).1.1 = true -> (xTaskCreate t stack prio w).1.2 <> 0
}.

(** * The trace of effects *)

Inductive event : Type :=
| EvTx (data : list Z) (err : esp_err_t)
| EvRx (result : Z) (data : list Z)
| EvOtaBegin (p : esp_partition_t) (size : Z) (err : esp_err_t) (handle : Z)
| EvOtaWrite (handle : Z) (data : list Z) (err : esp_err_t)
| EvOtaEnd (handle : Z) (err : esp_err_t)
| EvOtaAbort (handle : Z) (err : esp_err_t)
| EvPartitionSha (p : esp_partition_t) (err : esp_err_t) (digest : list Z)
| EvSetBoot (p : esp_partition_t) (err : esp_err_t)
| EvMarkValid (err : esp_err_t)
| EvMarkInvalidReboot (err : option esp_err_t)
| EvRandom (data : list Z)
| EvRestart
| EvDelay (ms : Z)
| EvUartInstall (port : Z) (err : esp_err_t)
| EvUartConfig (port : Z) (err : esp_err_t)
| EvUartPins (port : Z) (err : esp_err_t)
| EvUartDelete (port : Z)
| EvNvsSet (value : Z) (err : esp_err_t)
| EvNvsCommit (err : esp_err_t)
| EvTaskCreate (t : task_id) (created : bool).

Record io (W : Type) : Type := mk_io { world : W; trace : list event }.
Arguments mk_io {W} world trace.
Arguments world {W} i.
Arguments trace {W} i.

Section Calls.
Context {W A : Type}.

(** An effectful call: run it on the world and record the event. *)
Definition call (f : W -> A * W) (ev : A -> event) : M (io W) A := fun s =>
  let '(a, w) := f (world s) in Done a (mk_io w (ev a :: trace s)).

(** A call without effect on what the model records. *)
Definition query (f : W -> A) : M (io W) A := fun s => Done (f (world s)) s.
Definition silent (f : W -> A * W) : M (io W) A := fun s =>
  let '(a, w) := f (world s) in Done a (mk_io w (trace s)).

Lemma call_run f ev s :
  call f ev s = Done (f (world s)).1 (mk_io (f (world s)).2 (ev (f (world s)).1 :: trace s)).
Proof. unfold call. by destruct (f (world s)). Qed.
Lemma silent_run f s :
  silent f s = Done (f (world s)).1 (mk_io (f (world s)).2 (trace s)).
Proof. unfold silent. by destruct (f (world s)). Qed.

Lemma wp_call f ev Q H s :
  wp (call f ev) Q H s <->
  Q (f (world s)).1 (mk_io (f (world s)).2 (ev (f (world s)).1 :: trace s)).
Proof. unfold wp. by rewrite call_run. Qed.
Lemma wp_query (f : W -> A) Q H s : wp (query f) Q H s <-> Q (f (world s)) s.
Proof. done. Qed.
Lemma wp_silent f Q H s :
  wp (silent f) Q H s <-> Q (f (world s)).1 (mk_io (f (world s)).2 (trace s)).
Proof. unfold wp. by rewrite silent_run. Qed.
End Calls.
#[export] Hint Rewrite @wp_call @wp_query @wp_silent : wp.

Section Effects.
Context {W : Type} `{EspIdf W}.

(** [vTaskDelay(pdMS_TO_TICKS(ms))]; the event records the milliseconds. *)
Definition delay_ms (ms : Z) : M (io W) unit :=
  call (fun w => (tt, vTaskDelay (pdMS_TO_TICKS ms) w)) (fun _ => EvDelay ms).

(** [esp_restart()] does not return. *)
Definition esp_restart : M (io W) unit := fun s =>
  Halted (mk_io (world s) (EvRestart :: trace s)).
End Effects.

(** * Traces that grow by events of one kind *)

(** Transmissions in a list of events. *)
Fixpoint tx_count (t : list event) : nat :=
  match t with
  | [] => O
  | EvTx _ _ :: t => S (tx_count t)
  | _ :: t => tx_count t
  end.

(** The bytes the command loop took from the link, oldest first: a read of one
    byte; [byte] keeps its initial 0 if the transport stored nothing. *)
Fixpoint rx_bytes (t : list event) : list Z :=
  match t with
  | [] => []
  | EvRx n data :: t => rx_bytes t ++ (if n =? 1 then [hd 0 data] else [])
  | _ :: t => rx_bytes t
  end.

(** [adds P n t t']: [t'] is [t] with events of [P] added, [n] of them
    transmissions. *)
Definition adds (P : event -> Prop) (n : nat) (t t' : list event) : Prop :=
  exists new, t' = new ++ t /\ Forall P new /\ tx_count new = n.

(** Events that leave flash, the boot choice and the CPU alone. *)
Definition harmless (e : event) : Prop :=
  match e with EvTx _ _ | EvRandom _ | EvDelay _ => True | _ => False end.

Lemma tx_count_app t t' : tx_count (t ++ t') = (tx_count t + tx_count t')%nat.
Proof. induction t as [|[] t IH]; simpl; lia. Qed.

Lemma rx_bytes_harmless new t : Forall harmless new -> rx_bytes (new ++ t) = rx_bytes t.
Proof. induction 1 as [|e new He _ IH]; [done|]. by destruct e. Qed.

Section Adds.
Context (P : event -> Prop).

Lemma adds_refl t : adds P 0 t t.
Proof. by exists []. Qed.
Lemma adds_tx data err t : P (EvTx data err) -> adds P 1 t (EvTx data err :: t).
Proof. intros. exists [EvTx data err]. split_and!; [done|by constructor|done]. Qed.
Lemma adds_trans n m t1 t2 t3 : adds P n t1 t2 -> adds P m t2 t3 -> adds P (n + m) t1 t3.
Proof.
  intros (n1 & -> & H1 & <-) (n2 & -> & H2 & <-). exists (n2 ++ n1).
  rewrite <-app_assoc. split; [done|]. split; [by apply Forall_app|]. rewrite tx_count_app. lia.
Qed.
Lemma adds_elem n t t' e : adds P n t t' -> e ∈ t -> e ∈ t'.
Proof. intros (new & -> & _) He. apply elem_of_app. by right. Qed.
End Adds.
#[export] Hint Resolve adds_refl adds_tx : ota.
