(* ===== verification/Crc32.v ===== *)
(** The CRC-32 of protocol.c ([protocol_crc32]): the executable loop, its
    algebra over GF(2), and what the checksum detects. *)
From S2P Require Import Prelude.

(** * The code *)

(** One turn of the inner loop:
    [mask = -(crc & 1U); crc = (crc >> 1) ^ (0xEDB88320U & mask);] *)
Definition crc_bit (crc : Z) : Z :=
  let mask := to_u32 (- Z.land crc 1) in
  Z.lxor (Z.shiftr crc 1) (Z.land 0xEDB88320 mask).

(** One turn of the outer loop: [crc ^= data[i]], then eight bits. *)
Definition crc_byte (crc b : Z) : Z := Nat.iter 8 crc_bit (Z.lxor crc b).

Definition protocol_crc32 (data : list Z) (length : Z) : option Z :=
  crc ← c_for length (fun i crc => b ← zget data i; Some (crc_byte crc b)) 0xFFFFFFFF;
  Some (to_u32 (Z.lnot crc)).

(** * Reference definitions *)

(** The checksum of a whole byte string. *)
Definition crc32 (l : list Z) : Z := to_u32 (Z.lnot (foldl crc_byte 0xFFFFFFFF l)).

(** The textbook bit-serial register: each message bit, least significant bit
    of each byte first, is added to the low bit of the register, which shifts
    right and feeds the polynomial back when a one leaves. *)
Definition lfsr_step (reg : Z) (bit : bool) : Z :=
  let out := xorb (Z.odd reg) bit in
  Z.lxor (Z.shiftr reg 1) (if out then 0xEDB88320 else 0).
Definition byte_bits (b : Z) : list bool := Z.testbit b <$> seqZ 0 8.
Definition crc32_serial (l : list Z) : Z :=
  Z.lxor (foldl lfsr_step 0xFFFFFFFF (l ≫= byte_bits)) 0xFFFFFFFF.

(** * Lemmas *)

Lemma protocol_crc32_run l post n : n = len l -> protocol_crc32 (l ++ post) n = Some (crc32 l).
Proof. intros ->. unfold protocol_crc32. by rewrite c_for_fold by done. Qed.

Lemma odd_land c : Z.land c 1 = if Z.odd c then 1 else 0.
Proof.
  change 1 with (Z.ones 1) at 1. rewrite Z.land_ones, Z.pow_1_r, Zmod_odd by lia. done.
Qed.

(** The mask trick selects the polynomial on an odd register. *)
Lemma crc_bit_odd c : crc_bit c = Z.lxor (Z.shiftr c 1) (if Z.odd c then 0xEDB88320 else 0).
Proof. unfold crc_bit. rewrite odd_land. by destruct (Z.odd c). Qed.

Lemma odd_lxor a b : Z.odd (Z.lxor a b) = xorb (Z.odd a) (Z.odd b).
Proof. by rewrite <-!Z.bit0_odd, Z.lxor_spec. Qed.

(** Addition of registers over GF(2): moving two terms past each other. *)
Lemma lxor_swap a b c d : Z.lxor (Z.lxor a b) (Z.lxor c d) = Z.lxor (Z.lxor a c) (Z.lxor b d).
Proof.
  apply Z.bits_inj'. intros n Hn. rewrite !Z.lxor_spec.
  by destruct (Z.testbit a n), (Z.testbit b n), (Z.testbit c n), (Z.testbit d n).
Qed.

Lemma crc_bit_lxor a b : crc_bit (Z.lxor a b) = Z.lxor (crc_bit a) (crc_bit b).
Proof.
  rewrite !crc_bit_odd, Z.shiftr_lxor, odd_lxor, lxor_swap. f_equal.
  by destruct (Z.odd a), (Z.odd b).
Qed.

Lemma iter_crc_lxor n a b :
  Nat.iter n crc_bit (Z.lxor a b) = Z.lxor (Nat.iter n crc_bit a) (Nat.iter n crc_bit b).
Proof. induction n as [|n IH]; simpl; [done|]. by rewrite IH, crc_bit_lxor. Qed.

Lemma crc_bit_double x : crc_bit (2 * x) = x.
Proof.
  rewrite crc_bit_odd, Z.odd_mul. simpl. rewrite Z.lxor_0_r, (shiftr_div _ _ 2) by done.
  rewrite Z.mul_comm. by apply Z.div_mul.
Qed.

Lemma iter_crc_shift n x : Nat.iter n crc_bit (2 ^ Z.of_nat n * x) = x.
Proof.
  revert x. induction n as [|n IH]; intros x; [cbn; by destruct x|].
  rewrite Nat.iter_succ_r, Nat2Z.inj_succ, Z.pow_succ_r, <-Z.mul_assoc by lia.
  by rewrite crc_bit_double.
Qed.

Lemma land_lxor_distr a b c : Z.land (Z.lxor a b) c = Z.lxor (Z.land a c) (Z.land b c).
Proof.
  apply Z.bits_inj'. intros n Hn. rewrite !Z.land_spec, !Z.lxor_spec, !Z.land_spec.
  by destruct (Z.testbit a n), (Z.testbit b n), (Z.testbit c n).
Qed.

Lemma lxor_range n a b : 0 <= n -> 0 <= a < 2 ^ n -> 0 <= b < 2 ^ n -> 0 <= Z.lxor a b < 2 ^ n.
Proof.
  intros Hn Ha Hb. enough (Z.lxor a b = Z.lxor a b mod 2 ^ n) as ->.
  { apply Z.mod_pos_bound. lia. }
  rewrite <-Z.land_ones, land_lxor_distr, !Z.land_ones, !Z.mod_small by done. done.
Qed.

Lemma crc_bit_u32 c : u32 c -> u32 (crc_bit c).
Proof.
  unfold u32. intros Hc. rewrite crc_bit_odd. apply lxor_range; [lia| |by destruct (Z.odd c)].
  rewrite (shiftr_div _ _ 2) by done. split; [apply Z.div_pos|apply Z.div_lt_upper_bound]; lia.
Qed.

(** The top bit of the polynomial makes a step invertible on 32-bit registers. *)
Lemma crc_bit_zero c : u32 c -> crc_bit c = 0 -> c = 0.
Proof.
  unfold u32. intros Hc. rewrite crc_bit_odd, (shiftr_div _ _ 2) by done.
  intros E%Z.lxor_eq. pose proof (Zdiv2_odd_eqn c) as D. rewrite Z.div2_div in D.
  destruct (Z.odd c); lia.
Qed.

Lemma crc_bit_inj a b : u32 a -> u32 b -> crc_bit a = crc_bit b -> a = b.
Proof.
  intros Ha Hb E. apply Z.lxor_eq, crc_bit_zero.
  - apply lxor_range; unfold u32 in *; lia.
  - by rewrite crc_bit_lxor, E, Z.lxor_nilpotent.
Qed.

Lemma iter_crc_u32 n c : u32 c -> u32 (Nat.iter n crc_bit c).
Proof. intros. induction n; simpl; auto using crc_bit_u32. Qed.

Lemma iter_crc_inj n a b :
  u32 a -> u32 b -> Nat.iter n crc_bit a = Nat.iter n crc_bit b -> a = b.
Proof.
  intros Ha Hb. induction n as [|n IH]; simpl; [done|].
  intros E%crc_bit_inj; auto using iter_crc_u32.
Qed.

Lemma u8_u32 b : u8 b -> u32 b.
Proof. unfold u8, u32. lia. Qed.

Lemma crc_byte_u32 c b : u32 c -> u8 b -> u32 (crc_byte c b).
Proof. intros Hc Hb%u8_u32. by apply iter_crc_u32, lxor_range. Qed.

Lemma foldl_crc_u32 c l : u32 c -> bytes l -> u32 (foldl crc_byte c l).
Proof.
  intros Hc Hl. revert c Hc. induction Hl; simpl; auto using crc_byte_u32.
Qed.

(** Adding the same value to both sides cancels. *)
Lemma lxor_cancel_r a b c : Z.lxor a c = Z.lxor b c -> a = b.
Proof.
  intros E%(f_equal (fun x => Z.lxor x c)).
  by rewrite !Z.lxor_assoc, Z.lxor_nilpotent, !Z.lxor_0_r in E.
Qed.

Lemma lxor_byte_u32 c b : u32 c -> u8 b -> u32 (Z.lxor c b).
Proof. intros Hc Hb%u8_u32. by apply lxor_range. Qed.

Lemma crc_byte_inj c c' b :
  u32 c -> u32 c' -> u8 b -> crc_byte c b = crc_byte c' b -> c = c'.
Proof.
  unfold crc_byte. intros Hc Hc' Hb E. apply (lxor_cancel_r _ _ b).
  apply (iter_crc_inj 8); auto using lxor_byte_u32.
Qed.

Lemma foldl_crc_inj c c' l :
  u32 c -> u32 c' -> bytes l -> foldl crc_byte c l = foldl crc_byte c' l -> c = c'.
Proof.
  intros Hc Hc' Hl. revert c c' Hc Hc'. induction Hl as [|b l Hb Hl IH]; [done|].
  intros c c' Hc Hc' E. apply (crc_byte_inj _ _ b); [done..|].
  apply IH; [by apply crc_byte_u32..|exact E].
Qed.

(** The register after a byte string: the string, read as one little-endian
    number, is added to the register and shifted through as a whole. *)
Lemma foldl_crc_value c l :
  bytes l ->
  foldl crc_byte c l = Nat.iter (8 * length l) crc_bit (Z.lxor c (le_value l)).
Proof.
  intros Hl. revert c. induction Hl as [|b l Hb Hl IH]; intros c; [by rewrite Z.lxor_0_r|].
  cbn [foldl le_value]. rewrite IH. unfold crc_byte.
  replace (8 * length (b :: l))%nat with (8 * length l + 8)%nat by (simpl; lia).
  rewrite Nat.iter_add. f_equal.
  rewrite <-(iter_crc_shift 8 (le_value l)) at 1. rewrite <-iter_crc_lxor. f_equal.
  rewrite Z.lxor_assoc. f_equal. change (2 ^ Z.of_nat 8) with (2 ^ 8).
  assert (Z.land b (2 ^ 8 * le_value l) = 0) as E.
  { rewrite (Z.mul_comm (2 ^ 8)), <-Z.shiftl_mul_pow2 by lia.
    pose proof (lor_shiftl_add b (le_value l) 8 ltac:(lia) Hb) as L.
    rewrite <-Z.shiftl_mul_pow2 in L by lia.
    pose proof (Z.add_lor_land b (Z.shiftl (le_value l) 8)). lia. }
  by rewrite <-Z.add_nocarry_lxor.
Qed.

Lemma crc32_lxor_form l : bytes l -> crc32 l = Z.lxor (foldl crc_byte 0xFFFFFFFF l) 0xFFFFFFFF.
Proof.
  intros Hl. unfold crc32, to_u32.
  pose proof (foldl_crc_u32 0xFFFFFFFF l ltac:(unfold u32; lia) Hl) as Hc.
  set (c := foldl _ _ _) in *. rewrite <-Z.land_ones by lia.
  unfold u32 in Hc. rewrite <-(Z.mod_small c (2 ^ 32)), <-Z.land_ones by lia.
  change 0xFFFFFFFF with (Z.ones 32).
  apply Z.bits_inj'. intros n Hn. rewrite !Z.lxor_spec, !Z.land_spec, Z.lnot_spec by done.
  rewrite Z.land_spec. by destruct (Z.testbit c n), (Z.testbit (Z.ones 32) n).
Qed.

Lemma crc32_u32 l : u32 (crc32 l).
Proof. apply Z.mod_pos_bound. lia. Qed.
#[export] Hint Resolve crc32_u32 : ota.

Lemma crc32_inj_state l l' :
  bytes l -> bytes l' -> crc32 l = crc32 l' ->
  foldl crc_byte 0xFFFFFFFF l = foldl crc_byte 0xFFFFFFFF l'.
Proof.
  intros Hl Hl'. rewrite !crc32_lxor_form by done.
  apply lxor_cancel_r.
Qed.

(** Two strings that differ only in one window of at most four bytes have
    different checksums. *)
Lemma crc32_burst p a b q :
  bytes p -> bytes a -> bytes b -> bytes q -> length a = length b -> (length a <= 4)%nat ->
  crc32 (p ++ a ++ q) = crc32 (p ++ b ++ q) -> a = b.
Proof.
  intros Hp Ha Hb Hq Hab H4 E.
  apply crc32_inj_state in E; [|by auto with ota..].
  rewrite !foldl_app in E.
  assert (u32 (foldl crc_byte 0xFFFFFFFF p)) as Hs by (apply foldl_crc_u32; unfold u32; [lia|done]).
  apply foldl_crc_inj in E; [|by auto using foldl_crc_u32..].
  set (s := foldl crc_byte 0xFFFFFFFF p) in *. clearbody s.
  rewrite !foldl_crc_value, <-Hab in E by done.
  assert (forall l, bytes l -> length l = length a -> u32 (le_value l)) as Hv.
  { intros l Hl El. pose proof (le_value_bound l Hl) as B. unfold u32.
    assert (2 ^ (8 * len l) <= 2 ^ 32); [|lia]. apply Z.pow_le_mono_r; [lia|]. sizes. }
  apply iter_crc_inj in E; [|apply lxor_range; [lia|exact Hs|by apply Hv]..].
  rewrite !(Z.lxor_comm s) in E. apply lxor_cancel_r in E.
  by apply le_value_inj.
Qed.

(** The byte-wise loop computes the bit-serial register. *)
Lemma lfsr_byte reg b : u8 b -> foldl lfsr_step reg (byte_bits b) = crc_byte reg b.
Proof.
  intros Hb. unfold crc_byte, byte_bits.
  assert (forall n reg x, 0 <= x ->
    foldl lfsr_step reg (Z.testbit x <$> seqZ 0 (Z.of_nat n)) =
    Z.lxor (Nat.iter n crc_bit (Z.lxor reg x)) (Z.shiftr x (Z.of_nat n))) as L.
  { clear. intros n. induction n as [|n IH]; intros reg x Hx.
    { simpl. by rewrite Z.shiftr_0_r, Z.lxor_assoc, Z.lxor_nilpotent, Z.lxor_0_r. }
    rewrite Nat2Z.inj_succ, seqZ_cons, Z.pred_succ by lia. cbn [fmap list_fmap foldl].
    change (Z.succ 0) with (1 + 0). rewrite <-fmap_add_seqZ, <-list_fmap_compose.
    rewrite (list_fmap_ext _ (Z.testbit (Z.shiftr x 1))).
    2:{ intros i k Hk. simpl. apply lookup_seqZ in Hk as [-> ?].
        rewrite Z.shiftr_spec by lia. f_equal. lia. }
    rewrite IH by by apply Z.shiftr_nonneg.
    rewrite Nat.iter_succ_r, Z.shiftr_shiftr by lia.
    f_equal; [|f_equal; lia]. f_equal.
    unfold lfsr_step. rewrite crc_bit_odd, Z.shiftr_lxor, odd_lxor, Z.bit0_odd.
    rewrite !Z.lxor_assoc. f_equal. by rewrite Z.lxor_comm. }
  pose proof (L 8%nat reg b ltac:(unfold u8 in Hb; lia)) as E.
  rewrite (shiftr_div b _ 256), Z.div_small, Z.lxor_0_r in E; done.
Qed.

Lemma crc32_serial_eq l : bytes l -> crc32 l = crc32_serial l.
Proof.
  intros Hl. rewrite crc32_lxor_form by done. unfold crc32_serial. f_equal.
  generalize 0xFFFFFFFF. induction Hl as [|b l Hb Hl IH]; intros reg; [done|].
  cbn [mbind list_bind foldl]. rewrite foldl_app, lfsr_byte by done. apply IH.
Qed.

(** The published check value of CRC-32: the register of "123456789". *)
Example crc32_check : protocol_crc32 [49; 50; 51; 52; 53; 54; 55; 56; 57] 9 = Some 0xCBF43926.
Proof. vm_compute. reflexivity. Qed.

(** * Properties *)

(** C32 (equivalence): the checksum of the link is CRC-32. On any message,
    whatever follows it in memory, [protocol_crc32] returns the remainder the
    bit-serial register of the reflected polynomial 0xEDB88320 computes, and
    reads nothing behind the message. *)
Theorem protocol_crc32_is_the_serial_crc l post :
  bytes l ->
  protocol_crc32 (l ++ post) (len l) = Some (crc32_serial l) /\ u32 (crc32_serial l).
Proof.
  intros Hl. rewrite <-crc32_serial_eq by done. split; [by apply protocol_crc32_run|apply crc32_u32].
Qed.

Lemma protocol_crc32_is_the_serial_crc_witness :
  protocol_crc32 ([1; 255; 0] ++ [9; 9]) (len [1; 255; 0]) = Some (crc32_serial [1; 255; 0]) /\
  u32 (crc32_serial [1; 255; 0]).
Proof.
  apply (protocol_crc32_is_the_serial_crc [1; 255; 0] [9; 9]). repeat constructor; discriminate.
Defined.
