(* ===== verification/SimEnv.v ===== *)
(** A concrete environment: a small simulated chip that satisfies the laws of
    [EspIdfSpec] and [Sha256Spec]. The theorems quantify over every environment;
    this one shows that their hypotheses can be met and lets them be run. *)
From S2P Require Import Prelude Machine EspIdf Crc32.

Record sim : Type := mk_sim {
  sim_rx : list Z;                 (** bytes waiting on the UART *)
  sim_flash : list Z;              (** the content of the update slot *)
  sim_boot : option esp_partition_t;
  sim_nvs : option Z;              (** the stored boot count *)
  sim_clock : Z                    (** milliseconds *)
}.

Definition sim_ota_0 : esp_partition_t := mk_partition true 0x10 0x10000 0x100000 [111; 48].
Definition sim_ota_1 : esp_partition_t := mk_partition true 0x11 0x110000 0x100000 [111; 49].
Definition sim_factory : esp_partition_t := mk_partition true 0x00 0x210000 0x100000 [102].

Definition sim_init : sim := mk_sim [] [] (Some sim_ota_0) (Some 6) 2500.

(** A 32-byte digest that is easy to compute. *)
Definition sim_digest (l : list Z) : list Z := le32 (crc32 l) ++ le32 (len l mod 2 ^ 32) ++ zeros 24.
#[export] Instance sim_sha : Sha256 := sim_digest.

#[export] Instance sim_sha_spec : Sha256Spec.
Proof.
  split; intros l; unfold esp_sha, sim_sha, sim_digest; [sizes|].
  apply bytes_app; [apply bytes_le32|]. apply bytes_app; [apply bytes_le32|apply bytes_zeros].
Qed.

Definition sim_take_rx (n : Z) (w : sim) : (Z * list Z) * sim :=
  let got := to_u8 <$> take (Z.to_nat n) (sim_rx w) in
  ((len got, got),
   mk_sim (drop (Z.to_nat n) (sim_rx w)) (sim_flash w) (sim_boot w) (sim_nvs w) (sim_clock w)).
Definition sim_set_flash (l : list Z) (w : sim) : sim :=
  mk_sim (sim_rx w) l (sim_boot w) (sim_nvs w) (sim_clock w).

(** The chip's notion of an application image: a magic byte, a body, and the
    digest of both appended, as ESP-IDF's image tool lays images out. *)
Definition sim_image (body : list Z) : list Z := (0xE9 :: body) ++ sim_digest (0xE9 :: body).
Definition sim_magic (l : list Z) : bool := match l with b :: _ => b =? 0xE9 | [] => false end.
Definition sim_image_digest (l : list Z) : option (list Z) :=
  let n := (length l - 32)%nat in
  if sim_magic l && bool_decide (drop n l = sim_digest (take n l)) then Some (drop n l) else None.

(** What a slot holds; only the update slot is ever written. *)
Definition sim_slot (w : sim) (p : esp_partition_t) : list Z :=
  if bool_decide (p = sim_ota_1) then sim_flash w else sim_image [part_subtype p].

(** [ESP_ERR_OTA_VALIDATE_FAILED] *)
Definition sim_invalid : esp_err_t := ESP_ERR_OTHER 0x1503.
Definition sim_check (l : list Z) : esp_err_t :=
  if sim_image_digest l is Some _ then ESP_OK else sim_invalid.

#[export] Instance sim_idf : EspIdf sim := {
  uart_write_bytes _ data w := (len data, w);
  uart_read_bytes _ n _ w := sim_take_rx n w;
  uart_driver_install _ _ w := (ESP_OK, w);
  uart_param_config _ _ w := (ESP_OK, w);
  uart_set_pin _ _ _ _ _ w := (ESP_OK, w);
  uart_driver_delete _ w := (ESP_OK, w);
  esp_ota_get_running_partition _ := Some sim_ota_0;
  esp_ota_get_boot_partition := sim_boot;
  esp_ota_get_next_update_partition _ := Some sim_ota_1;
  esp_ota_get_state_partition _ _ := (ESP_OK, Some ESP_OTA_IMG_VALID);
  esp_ota_check_rollback_is_possible _ := true;
  esp_ota_begin _ _ w := ((ESP_OK, 7), sim_set_flash [] w);
  esp_ota_write _ data w :=
    if sim_magic (sim_flash w ++ data) then (ESP_OK, sim_set_flash (sim_flash w ++ data) w)
    else (sim_invalid, w);
  esp_ota_end _ w := (sim_check (sim_flash w), w);
  esp_ota_abort _ w := (ESP_OK, sim_set_flash [] w);
  esp_ota_set_boot_partition p w :=
    (sim_check (sim_slot w p),
     if sim_image_digest (sim_slot w p) is Some _
     then mk_sim (sim_rx w) (sim_flash w) (Some p) (sim_nvs w) (sim_clock w) else w);
  esp_ota_mark_app_valid_cancel_rollback w := (ESP_OK, w);
  esp_ota_mark_app_invalid_rollback_and_reboot w := (None, w);
  esp_partition_get_sha256 p w :=
    (match sim_image_digest (sim_slot w p) with Some digest => (ESP_OK, digest) | None => (ESP_FAIL, zeros 32) end, w);
  esp_partition_find_app _ := [sim_factory; sim_ota_0; sim_ota_1];
  nvs_flash_init w := (ESP_OK, w);
  nvs_open w := ((ESP_OK, 3), w);
  nvs_get_u32 _ w :=
    match sim_nvs w with Some v => (ESP_OK, Some v) | None => (ESP_ERR_NVS_NOT_FOUND, None) end;
  nvs_set_u32 _ v w := (ESP_OK, mk_sim (sim_rx w) (sim_flash w) (sim_boot w) (Some v) (sim_clock w));
  nvs_commit _ w := (ESP_OK, w);
  nvs_close _ w := w;
  esp_fill_random n w := (zeros n, w);
  esp_timer_get_time w := sim_clock w * 1000;
  heap_caps_get_free_size _ := 200000;
  esp_chip_model _ := CHIP_ESP32C3;
  esp_app_get_description _ :=
    Some (mk_app_desc [49; 46; 50; 46; 51] [97; 112; 112] [65; 117; 103] [118; 54]);
  ESP_PARTITION_SUBTYPE_APP_OTA_0 := 0x10;
  ESP_PARTITION_SUBTYPE_APP_OTA_15 := 0x1F;
  xTaskCreate _ _ _ w := ((true, 1), w);
  vTaskDelay ticks w :=
    mk_sim (sim_rx w) (sim_flash w) (sim_boot w) (sim_nvs w) (sim_clock w + 10 * ticks);
  pdMS_TO_TICKS ms := ms / 10
}.

#[export] Instance sim_idf_spec : EspIdfSpec sim.
Proof.
  split; simpl.
  - intros n w Hn. sizes.
  - intros n w. apply bytes_zeros.
  - intros p w. cbn. unfold sim_image_digest. cbv zeta.
    destruct (_ && _) eqn:Eb; [|done].
    cbn. apply andb_true_iff in Eb as [_ Eb].
    apply bool_decide_eq_true in Eb. rewrite Eb. unfold sim_digest. sizes.
  - intros w p [= <-]. unfold u32; simpl. lia.
  - intros port n timeout w. apply Forall_fmap, Forall_true. intros x. apply to_u8_range.
  - intros port n timeout w Hn. sizes.
  - discriminate.
Qed.

Definition sim_io (w : sim) : io sim := mk_io w [].
