(* ===== verification/Protocol.v ===== *)
(** protocol.h and protocol.c: the packet format, the streaming parser and the
    packet writer; the specification of the wire format ([encode_frame]) and the
    theorems that tie the C code to it. *)
From S2P Require Import Prelude Machine EspIdf Crc32 SimEnv.

(** * Data *)

Definition PROTOCOL_MAGIC_0 : Z := 0xAA.
Definition PROTOCOL_MAGIC_1 : Z := 0x55.
Definition PROTOCOL_VERSION : Z := 1.
Definition PROTOCOL_MAX_PAYLOAD : Z := 1024.
Definition HEADER_SIZE : Z := 8.
Definition CRC_SIZE : Z := 4.
#[export] Hint Unfold PROTOCOL_MAX_PAYLOAD HEADER_SIZE CRC_SIZE : consts.

Inductive protocol_command_t : Type :=
| CMD_PING | CMD_GET_INFO | CMD_REBOOT | CMD_ROLLBACK | CMD_AUTH
| CMD_OTA_BEGIN | CMD_OTA_DATA | CMD_OTA_END | CMD_OTA_ABORT
| CMD_ACK | CMD_NACK | CMD_INFO.
#[export] Instance protocol_command_t_eq_dec : EqDecision protocol_command_t.
Proof. solve_decision. Defined.

(** The enum's values. *)
Definition command_byte (c : protocol_command_t) : Z :=
  match c with
  | CMD_PING => 0x01 | CMD_GET_INFO => 0x02 | CMD_REBOOT => 0x03 | CMD_ROLLBACK => 0x04
  | CMD_AUTH => 0x05 | CMD_OTA_BEGIN => 0x10 | CMD_OTA_DATA => 0x11 | CMD_OTA_END => 0x12
  | CMD_OTA_ABORT => 0x13 | CMD_ACK => 0xF0 | CMD_NACK => 0xF1 | CMD_INFO => 0xF2
  end.

Inductive protocol_error_t : Type :=
| ERR_OK | ERR_UNKNOWN_COMMAND | ERR_INVALID_PACKET | ERR_CRC_ERROR | ERR_INVALID_LENGTH
| ERR_BUSY | ERR_AUTH_REQUIRED | ERR_OTA_ALREADY_STARTED | ERR_OTA_NOT_STARTED
| ERR_OTA_INVALID_OFFSET | ERR_OTA_FLASH_ERROR | ERR_OTA_HASH_MISMATCH
| ERR_OTA_INVALID_IMAGE | ERR_OTA_SIZE_ERROR | ERR_ROLLBACK_NOT_AVAILABLE.
#[export] Instance protocol_error_t_eq_dec : EqDecision protocol_error_t.
Proof. solve_decision. Defined.

Definition error_byte (e : protocol_error_t) : Z :=
  match e with
  | ERR_OK => 0x00 | ERR_UNKNOWN_COMMAND => 0x01 | ERR_INVALID_PACKET => 0x02
  | ERR_CRC_ERROR => 0x03 | ERR_INVALID_LENGTH => 0x04 | ERR_BUSY => 0x05
  | ERR_AUTH_REQUIRED => 0x06 | ERR_OTA_ALREADY_STARTED => 0x10
  | ERR_OTA_NOT_STARTED => 0x11 | ERR_OTA_INVALID_OFFSET => 0x12
  | ERR_OTA_FLASH_ERROR => 0x13 | ERR_OTA_HASH_MISMATCH => 0x14
  | ERR_OTA_INVALID_IMAGE => 0x15 | ERR_OTA_SIZE_ERROR => 0x16
  | ERR_ROLLBACK_NOT_AVAILABLE => 0x17
  end.

(** [payload] is the whole array of [PROTOCOL_MAX_PAYLOAD] bytes; a packet fills
    its first [length] bytes and leaves the rest as an earlier packet left it. *)
Record protocol_packet_t : Type := mk_packet {
  pkt_version : Z;
  pkt_command : Z;
  pkt_sequence : Z;
  pkt_length : Z;
  pkt_payload : list Z
}.

Record protocol_parser_t : Type := mk_parser {
  prs_buffer : list Z;
  prs_length : Z
}.

Definition PARSER_BUFFER_SIZE : Z := 2 + 1 + 1 + 2 + 2 + PROTOCOL_MAX_PAYLOAD + 4.
Definition TX_BUFFER_SIZE : Z := HEADER_SIZE + PROTOCOL_MAX_PAYLOAD + CRC_SIZE.
#[export] Hint Unfold PARSER_BUFFER_SIZE TX_BUFFER_SIZE : consts.

(** The statics of protocol.c. *)
Record proto_state (W : Type) : Type := mk_proto {
  s_uart_port : Z;
  s_write : option (writer W);
  s_write_context : Z;
  s_tx_buffer : list Z
}.
Arguments mk_proto {W}.
Arguments s_uart_port {W}. Arguments s_write {W}.
Arguments s_write_context {W}. Arguments s_tx_buffer {W}.

(** What the protocol layer acts on: its statics and the outside. *)
Record link (W : Type) : Type := mk_link { l_proto : proto_state W; l_io : io W }.
Arguments mk_link {W}. Arguments l_proto {W}. Arguments l_io {W}.
Definition link_io {W} : lens (link W) (io W) :=
  mk_lens l_io (fun t s => mk_link (l_proto s) t).
Definition link_proto {W} : lens (link W) (proto_state W) :=
  mk_lens l_proto (fun t s => mk_link t (l_io s)).

(** * Byte order helpers *)

Definition read_le16 (data : list Z) (off : Z) : option Z :=
  b0 ← zget data off;
  b1 ← zget data (off + 1);
  Some (Z.lor b0 (Z.shiftl b1 8)).

Definition read_le32 (data : list Z) (off : Z) : option Z :=
  b0 ← zget data off;
  b1 ← zget data (off + 1);
  b2 ← zget data (off + 2);
  b3 ← zget data (off + 3);
  Some (Z.lor (Z.lor (Z.lor b0 (Z.shiftl b1 8)) (Z.shiftl b2 16)) (Z.shiftl b3 24)).

Definition write_le16 (data : list Z) (off value : Z) : option (list Z) :=
  data ← zset data off (Z.land value 0xFF);
  zset data (off + 1) (Z.land (Z.shiftr value 8) 0xFF).

Definition write_le32 (data : list Z) (off value : Z) : option (list Z) :=
  data ← zset data off (Z.land value 0xFF);
  data ← zset data (off + 1) (Z.land (Z.shiftr value 8) 0xFF);
  data ← zset data (off + 2) (Z.land (Z.shiftr value 16) 0xFF);
  zset data (off + 3) (Z.land (Z.shiftr value 24) 0xFF).

(** * The parser *)

Definition protocol_parser_init (parser : protocol_parser_t) : protocol_parser_t :=
  mk_parser (prs_buffer parser) 0.

(** Lines 82-106, once [length] bytes and so the whole header are in the
    buffer. Returns what the C function returns, with the parser and the packet
    as it leaves them; [None] is an access outside an array. *)
Definition protocol_parser_finish (buffer : list Z) (length : Z) (packet : protocol_packet_t)
  : option (bool * protocol_parser_t * protocol_packet_t) :=
  payload_length ← read_le16 buffer 6;
  if PROTOCOL_MAX_PAYLOAD <? payload_length then
    Some (false, mk_parser buffer 0, packet)
  else
  let packet_length := HEADER_SIZE + payload_length + CRC_SIZE in
  if length <? packet_length then
    Some (false, mk_parser buffer length, packet)
  else
  expected_crc ← read_le32 buffer (HEADER_SIZE + payload_length);
  body ← slice buffer 2 (HEADER_SIZE - 2 + payload_length);
  actual_crc ← protocol_crc32 body (HEADER_SIZE - 2 + payload_length);
  if negb (actual_crc =? expected_crc) then
    Some (false, mk_parser buffer 0, packet)
  else
  version ← zget buffer 2;
  command ← zget buffer 3;
  sequence ← read_le16 buffer 4;
  payload ← memcpy (pkt_payload packet) 0 buffer HEADER_SIZE payload_length;
  Some (true, mk_parser buffer 0, mk_packet version command sequence payload_length payload).

Definition protocol_parser_feed (parser : protocol_parser_t) (byte : Z)
    (packet : protocol_packet_t) : option (bool * protocol_parser_t * protocol_packet_t) :=
  if (prs_length parser =? 0) && negb (byte =? PROTOCOL_MAGIC_0) then
    Some (false, parser, packet)
  else if (prs_length parser =? 1) && negb (byte =? PROTOCOL_MAGIC_1) then
    buffer ← zset (prs_buffer parser) 0 PROTOCOL_MAGIC_0;
    Some (false, mk_parser buffer (if byte =? PROTOCOL_MAGIC_0 then 1 else 0), packet)
  else
  buffer ← zset (prs_buffer parser) (prs_length parser) byte;
  let length := prs_length parser + 1 in
  if length <? HEADER_SIZE then
    Some (false, mk_parser buffer length, packet)
  else protocol_parser_finish buffer length packet.

(** * The writer *)

Section Writer.
Context {W : Type} `{EspIdf W}.

Definition uart_transport_write : writer W := fun context data w =>
  let '(written, w) := uart_write_bytes context data w in
  (if written =? len data then ESP_OK else ESP_FAIL, w).

Definition protocol_set_writer (write : option (writer W)) (context : Z)
  : M (proto_state W) unit :=
  modify (fun p => mk_proto (s_uart_port p) write context (s_tx_buffer p)).

Definition protocol_set_uart_port (uart_port : Z) : M (proto_state W) unit :=
  _ ← modify (fun p => mk_proto uart_port (s_write p) (s_write_context p) (s_tx_buffer p));
  protocol_set_writer (Some uart_transport_write) uart_port.

(** Lines 126-137: the packet is laid out in the static transmit buffer. A
    [NULL] payload is [None]. *)
Definition fill_tx_buffer (tx : list Z) (command sequence : Z)
    (payload : option (list Z)) (length : Z) : option (list Z) :=
  tx ← zset tx 0 PROTOCOL_MAGIC_0;
  tx ← zset tx 1 PROTOCOL_MAGIC_1;
  tx ← zset tx 2 PROTOCOL_VERSION;
  tx ← zset tx 3 command;
  tx ← write_le16 tx 4 sequence;
  tx ← write_le16 tx 6 length;
  tx ← match payload with
       | Some payload => if 0 <? length then memcpy tx HEADER_SIZE payload 0 length else Some tx
       | None => Some tx
       end;
  body ← slice tx 2 (HEADER_SIZE - 2 + length);
  crc ← protocol_crc32 body (HEADER_SIZE - 2 + length);
  write_le32 tx (HEADER_SIZE + length) crc.

(** [s_write(s_write_context, s_tx_buffer, length)]; the result is ignored. *)
Definition write_out (write : writer W) (context : Z) (data : list Z) : M (io W) unit :=
  _ ← call (write context data) (fun err => EvTx data err);
  mret tt.

Definition protocol_send_packet (command sequence : Z) (payload : option (list Z)) (length : Z)
  : M (link W) unit :=
  p ← gets l_proto;
  tx ← ub (fill_tx_buffer (s_tx_buffer p) command sequence payload length);
  _ ← zoom link_proto
        (modify (fun p => mk_proto (s_uart_port p) (s_write p) (s_write_context p) tx));
  _ ← match s_write p with
      | None => zoom link_proto (protocol_set_uart_port (s_uart_port p))
      | Some _ => mret tt
      end;
  p ← gets l_proto;
  data ← ub (slice (s_tx_buffer p) 0 (HEADER_SIZE + length + CRC_SIZE));
  write ← ub (s_write p);
  zoom link_io (write_out write (s_write_context p) data).

Definition protocol_send_ack (sequence : Z) : M (link W) unit :=
  protocol_send_packet (command_byte CMD_ACK) sequence (Some [error_byte ERR_OK]) 1.

Definition protocol_send_nack (sequence : Z) (error : protocol_error_t) : M (link W) unit :=
  protocol_send_packet (command_byte CMD_NACK) sequence (Some [error_byte error]) 1.
End Writer.

(** * The wire format (protocol/protocol.md), as a specification *)

Record frame : Type := mk_frame {
  fr_version : Z;
  fr_command : Z;
  fr_sequence : Z;
  fr_payload : list Z
}.

Definition frame_ok (f : frame) : Prop :=
  u8 (fr_version f) /\ u8 (fr_command f) /\ u16 (fr_sequence f) /\ bytes (fr_payload f) /\
  len (fr_payload f) <= PROTOCOL_MAX_PAYLOAD.

(** What the CRC covers: VER, CMD, SEQ, LENGTH and PAYLOAD. *)
Definition frame_body (f : frame) : list Z :=
  [fr_version f; fr_command f] ++ le16 (fr_sequence f) ++ le16 (len (fr_payload f)) ++ fr_payload f.

Definition encode_frame (f : frame) : list Z :=
  [PROTOCOL_MAGIC_0; PROTOCOL_MAGIC_1] ++ frame_body f ++ le32 (crc32 (frame_body f)).

(** Reading a frame at the start of a byte string. *)
Inductive verdict : Type := Incomplete | Rejected | Decoded (f : frame).

Definition classify (acc : list Z) : verdict :=
  match acc with
  | _ :: _ :: ver :: cmd :: s0 :: s1 :: l0 :: l1 :: rest =>
      let n := le_value [l0; l1] in
      if PROTOCOL_MAX_PAYLOAD <? n then Rejected
      else if len rest <? n + CRC_SIZE then Incomplete
      else
        let payload := take (Z.to_nat n) rest in
        let crc := le_value (take 4 (drop (Z.to_nat n) rest)) in
        if crc32 ([ver; cmd; s0; s1; l0; l1] ++ payload) =? crc
        then Decoded (mk_frame ver cmd (le_value [s0; s1]) payload)
        else Rejected
  | _ => Incomplete
  end.

(** The stream specification: the bytes of the current attempt and, when the
    attempt ends in a frame, the frame. *)
Definition spec_feed (acc : list Z) (byte : Z) : list Z * option frame :=
  match acc with
  | [] => (if byte =? PROTOCOL_MAGIC_0 then [byte] else [], None)
  | [_] =>
      (if byte =? PROTOCOL_MAGIC_1 then acc ++ [byte]
       else if byte =? PROTOCOL_MAGIC_0 then [byte] else [], None)
  | _ =>
      match classify (acc ++ [byte]) with
      | Incomplete => (acc ++ [byte], None)
      | Rejected => ([], None)
      | Decoded f => ([], Some f)
      end
  end.

(** Feeding a stream: the frames delivered, in order. *)
Fixpoint spec_stream (acc : list Z) (stream : list Z) : list Z * list frame :=
  match stream with
  | [] => (acc, [])
  | byte :: stream =>
      let '(acc, out) := spec_feed acc byte in
      let '(acc, frames) := spec_stream acc stream in
      (acc, option_list out ++ frames)
  end.

(** The C parser on a stream: the packets for which it returned [true]. *)
Fixpoint parse_stream (parser : protocol_parser_t) (packet : protocol_packet_t)
    (stream : list Z) : option (protocol_parser_t * protocol_packet_t * list protocol_packet_t) :=
  match stream with
  | [] => Some (parser, packet, [])
  | byte :: stream =>
      r ← protocol_parser_feed parser byte packet;
      let '(complete, parser, packet) := r in
      r ← parse_stream parser packet stream;
      let '(parser, packet', packets) := r in
      Some (parser, packet', if complete : bool then packet :: packets else packets)
  end.

(** The frame a packet carries. *)
Definition packet_frame (p : protocol_packet_t) : frame :=
  mk_frame (pkt_version p) (pkt_command p) (pkt_sequence p)
    (take (Z.to_nat (pkt_length p)) (pkt_payload p)).

(** * Lemmas: byte order *)

Lemma write_le16_over a l off v :
  off = len a -> len a + 2 <= len l -> write_le16 (over a l) off v = Some (over (a ++ le16 v) l).
Proof.
  intros -> Hl. unfold write_le16. rewrite zset_over by lia. simpl.
  rewrite zset_over by sizes. rewrite !land_255, (shiftr_div _ 8 256), <-app_assoc by done. done.
Qed.

Lemma write_le32_over a l off v :
  off = len a -> len a + 4 <= len l -> write_le32 (over a l) off v = Some (over (a ++ le32 v) l).
Proof.
  intros -> Hl. unfold write_le32. rewrite zset_over by lia. simpl.
  rewrite zset_over by sizes. simpl. rewrite zset_over by sizes. simpl. rewrite zset_over by sizes.
  rewrite !land_255, (shiftr_div _ 8 256), (shiftr_div _ 16 65536),
    (shiftr_div _ 24 16777216), <-!app_assoc by done. done.
Qed.

Lemma lor_le16 b0 b1 : u8 b0 -> Z.lor b0 (Z.shiftl b1 8) = le_value [b0; b1].
Proof. intros. rewrite lor_shiftl_add by done. simpl. lia. Qed.

Lemma lor_le32 b0 b1 b2 b3 :
  u8 b0 -> u8 b1 -> u8 b2 ->
  Z.lor (Z.lor (Z.lor b0 (Z.shiftl b1 8)) (Z.shiftl b2 16)) (Z.shiftl b3 24) =
  le_value [b0; b1; b2; b3].
Proof.
  unfold u8. intros. rewrite (lor_shiftl_add b0), (lor_shiftl_add _ b2), (lor_shiftl_add _ b3);
    simpl; lia.
Qed.

Lemma read_le16_mid a b0 b1 c off :
  off = len a -> u8 b0 -> read_le16 (a ++ b0 :: b1 :: c) off = Some (le_value [b0; b1]).
Proof.
  intros -> Hb. unfold read_le16. rewrite (zget_mid _ _ _ (len a)) by done. simpl.
  rewrite zget_app_r by lia. replace (len a + 1 - len a) with 1 by lia. simpl.
  by rewrite lor_le16.
Qed.

Lemma read_le32_mid a b c off :
  off = len a -> len b = 4 -> bytes b -> read_le32 (a ++ b ++ c) off = Some (le_value b).
Proof.
  intros -> Hl Hb. destruct b as [|b0 [|b1 [|b2 [|b3 [|]]]]]; try (sizes).
  inversion Hb as [|?? H0 Hb1]; subst. inversion Hb1 as [|?? H1 Hb2]; subst.
  inversion Hb2 as [|?? H2 _]; subst.
  unfold read_le32. rewrite (zget_app_r a _ (len a)), (zget_app_r a _ (len a + 1)),
    (zget_app_r a _ (len a + 2)), (zget_app_r a _ (len a + 3)) by lia.
  rewrite Z.sub_diag, !Z.add_simpl_l. unfold zget; simpl.
  by rewrite lor_le32.
Qed.

(** * Lemmas: the writer *)

Lemma zlen_frame_body f : len (frame_body f) = 6 + len (fr_payload f).
Proof. unfold frame_body. sizes. Qed.
Lemma zlen_encode_frame f : len (encode_frame f) = 12 + len (fr_payload f).
Proof. unfold encode_frame. rewrite !zlen_app, zlen_frame_body. sizes. Qed.
#[export] Hint Rewrite zlen_frame_body zlen_encode_frame : zlen.

Lemma bytes_frame_body f : frame_ok f -> bytes (frame_body f).
Proof.
  intros (?&?&?&?&?). unfold frame_body. auto 10 with ota.
Qed.
Lemma bytes_encode_frame f : frame_ok f -> bytes (encode_frame f).
Proof.
  intros Hf. unfold encode_frame. apply bytes_app; [by repeat constructor|].
  apply bytes_app; auto using bytes_frame_body with ota.
Qed.
#[export] Hint Resolve bytes_frame_body bytes_encode_frame : ota.

(** The packet [protocol_send_packet] builds. *)
Definition sent_frame (command sequence : Z) (data : list Z) : frame :=
  mk_frame PROTOCOL_VERSION command sequence data.
Lemma sent_payload command sequence data : fr_payload (sent_frame command sequence data) = data.
Proof. done. Qed.
#[export] Hint Rewrite sent_payload : zlen.

Lemma fill_tx_buffer_run tx command sequence data junk :
  len tx = TX_BUFFER_SIZE -> len data <= PROTOCOL_MAX_PAYLOAD ->
  fill_tx_buffer tx command sequence (Some (data ++ junk)) (len data) =
  Some (over (encode_frame (sent_frame command sequence data)) tx).
Proof.
  intros Ht Hd. unfold fill_tx_buffer.
  rewrite <-(over_nil tx) at 1.
  do 4 (rewrite zset_over by sizes; cbn [mbind option_bind app]).
  do 2 (rewrite write_le16_over by sizes; cbn [mbind option_bind]; rewrite <-?app_assoc; cbn [app]).
  set (pre := PROTOCOL_MAGIC_0 :: _).
  assert (memcpy (over pre tx) HEADER_SIZE (data ++ junk) 0 (len data) =
          Some (over (pre ++ data) tx)) as Hcpy.
  { unfold memcpy. rewrite slice_prefix by done. cbn [mbind option_bind].
    apply blit_over; subst pre; sizes. }
  assert ((if 0 <? len data then memcpy (over pre tx) HEADER_SIZE (data ++ junk) 0 (len data)
           else Some (over pre tx)) = Some (over (pre ++ data) tx)) as ->.
  { destruct (Z.ltb_spec 0 (len data)) as [|Hz]; [done|].
    rewrite (zlen_0_inv data) by sizes. by rewrite app_nil_r. }
  cbn [mbind option_bind].
  replace (pre ++ data) with
    ([PROTOCOL_MAGIC_0; PROTOCOL_MAGIC_1] ++ frame_body (sent_frame command sequence data) ++ [])
    by (by rewrite app_nil_r).
  rewrite slice_over by sizes. cbn [mbind option_bind].
  rewrite <-(app_nil_r (frame_body _)) at 1. rewrite protocol_crc32_run by sizes.
  cbn [mbind option_bind]. rewrite write_le32_over by sizes.
  unfold encode_frame. by rewrite app_nil_r, <-app_assoc.
Qed.

Definition proto_ok {W} (p : proto_state W) : Prop := len (s_tx_buffer p) = TX_BUFFER_SIZE.

Section SendRun.
Context {W : Type} `{EspIdf W}.

(** The writer that is in force when a packet goes out. *)
Definition active_writer (p : proto_state W) : writer W * Z :=
  match s_write p with
  | Some write => (write, s_write_context p)
  | None => (uart_transport_write, s_uart_port p)
  end.

(** The state after one packet was handed to the transport. *)
Definition after_send (data : list Z) (s : link W) : link W :=
  let p := l_proto s in
  let '(write, context) := active_writer p in
  let '(err, w) := write context data (world (l_io s)) in
  mk_link (mk_proto (s_uart_port p) (Some write) context (over data (s_tx_buffer p)))
    (mk_io w (EvTx data err :: trace (l_io s))).

Lemma protocol_send_packet_run command sequence data junk s :
  proto_ok (l_proto s) -> len data <= PROTOCOL_MAX_PAYLOAD ->
  protocol_send_packet command sequence (Some (data ++ junk)) (len data) s =
  Done tt (after_send (encode_frame (sent_frame command sequence data)) s).
Proof.
  intros Hp Hd. destruct s as [[port write context tx] i]. unfold proto_ok in Hp; simpl in Hp.
  unfold protocol_send_packet, mbind, M_bind, gets, ub. cbn [l_proto s_tx_buffer].
  rewrite (fill_tx_buffer_run _ _ _ _ _ Hp Hd).
  set (out := encode_frame _).
  assert (slice (over out tx) 0 (HEADER_SIZE + len data + CRC_SIZE) = Some out) as Hs.
  { subst out. rewrite <-(app_nil_r (encode_frame _)) at 1. rewrite slice_over_prefix; [done|]. sizes. }
  clearbody out.
  destruct write as [write|]; cbn.
  - rewrite Hs. cbn. unfold after_send, zoom, write_out, mbind, M_bind. rewrite call_run. cbn.
    by destruct (write context out (world i)).
  - unfold zoom, protocol_set_uart_port, protocol_set_writer, modify, mbind, M_bind. cbn.
    rewrite Hs. unfold after_send, write_out, mbind, M_bind. rewrite call_run. cbn -[uart_transport_write].
    by destruct (uart_transport_write port out (world i)).
Qed.

Lemma after_send_ok data s :
  proto_ok (l_proto s) -> len data <= TX_BUFFER_SIZE -> proto_ok (l_proto (after_send data s)).
Proof.
  unfold proto_ok, after_send. intros Hp Hd.
  destruct (active_writer _) as [write context]. destruct (write _ _ _) as [err w]. simpl.
  rewrite zlen_over; lia.
Qed.

(** Exactly one transmission is added to the trace. *)
Lemma after_send_trace data s :
  exists err, trace (l_io (after_send data s)) = EvTx data err :: trace (l_io s).
Proof.
  unfold after_send. destruct (active_writer _) as [write context].
  destruct (write _ _ _) as [err w]. by exists err.
Qed.
End SendRun.

(** * Lemmas: the parser implements the stream specification *)

Definition live (acc : list Z) : Prop :=
  match acc with
  | [] => True
  | [x] => x = PROTOCOL_MAGIC_0
  | x :: y :: _ => x = PROTOCOL_MAGIC_0 /\ y = PROTOCOL_MAGIC_1 /\ classify acc = Incomplete
  end.

(** The C parser holds [acc] in the first cells of its buffer. *)
Record parser_rel (acc : list Z) (p : protocol_parser_t) : Prop := {
  rel_length : prs_length p = len acc;
  rel_buffer : exists l, prs_buffer p = over acc l /\ len l = PARSER_BUFFER_SIZE;
  rel_live : live acc;
  rel_bytes : bytes acc
}.

Definition packet_ok (p : protocol_packet_t) : Prop :=
  len (pkt_payload p) = PROTOCOL_MAX_PAYLOAD.

(** What a delivered packet says: the frame, in a packet whose length field
    counts its payload. *)
Definition carries (p : protocol_packet_t) (f : frame) : Prop :=
  packet_frame p = f /\ pkt_length p = len (fr_payload f) /\ frame_ok f /\ packet_ok p.

Lemma classify_short acc : len acc < HEADER_SIZE -> classify acc = Incomplete.
Proof.
  intros Hl. do 8 (destruct acc as [|? acc]; [done|]). unfold HEADER_SIZE in Hl. sizes.
Qed.

Lemma live_len acc : bytes acc -> live acc -> len acc < PARSER_BUFFER_SIZE.
Proof.
  intros Hb. unfold live. destruct acc as [|x [|y acc]]; [done..|].
  intros (_ & _ & Hc). destruct (Z.ltb_spec (len (x :: y :: acc)) HEADER_SIZE); [sizes|].
  do 6 (destruct acc as [|? acc]; [sizes|]).
  unfold classify in Hc. revert Hc.
  destruct (Z.ltb_spec PROTOCOL_MAX_PAYLOAD (le_value [z3; z4])); [done|].
  destruct (Z.ltb_spec (len acc) (le_value [z3; z4] + CRC_SIZE)); [|by destruct (crc32 _ =? _)].
  intros _. sizes.
Qed.

Lemma parser_rel_idle p : len (prs_buffer p) = PARSER_BUFFER_SIZE -> parser_rel [] (mk_parser (prs_buffer p) 0).
Proof.
  intros. split; [done| |done|constructor]. exists (prs_buffer p). by rewrite over_nil.
Qed.

Lemma parser_rel_mk acc l :
  len l = PARSER_BUFFER_SIZE -> live acc -> bytes acc ->
  parser_rel acc (mk_parser (over acc l) (len acc)).
Proof. intros. split; [done| |done..]. by exists l. Qed.

Lemma live_app x y acc b :
  live (x :: y :: acc) -> classify (x :: y :: acc ++ [b]) = Incomplete -> live (x :: y :: acc ++ [b]).
Proof. simpl. naive_solver. Qed.

(** The tail of the function, once the header is in the buffer: it computes
    the verdict of the specification. *)
Lemma feed_header x0 x1 v c s0 s1 l0 l1 rest l packet :
  bytes [x0; x1; v; c; s0; s1; l0; l1] -> bytes rest -> packet_ok packet ->
  len l = PARSER_BUFFER_SIZE -> len rest <= 1028 ->
  let acc := x0 :: x1 :: v :: c :: s0 :: s1 :: l0 :: l1 :: rest in
  let buffer := over acc l in
  let n := le_value [l0; l1] in
  read_le16 buffer 6 = Some n /\
  match classify acc with
  | Incomplete => n <= PROTOCOL_MAX_PAYLOAD /\ len rest < n + CRC_SIZE
  | Rejected => PROTOCOL_MAX_PAYLOAD < n \/
      (n <= PROTOCOL_MAX_PAYLOAD /\ n + CRC_SIZE <= len rest /\
       exists body a e, read_le32 buffer (HEADER_SIZE + n) = Some e /\
         slice buffer 2 (HEADER_SIZE - 2 + n) = Some body /\
         protocol_crc32 body (HEADER_SIZE - 2 + n) = Some a /\ a <> e)
  | Decoded f =>
      n <= PROTOCOL_MAX_PAYLOAD /\ n + CRC_SIZE <= len rest /\
      exists body e payload, read_le32 buffer (HEADER_SIZE + n) = Some e /\
         slice buffer 2 (HEADER_SIZE - 2 + n) = Some body /\
         protocol_crc32 body (HEADER_SIZE - 2 + n) = Some e /\
         zget buffer 2 = Some v /\ zget buffer 3 = Some c /\
         read_le16 buffer 4 = Some (le_value [s0; s1]) /\
         memcpy (pkt_payload packet) 0 buffer HEADER_SIZE n = Some payload /\
         carries (mk_packet v c (le_value [s0; s1]) n payload) f
  end.
Proof.
  intros Hh Hrest Hpkt Hl Hlen acc buffer n.
  inversion_clear Hh as [|?? _ H1]. inversion_clear H1 as [|?? _ H2].
  inversion_clear H2 as [|?? Hv H3]. inversion_clear H3 as [|?? Hc H4].
  inversion_clear H4 as [|?? Hs0 H5]. inversion_clear H5 as [|?? Hs1 H6].
  inversion_clear H6 as [|?? Hl0 H7]. inversion_clear H7 as [|?? Hl1 _].
  assert (0 <= n) as Hn by (subst n; unfold u8 in *; simpl; lia).
  assert (read_le16 buffer 6 = Some n) as H6.
  { apply (read_le16_mid [x0; x1; v; c; s0; s1]); [done|done]. }
  split; [done|]. unfold classify, acc. fold n.
  destruct (Z.ltb_spec PROTOCOL_MAX_PAYLOAD n); [by left|].
  destruct (Z.ltb_spec (len rest) (n + CRC_SIZE)); [done|].
  destruct (split_at rest n) as (payload & tl & -> & Hp); [sizes|].
  destruct (split_at tl 4) as (crc & tl' & -> & Hcrc); [sizes|].
  apply Forall_app in Hrest as [Hbp [Hbc _]%Forall_app].
  assert (Z.to_nat n = length payload) as -> by sizes. rewrite take_app_length, drop_app_length.
  rewrite (take_app_length' crc) by sizes.
  assert (buffer = [x0; x1; v; c; s0; s1; l0; l1] ++ payload ++ crc ++ tl' ++
                     drop (length acc) l) as Eb.
  { subst buffer acc. unfold over. simpl. by rewrite <-!app_assoc. }
  assert (read_le32 buffer (HEADER_SIZE + n) = Some (le_value crc)) as Hr.
  { rewrite Eb, app_assoc. apply read_le32_mid; [|sizes|done]. sizes. }
  assert (slice buffer 2 (HEADER_SIZE - 2 + n) = Some ([v; c; s0; s1; l0; l1] ++ payload)) as Hs.
  { rewrite Eb. change ([x0; x1; v; c; s0; s1; l0; l1] ++ payload ++ crc ++ tl' ++ drop (length acc) l)
      with ([x0; x1] ++ ([v; c; s0; s1; l0; l1] ++ payload) ++ crc ++ tl' ++ drop (length acc) l).
    apply slice_mid; sizes. }
  assert (protocol_crc32 ([v; c; s0; s1; l0; l1] ++ payload) (HEADER_SIZE - 2 + n) =
          Some (crc32 ([v; c; s0; s1; l0; l1] ++ payload))) as Hk.
  { rewrite <-(app_nil_r (_ ++ payload)) at 1. apply protocol_crc32_run. sizes. }
  destruct (Z.eqb_spec (crc32 ([v; c; s0; s1; l0; l1] ++ payload)) (le_value crc)) as [E|E].
  2:{ right. split; [done|]. split; [done|]. eauto 10. }
  split; [done|]. split; [done|].
  exists ([v; c; s0; s1; l0; l1] ++ payload), (le_value crc), (over payload (pkt_payload packet)).
  rewrite <-E. rewrite E at 1. split_and!; try done; try (rewrite Eb; done).
  - rewrite Eb. by apply (read_le16_mid [x0; x1; v; c]).
  - unfold memcpy. rewrite Eb, slice_mid by sizes. cbn [mbind option_bind].
    unfold packet_ok in Hpkt. rewrite <-(over_nil (pkt_payload packet)) at 1.
    apply blit_over; [done|sizes].
  - assert (le_value [s0; s1] < 65536 /\ 0 <= le_value [s0; s1]) as ?
      by (clear -Hs0 Hs1; unfold u8 in *; simpl; lia).
    split; [|split; [|split]].
    + unfold packet_frame; cbn [pkt_payload pkt_length pkt_version pkt_command pkt_sequence].
      f_equal. unfold over. apply take_app_length'. sizes.
    + done.
    + unfold frame_ok, u16; cbn [fr_version fr_command fr_sequence fr_payload].
      split_and!; [done..|lia|lia|done|lia].
    + unfold packet_ok in *; cbn [pkt_payload]. rewrite zlen_over; sizes.
Qed.

(** The answer of the C function that the specification's step asks for. *)
Definition feed_result (p : protocol_parser_t) (b : Z) (packet : protocol_packet_t)
    (acc' : list Z) (out : option frame) : Prop :=
  exists p' packet',
    protocol_parser_feed p b packet = Some (bool_decide (is_Some out), p', packet') /\
    parser_rel acc' p' /\ packet_ok packet' /\
    match out with None => packet' = packet | Some f => carries packet' f end.

(** A byte that is stored: the buffer holds the longer attempt. *)
Lemma feed_store acc p b l :
  prs_length p = len acc -> prs_buffer p = over acc l -> len l = PARSER_BUFFER_SIZE ->
  len acc < PARSER_BUFFER_SIZE ->
  zset (prs_buffer p) (prs_length p) b = Some (over (acc ++ [b]) l).
Proof. intros -> -> Hl Ha. apply zset_over; sizes. Qed.

(** Past the magic bytes the function stores the byte and goes on. *)
Lemma feed_past_magic acc p b packet l :
  prs_length p = len acc -> prs_buffer p = over acc l -> len l = PARSER_BUFFER_SIZE ->
  1 <= len acc < PARSER_BUFFER_SIZE -> (len acc = 1 -> b = PROTOCOL_MAGIC_1) ->
  protocol_parser_feed p b packet =
  (if len (acc ++ [b]) <? HEADER_SIZE
   then Some (false, mk_parser (over (acc ++ [b]) l) (len (acc ++ [b])), packet)
   else protocol_parser_finish (over (acc ++ [b]) l) (len (acc ++ [b])) packet).
Proof.
  intros Hn Hbuf Hl Hlen H1. unfold protocol_parser_feed.
  destruct (Z.eqb_spec (prs_length p) 0); [lia|].
  assert ((prs_length p =? 1) && negb (b =? PROTOCOL_MAGIC_1) = false) as ->.
  { destruct (Z.eqb_spec (prs_length p) 1); [|done]. by rewrite H1 by lia. }
  cbn [andb]. rewrite (feed_store acc _ b l) by (done || lia). cbn [mbind option_bind].
  rewrite Hn. by rewrite zlen_app, zlen_cons, zlen_nil.
Qed.

(** With the header complete, the verdict decides. *)
Lemma finish_refines acc l packet :
  bytes acc -> packet_ok packet ->
  len l = PARSER_BUFFER_SIZE -> HEADER_SIZE <= len acc <= PARSER_BUFFER_SIZE ->
  (classify acc = Incomplete -> live acc) ->
  let acc' := match classify acc with Incomplete => acc | _ => [] end in
  let out := match classify acc with Decoded f => Some f | _ => None end in
  exists p' packet',
    protocol_parser_finish (over acc l) (len acc) packet =
      Some (bool_decide (is_Some out), p', packet') /\
    parser_rel acc' p' /\ packet_ok packet' /\
    match out with None => packet' = packet | Some f => carries packet' f end.
Proof.
  intros Hb Hpkt Hl Hlen Hlive acc' out.
  assert (exists x0 x1 v c s0 s1 l0 l1 rest,
    acc = x0 :: x1 :: v :: c :: s0 :: s1 :: l0 :: l1 :: rest)
    as (x0 & x1 & v & c & s0 & s1 & l0 & l1 & rest & Eacc).
  { do 8 (destruct acc as [|? acc]; [sizes|]). by do 9 eexists. }
  assert (bytes [x0; x1; v; c; s0; s1; l0; l1] /\ bytes rest) as [Hh Hr].
  { apply Forall_app. by rewrite Eacc in Hb. }
  pose proof (feed_header x0 x1 v c s0 s1 l0 l1 rest l packet Hh Hr Hpkt Hl
                ltac:(subst acc; sizes)) as [H6 Hv].
  rewrite <-Eacc in H6, Hv. set (n := le_value [l0; l1]) in *. clearbody n.
  assert (len acc = HEADER_SIZE + len rest) as Hr' by (subst acc; sizes).
  assert (parser_rel [] (mk_parser (over acc l) 0)) as Hidle.
  { apply (parser_rel_idle (mk_parser (over acc l) 0)).
    cbn. rewrite zlen_over; lia. }
  unfold protocol_parser_finish. osteps.
  subst acc' out. destruct (classify acc) as [| |f].
  - destruct Hv as [Hn Hlt]. destruct (Z.ltb_spec PROTOCOL_MAX_PAYLOAD n); [lia|].
    destruct (Z.ltb_spec (len acc) (HEADER_SIZE + n + CRC_SIZE)); [|lia].
    do 2 eexists. split; [done|]. split; [|done]. apply parser_rel_mk; auto.
  - destruct Hv as [Hn|(Hn & Hge & body & a & e & He & Hbody & Ha & Hne)].
    { destruct (Z.ltb_spec PROTOCOL_MAX_PAYLOAD n); [|lia].
      do 2 eexists. split; [done|]. split; [done|done]. }
    destruct (Z.ltb_spec PROTOCOL_MAX_PAYLOAD n); [lia|].
    destruct (Z.ltb_spec (len acc) (HEADER_SIZE + n + CRC_SIZE)); [lia|].
    osteps. destruct (Z.eqb_spec a e); [done|]. cbn [negb].
    do 2 eexists. split; [done|]. split; [done|done].
  - destruct Hv as (Hn & Hge & body & e & payload & He & Hbody & Ha & H2 & H3 & H4 & Hcpy & Hc).
    destruct (Z.ltb_spec PROTOCOL_MAX_PAYLOAD n); [lia|].
    destruct (Z.ltb_spec (len acc) (HEADER_SIZE + n + CRC_SIZE)); [lia|].
    osteps. rewrite Z.eqb_refl. cbn [negb]. osteps.
    do 2 eexists. split; [done|]. split; [done|].
    split; [|done]. by destruct Hc as (_&_&_&?).
Qed.

Lemma feed_refines acc p b packet :
  parser_rel acc p -> u8 b -> packet_ok packet ->
  feed_result p b packet (spec_feed acc b).1 (spec_feed acc b).2.
Proof.
  intros Hrel Hu Hpkt. pose proof Hrel as [Hn (l & Hbuf & Hl) Hlive Hb].
  pose proof (live_len _ Hb Hlive) as Hlen.
  assert (bytes (acc ++ [b])) as Hb' by (by apply bytes_app, bytes_one).
  destruct acc as [|x [|y acc]].
  - unfold feed_result, protocol_parser_feed, spec_feed. rewrite Hn. simpl.
    destruct (Z.eqb_spec b PROTOCOL_MAGIC_0) as [->|]; simpl; [|by do 2 eexists].
    pose proof (feed_store _ _ PROTOCOL_MAGIC_0 _ Hn Hbuf Hl Hlen) as Hset. rewrite Hn in Hset.
    osteps. do 2 eexists. split; [done|].
    split; [|done]. apply (parser_rel_mk [_]); [done|done|by apply bytes_one].
  - simpl in Hlive. subst x. unfold feed_result, spec_feed.
    destruct (Z.eqb_spec b PROTOCOL_MAGIC_1) as [->|Hb1].
    + rewrite (feed_past_magic _ _ _ _ l) by (done || sizes). do 2 eexists. split; [done|].
      split; [|done]. apply parser_rel_mk; done.
    + unfold protocol_parser_feed. rewrite Hn. rewrite (proj2 (Z.eqb_neq _ _) Hb1). simpl.
      pose proof (zset_over [] l 0 PROTOCOL_MAGIC_0 eq_refl ltac:(sizes)) as Hset.
      rewrite Hbuf. assert (zset (over [PROTOCOL_MAGIC_0] l) 0 PROTOCOL_MAGIC_0 =
        Some (over [PROTOCOL_MAGIC_0] l)) as Hset'.
      { unfold zset, over. simpl. by apply (blit_mid [] [PROTOCOL_MAGIC_0]). }
      osteps. do 2 eexists. split; [done|]. split; [|done]. simpl.
      destruct (Z.eqb_spec b PROTOCOL_MAGIC_0) as [->|].
      * apply (parser_rel_mk [_]); [done|done|by apply bytes_one].
      * split; [done| |done|constructor]. exists (over [PROTOCOL_MAGIC_0] l).
        split; [done|]. rewrite zlen_over; sizes.
  - unfold feed_result. rewrite (feed_past_magic _ _ _ _ l) by (done || sizes).
    cbn [spec_feed]. destruct (Z.ltb_spec (len ((x :: y :: acc) ++ [b])) HEADER_SIZE) as [Hs|Hs].
    + rewrite (classify_short _ Hs). do 2 eexists. split; [done|]. split; [|done].
      apply parser_rel_mk; [done| |done]. destruct Hlive as (?&?&_).
      split_and!; [done..|]. by apply classify_short.
    + destruct (finish_refines _ l packet Hb' Hpkt Hl ltac:(sizes)) as (p' & packet' & E & ? & ? & ?).
      { intros Hc. destruct Hlive as (?&?&_). by split_and!. }
      exists p', packet'. rewrite E. by destruct (classify _).
Qed.

(** ** Streams *)

Lemma parse_stream_refines stream : forall acc p packet,
  parser_rel acc p -> bytes stream -> packet_ok packet ->
  exists p' packet' packets,
    parse_stream p packet stream = Some (p', packet', packets) /\
    parser_rel (spec_stream acc stream).1 p' /\ packet_ok packet' /\
    Forall2 carries packets (spec_stream acc stream).2.
Proof.
  induction stream as [|b stream IH]; intros acc p packet Hrel Hb Hpkt.
  { by exists p, packet, []. }
  inversion_clear Hb as [|?? Hu Hs].
  destruct (feed_refines _ _ _ _ Hrel Hu Hpkt) as (p1 & packet1 & E & Hrel1 & Hpkt1 & Hout).
  cbn [parse_stream spec_stream]. rewrite E. cbn [mbind option_bind].
  destruct (spec_feed acc b) as [acc1 out]. cbn [fst snd] in *.
  destruct (IH _ _ _ Hrel1 Hs Hpkt1) as (p2 & packet2 & packets & E2 & Hrel2 & Hpkt2 & Hfs).
  rewrite E2. cbn [mbind option_bind].
  destruct (spec_stream acc1 stream) as [acc2 fs]. cbn [fst snd] in *.
  do 3 eexists. split; [done|]. split; [done|]. split; [done|].
  destruct out as [f|]; cbn; [|done]. by constructor.
Qed.

Lemma parse_stream_app s1 s2 p packet p1 packet1 f1 p2 packet2 f2 :
  parse_stream p packet s1 = Some (p1, packet1, f1) -> parse_stream p1 packet1 s2 = Some (p2, packet2, f2) ->
  parse_stream p packet (s1 ++ s2) = Some (p2, packet2, f1 ++ f2).
Proof.
  revert p packet f1. induction s1 as [|b s1 IH]; intros p packet f1 E1 E2; cbn [parse_stream app] in *.
  { by injection E1 as <- <- <-. }
  destruct (protocol_parser_feed p b packet) as [[[c p0] packet0]|]; [|done]. cbn [mbind option_bind] in *.
  destruct (parse_stream p0 packet0 s1) as [[[p' packet'] f]|] eqn:E; [|done]. cbn [mbind option_bind] in *.
  injection E1 as -> -> <-. rewrite (IH _ _ _ E E2). cbn [mbind option_bind]. by destruct c.
Qed.

Lemma parser_init_rel p :
  len (prs_buffer p) = PARSER_BUFFER_SIZE -> parser_rel [] (protocol_parser_init p).
Proof. apply parser_rel_idle. Qed.

Lemma spec_stream_app s1 s2 acc :
  spec_stream acc (s1 ++ s2) =
  let '(acc1, f1) := spec_stream acc s1 in
  let '(acc2, f2) := spec_stream acc1 s2 in (acc2, f1 ++ f2).
Proof.
  revert acc. induction s1 as [|b s1 IH]; intros acc; cbn [app spec_stream].
  { by destruct (spec_stream acc s2). }
  destruct (spec_feed acc b) as [acc1 out]. rewrite IH.
  destruct (spec_stream acc1 s1) as [acc2 f1]. destruct (spec_stream acc2 s2) as [acc3 f2].
  by rewrite app_assoc.
Qed.

(** While every longer attempt stays incomplete, bytes are just collected. *)
Lemma spec_stream_collect x y acc s :
  (forall s1 s2, s = s1 ++ s2 -> s1 <> [] -> classify (x :: y :: acc ++ s1) = Incomplete) ->
  spec_stream (x :: y :: acc) s = (x :: y :: acc ++ s, []).
Proof.
  revert acc. induction s as [|b s IH]; intros acc H; cbn [spec_stream].
  { by rewrite app_nil_r. }
  cbn [spec_feed app]. rewrite (H [b] s) by done.
  rewrite IH.
  - by rewrite <-app_assoc.
  - intros s1 s2 -> Hne. rewrite <-app_assoc. apply (H (b :: s1) s2); done.
Qed.

(** The verdict on a header and what follows it. *)
Definition verdict_frame (v : verdict) : option frame :=
  match v with Decoded f => Some f | _ => None end.

Lemma classify_incomplete x y v c s0 s1 l0 l1 rest :
  le_value [l0; l1] <= PROTOCOL_MAX_PAYLOAD -> len rest < le_value [l0; l1] + CRC_SIZE ->
  classify (x :: y :: v :: c :: s0 :: s1 :: l0 :: l1 :: rest) = Incomplete.
Proof.
  intros Hn Hl. unfold classify. destruct (Z.ltb_spec PROTOCOL_MAX_PAYLOAD (le_value [l0; l1])); [lia|].
  destruct (Z.ltb_spec (len rest) (le_value [l0; l1] + CRC_SIZE)); [done|lia].
Qed.

Lemma classify_complete x y v c s0 s1 l0 l1 payload crc :
  le_value [l0; l1] = len payload -> len payload <= PROTOCOL_MAX_PAYLOAD -> len crc = 4 ->
  classify (x :: y :: v :: c :: s0 :: s1 :: l0 :: l1 :: payload ++ crc) =
  if crc32 ([v; c; s0; s1; l0; l1] ++ payload) =? le_value crc
  then Decoded (mk_frame v c (le_value [s0; s1]) payload) else Rejected.
Proof.
  intros Hn Hp Hc. unfold classify. rewrite Hn.
  destruct (Z.ltb_spec PROTOCOL_MAX_PAYLOAD (len payload)); [lia|].
  destruct (Z.ltb_spec (len (payload ++ crc)) (len payload + CRC_SIZE)); [sizes|].
  unfold zlen. rewrite Nat2Z.id, take_app_length, drop_app_length.
  by rewrite (take_ge crc) by sizes.
Qed.

(** An idle parser consumes exactly one attempt with an acceptable header. *)
Lemma spec_stream_attempt v c s0 s1 l0 l1 rest :
  le_value [l0; l1] <= PROTOCOL_MAX_PAYLOAD -> 0 <= le_value [l0; l1] ->
  len rest = le_value [l0; l1] + CRC_SIZE ->
  let attempt := PROTOCOL_MAGIC_0 :: PROTOCOL_MAGIC_1 :: v :: c :: s0 :: s1 :: l0 :: l1 :: rest in
  classify attempt <> Incomplete ->
  spec_stream [] attempt = ([], option_list (verdict_frame (classify attempt))).
Proof.
  intros Hn Hn0 Hl attempt Hc.
  destruct (rest) as [|b0 rest0] using rev_ind; [unfold CRC_SIZE in Hl; sizes|].
  clear IHrest0. subst attempt.
  set (h := [v; c; s0; s1; l0; l1]).
  change (PROTOCOL_MAGIC_0 :: PROTOCOL_MAGIC_1 :: v :: c :: s0 :: s1 :: l0 :: l1 :: rest0 ++ [b0])
    with ([PROTOCOL_MAGIC_0; PROTOCOL_MAGIC_1] ++ (h ++ rest0) ++ [b0]) in *.
  rewrite (spec_stream_app [PROTOCOL_MAGIC_0; PROTOCOL_MAGIC_1]).
  change (spec_stream [] [PROTOCOL_MAGIC_0; PROTOCOL_MAGIC_1])
    with ([PROTOCOL_MAGIC_0; PROTOCOL_MAGIC_1], @nil frame). cbv beta iota.
  rewrite (spec_stream_app (h ++ rest0) [b0]).
  rewrite (spec_stream_collect PROTOCOL_MAGIC_0 PROTOCOL_MAGIC_1 [] (h ++ rest0)).
  2:{ intros s2 s3 E Hne. destruct (Z.ltb_spec (len ([PROTOCOL_MAGIC_0; PROTOCOL_MAGIC_1] ++ s2)) HEADER_SIZE).
      { by apply classify_short. }
      assert (exists k, s2 = h ++ k /\ rest0 = k ++ s3) as (k & -> & E').
      { destruct (app_eq_inv _ _ _ _ E) as [(k & Eh & Es3)|]; [|done].
        exists []. destruct k as [|? k]; [by rewrite app_nil_r in *|].
        apply (f_equal zlen) in Eh. subst h. unfold HEADER_SIZE in *. sizes. }
      apply (classify_incomplete _ _ _ _ _ _ _ _ k); [done|]. subst. sizes. }
  cbn [app spec_stream spec_feed].
  rewrite <-app_assoc in Hc |- *. cbn [app] in Hc |- *.
  by destruct (classify _).
Qed.

Lemma frame_header f :
  exists s0 s1 l0 l1, frame_body f =
    [fr_version f; fr_command f; s0; s1; l0; l1] ++ fr_payload f /\
    le16 (fr_sequence f) = [s0; s1] /\ le16 (len (fr_payload f)) = [l0; l1].
Proof. by do 4 eexists. Qed.

Lemma zlen_u16 f : frame_ok f -> u16 (len (fr_payload f)).
Proof. intros (_&_&_&_&?). sizes. Qed.

(** Reading back what [encode_frame] lays out. *)
Lemma classify_encode f : frame_ok f -> classify (encode_frame f) = Decoded f.
Proof.
  intros Hf. pose proof (zlen_u16 _ Hf) as Hl. destruct Hf as (_&_&Hseq&_&Hmax).
  unfold encode_frame. destruct (frame_header f) as (s0&s1&l0&l1&E&Es&El).
  rewrite E. rewrite <-app_assoc. cbn [app].
  rewrite classify_complete; [|by rewrite <-El, le16_value|done|done].
  rewrite le32_value by apply crc32_u32. cbn [app]. rewrite Z.eqb_refl.
  rewrite <-Es, le16_value by done. by destruct f.
Qed.

Lemma spec_stream_encode f : frame_ok f -> spec_stream [] (encode_frame f) = ([], [f]).
Proof.
  intros Hf. pose proof (classify_encode f Hf) as Hc. pose proof (zlen_u16 _ Hf) as Hl.
  destruct Hf as (_&_&_&_&Hmax). revert Hc.
  unfold encode_frame. destruct (frame_header f) as (s0&s1&l0&l1&E&_&El).
  rewrite E, <-app_assoc. cbn [app]. intros Hc.
  rewrite spec_stream_attempt.
  - by rewrite Hc.
  - by rewrite <-El, le16_value.
  - rewrite <-El, le16_value by done. sizes.
  - rewrite <-El, le16_value by done. sizes.
  - by rewrite Hc.
Qed.

(** [carved s fs]: the frames [fs] appear in [s], complete, in this order and
    without overlap, with arbitrary bytes between them. *)
Inductive carved : list Z -> list frame -> Prop :=
| carved_nil s : carved s []
| carved_cons gap f s fs :
    frame_ok f -> carved s fs -> carved (gap ++ encode_frame f ++ s) (f :: fs).

Lemma carved_app gap s fs : carved s fs -> carved (gap ++ s) fs.
Proof.
  intros H. destruct H as [|gap' f s fs Hf H]; [constructor|].
  rewrite app_assoc. by constructor.
Qed.

Lemma le16_of_value b0 b1 : u8 b0 -> u8 b1 -> le16 (le_value [b0; b1]) = [b0; b1].
Proof.
  intros. apply le_value_inj; [apply bytes_le16|auto with ota|done|].
  apply le16_value. unfold u8, u16 in *. simpl. lia.
Qed.

(** An attempt that was still incomplete and is decoded with its last byte is
    exactly the encoding of the frame. *)
Lemma classify_decoded_inv acc b f :
  live acc -> bytes (acc ++ [b]) -> 2 <= len acc -> classify (acc ++ [b]) = Decoded f ->
  acc ++ [b] = encode_frame f /\ frame_ok f.
Proof.
  intros Hlive Hb Hlen Hc.
  destruct acc as [|x [|y acc]]; [sizes..|]. destruct Hlive as (-> & -> & Hinc).
  destruct (Z.ltb_spec (len ((PROTOCOL_MAGIC_0 :: PROTOCOL_MAGIC_1 :: acc) ++ [b])) HEADER_SIZE).
  { by rewrite classify_short in Hc. }
  cbn [app] in *. destruct (acc ++ [b]) as [|v [|c [|s0 [|s1 [|l0 [|l1 rest]]]]]] eqn:Eacc;
    try (unfold HEADER_SIZE in *; sizes).
  assert (Hacc : len acc = 5 + len rest).
  { apply (f_equal zlen) in Eacc. sizes. }
  assert (Hrest : 0 < len rest -> exists rest0, rest = rest0 ++ [b] /\
            acc = v :: c :: s0 :: s1 :: l0 :: l1 :: rest0).
  { intros Hpos. destruct rest as [|b' rest0] using rev_ind; [done|].
    change (v :: c :: s0 :: s1 :: l0 :: l1 :: rest0 ++ [b'])
      with ((v :: c :: s0 :: s1 :: l0 :: l1 :: rest0) ++ [b']) in Eacc.
    apply app_inj_2 in Eacc as [-> [=->]]; [|done]. by exists rest0. }
  set (n := le_value [l0; l1]) in *.
  pose proof Hc as Hc'. unfold classify in Hc'. fold n in Hc'. revert Hc'.
  destruct (Z.ltb_spec PROTOCOL_MAX_PAYLOAD n); [done|].
  destruct (Z.ltb_spec (len rest) (n + CRC_SIZE)) as [|Hge]; [done|]. intros _.
  do 2 apply Forall_cons in Hb as [_ Hb]. apply Forall_cons in Hb as [Hv Hb].
  apply Forall_cons in Hb as [Hcm Hb]. apply Forall_cons in Hb as [Hs0 Hb].
  apply Forall_cons in Hb as [Hs1 Hb]. apply Forall_cons in Hb as [Hl0 Hb].
  apply Forall_cons in Hb as [Hl1 Hb].
  assert (0 <= n) by (subst n; unfold u8 in *; simpl; lia).
  assert (len rest = n + CRC_SIZE) as Hl.
  { destruct Hrest as (rest0 & -> & ->); [sizes|].
    destruct (Z.leb_spec (n + CRC_SIZE) (len rest0)); [|sizes].
    revert Hinc. unfold classify. fold n.
    destruct (Z.ltb_spec PROTOCOL_MAX_PAYLOAD n); [lia|].
    destruct (Z.ltb_spec (len rest0) (n + CRC_SIZE)); [lia|]. by destruct (crc32 _ =? _). }
  destruct (split_at rest n) as (payload & crc & -> & Hp); [sizes|].
  rewrite classify_complete in Hc by (done || sizes).
  destruct (Z.eqb_spec (crc32 ([v; c; s0; s1; l0; l1] ++ payload)) (le_value crc)) as [E|]; [|done].
  injection Hc as <-. apply Forall_app in Hb as [Hbp Hbc].
  assert (le32 (le_value crc) = crc) as Hcrc.
  { apply le_value_inj; [apply bytes_le32|done| |].
    - apply Nat2Z.inj. change (len (le32 (le_value crc)) = len crc). sizes.
    - apply le32_value. pose proof (le_value_bound crc Hbc).
      replace (len crc) with 4 in * by sizes. done. }
  split.
  - unfold encode_frame, frame_body. cbn [fr_version fr_command fr_sequence fr_payload].
    rewrite Hp. subst n. change (s0 + 256 * (s1 + 256 * 0)) with (le_value [s0; s1]).
    rewrite !le16_of_value by done.
    cbn [app] in E |- *. by rewrite E, Hcrc.
  - unfold frame_ok. cbn [fr_version fr_command fr_sequence fr_payload].
    split_and!; [done..| | |done|sizes]; unfold u8, u16 in *; simpl; lia.
Qed.

Lemma spec_feed_live acc b : live acc -> live (spec_feed acc b).1.
Proof.
  intros Hlive. destruct acc as [|x [|y acc]]; cbn [spec_feed app].
  - by destruct (Z.eqb_spec b PROTOCOL_MAGIC_0).
  - simpl in Hlive. destruct (Z.eqb_spec b PROTOCOL_MAGIC_1); simpl; [by split_and!|].
    by destruct (Z.eqb_spec b PROTOCOL_MAGIC_0).
  - destruct (classify (x :: y :: acc ++ [b])) eqn:E; cbn [fst]; [|done..]. by apply live_app.
Qed.

Lemma spec_stream_sound stream : forall acc,
  live acc -> bytes acc -> bytes stream -> carved (acc ++ stream) (spec_stream acc stream).2.
Proof.
  induction stream as [|b stream IH]; intros acc Hlive Hba Hb; [constructor|].
  apply Forall_cons in Hb as [Hu Hs]. pose proof (spec_feed_live acc b Hlive) as Hl1.
  assert (bytes (acc ++ [b])) as Hab by (by apply bytes_app, bytes_one).
  cbn [spec_stream].
  replace (acc ++ b :: stream) with ((acc ++ [b]) ++ stream) by (by rewrite <-app_assoc).
  assert (bytes (spec_feed acc b).1 /\
    match (spec_feed acc b).2 with
    | Some f => (spec_feed acc b).1 = [] /\ acc ++ [b] = encode_frame f /\ frame_ok f
    | None => exists gap, acc ++ [b] = gap ++ (spec_feed acc b).1
    end) as [Hb1 Hout].
  { destruct acc as [|x [|y acc]]; cbn [spec_feed app].
    - destruct (Z.eqb_spec b PROTOCOL_MAGIC_0); simpl;
        (split; [auto using bytes_one, bytes_nil|]); [by exists []|by exists [b]].
    - simpl in Hlive. destruct (Z.eqb_spec b PROTOCOL_MAGIC_1); simpl; [split; [done|by exists []]|].
      destruct (Z.eqb_spec b PROTOCOL_MAGIC_0); simpl; (split; [auto using bytes_one, bytes_nil|]).
      + by exists [x].
      + by exists [x; b].
    - destruct (classify (x :: y :: acc ++ [b])) as [| |f] eqn:E; cbn [fst snd].
      + split; [done|]. by exists [].
      + split; [apply bytes_nil|]. eexists. by rewrite app_nil_r.
      + split; [apply bytes_nil|]. split; [done|].
        apply (classify_decoded_inv (x :: y :: acc)); [done|done|sizes|done]. }
  destruct (spec_feed acc b) as [acc1 out]. cbn [fst snd] in *.
  specialize (IH acc1 Hl1 Hb1 Hs). destruct (spec_stream acc1 stream) as [acc2 fs].
  cbn [snd] in *. destruct out as [f|]; cbn.
  - destruct Hout as (-> & -> & Hf). by apply (carved_cons []).
  - destruct Hout as [gap ->]. rewrite <-app_assoc. by apply carved_app.
Qed.

(** Bytes that cannot start a frame leave an idle parser idle. *)
Lemma spec_stream_noise noise :
  Forall (fun b => b <> PROTOCOL_MAGIC_0) noise -> spec_stream [] noise = ([], []).
Proof.
  induction 1 as [|b noise Hb _ IH]; [done|]. cbn [spec_stream spec_feed].
  destruct (Z.eqb_spec b PROTOCOL_MAGIC_0); [done|]. by rewrite IH.
Qed.

(** ** Corrupted frames *)

(** A corrupted attempt: the body of a frame under another checksum. *)
Lemma spec_stream_corrupt f' sum :
  frame_ok f' -> u32 sum -> crc32 (frame_body f') <> sum ->
  spec_stream [] ([PROTOCOL_MAGIC_0; PROTOCOL_MAGIC_1] ++ frame_body f' ++ le32 sum)
  = ([], []).
Proof.
  intros Hf' Hsum Hne. pose proof (zlen_u16 _ Hf') as Hl. destruct Hf' as (_&_&_&_&Hmax).
  destruct (frame_header f') as (s0&s1&l0&l1&E&_&El). set (crc := le32 sum).
  rewrite E in Hne. rewrite E, <-app_assoc. cbn [app].
  assert (le_value [l0; l1] = len (fr_payload f')) as Hn by (by rewrite <-El, le16_value).
  assert (classify (PROTOCOL_MAGIC_0 :: PROTOCOL_MAGIC_1 :: fr_version f' :: fr_command f' ::
    s0 :: s1 :: l0 :: l1 :: fr_payload f' ++ crc) = Rejected) as Hc.
  { rewrite classify_complete by done. subst crc. rewrite le32_value by done.
    by destruct (Z.eqb_spec (crc32 ([fr_version f'; fr_command f'; s0; s1; l0; l1] ++ fr_payload f'))
      sum). }
  rewrite spec_stream_attempt.
  - by rewrite Hc.
  - by rewrite Hn.
  - sizes.
  - rewrite Hn. subst crc. sizes.
  - by rewrite Hc.
Qed.

(** Damage in transit that leaves magic and length alone: a window of at most
    four bytes of the body, or the checksum. [f'] is what the body reads as. *)
Inductive damage (f f' : frame) : Z -> Prop :=
| damaged_body pre a b post :
    frame_body f = pre ++ a ++ post -> frame_body f' = pre ++ b ++ post ->
    len (fr_payload f) = len (fr_payload f') -> length a = length b -> (length a <= 4)%nat -> a <> b ->
    damage f f' (crc32 (frame_body f))
| damaged_checksum sum :
    f' = f -> u32 sum -> sum <> crc32 (frame_body f) -> damage f f' sum.

Lemma damage_detected f f' sum :
  frame_ok f -> frame_ok f' -> damage f f' sum -> u32 sum /\ crc32 (frame_body f') <> sum.
Proof.
  intros Hf Hf' [pre a b post Ef Ef' Hl Hab H4 Hne|sum' -> Hs Hne]; [|done].
  split; [apply crc32_u32|]. pose proof (bytes_frame_body _ Hf) as Hb. pose proof (bytes_frame_body _ Hf') as Hb'.
  rewrite Ef, Ef' in *. apply Forall_app in Hb as [? [? ?]%Forall_app].
  apply Forall_app in Hb' as [? [? ?]%Forall_app]. intros E. apply Hne. symmetry.
  by apply (crc32_burst pre b a post); [..|lia|].
Qed.

Lemma spec_stream_then_frame s g :
  frame_ok g -> spec_stream [] s = ([], []) -> spec_stream [] (s ++ encode_frame g) = ([], [g]).
Proof. intros Hg Hs. by rewrite spec_stream_app, Hs, spec_stream_encode. Qed.

(** Bytes without the first magic byte end any attempt: it grows by each of them
    until it is over, and none of them starts another. *)
Lemma spec_stream_filler filler : forall acc,
  live acc -> bytes acc -> bytes filler -> Forall (fun b => b <> PROTOCOL_MAGIC_0) filler ->
  let acc' := (spec_stream acc filler).1 in
  live acc' /\ bytes acc' /\ (acc' = [] \/ len acc' = len acc + len filler).
Proof.
  induction filler as [|b filler IH]; intros acc Hl Hb Hf Hm acc'.
  { subst acc'. cbn. rewrite zlen_nil. split; [done|]. split; [done|]. right. lia. }
  apply Forall_cons in Hf as [Hu Hf]. inversion_clear Hm as [|?? Hne Hm'].
  assert (bytes (spec_feed acc b).1 /\ ((spec_feed acc b).1 = [] \/ len (spec_feed acc b).1 = len acc + 1)) as [Hb1 Hlen].
  { assert (bytes (acc ++ [b])) as Hab by (by apply bytes_app, bytes_one).
    assert (len (acc ++ [b]) = len acc + 1) as E by sizes.
    destruct acc as [|x [|y acc]]; cbn [spec_feed].
    - destruct (Z.eqb_spec b PROTOCOL_MAGIC_0); [done|]. split; [apply bytes_nil|by left].
    - destruct (Z.eqb_spec b PROTOCOL_MAGIC_1); [split; [done|by right]|].
      destruct (Z.eqb_spec b PROTOCOL_MAGIC_0); [done|]. split; [apply bytes_nil|by left].
    - destruct (classify _); (split; [auto using bytes_nil|auto]). }
  pose proof (spec_feed_live acc b Hl) as Hl1. subst acc'. cbn [spec_stream].
  destruct (spec_feed acc b) as [acc1 out]. cbn [fst] in *.
  specialize (IH acc1 Hl1 Hb1 Hf Hm'). cbn zeta in IH.
  destruct Hlen as [->|Hlen].
  - rewrite (spec_stream_noise filler Hm'). split; [done|]. split; [apply bytes_nil|by left].
  - destruct (spec_stream acc1 filler) as [acc2 fs]. cbn [fst] in *.
    destruct IH as (? & ? & [?|?]); (split; [done|]); (split; [done|]); [by left|right; sizes].
Qed.

(** Running the C parser on a stream whose frames are known. *)
Lemma parse_stream_run p packet stream acc fs :
  len (prs_buffer p) = PARSER_BUFFER_SIZE -> packet_ok packet -> bytes stream ->
  spec_stream [] stream = (acc, fs) ->
  exists p' packet' packets,
    parse_stream (protocol_parser_init p) packet stream = Some (p', packet', packets) /\
    parser_rel acc p' /\ Forall2 carries packets fs.
Proof.
  intros Hp Hpkt Hs E.
  destruct (parse_stream_refines stream [] _ packet (parser_init_rel p Hp) Hs Hpkt)
    as (p' & packet' & packets & E' & Hrel & _ & Hfs).
  rewrite E in *. by exists p', packet', packets.
Qed.

(** * Theorems *)

(** C13 (roundtrip): what [protocol_send_packet] hands to the transport, fed
    byte by byte to a freshly initialised parser, is delivered as exactly one
    packet with the same command, sequence number and payload, and leaves the
    parser idle. The packet costs exactly one transmission. *)
Theorem send_then_parse {W} `{EspIdf W} command sequence data junk s p packet :
  proto_ok (l_proto s) -> u8 command -> u16 sequence -> bytes data ->
  len data <= PROTOCOL_MAX_PAYLOAD ->
  len (prs_buffer p) = PARSER_BUFFER_SIZE -> packet_ok packet ->
  exists s' out err p' packet' delivered,
    protocol_send_packet command sequence (Some (data ++ junk)) (len data) s = Done tt s' /\
    proto_ok (l_proto s') /\
    trace (l_io s') = EvTx out err :: trace (l_io s) /\
    parse_stream (protocol_parser_init p) packet out = Some (p', packet', [delivered]) /\
    prs_length p' = 0 /\
    carries delivered (mk_frame PROTOCOL_VERSION command sequence data).
Proof.
  intros Hp Hc Hs Hd Hlen Hprs Hpkt.
  assert (frame_ok (sent_frame command sequence data)) as Hf
    by (split_and!; [done..|exact Hlen]).
  pose proof (bytes_encode_frame _ Hf) as Hb.
  destruct (parse_stream_run p packet _ _ _ Hprs Hpkt Hb (spec_stream_encode _ Hf))
    as (p' & packet' & packets & E & [Hidle _ _ _] & Hfs).
  apply Forall2_cons_inv_r in Hfs as (delivered & ? & Hcar & Hnil & ->).
  apply Forall2_nil_inv_r in Hnil as ->.
  destruct (after_send_trace (encode_frame (sent_frame command sequence data)) s) as [err Htr].
  exists (after_send (encode_frame (sent_frame command sequence data)) s).
  do 5 eexists. split; [by apply protocol_send_packet_run|].
  split; [apply after_send_ok; [done|sizes]|]. by split_and!.
Qed.

(** C8 (refinement): fed any byte stream after [protocol_parser_init], the C
    parser never touches memory outside its arrays, keeps its fill level inside
    its buffer, and delivers exactly the frames the stream specification finds,
    with their fields. *)
Theorem parser_refines_stream p packet stream :
  len (prs_buffer p) = PARSER_BUFFER_SIZE -> packet_ok packet -> bytes stream ->
  exists p' packet' packets,
    parse_stream (protocol_parser_init p) packet stream = Some (p', packet', packets) /\
    0 <= prs_length p' < PARSER_BUFFER_SIZE /\
    Forall2 carries packets (spec_stream [] stream).2.
Proof.
  intros Hp Hpkt Hs. destruct (spec_stream [] stream) as [acc fs] eqn:E.
  destruct (parse_stream_run p packet _ _ _ Hp Hpkt Hs E)
    as (p' & packet' & packets & E' & [Hlen _ Hlive Hb] & Hfs).
  exists p', packet', packets. split; [done|]. split; [|done].
  rewrite Hlen. pose proof (live_len _ Hb Hlive). sizes.
Qed.

(** C16 (safety): the packets the parser delivers were really sent: their
    encodings, checksum included, appear complete, in order and without overlap
    in the received stream. *)
Theorem delivered_packets_were_received p packet stream p' packet' packets :
  len (prs_buffer p) = PARSER_BUFFER_SIZE -> packet_ok packet -> bytes stream ->
  parse_stream (protocol_parser_init p) packet stream = Some (p', packet', packets) ->
  carved stream (packet_frame <$> packets).
Proof.
  intros Hp Hpkt Hs E. destruct (spec_stream [] stream) as [acc fs] eqn:Es.
  destruct (parse_stream_run p packet _ _ _ Hp Hpkt Hs Es) as (?&?&?&E'&_&Hfs).
  rewrite E in E'. injection E' as <- <- <-.
  assert (packet_frame <$> packets = fs) as ->.
  { clear -Hfs. induction Hfs as [|?? ?? [? _]]; [done|]. by f_equal/=. }
  pose proof (spec_stream_sound stream [] I bytes_nil Hs) as H. by rewrite Es in H.
Qed.

(** C17 (error): a frame whose body or checksum was damaged in transit is dropped
    and costs nothing but itself. If one window of at most four consecutive
    bytes of version, command, sequence or payload was altered, or the checksum
    was, while magic and length arrived intact, the parser delivers nothing for
    it, and delivers the next good frame. *)
Theorem damaged_frame_is_dropped p packet f f' sum g :
  len (prs_buffer p) = PARSER_BUFFER_SIZE -> packet_ok packet ->
  frame_ok f -> frame_ok f' -> frame_ok g -> damage f f' sum ->
  exists p' packet' delivered,
    parse_stream (protocol_parser_init p) packet
      ([PROTOCOL_MAGIC_0; PROTOCOL_MAGIC_1] ++ frame_body f' ++ le32 sum ++ encode_frame g) =
      Some (p', packet', [delivered]) /\
    prs_length p' = 0 /\ carries delivered g.
Proof.
  intros Hp Hpkt Hf Hf' Hg Hdam. destruct (damage_detected _ _ _ Hf Hf' Hdam) as [Hsum Hcrc].
  pose proof (bytes_frame_body _ Hf') as Hb'.
  pose proof (spec_stream_then_frame _ _ Hg (spec_stream_corrupt f' sum Hf' Hsum Hcrc)) as Hst.
  rewrite <-!app_assoc in Hst.
  assert (bytes ([PROTOCOL_MAGIC_0; PROTOCOL_MAGIC_1] ++ frame_body f' ++ le32 sum ++ encode_frame g)) as Hs.
  { apply bytes_app; [by repeat constructor|]. auto using bytes_app, bytes_le32, bytes_encode_frame. }
  destruct (parse_stream_run p packet _ _ _ Hp Hpkt Hs Hst)
    as (p' & packet' & packets & E & [Hidle _ _ _] & Hfs).
  apply Forall2_cons_inv_r in Hfs as (delivered & ? & Hcar & Hnil & ->).
  apply Forall2_nil_inv_r in Hnil as ->. by exists p', packet', delivered.
Qed.

(** C38 (liveness): the parser recovers from everything it may have read. After
    any byte stream, truncated frames and damaged lengths included, a pause of
    [PARSER_BUFFER_SIZE] bytes none of which is the first magic byte leaves it
    idle, and the next good frame is delivered. *)
Theorem parser_resynchronises p packet stream filler g :
  len (prs_buffer p) = PARSER_BUFFER_SIZE -> packet_ok packet -> bytes stream -> bytes filler ->
  Forall (fun b => b <> PROTOCOL_MAGIC_0) filler -> PARSER_BUFFER_SIZE <= len filler -> frame_ok g ->
  exists p1 packet1 before p2 packet2 delivered,
    parse_stream (protocol_parser_init p) packet (stream ++ filler) = Some (p1, packet1, before) /\
    prs_length p1 = 0 /\
    parse_stream p1 packet1 (encode_frame g) = Some (p2, packet2, [delivered]) /\
    prs_length p2 = 0 /\ carries delivered g.
Proof.
  intros Hp Hpkt Hs Hf Hm Hn Hg.
  destruct (parse_stream_refines stream [] _ packet (parser_init_rel p Hp) Hs Hpkt)
    as (p0 & packet0 & packets0 & E0 & Hrel0 & Hpkt0 & _).
  destruct (parse_stream_refines filler _ p0 packet0 Hrel0 Hf Hpkt0)
    as (p1 & packet1 & packets1 & E1 & Hrel1 & Hpkt1 & _).
  destruct (spec_stream_filler filler _ (rel_live _ _ Hrel0) (rel_bytes _ _ Hrel0) Hf Hm) as (Hl1 & Hb1 & Hor).
  assert ((spec_stream (spec_stream [] stream).1 filler).1 = []) as Hidle.
  { destruct Hor as [|Hlen]; [done|]. pose proof (live_len _ Hb1 Hl1).
    pose proof (zlen_nonneg (spec_stream [] stream).1). lia. }
  rewrite Hidle in Hrel1.
  destruct (parse_stream_refines (encode_frame g) [] p1 packet1 Hrel1 (bytes_encode_frame _ Hg) Hpkt1)
    as (p2 & packet2 & packets2 & E2 & Hrel2 & _ & Hfs).
  rewrite spec_stream_encode in Hrel2, Hfs by done. cbn [fst snd] in *.
  apply Forall2_cons_inv_r in Hfs as (delivered & ? & Hcar & Hnil & ->).
  apply Forall2_nil_inv_r in Hnil as ->.
  exists p1, packet1, (packets0 ++ packets1), p2, packet2, delivered.
  split; [by eapply parse_stream_app|]. split; [apply (rel_length _ _ Hrel1)|].
  split; [done|]. split; [apply (rel_length _ _ Hrel2)|done].
Qed.

(** ** Concrete instances *)

Definition example_parser : protocol_parser_t := mk_parser (zeros PARSER_BUFFER_SIZE) 0.
Definition example_packet : protocol_packet_t := mk_packet 0 0 0 0 (zeros PROTOCOL_MAX_PAYLOAD).
Definition example_link : link sim :=
  mk_link (mk_proto 0 None 0 (zeros TX_BUFFER_SIZE)) (sim_io sim_init).
Definition example_frame (data : list Z) : frame := mk_frame PROTOCOL_VERSION 0x10 513 data.

Lemma example_frame_ok data :
  bytes data -> len data <= PROTOCOL_MAX_PAYLOAD -> frame_ok (example_frame data).
Proof. intros. split_and!; done. Qed.

Lemma send_then_parse_witness :
  exists s' out err p' packet' delivered,
    protocol_send_packet 0x10 513 (Some ([1; 2; 3] ++ [9; 9])) 3 example_link = Done tt s' /\
    proto_ok (l_proto s') /\ trace (l_io s') = [EvTx out err] /\
    parse_stream (protocol_parser_init example_parser) example_packet out =
      Some (p', packet', [delivered]) /\
    prs_length p' = 0 /\ carries delivered (mk_frame PROTOCOL_VERSION 0x10 513 [1; 2; 3]).
Proof.
  apply (send_then_parse 0x10 513 [1; 2; 3] [9; 9] example_link example_parser example_packet);
    try done. repeat constructor; unfold u8; lia.
Defined.

Lemma parser_refines_stream_witness :
  exists p' packet' packets,
    parse_stream (protocol_parser_init example_parser) example_packet [0; 0xAA; 0xAA; 0x55; 1] =
      Some (p', packet', packets) /\
    0 <= prs_length p' < PARSER_BUFFER_SIZE /\
    Forall2 carries packets (spec_stream [] [0; 0xAA; 0xAA; 0x55; 1]).2.
Proof.
  apply parser_refines_stream; try done. repeat constructor; unfold u8; lia.
Defined.

Lemma delivered_packets_were_received_witness :
  exists packets, length packets = 1%nat /\
    carved ([7; 8] ++ encode_frame (example_frame [5])) (packet_frame <$> packets).
Proof.
  destruct (parse_stream (protocol_parser_init example_parser) example_packet
    ([7; 8] ++ encode_frame (example_frame [5]))) as [[[p' packet'] packets]|] eqn:E.
  2:{ exfalso. revert E. vm_compute. discriminate. }
  exists packets. split.
  - revert E. vm_compute. by intros [= _ _ <-].
  - refine (delivered_packets_were_received example_parser example_packet _ p' packet' packets
      eq_refl eq_refl _ E).
    apply bytes_app; [repeat constructor; unfold u8; lia|]. apply bytes_encode_frame.
    apply example_frame_ok; [apply bytes_one; unfold u8; lia|done].
Defined.

Lemma damaged_frame_is_dropped_witness :
  exists p' packet' delivered,
    parse_stream (protocol_parser_init example_parser) example_packet
      ([PROTOCOL_MAGIC_0; PROTOCOL_MAGIC_1] ++ frame_body (example_frame [1; 2; 7; 4]) ++
       le32 (crc32 (frame_body (example_frame [1; 2; 3; 4]))) ++ encode_frame (example_frame [])) =
      Some (p', packet', [delivered]) /\
    prs_length p' = 0 /\ carries delivered (example_frame []).
Proof.
  apply (damaged_frame_is_dropped example_parser example_packet
           (example_frame [1; 2; 3; 4]) (example_frame [1; 2; 7; 4]) _ (example_frame [])); try done;
    try (apply example_frame_ok; [|done]; repeat constructor; unfold u8; lia).
  apply (damaged_body _ _ [1; 0x10; 1; 2; 4; 0; 1; 2] [3] [7] [4]); try done. simpl. lia.
Defined.

Lemma parser_resynchronises_witness :
  exists p1 packet1 before p2 packet2 delivered,
    parse_stream (protocol_parser_init example_parser) example_packet
      ([0xAA; 0x55; 1; 0x10; 0; 0; 0; 4; 9] ++ zeros PARSER_BUFFER_SIZE) = Some (p1, packet1, before) /\
    prs_length p1 = 0 /\
    parse_stream p1 packet1 (encode_frame (example_frame [1])) = Some (p2, packet2, [delivered]) /\
    prs_length p2 = 0 /\ carries delivered (example_frame [1]).
Proof.
  apply (parser_resynchronises example_parser example_packet [0xAA; 0x55; 1; 0x10; 0; 0; 0; 4; 9]
    (zeros PARSER_BUFFER_SIZE) (example_frame [1])); try done.
  - repeat constructor; unfold u8; lia.
  - apply bytes_zeros.
  - by apply Forall_replicate.
  - apply example_frame_ok; [|done]. repeat constructor; unfold u8; lia.
Defined.
