(* ===== verification/Hmac.v ===== *)
(** auth.c, lines 64-203: the HMAC-SHA256 helper, the constant-time comparison
    and the four functions that lay out the bytes a digest or tag covers; the
    RFC 2104 construction and the domain separation of the tags. *)
From Stdlib Require Import String Ascii.
From S2P Require Import Prelude Machine EspIdf SimEnv Protocol.

(** * Constants *)

(** The bytes of a string literal, without its NUL. *)
Definition string_bytes (s : string) : list Z :=
  (fun c => Z.of_N (N_of_ascii c)) <$> list_ascii_of_string s.

Definition AUTH_KEY_MAX_SIZE : Z := 64.
Definition AUTH_NONCE_SIZE : Z := 16.
Definition AUTH_TAG_SIZE : Z := 16.
Definition HMAC_BLOCK_SIZE : Z := 64.
Definition SHA256_SIZE : Z := 32.
Definition AUTH_PROOF_PREFIX : list Z := string_bytes "auth-proof".
Definition AUTH_DEVICE_PROOF_PREFIX : list Z := string_bytes "device-proof".
Definition AUTH_SESSION_PREFIX : list Z := string_bytes "session".
Definition AUTH_RESPONSE_PREFIX : list Z := string_bytes "response".
Definition HMAC_MAX_DATA_SIZE : Z := len AUTH_RESPONSE_PREFIX + 4 + PROTOCOL_MAX_PAYLOAD.
#[export] Hint Unfold AUTH_KEY_MAX_SIZE AUTH_NONCE_SIZE AUTH_TAG_SIZE HMAC_BLOCK_SIZE SHA256_SIZE
  HMAC_MAX_DATA_SIZE : consts.

(** * The code

    In this file a function returns [None] on an access outside an array or to
    an unwritten local; a C function returning [bool] with an output array
    returns [Some None] for [false] and [Some (Some output)] for [true]. *)

Section Code.
Context `{Sha256}.

Definition hmac_sha256 (key : option (list Z)) (key_len : Z) (data : option (list Z))
    (data_len : Z) : option (option (list Z)) :=
  key_block ←
    (if HMAC_BLOCK_SIZE <? key_len then
       key ← key; input ← slice key 0 key_len; blit (zeros HMAC_BLOCK_SIZE) 0 (esp_sha input)
     else
       match key with
       | Some key =>
           if 0 <? key_len then memcpy (zeros HMAC_BLOCK_SIZE) 0 key 0 key_len
           else Some (zeros HMAC_BLOCK_SIZE)
       | None => Some (zeros HMAC_BLOCK_SIZE)
       end);
  if HMAC_MAX_DATA_SIZE <? data_len then Some None else
  pads ← c_for HMAC_BLOCK_SIZE
    (fun i '(inner_input, outer_input) =>
       k ← zget key_block i;
       inner_input ← lset inner_input i (Z.lxor k 0x36);
       outer_input ← lset outer_input i (Z.lxor k 0x5C);
       Some (inner_input, outer_input))
    (undef (HMAC_BLOCK_SIZE + HMAC_MAX_DATA_SIZE), undef (HMAC_BLOCK_SIZE + SHA256_SIZE));
  let '(inner_input, outer_input) := pads in
  inner_input ←
    match data with
    | Some data =>
        if 0 <? data_len then s ← slice data 0 data_len; lblit inner_input HMAC_BLOCK_SIZE s
        else Some inner_input
    | None => Some inner_input
    end;
  input ← lslice inner_input 0 (HMAC_BLOCK_SIZE + data_len);
  let inner_hash := esp_sha input in
  outer_input ← lblit outer_input HMAC_BLOCK_SIZE inner_hash;
  input ← lslice outer_input 0 (HMAC_BLOCK_SIZE + SHA256_SIZE);
  Some (Some (esp_sha input)).

Definition constant_time_equal (left right : list Z) (length : Z) : option bool :=
  diff ← c_for length
    (fun i diff =>
       l ← zget left i; r ← zget right i;
       Some (Z.lor diff (Z.lxor l r))) 0;
  Some (diff =? 0).

Definition hmac_prefixed_nonce_pair (prefix key : list Z) (key_len : Z)
    (client_nonce server_nonce : list Z) : option (option (list Z)) :=
  let input_size := 32 + 2 * AUTH_NONCE_SIZE in
  let prefix_len := len prefix in
  if input_size <? prefix_len + 2 * AUTH_NONCE_SIZE then Some None else
  input ← lblit (undef input_size) 0 prefix;
  c ← slice client_nonce 0 AUTH_NONCE_SIZE;
  input ← lblit input prefix_len c;
  s ← slice server_nonce 0 AUTH_NONCE_SIZE;
  input ← lblit input (prefix_len + AUTH_NONCE_SIZE) s;
  data ← lslice input 0 (prefix_len + 2 * AUTH_NONCE_SIZE);
  hmac_sha256 (Some key) key_len (Some data) (prefix_len + 2 * AUTH_NONCE_SIZE).

(** Lines 142-148 and 165-171 share this shape: command, sequence, payload. *)
Definition request_input (command sequence : Z) (payload : option (list Z)) (length : Z)
  : option (list Z) :=
  input ← lset (undef (1 + 2 + PROTOCOL_MAX_PAYLOAD)) 0 command;
  input ← lset input 1 (Z.land sequence 0xFF);
  input ← lset input 2 (Z.land (Z.shiftr sequence 8) 0xFF);
  input ←
    match payload with
    | Some payload => if 0 <? length then s ← slice payload 0 length; lblit input 3 s else Some input
    | None => Some input
    end;
  lslice input 0 (3 + length).

Definition compute_request_digest (packet : protocol_packet_t) : option (list Z) :=
  input ← request_input (pkt_command packet) (pkt_sequence packet) (Some (pkt_payload packet))
    (pkt_length packet);
  Some (esp_sha input).

(** [s_auth.session_key] is a parameter. *)
Definition compute_packet_tag (session_key : list Z) (command sequence : Z)
    (payload : option (list Z)) (length : Z) : option (option (list Z)) :=
  input ← request_input command sequence payload length;
  hmac_sha256 (Some session_key) SHA256_SIZE (Some input) (3 + length).

Definition compute_response_tag (session_key : list Z) (request_command response_command sequence : Z)
    (payload : option (list Z)) (length : Z) : option (option (list Z)) :=
  let offset := 0 in
  input ← lblit (undef (len AUTH_RESPONSE_PREFIX + 1 + 1 + 2 + PROTOCOL_MAX_PAYLOAD)) 0
    AUTH_RESPONSE_PREFIX;
  let offset := offset + len AUTH_RESPONSE_PREFIX in
  input ← lset input offset request_command;
  input ← lset input (offset + 1) response_command;
  input ← lset input (offset + 2) (Z.land sequence 0xFF);
  input ← lset input (offset + 3) (Z.land (Z.shiftr sequence 8) 0xFF);
  let offset := offset + 4 in
  filled ←
    match payload with
    | Some payload =>
        if 0 <? length then
          s ← slice payload 0 length; input ← lblit input offset s; Some (input, offset + length)
        else Some (input, offset)
    | None => Some (input, offset)
    end;
  let '(input, offset) := filled in
  data ← lslice input 0 offset;
  hmac_sha256 (Some session_key) SHA256_SIZE (Some data) offset.
End Code.

(** * Specifications *)

Section Spec.
Context `{Sha256}.

(** RFC 2104, for a hash with 64-byte blocks. *)
Definition hmac_block (key : list Z) : list Z :=
  let key := if HMAC_BLOCK_SIZE <? len key then esp_sha key else key in
  key ++ zeros (HMAC_BLOCK_SIZE - len key).
Definition hmac (key message : list Z) : list Z :=
  let ipad := (fun b => Z.lxor b 0x36) <$> hmac_block key in
  let opad := (fun b => Z.lxor b 0x5C) <$> hmac_block key in
  esp_sha (opad ++ esp_sha (ipad ++ message)).

(** The messages that are authenticated (protocol/protocol.md). *)
Definition request_message (command sequence : Z) (payload : list Z) : list Z :=
  [command] ++ le16 sequence ++ payload.
Definition response_message (request_command response_command sequence : Z) (payload : list Z)
  : list Z :=
  AUTH_RESPONSE_PREFIX ++ [request_command; response_command] ++ le16 sequence ++ payload.

(** The tags: the first [AUTH_TAG_SIZE] bytes of an HMAC. *)
Definition tag_of (mac : list Z) : list Z := take (Z.to_nat AUTH_TAG_SIZE) mac.
Definition request_tag (session_key : list Z) (command sequence : Z) (payload : list Z) : list Z :=
  tag_of (hmac session_key (request_message command sequence payload)).
Definition response_tag (session_key : list Z) (request_command response_command sequence : Z)
    (payload : list Z) : list Z :=
  tag_of (hmac session_key (response_message request_command response_command sequence payload)).
End Spec.

(** * Lemmas *)

Lemma zlen_prefixes :
  len AUTH_PROOF_PREFIX = 10 /\ len AUTH_DEVICE_PROOF_PREFIX = 12 /\
  len AUTH_SESSION_PREFIX = 7 /\ len AUTH_RESPONSE_PREFIX = 8.
Proof. done. Qed.

Lemma HMAC_MAX_DATA_SIZE_value : HMAC_MAX_DATA_SIZE = 1036.
Proof. done. Qed.

(** The loop that writes both pads. *)
Lemma pads_loop (kb pre post : list Z) (f g : Z -> Z) n m :
  len pre + len kb <= n -> len pre + len kb <= m ->
  for_loop (length kb) (len pre)
    (fun i '(a, b) =>
       k ← zget (pre ++ kb ++ post) i;
       a ← lset a i (f k); b ← lset b i (g k); Some (a, b))
    (filled (f <$> pre) n, filled (g <$> pre) m) =
  Some (filled (f <$> (pre ++ kb)) n, filled (g <$> (pre ++ kb)) m).
Proof.
  revert pre. induction kb as [|k kb IH]; intros pre Hn Hm.
  { cbn. by rewrite app_nil_r. }
  cbn [length for_loop]. rewrite <-app_comm_cons, zget_mid by done. cbn [mbind option_bind].
  rewrite lset_filled by sizes. cbn [mbind option_bind].
  rewrite lset_filled by sizes. cbn [mbind option_bind].
  replace (len pre + 1) with (len (pre ++ [k])) by sizes.
  replace (pre ++ k :: kb ++ post) with ((pre ++ [k]) ++ kb ++ post) by (by rewrite <-app_assoc).
  change [f k] with (f <$> [k]). change [g k] with (g <$> [k]). rewrite <-!fmap_app.
  rewrite IH by sizes. by rewrite <-app_assoc.
Qed.

Section Runs.
Context `{Sha256Spec}.

Lemma zlen_esp_sha l : len (esp_sha l) = 32.
Proof. apply esp_sha_len. Qed.
Lemma zlen_hmac key message : len (hmac key message) = 32.
Proof. apply esp_sha_len. Qed.
Hint Rewrite zlen_esp_sha : zlen.

Lemma zlen_hmac_block key : len (hmac_block key) = HMAC_BLOCK_SIZE.
Proof.
  unfold hmac_block. destruct (Z.ltb_spec HMAC_BLOCK_SIZE (len key)); [|sizes].
  rewrite zlen_app, zlen_zeros, zlen_esp_sha. done.
Qed.

(** The code's key block is RFC 2104's, for keys of any length. *)
Lemma key_block_run key junk :
  (if HMAC_BLOCK_SIZE <? len key then
     input ← slice (key ++ junk) 0 (len key); blit (zeros HMAC_BLOCK_SIZE) 0 (esp_sha input)
   else
     if 0 <? len key then memcpy (zeros HMAC_BLOCK_SIZE) 0 (key ++ junk) 0 (len key)
     else Some (zeros HMAC_BLOCK_SIZE)) = Some (hmac_block key).
Proof.
  assert (forall s, len s <= HMAC_BLOCK_SIZE ->
    blit (zeros HMAC_BLOCK_SIZE) 0 s = Some (s ++ zeros (HMAC_BLOCK_SIZE - len s))) as Hz.
  { intros s Hs. rewrite <-(over_nil (zeros HMAC_BLOCK_SIZE)), blit_over by sizes.
    unfold over, zeros. cbn [app]. rewrite drop_replicate. do 3 f_equal. sizes. }
  unfold hmac_block. destruct (Z.ltb_spec HMAC_BLOCK_SIZE (len key)).
  - rewrite slice_prefix by done. apply Hz. rewrite zlen_esp_sha. done.
  - destruct (Z.ltb_spec 0 (len key)).
    + unfold memcpy. rewrite slice_prefix by done. by apply Hz.
    + by rewrite (zlen_0_inv key) by sizes.
Qed.

Lemma hmac_sha256_run key kjunk data djunk :
  len data <= HMAC_MAX_DATA_SIZE ->
  hmac_sha256 (Some (key ++ kjunk)) (len key) (Some (data ++ djunk)) (len data) =
  Some (Some (hmac key data)).
Proof.
  intros Hd. unfold hmac_sha256. cbn [mbind option_bind].
  pose proof (key_block_run key kjunk) as Hk. cbn [mbind option_bind] in Hk. rewrite Hk.
  cbn [mbind option_bind]. destruct (Z.ltb_spec HMAC_MAX_DATA_SIZE (len data)); [lia|].
  set (kb := hmac_block key). pose proof (zlen_hmac_block key) as Hkb. fold kb in Hkb.
  rewrite HMAC_MAX_DATA_SIZE_value in *.
  pose proof (pads_loop kb [] [] (fun b => Z.lxor b 0x36) (fun b => Z.lxor b 0x5C)
    (HMAC_BLOCK_SIZE + 1036) (HMAC_BLOCK_SIZE + SHA256_SIZE) ltac:(sizes) ltac:(sizes)) as Hl.
  cbn [app fmap list_fmap] in Hl. rewrite !app_nil_r in Hl.
  unfold c_for. replace (Z.to_nat HMAC_BLOCK_SIZE) with (length kb) by (unfold zlen in Hkb; lia).
  rewrite (undef_filled (_ + 1036)), (undef_filled (_ + SHA256_SIZE)). change (len []) with 0 in Hl. rewrite Hl. cbn [mbind option_bind].
  set (ipad := (fun b => Z.lxor b 0x36) <$> kb). set (opad := (fun b => Z.lxor b 0x5C) <$> kb).
  assert (len ipad = HMAC_BLOCK_SIZE /\ len opad = HMAC_BLOCK_SIZE) as [Hi Ho]
    by (subst ipad opad; by rewrite !zlen_fmap).
  assert ((if 0 <? len data
           then s ← slice (data ++ djunk) 0 (len data);
                lblit (filled ipad (HMAC_BLOCK_SIZE + 1036)) HMAC_BLOCK_SIZE s
           else Some (filled ipad (HMAC_BLOCK_SIZE + 1036))) =
          Some (filled (ipad ++ data) (HMAC_BLOCK_SIZE + 1036))) as Hdata.
  { destruct (Z.ltb_spec 0 (len data)).
    - rewrite slice_prefix by done. cbn [mbind option_bind]. apply lblit_filled; sizes.
    - by rewrite (zlen_0_inv data), app_nil_r by sizes. }
  cbn [mbind option_bind] in Hdata. rewrite Hdata. cbn [mbind option_bind].
  rewrite lslice_filled by sizes. cbn [mbind option_bind].
  rewrite lblit_filled by (rewrite ?zlen_esp_sha; sizes). cbn [mbind option_bind].
  rewrite lslice_filled by (rewrite zlen_app, zlen_esp_sha; sizes). done.
Qed.

Lemma hmac_sha256_too_long key kjunk data n :
  HMAC_MAX_DATA_SIZE < n ->
  hmac_sha256 (Some (key ++ kjunk)) (len key) data n = Some None.
Proof.
  intros Hn. unfold hmac_sha256. cbn [mbind option_bind].
  pose proof (key_block_run key kjunk) as Hk. cbn [mbind option_bind] in Hk. rewrite Hk.
  cbn [mbind option_bind]. by destruct (Z.ltb_spec HMAC_MAX_DATA_SIZE n); [|lia].
Qed.
(** ** The inputs of digests and tags *)

Lemma request_input_run command sequence payload junk :
  len payload <= PROTOCOL_MAX_PAYLOAD ->
  request_input command sequence (Some (payload ++ junk)) (len payload) =
  Some (request_message command sequence payload).
Proof.
  intros Hp. unfold request_input. rewrite undef_filled.
  rewrite lset_filled by sizes. cbn [mbind option_bind].
  rewrite lset_filled by sizes. cbn [mbind option_bind].
  rewrite lset_filled by sizes. cbn [mbind option_bind].
  rewrite !land_255, (shiftr_div _ 8 256) by done. cbn [app].
  set (pre := [command; _; _]). set (n := 1 + 2 + PROTOCOL_MAX_PAYLOAD).
  assert ((if 0 <? len payload
           then s ← slice (payload ++ junk) 0 (len payload); lblit (filled pre n) 3 s
           else Some (filled pre n)) = Some (filled (pre ++ payload) n)) as ->.
  { destruct (Z.ltb_spec 0 (len payload)).
    - rewrite slice_prefix by done. cbn [mbind option_bind]. subst pre n. apply lblit_filled; sizes.
    - by rewrite (zlen_0_inv payload), app_nil_r by sizes. }
  cbn [mbind option_bind]. rewrite lslice_filled; [done|]. subst pre. sizes.
Qed.

Lemma zlen_request_message command sequence payload :
  len (request_message command sequence payload) = 3 + len payload.
Proof. unfold request_message. sizes. Qed.
Lemma zlen_response_message rq rs sequence payload :
  len (response_message rq rs sequence payload) = 12 + len payload.
Proof. unfold response_message. pose proof zlen_prefixes. sizes. Qed.

(** A packet whose payload array starts with [payload]. *)
Lemma compute_request_digest_run packet payload junk :
  pkt_payload packet = payload ++ junk -> pkt_length packet = len payload ->
  len payload <= PROTOCOL_MAX_PAYLOAD ->
  compute_request_digest packet =
  Some (esp_sha (request_message (pkt_command packet) (pkt_sequence packet) payload)).
Proof.
  intros Hp Hl Hmax. unfold compute_request_digest. rewrite Hp, Hl, request_input_run by done. done.
Qed.

Lemma compute_packet_tag_run session_key command sequence payload junk :
  len session_key = SHA256_SIZE -> len payload <= PROTOCOL_MAX_PAYLOAD ->
  compute_packet_tag session_key command sequence (Some (payload ++ junk)) (len payload) =
  Some (Some (hmac session_key (request_message command sequence payload))).
Proof.
  intros Hk Hp. unfold compute_packet_tag. rewrite request_input_run by done.
  cbn [mbind option_bind].
  pose proof (hmac_sha256_run session_key [] (request_message command sequence payload) []) as E.
  rewrite !app_nil_r, zlen_request_message, Hk, HMAC_MAX_DATA_SIZE_value in E. apply E. sizes.
Qed.

Lemma compute_response_tag_run session_key rq rs sequence payload junk :
  len session_key = SHA256_SIZE -> len payload <= PROTOCOL_MAX_PAYLOAD ->
  compute_response_tag session_key rq rs sequence (Some (payload ++ junk)) (len payload) =
  Some (Some (hmac session_key (response_message rq rs sequence payload))).
Proof.
  intros Hk Hp. pose proof zlen_prefixes as (_&_&_&H8). unfold compute_response_tag.
  rewrite undef_filled. rewrite lblit_filled by sizes. cbn [mbind option_bind app].
  rewrite Z.add_0_l. do 4 (rewrite lset_filled by sizes; cbn [mbind option_bind]).
  rewrite !land_255, (shiftr_div _ 8 256), <-!app_assoc by done. cbn [app].
  set (pre := AUTH_RESPONSE_PREFIX ++ _). set (n := _ + PROTOCOL_MAX_PAYLOAD).
  assert (len pre = len AUTH_RESPONSE_PREFIX + 4) as Hpre by (subst pre; sizes).
  assert (n = 1036) as Hn by (subst n; rewrite H8; done).
  assert ((if 0 <? len payload
           then s ← slice (payload ++ junk) 0 (len payload);
                input ← lblit (filled pre n) (len AUTH_RESPONSE_PREFIX + 4) s;
                Some (input, len AUTH_RESPONSE_PREFIX + 4 + len payload)
           else Some (filled pre n, len AUTH_RESPONSE_PREFIX + 4)) =
          Some (filled (pre ++ payload) n, len AUTH_RESPONSE_PREFIX + 4 + len payload)) as ->.
  { destruct (Z.ltb_spec 0 (len payload)).
    - rewrite slice_prefix by done. cbn [mbind option_bind]. by rewrite lblit_filled by sizes.
    - rewrite (zlen_0_inv payload) by sizes. by rewrite app_nil_r, zlen_nil, Z.add_0_r. }
  cbn [mbind option_bind]. rewrite lslice_filled by sizes. cbn [mbind option_bind].
  pose proof (hmac_sha256_run session_key [] (response_message rq rs sequence payload) []) as E.
  rewrite !app_nil_r, zlen_response_message, Hk, HMAC_MAX_DATA_SIZE_value in E.
  rewrite H8. replace (8 + 4 + len payload) with (12 + len payload) by lia.
  assert (pre ++ payload = response_message rq rs sequence payload) as ->.
  { subst pre. unfold response_message. by rewrite <-app_assoc. }
  apply E. sizes.
Qed.

Lemma hmac_prefixed_nonce_pair_run prefix key kjunk client server :
  len prefix <= 32 -> len client = AUTH_NONCE_SIZE -> len server = AUTH_NONCE_SIZE ->
  hmac_prefixed_nonce_pair prefix (key ++ kjunk) (len key) client server =
  Some (Some (hmac key (prefix ++ client ++ server))).
Proof.
  intros Hp Hc Hs. unfold hmac_prefixed_nonce_pair.
  destruct (Z.ltb_spec (32 + 2 * AUTH_NONCE_SIZE) (len prefix + 2 * AUTH_NONCE_SIZE)); [lia|].
  rewrite undef_filled, lblit_filled by sizes. cbn [mbind option_bind app].
  rewrite (slice_all client) by done. cbn [mbind option_bind].
  rewrite lblit_filled by sizes. cbn [mbind option_bind].
  rewrite (slice_all server) by done. cbn [mbind option_bind].
  rewrite lblit_filled by sizes. cbn [mbind option_bind].
  rewrite lslice_filled by sizes. cbn [mbind option_bind].
  pose proof (hmac_sha256_run key kjunk (prefix ++ client ++ server) []) as E.
  rewrite app_nil_r, HMAC_MAX_DATA_SIZE_value in E. rewrite <-app_assoc.
  replace (len prefix + 2 * AUTH_NONCE_SIZE) with (len (prefix ++ client ++ server)) by sizes.
  apply E. sizes.
Qed.

Lemma zlen_tag_of mac : len mac = 32 -> len (tag_of mac) = AUTH_TAG_SIZE.
Proof. intros. unfold tag_of. sizes. Qed.
Lemma zlen_request_tag k c s p : len (request_tag k c s p) = AUTH_TAG_SIZE.
Proof. apply zlen_tag_of, zlen_hmac. Qed.
Lemma zlen_response_tag k rq rs s p : len (response_tag k rq rs s p) = AUTH_TAG_SIZE.
Proof. apply zlen_tag_of, zlen_hmac. Qed.
End Runs.
#[export] Hint Rewrite @zlen_esp_sha @zlen_hmac @zlen_hmac_block using typeclasses eauto : zlen.

(** ** The comparison *)

Lemma constant_time_loop l r preL preR postL postR diff :
  length l = length r -> len preL = len preR ->
  exists d,
    for_loop (length l) (len preL)
      (fun i diff =>
         a ← zget (preL ++ l ++ postL) i; b ← zget (preR ++ r ++ postR) i;
         Some (Z.lor diff (Z.lxor a b))) diff = Some d /\
    (d = 0 <-> diff = 0 /\ l = r).
Proof.
  revert r preL preR diff. induction l as [|x l IH]; intros [|y r] preL preR diff Hl Hp; try done.
  { exists diff. split; [done|]. naive_solver. }
  cbn [length for_loop]. rewrite <-!app_comm_cons.
  rewrite (zget_mid preL), (zget_mid preR) by done. cbn [mbind option_bind].
  injection Hl as Hl.
  destruct (IH r (preL ++ [x]) (preR ++ [y]) (Z.lor diff (Z.lxor x y))) as (d & E & Hd);
    [done|sizes|].
  exists d. split.
  - rewrite <-E, <-!app_assoc. f_equal. sizes.
  - rewrite Hd, Z.lor_eq_0_iff, Z.lxor_eq_0_iff. naive_solver.
Qed.

Lemma constant_time_equal_run l r postL postR n :
  len l = n -> len r = n ->
  constant_time_equal (l ++ postL) (r ++ postR) n = Some (bool_decide (l = r)).
Proof.
  intros Hl Hr. unfold constant_time_equal, c_for.
  replace (Z.to_nat n) with (length l) by sizes.
  destruct (constant_time_loop l r [] [] postL postR 0) as (d & E & Hd); [sizes|done|].
  cbn [app] in E. change (len []) with 0 in E. rewrite E. cbn [mbind option_bind]. f_equal.
  apply Bool.eq_iff_eq_true. rewrite Z.eqb_eq, bool_decide_eq_true. naive_solver.
Qed.

Lemma zget_end (l : list Z) i : len l <= i -> zget l i = None.
Proof.
  intros Hi. unfold zget. pose proof (zlen_nonneg l). rewrite (proj2 (Z.leb_le _ _)) by lia.
  apply lookup_ge_None. sizes.
Qed.

Lemma constant_time_undefined left right n k :
  0 <= k < n -> zget left k = None \/ zget right k = None -> constant_time_equal left right n = None.
Proof.
  intros Hk Hnone. unfold constant_time_equal, c_for. rewrite (for_loop_undefined _ _ _ k); [done|lia|].
  intros acc. destruct Hnone as [->|E]; [done|]. destruct (zget left k); [|done]. cbn [mbind option_bind]. by rewrite E.
Qed.

(** ** Domain separation *)

Lemma le16_inj a b : u16 a -> u16 b -> le16 a = le16 b -> a = b.
Proof. intros Ha Hb E. by rewrite <-(le16_value a), E, le16_value. Qed.

Lemma request_message_inj c c' s s' p p' :
  u16 s -> u16 s' -> request_message c s p = request_message c' s' p' -> c = c' /\ s = s' /\ p = p'.
Proof.
  intros Hs Hs'. unfold request_message. cbn [app]. intros [= -> E1 E2 ->].
  split; [done|]. split; [|done]. apply le16_inj; [done..|]. unfold le16. by rewrite E1, E2.
Qed.

Lemma response_message_inj rq rq' rs rs' s s' p p' :
  u16 s -> u16 s' -> response_message rq rs s p = response_message rq' rs' s' p' ->
  rq = rq' /\ rs = rs' /\ s = s' /\ p = p'.
Proof.
  intros Hs Hs'. unfold response_message. intros E%app_inv_head. cbn [app] in E.
  injection E as -> -> E1 E2 ->.
  split; [done|]. split; [done|]. split; [|done]. apply le16_inj; [done..|].
  unfold le16. by rewrite E1, E2.
Qed.

(** * Properties *)

(** C22 (equivalence): [hmac_sha256] is the HMAC of RFC 2104 over the given hash
    for keys of every length (longer than a block: hashed first) and messages up
    to [HMAC_MAX_DATA_SIZE], it refuses longer messages, and it never reads or
    writes outside its arrays nor reads an unwritten cell. The arrays may
    continue after the key and the message. *)
Theorem hmac_sha256_is_rfc2104 `{Sha256Spec} key kjunk data djunk :
  hmac_sha256 (Some (key ++ kjunk)) (len key) (Some (data ++ djunk)) (len data) =
  Some (if len data <=? HMAC_MAX_DATA_SIZE then Some (hmac key data) else None).
Proof.
  destruct (Z.leb_spec (len data) HMAC_MAX_DATA_SIZE).
  - by apply hmac_sha256_run.
  - by apply hmac_sha256_too_long.
Qed.

(** C33 (equivalence): [constant_time_equal] reads all [n] bytes of both arrays
    and decides whether they are equal. It is defined exactly if both arrays hold
    [n] bytes, whatever those bytes are: where the first difference lies does not
    shorten the reads, so an early exit would be defined on more arrays than
    this. When it is defined, the accumulated difference loses nothing. *)
Theorem constant_time_equal_decides left right n :
  constant_time_equal left right n =
  if (n <=? len left) && (n <=? len right)
  then Some (bool_decide (take (Z.to_nat n) left = take (Z.to_nat n) right)) else None.
Proof.
  destruct (Z.leb_spec n 0) as [Hn|Hn].
  { pose proof (zlen_nonneg left). pose proof (zlen_nonneg right).
    rewrite !(proj2 (Z.leb_le _ _)) by lia. unfold constant_time_equal, c_for.
    replace (Z.to_nat n) with O by lia. by rewrite bool_decide_true. }
  destruct (Z.leb_spec n (len left)) as [Hl|Hl]; cbn [andb]; [destruct (Z.leb_spec n (len right)) as [Hr|Hr]|].
  - rewrite <-(take_drop (Z.to_nat n) left), <-(take_drop (Z.to_nat n) right) at 1.
    apply constant_time_equal_run; sizes.
  - apply (constant_time_undefined _ _ n (len right)); [sizes|]. right. apply zget_end. lia.
  - apply (constant_time_undefined _ _ n (len left)); [sizes|]. left. apply zget_end. lia.
Qed.

(** ** Concrete instances *)

Lemma hmac_sha256_is_rfc2104_witness :
  hmac_sha256 (Some ([1; 2] ++ [0; 0])) 2 (Some ([7] ++ [])) 1 = Some (Some (hmac [1; 2] [7])).
Proof. apply (hmac_sha256_is_rfc2104 [1; 2] [0; 0] [7] []). Defined.
