(* ===== verification/Auth.v ===== *)
(** auth.h and auth.c, from line 205 on: the authentication session, the
    handshake, the verification of request tags and the replay cache of signed
    responses. *)
From S2P Require Import Prelude Machine EspIdf SimEnv Protocol Hmac.

(** * Data *)

Definition AUTH_REPLAY_CACHE_SIZE : Z := 8.
#[export] Hint Unfold AUTH_REPLAY_CACHE_SIZE : consts.

Record auth_replay_entry_t : Type := mk_entry {
  ent_valid : bool;
  ent_request_command : Z;
  ent_sequence : Z;
  ent_request_digest : list Z;
  ent_response_command : Z;
  ent_response_length : Z;
  ent_response_payload : list Z
}.

Record auth_state_t : Type := mk_auth {
  required : bool;
  pending : bool;
  authenticated : bool;
  auth_key : list Z;
  auth_key_len : Z;
  client_nonce : list Z;
  server_nonce : list Z;
  session_key : list Z;
  replay_cache : list auth_replay_entry_t;
  next_replay_entry : Z
}.

(** [memset] to zero. *)
Definition entry_zero : auth_replay_entry_t :=
  mk_entry false 0 0 (zeros SHA256_SIZE) 0 0 (zeros PROTOCOL_MAX_PAYLOAD).
Definition cache_zero : list auth_replay_entry_t :=
  replicate (Z.to_nat AUTH_REPLAY_CACHE_SIZE) entry_zero.
Definition auth_zero : auth_state_t :=
  mk_auth false false false (zeros AUTH_KEY_MAX_SIZE) 0 (zeros AUTH_NONCE_SIZE)
    (zeros AUTH_NONCE_SIZE) (zeros SHA256_SIZE) cache_zero 0.

(** What auth.c acts on: its static [s_auth] and the protocol layer. *)
Record authed (W : Type) : Type := mk_authed { a_auth : auth_state_t; a_link : link W }.
Arguments mk_authed {W}. Arguments a_auth {W}. Arguments a_link {W}.
Definition authed_link {W} : lens (authed W) (link W) :=
  mk_lens a_link (fun t s => mk_authed (a_auth s) t).
Definition authed_io {W} : lens (authed W) (io W) :=
  mk_lens (fun s => l_io (a_link s)) (fun t s => mk_authed (a_auth s) (mk_link (l_proto (a_link s)) t)).
Definition set_auth {W} (f : auth_state_t -> auth_state_t) : M (authed W) unit :=
  modify (fun s => mk_authed (f (a_auth s)) (a_link s)).

Definition set_client_nonce (n : list Z) (a : auth_state_t) : auth_state_t :=
  mk_auth (required a) (pending a) (authenticated a) (auth_key a) (auth_key_len a)
    n (server_nonce a) (session_key a) (replay_cache a) (next_replay_entry a).
Definition set_server_nonce (n : list Z) (a : auth_state_t) : auth_state_t :=
  mk_auth (required a) (pending a) (authenticated a) (auth_key a) (auth_key_len a)
    (client_nonce a) n (session_key a) (replay_cache a) (next_replay_entry a).
Definition set_session_key (k : list Z) (a : auth_state_t) : auth_state_t :=
  mk_auth (required a) (pending a) (authenticated a) (auth_key a) (auth_key_len a)
    (client_nonce a) (server_nonce a) k (replay_cache a) (next_replay_entry a).
Definition set_flags (p au : bool) (a : auth_state_t) : auth_state_t :=
  mk_auth (required a) p au (auth_key a) (auth_key_len a)
    (client_nonce a) (server_nonce a) (session_key a) (replay_cache a) (next_replay_entry a).
Definition set_cache (c : list auth_replay_entry_t) (n : Z) (a : auth_state_t) : auth_state_t :=
  mk_auth (required a) (pending a) (authenticated a) (auth_key a) (auth_key_len a)
    (client_nonce a) (server_nonce a) (session_key a) c n.

(** * Operations *)

Definition clear_replay_cache : auth_state_t -> auth_state_t := set_cache cache_zero 0.

Definition auth_configure (key : option (list Z)) (key_len : Z) (require_authentication : bool)
  : option auth_state_t :=
  match key with
  | None => Some auth_zero
  | Some key =>
      if (key_len =? 0) || (AUTH_KEY_MAX_SIZE <? key_len) then Some auth_zero
      else
        k ← memcpy (auth_key auth_zero) 0 key 0 key_len;
        Some (mk_auth require_authentication false false k key_len (zeros AUTH_NONCE_SIZE)
                (zeros AUTH_NONCE_SIZE) (zeros SHA256_SIZE) cache_zero 0)
  end.

Definition auth_is_enabled (a : auth_state_t) : bool := required a.

Definition auth_command_is_protected (command : Z) : bool :=
  (command =? command_byte CMD_REBOOT) ||
  (command =? command_byte CMD_ROLLBACK) ||
  (command =? command_byte CMD_OTA_BEGIN) ||
  (command =? command_byte CMD_OTA_DATA) ||
  (command =? command_byte CMD_OTA_END) ||
  (command =? command_byte CMD_OTA_ABORT).

(** What the replay scan finds first. *)
Inductive replay_match : Type :=
| replay_none
| replay_mismatch
| replay_hit (entry : auth_replay_entry_t).

Section Code.
Context {W : Type} `{EspIdf W, Sha256}.

(** Lines 244-280: a 16-byte packet starts a challenge. *)
Definition auth_challenge (packet : protocol_packet_t) : M (authed W) protocol_error_t :=
  a ← gets a_auth;
  client ← ub (memcpy (client_nonce a) 0 (pkt_payload packet) 0 AUTH_NONCE_SIZE);
  _ ← set_auth (set_client_nonce client);
  random ← zoom authed_io (call (esp_fill_random AUTH_NONCE_SIZE) EvRandom);
  server ← ub (blit (server_nonce a) 0 random);
  _ ← set_auth (set_server_nonce server);
  derived ← ub (hmac_prefixed_nonce_pair AUTH_SESSION_PREFIX (auth_key a) (auth_key_len a) client server);
  match derived with
  | None => mret ERR_AUTH_REQUIRED
  | Some key =>
      _ ← set_auth (set_session_key key);
      _ ← set_auth (set_flags true false);
      _ ← set_auth clear_replay_cache;
      proof ← ub (hmac_prefixed_nonce_pair AUTH_DEVICE_PROOF_PREFIX (auth_key a) (auth_key_len a)
                    client server);
      match proof with
      | None => mret ERR_AUTH_REQUIRED
      | Some device_proof =>
          let response := undef (1 + AUTH_NONCE_SIZE + AUTH_TAG_SIZE) in
          response ← ub (lset response 0 (error_byte ERR_OK));
          response ← ub (s ← slice server 0 AUTH_NONCE_SIZE; lblit response 1 s);
          response ← ub (t ← slice device_proof 0 AUTH_TAG_SIZE;
                         lblit response (1 + AUTH_NONCE_SIZE) t);
          data ← ub (lslice response 0 (1 + AUTH_NONCE_SIZE + AUTH_TAG_SIZE));
          _ ← zoom authed_link
                (protocol_send_packet (command_byte CMD_ACK) (pkt_sequence packet) (Some data)
                   (1 + AUTH_NONCE_SIZE + AUTH_TAG_SIZE));
          mret ERR_OK
      end
  end.

(** The condition of lines 289-298, evaluated left to right. *)
Definition proof_is_bad (a : auth_state_t) (packet : protocol_packet_t) : option bool :=
  if negb (pending a) && negb (authenticated a) then Some true else
  same_nonce ← constant_time_equal (pkt_payload packet) (client_nonce a) AUTH_NONCE_SIZE;
  if negb same_nonce then Some true else
  expected ← hmac_prefixed_nonce_pair AUTH_PROOF_PREFIX (auth_key a) (auth_key_len a)
               (client_nonce a) (server_nonce a);
  match expected with
  | None => Some true
  | Some expected =>
      tag ← slice (pkt_payload packet) AUTH_NONCE_SIZE AUTH_TAG_SIZE;
      same_tag ← constant_time_equal tag expected AUTH_TAG_SIZE;
      Some (negb same_tag)
  end.

(** Lines 282-306: a 32-byte packet completes it. *)
Definition auth_proof (packet : protocol_packet_t) : M (authed W) protocol_error_t :=
  a ← gets a_auth;
  bad ← ub (proof_is_bad a packet);
  if bad : bool then mret ERR_AUTH_REQUIRED else
  _ ← set_auth (set_flags false true);
  _ ← zoom authed_link (protocol_send_ack (pkt_sequence packet));
  mret ERR_OK.

Definition auth_handle_packet (packet : protocol_packet_t) : M (authed W) protocol_error_t :=
  a ← gets a_auth;
  if negb (required a) then mret ERR_UNKNOWN_COMMAND
  else if pkt_length packet =? AUTH_NONCE_SIZE then auth_challenge packet
  else if pkt_length packet =? AUTH_NONCE_SIZE + AUTH_TAG_SIZE then auth_proof packet
  else mret ERR_INVALID_LENGTH.

(** The loop of lines 323-350, over the cache in index order. *)
Fixpoint replay_scan (cache : list auth_replay_entry_t) (packet : protocol_packet_t)
    (request_digest : list Z) : option replay_match :=
  match cache with
  | [] => Some replay_none
  | entry :: cache =>
      if negb (ent_valid entry) || negb (ent_request_command entry =? pkt_command packet) ||
         negb (ent_sequence entry =? pkt_sequence packet)
      then replay_scan cache packet request_digest
      else
        same ← constant_time_equal (ent_request_digest entry) request_digest SHA256_SIZE;
        Some (if same : bool then replay_hit entry else replay_mismatch)
  end.

(** Returns the error and [*replayed]. *)
Definition auth_check_replay (packet : protocol_packet_t) : M (authed W) (protocol_error_t * bool) :=
  a ← gets a_auth;
  if negb (required a) || negb (auth_command_is_protected (pkt_command packet)) then
    mret (ERR_OK, false)
  else if negb (authenticated a) then mret (ERR_AUTH_REQUIRED, false)
  else
    request_digest ← ub (compute_request_digest packet);
    found ← ub (replay_scan (replay_cache a) packet request_digest);
    match found with
    | replay_none => mret (ERR_OK, false)
    | replay_mismatch => mret (ERR_AUTH_REQUIRED, false)
    | replay_hit entry =>
        _ ← zoom authed_link
              (protocol_send_packet (ent_response_command entry) (pkt_sequence packet)
                 (Some (ent_response_payload entry)) (ent_response_length entry));
        mret (ERR_OK, true)
    end.

(** Returns the error, [*payload] and [*length]. *)
Definition auth_unwrap_packet (a : auth_state_t) (packet : protocol_packet_t)
  : option (protocol_error_t * list Z * Z) :=
  let payload := pkt_payload packet in
  let length := pkt_length packet in
  if negb (required a) || negb (auth_command_is_protected (pkt_command packet)) then
    Some (ERR_OK, payload, length)
  else if negb (authenticated a) || (pkt_length packet <? AUTH_TAG_SIZE) then
    Some (ERR_AUTH_REQUIRED, payload, length)
  else
    let unwrapped_length := pkt_length packet - AUTH_TAG_SIZE in
    expected ← compute_packet_tag (session_key a) (pkt_command packet) (pkt_sequence packet)
                 (Some (pkt_payload packet)) unwrapped_length;
    match expected with
    | None => Some (ERR_AUTH_REQUIRED, payload, length)
    | Some expected =>
        tag ← slice (pkt_payload packet) unwrapped_length AUTH_TAG_SIZE;
        same ← constant_time_equal tag expected AUTH_TAG_SIZE;
        if same : bool then Some (ERR_OK, payload, unwrapped_length)
        else Some (ERR_AUTH_REQUIRED, payload, length)
    end.

(** Lines 403-429: sign the response and remember it. Returns the response
    local and its length. *)
Definition sign_and_cache (request : protocol_packet_t) (response_command : Z)
    (response_payload : list (option Z)) (payload : option (list Z)) (length : Z)
  : M (authed W) (list (option Z) * Z) :=
  a ← gets a_auth;
  computed ← ub (compute_response_tag (session_key a) (pkt_command request) response_command
                   (pkt_sequence request) payload length);
  tag ← ub computed;
  response_payload ← ub (t ← slice tag 0 AUTH_TAG_SIZE; lblit response_payload length t);
  let response_length := length + AUTH_TAG_SIZE in
  request_digest ← ub (compute_request_digest request);
  entry ← ub (zget (replay_cache a) (next_replay_entry a));
  cached ← ub (r ← lslice response_payload 0 response_length;
               blit (ent_response_payload entry) 0 r);
  let entry := mk_entry true (pkt_command request) (pkt_sequence request) request_digest
                 response_command response_length cached in
  cache ← ub (zset (replay_cache a) (next_replay_entry a) entry);
  _ ← set_auth (set_cache cache ((next_replay_entry a + 1) mod AUTH_REPLAY_CACHE_SIZE));
  mret (response_payload, response_length).

Definition auth_send_response (request : protocol_packet_t) (response_command : Z)
    (payload : option (list Z)) (length : Z) : M (authed W) unit :=
  let response_payload := undef PROTOCOL_MAX_PAYLOAD in
  response_payload ← ub
    (match payload with
     | Some payload =>
         if 0 <? length then s ← slice payload 0 length; lblit response_payload 0 s
         else Some response_payload
     | None => Some response_payload
     end);
  let send response_payload response_length : M (authed W) unit :=
    data ← ub (lslice response_payload 0 response_length);
    zoom authed_link
      (protocol_send_packet response_command (pkt_sequence request) (Some data) response_length) in
  a ← gets a_auth;
  if required a && authenticated a && auth_command_is_protected (pkt_command request) then
    if PROTOCOL_MAX_PAYLOAD <? length + AUTH_TAG_SIZE then
      zoom authed_link (protocol_send_nack (pkt_sequence request) ERR_INVALID_LENGTH)
    else
      r ← sign_and_cache request response_command response_payload payload length;
      send r.1 r.2
  else send response_payload length.

Definition auth_send_ack (request : protocol_packet_t) : M (authed W) unit :=
  auth_send_response request (command_byte CMD_ACK) (Some [error_byte ERR_OK]) 1.

Definition auth_send_nack (request : protocol_packet_t) (error : protocol_error_t)
  : M (authed W) unit :=
  auth_send_response request (command_byte CMD_NACK) (Some [error_byte error]) 1.
End Code.

(** * Specifications *)

(** The bytes a received packet carries. *)
Definition pkt_data (p : protocol_packet_t) : list Z := take (Z.to_nat (pkt_length p)) (pkt_payload p).

(** A packet as the parser delivers it. *)
Definition packet_in (p : protocol_packet_t) : Prop :=
  len (pkt_payload p) = PROTOCOL_MAX_PAYLOAD /\ 0 <= pkt_length p <= PROTOCOL_MAX_PAYLOAD.

Record entry_ok (e : auth_replay_entry_t) : Prop := {
  entry_digest : len (ent_request_digest e) = SHA256_SIZE;
  entry_payload : len (ent_response_payload e) = PROTOCOL_MAX_PAYLOAD;
  entry_length : 0 <= ent_response_length e <= PROTOCOL_MAX_PAYLOAD;
  entry_bytes : bytes (ent_response_payload e);
  entry_command : u8 (ent_response_command e)
}.

(** The invariant of [s_auth]. *)
Record auth_ok (a : auth_state_t) : Prop := {
  ok_key : len (auth_key a) = AUTH_KEY_MAX_SIZE;
  ok_key_len : 0 <= auth_key_len a <= AUTH_KEY_MAX_SIZE;
  ok_required : required a = true -> 0 < auth_key_len a;
  ok_client : len (client_nonce a) = AUTH_NONCE_SIZE;
  ok_server : len (server_nonce a) = AUTH_NONCE_SIZE;
  ok_server_bytes : bytes (server_nonce a);
  ok_session : len (session_key a) = SHA256_SIZE;
  ok_cache : len (replay_cache a) = AUTH_REPLAY_CACHE_SIZE;
  ok_entries : Forall entry_ok (replay_cache a);
  ok_next : 0 <= next_replay_entry a < AUTH_REPLAY_CACHE_SIZE
}.

Definition authed_ok {W} (s : authed W) : Prop := auth_ok (a_auth s) /\ proto_ok (l_proto (a_link s)).

(** The pre-shared key, without the padding of its array. *)
Definition psk (a : auth_state_t) : list Z := take (Z.to_nat (auth_key_len a)) (auth_key a).

Section Spec.
Context `{Sha256}.

Definition request_digest (p : protocol_packet_t) : list Z :=
  esp_sha (request_message (pkt_command p) (pkt_sequence p) (pkt_data p)).

(** The three values the handshake derives from the nonce pair. *)
Definition derived (prefix key client server : list Z) : list Z := hmac key (prefix ++ client ++ server).
Definition proof_tag (key client server : list Z) : list Z :=
  tag_of (derived AUTH_PROOF_PREFIX key client server).
Definition device_proof_tag (key client server : list Z) : list Z :=
  tag_of (derived AUTH_DEVICE_PROOF_PREFIX key client server).

(** The session a challenge starts, and the answer to it. *)
Definition challenged (client server : list Z) (a : auth_state_t) : auth_state_t :=
  clear_replay_cache (set_flags true false
    (set_session_key (derived AUTH_SESSION_PREFIX (psk a) client server)
      (set_server_nonce server (set_client_nonce client a)))).
Definition challenge_answer (a : auth_state_t) (client server : list Z) : list Z :=
  [error_byte ERR_OK] ++ server ++ device_proof_tag (psk a) client server.

(** The packet that completes the handshake. *)
Definition proof_good (a : auth_state_t) (p : protocol_packet_t) : bool :=
  (pending a || authenticated a) &&
  bool_decide (pkt_data p = client_nonce a ++ proof_tag (psk a) (client_nonce a) (server_nonce a)).

(** The packet ends in the request tag of what precedes it. *)
Definition tagged (key : list Z) (p : protocol_packet_t) : Prop :=
  exists data, pkt_data p = data ++ request_tag key (pkt_command p) (pkt_sequence p) data.

(** Its executable form. *)
Definition tag_valid (key : list Z) (p : protocol_packet_t) : bool :=
  let n := Z.to_nat (pkt_length p - AUTH_TAG_SIZE) in
  (AUTH_TAG_SIZE <=? pkt_length p) &&
  bool_decide (drop n (pkt_data p) =
               request_tag key (pkt_command p) (pkt_sequence p) (take n (pkt_data p))).

(** A response is signed and cached under this condition. *)
Definition signs (a : auth_state_t) (p : protocol_packet_t) : bool :=
  required a && authenticated a && auth_command_is_protected (pkt_command p).

Definition matches (p : protocol_packet_t) (e : auth_replay_entry_t) : bool :=
  ent_valid e && (ent_request_command e =? pkt_command p) && (ent_sequence e =? pkt_sequence p).

(** The first cache entry for the packet's command and sequence number. *)
Definition cached (a : auth_state_t) (p : protocol_packet_t) : option auth_replay_entry_t :=
  snd <$> list_find (fun e => matches p e = true) (replay_cache a).

Definition response_of (a : auth_state_t) (p : protocol_packet_t) (command : Z) (data : list Z)
  : list Z :=
  data ++ response_tag (session_key a) (pkt_command p) command (pkt_sequence p) data.

(** The cache after a signed response. *)
Definition remember (p : protocol_packet_t) (command : Z) (data : list Z) (a : auth_state_t)
  : auth_state_t :=
  let n := Z.to_nat (next_replay_entry a) in
  let response := response_of a p command data in
  set_cache
    (alter (fun e => mk_entry true (pkt_command p) (pkt_sequence p) (request_digest p) command
               (len response) (over response (ent_response_payload e))) n (replay_cache a))
    ((next_replay_entry a + 1) mod AUTH_REPLAY_CACHE_SIZE) a.
End Spec.

(** One packet goes out and nothing else changes. *)
Definition reply {W} `{EspIdf W} (command sequence : Z) (data : list Z) (s : authed W) : authed W :=
  mk_authed (a_auth s) (after_send (encode_frame (sent_frame command sequence data)) (a_link s)).

(** The random bytes are drawn. *)
Definition draw_random {W} `{EspIdf W} (s : authed W) : list Z * authed W :=
  let i := l_io (a_link s) in
  let '(server, w) := esp_fill_random AUTH_NONCE_SIZE (world i) in
  (server, mk_authed (a_auth s) (mk_link (l_proto (a_link s)) (mk_io w (EvRandom server :: trace i)))).

(** * Lemmas: the invariant *)

#[export] Instance packet_in_dec p : Decision (packet_in p).
Proof. unfold packet_in. apply _. Defined.

Lemma pkt_data_split p : packet_in p ->
  exists junk, pkt_payload p = pkt_data p ++ junk /\ pkt_length p = len (pkt_data p).
Proof.
  intros [Hl Hn]. exists (drop (Z.to_nat (pkt_length p)) (pkt_payload p)).
  unfold pkt_data. rewrite take_drop. split; [done|]. sizes.
Qed.

Lemma zlen_pkt_data p : packet_in p -> len (pkt_data p) = pkt_length p.
Proof. intros (?&?&->)%pkt_data_split. done. Qed.

Lemma carries_packet_in p f : carries p f -> packet_in p /\ pkt_data p = fr_payload f.
Proof.
  intros (Hf & Hl & (_&_&_&_&Hmax) & Hok). unfold packet_in. split; [|by rewrite <-Hf].
  split; [done|]. rewrite Hl. split; [apply zlen_nonneg|done].
Qed.

Lemma entry_zero_ok : entry_ok entry_zero.
Proof. split; try done; try apply bytes_zeros; unfold u8; simpl; lia. Qed.

Lemma cache_zero_ok : Forall entry_ok cache_zero.
Proof. apply Forall_replicate, entry_zero_ok. Qed.

Lemma auth_zero_ok : auth_ok auth_zero.
Proof.
  split; try done; try apply bytes_zeros; try apply cache_zero_ok; simpl; sizes.
Qed.

Lemma psk_split a : auth_ok a -> exists junk, auth_key a = psk a ++ junk /\ auth_key_len a = len (psk a).
Proof.
  intros Ha. destruct (ok_key_len _ Ha). pose proof (ok_key _ Ha).
  exists (drop (Z.to_nat (auth_key_len a)) (auth_key a)). unfold psk.
  rewrite take_drop. split; [done|]. sizes.
Qed.

Lemma auth_ok_flags a p au : auth_ok a -> auth_ok (set_flags p au a).
Proof. intros []. by split. Qed.
Lemma auth_ok_clear a : auth_ok a -> auth_ok (clear_replay_cache a).
Proof. intros []. split; try done. apply cache_zero_ok. Qed.
Lemma auth_ok_client a n : auth_ok a -> len n = AUTH_NONCE_SIZE -> auth_ok (set_client_nonce n a).
Proof. intros [] ?. by split. Qed.
Lemma auth_ok_server a n :
  auth_ok a -> len n = AUTH_NONCE_SIZE -> bytes n -> auth_ok (set_server_nonce n a).
Proof. intros [] ??. by split. Qed.
Lemma auth_ok_session a k : auth_ok a -> len k = SHA256_SIZE -> auth_ok (set_session_key k a).
Proof. intros [] ?. by split. Qed.
#[export] Hint Resolve auth_zero_ok auth_ok_flags auth_ok_clear auth_ok_client auth_ok_server
  auth_ok_session : ota.

Section Invariant.
Context `{Sha256Spec}.

Lemma bytes_tag_of mac : bytes mac -> bytes (tag_of mac).
Proof. apply bytes_take. Qed.
Lemma bytes_hmac key m : bytes (hmac key m).
Proof. apply esp_sha_bytes. Qed.

Lemma zlen_response_of a p c d : len (response_of a p c d) = len d + AUTH_TAG_SIZE.
Proof. unfold response_of. rewrite zlen_app, zlen_response_tag. done. Qed.
Lemma bytes_response_of a p c d : bytes d -> bytes (response_of a p c d).
Proof. intros. apply bytes_app; [done|]. apply bytes_tag_of, bytes_hmac. Qed.

Lemma auth_ok_remember a p c d :
  auth_ok a -> u8 c -> bytes d -> len d + AUTH_TAG_SIZE <= PROTOCOL_MAX_PAYLOAD ->
  auth_ok (remember p c d a).
Proof.
  intros [? ? ? ? ? ? ? Hc He ?] Hc8 Hd Hl. split; try done.
  - simpl. unfold zlen in *. rewrite length_alter. done.
  - simpl. apply Forall_alter; [done|]. intros e _ [? ? ? ? ?].
    assert (len (over (response_of a p c d) (ent_response_payload e)) = PROTOCOL_MAX_PAYLOAD).
    { rewrite zlen_over; [done|]. rewrite zlen_response_of. lia. }
    split; try done; cbn.
    + apply esp_sha_len.
    + rewrite zlen_response_of. split; [sizes|lia].
    + apply bytes_app; [by apply bytes_response_of|by apply bytes_drop].
  - simpl. apply Z.mod_pos_bound. done.
Qed.
End Invariant.

(** * Lemmas: what each operation computes *)

Section Runs.
Context {W : Type} `{EspIdf W, Sha256Spec}.
Implicit Types (s : authed W) (a : auth_state_t) (p : protocol_packet_t).

Lemma reply_ok c q d s :
  authed_ok s -> len d <= PROTOCOL_MAX_PAYLOAD -> authed_ok (reply c q d s).
Proof. intros [Ha Hp] Hd. split; [done|]. apply after_send_ok; [done|]. sizes. Qed.

Lemma reply_trace c q d s :
  exists err, trace (l_io (a_link (reply c q d s))) =
    EvTx (encode_frame (sent_frame c q d)) err :: trace (l_io (a_link s)).
Proof. apply after_send_trace. Qed.

Lemma send_packet_run c q d junk s :
  authed_ok s -> len d <= PROTOCOL_MAX_PAYLOAD ->
  zoom authed_link (protocol_send_packet c q (Some (d ++ junk)) (len d)) s = Done tt (reply c q d s).
Proof.
  intros [_ Hp] Hd. eapply (zoom_Done authed_link). by apply protocol_send_packet_run.
Qed.

Lemma send_all_run c q d n s :
  authed_ok s -> len d <= PROTOCOL_MAX_PAYLOAD -> n = len d ->
  zoom authed_link (protocol_send_packet c q (Some d) n) s = Done tt (reply c q d s).
Proof. intros ?? ->. rewrite <-(app_nil_r d) at 1. by apply send_packet_run. Qed.

Lemma send_ack_run q s :
  authed_ok s ->
  zoom authed_link (protocol_send_ack q) s = Done tt (reply (command_byte CMD_ACK) q [error_byte ERR_OK] s).
Proof. intros. apply send_all_run; done. Qed.

Lemma send_nack_run q e s :
  authed_ok s ->
  zoom authed_link (protocol_send_nack q e) s =
  Done tt (reply (command_byte CMD_NACK) q [error_byte e] s).
Proof. intros. apply send_all_run; done. Qed.

(** ** Request tags *)

Lemma request_digest_run p :
  packet_in p -> compute_request_digest p = Some (request_digest p).
Proof.
  intros Hp. destruct (pkt_data_split p Hp) as (junk & E & El).
  apply (compute_request_digest_run p (pkt_data p) junk); [done..|]. destruct Hp. lia.
Qed.

Lemma tag_eq mac tag rest :
  len mac = SHA256_SIZE -> len tag = AUTH_TAG_SIZE ->
  constant_time_equal (tag ++ rest) mac AUTH_TAG_SIZE = Some (bool_decide (tag = tag_of mac)).
Proof.
  intros Hm Ht. unfold tag_of. rewrite <-(take_drop (Z.to_nat AUTH_TAG_SIZE) mac) at 1.
  apply constant_time_equal_run; [done|sizes].
Qed.

Lemma tag_valid_spec key p : packet_in p -> tag_valid key p = true <-> tagged key p.
Proof.
  intros Hp. pose proof (zlen_pkt_data p Hp) as Hl. unfold tag_valid, tagged.
  rewrite andb_true_iff, bool_decide_eq_true, Z.leb_le. split.
  - intros [_ E]. eexists. rewrite <-E. by rewrite take_drop.
  - intros [data E]. rewrite E in Hl |- *. rewrite zlen_app, zlen_request_tag in Hl.
    assert (Z.to_nat (pkt_length p - AUTH_TAG_SIZE) = length data) as -> by sizes.
    rewrite take_app_length, drop_app_length. split; [sizes|done].
Qed.

(** The check on a protected request, whatever its bytes. *)
Lemma unwrap_protected_run a p :
  auth_ok a -> packet_in p -> required a = true ->
  auth_command_is_protected (pkt_command p) = true ->
  auth_unwrap_packet a p =
  Some (if authenticated a && tag_valid (session_key a) p
        then (ERR_OK, pkt_payload p, pkt_length p - AUTH_TAG_SIZE)
        else (ERR_AUTH_REQUIRED, pkt_payload p, pkt_length p)).
Proof.
  intros Ha Hp Hr Hc. unfold auth_unwrap_packet, tag_valid. rewrite Hr, Hc. cbn [negb orb andb].
  destruct (authenticated a); [cbn [negb orb andb]|done].
  destruct (Z.ltb_spec (pkt_length p) AUTH_TAG_SIZE) as [Hs|Hs].
  { by destruct (Z.leb_spec AUTH_TAG_SIZE (pkt_length p)); [lia|]. }
  destruct (Z.leb_spec AUTH_TAG_SIZE (pkt_length p)); [cbn [andb]|lia].
  destruct (pkt_data_split p Hp) as (junk & E & El). destruct Hp as [_ Hmax].
  destruct (split_at (pkt_data p) (pkt_length p - AUTH_TAG_SIZE)) as (data & tag & Ed & Hd); [sizes|].
  assert (Z.to_nat (pkt_length p - AUTH_TAG_SIZE) = length data) as -> by sizes.
  rewrite E, Ed, take_app_length, drop_app_length, <-Hd.
  assert (len tag = AUTH_TAG_SIZE) as Ht by (rewrite Ed, zlen_app in El; lia).
  rewrite <-app_assoc, compute_packet_tag_run by (try apply Ha; sizes). cbn [mbind option_bind].
  rewrite (slice_mid data tag junk) by done. cbn [mbind option_bind].
  rewrite <-(app_nil_r tag) at 1. rewrite tag_eq by (done || apply zlen_hmac).
  cbn [mbind option_bind]. unfold request_tag. by case_bool_decide.
Qed.

Lemma unwrap_unprotected a p :
  required a && auth_command_is_protected (pkt_command p) = false ->
  auth_unwrap_packet a p = Some (ERR_OK, pkt_payload p, pkt_length p).
Proof.
  unfold auth_unwrap_packet. by destruct (required a), (auth_command_is_protected _).
Qed.

(** ** The replay cache *)

Lemma replay_scan_run cache p :
  packet_in p -> Forall entry_ok cache ->
  replay_scan cache p (request_digest p) =
  Some (match snd <$> list_find (fun e => matches p e = true) cache with
        | None => replay_none
        | Some e => if bool_decide (ent_request_digest e = request_digest p)
                    then replay_hit e else replay_mismatch
        end).
Proof.
  intros Hp Hc. induction Hc as [|e cache He Hc IH]; [done|]. cbn [replay_scan list_find].
  assert (negb (ent_valid e) || negb (ent_request_command e =? pkt_command p) ||
          negb (ent_sequence e =? pkt_sequence p) = negb (matches p e)) as ->.
  { unfold matches. by destruct (ent_valid e), (_ =? _), (_ =? _). }
  destruct (decide (matches p e = true)) as [->|Hm].
  - cbn [negb]. pose proof (entry_digest e He) as Hd.
    rewrite <-(app_nil_r (ent_request_digest e)) at 1.
    rewrite <-(app_nil_r (request_digest p)) at 1.
    rewrite constant_time_equal_run by (done || apply esp_sha_len). done.
  - apply not_true_is_false in Hm as ->. cbn [negb]. rewrite IH.
    by destruct (list_find _ cache) as [[]|].
Qed.

Lemma cached_entry_ok a p e : auth_ok a -> cached a p = Some e -> entry_ok e /\ matches p e = true.
Proof.
  intros Ha. unfold cached. rewrite fmap_Some. intros ([i e'] & Hf & ->).
  apply list_find_Some in Hf as (Hi & Hm & _). split; [|done].
  by eapply Forall_lookup_1; [apply Ha|].
Qed.

Lemma check_replay_unprotected p s :
  required (a_auth s) && auth_command_is_protected (pkt_command p) = false ->
  auth_check_replay p s = Done (ERR_OK, false) s.
Proof.
  unfold auth_check_replay, mbind, M_bind, gets.
  by destruct (required _), (auth_command_is_protected _).
Qed.

(** The answer on a protected command: a cached response is sent again, byte
    for byte; nothing else is touched. *)
Lemma check_replay_run p s :
  authed_ok s -> packet_in p -> required (a_auth s) = true ->
  auth_command_is_protected (pkt_command p) = true ->
  auth_check_replay p s =
  if authenticated (a_auth s) then
    match cached (a_auth s) p with
    | None => Done (ERR_OK, false) s
    | Some e =>
        if bool_decide (ent_request_digest e = request_digest p)
        then Done (ERR_OK, true)
               (reply (ent_response_command e) (pkt_sequence p)
                  (take (Z.to_nat (ent_response_length e)) (ent_response_payload e)) s)
        else Done (ERR_AUTH_REQUIRED, false) s
    end
  else Done (ERR_AUTH_REQUIRED, false) s.
Proof.
  intros Hs Hp Hr Hc. pose proof Hs as [Ha _]. unfold auth_check_replay.
  erewrite bind_Done by done. rewrite Hr, Hc. cbn [negb orb].
  destruct (authenticated (a_auth s)); [cbn [negb]|done].
  rewrite (bind_ub _ _ _ _ (request_digest_run p Hp)).
  rewrite (bind_ub _ _ _ _ (replay_scan_run _ p Hp (ok_entries _ Ha))). fold (cached (a_auth s) p).
  destruct (cached (a_auth s) p) as [e|] eqn:Ee; [|done].
  case_bool_decide as Hd; [|done].
  destruct (cached_entry_ok _ _ _ Ha Ee) as [[_ Hpl Hel _ _] _].
  destruct (split_at (ent_response_payload e) (ent_response_length e)) as (d & junk & E & Hl); [lia|].
  rewrite E, (take_app_length' d) by sizes. rewrite <-Hl.
  erewrite bind_Done; [done|]. apply send_packet_run; [done|lia].
Qed.

(** ** Responses *)

Lemma zset_alter {A} (l : list A) i x f :
  0 <= i -> l !! Z.to_nat i = Some x -> zset l i (f x) = Some (alter f (Z.to_nat i) l).
Proof.
  intros Hi Hx. pose proof (take_drop_middle _ _ _ Hx) as E.
  assert (length (take (Z.to_nat i) l) = Z.to_nat i) as Hlen.
  { apply lookup_lt_Some in Hx. rewrite length_take. lia. }
  apply lookup_lt_Some in Hx. rewrite <-E at 1 2. unfold zset.
  change (x :: drop (S (Z.to_nat i)) l) with ([x] ++ drop (S (Z.to_nat i)) l).
  rewrite blit_mid by (sizes || done). f_equal.
  rewrite alter_app_r_alt by lia. by rewrite Hlen, Nat.sub_diag.
Qed.

Lemma sign_and_cache_run p c d s junk :
  authed_ok s -> packet_in p -> len d + AUTH_TAG_SIZE <= PROTOCOL_MAX_PAYLOAD ->
  sign_and_cache p c (filled d PROTOCOL_MAX_PAYLOAD) (Some (d ++ junk)) (len d) s =
  Done (filled (response_of (a_auth s) p c d) PROTOCOL_MAX_PAYLOAD, len d + AUTH_TAG_SIZE)
       (mk_authed (remember p c d (a_auth s)) (a_link s)).
Proof.
  intros [Ha _] Hp Hd. unfold sign_and_cache. erewrite bind_Done by done.
  erewrite bind_ub by (apply compute_response_tag_run; [apply Ha|sizes]).
  erewrite bind_ub by done.
  set (mac := hmac _ _). assert (len mac = 32) as Hmac by apply zlen_hmac.
  assert (len (tag_of mac) = AUTH_TAG_SIZE) as Ht by by apply zlen_tag_of.
  assert (slice mac 0 AUTH_TAG_SIZE = Some (tag_of mac)) as Et by (apply slice_Some; sizes).
  erewrite bind_ub by (rewrite Et; cbn [mbind option_bind]; apply lblit_filled; [done|lia]).
  change (d ++ tag_of mac) with (response_of (a_auth s) p c d).
  pose proof (zlen_response_of (a_auth s) p c d) as Hr. set (r := response_of _ _ _ _) in *.
  erewrite bind_ub by by apply request_digest_run.
  destruct (lookup_lt_is_Some_2 (replay_cache (a_auth s)) (Z.to_nat (next_replay_entry (a_auth s))))
    as [e He]. { pose proof (ok_cache _ Ha). pose proof (ok_next _ Ha). sizes. }
  erewrite bind_ub.
  2:{ unfold zget. rewrite (proj2 (Z.leb_le _ _)) by apply (ok_next _ Ha). exact He. }
  assert (entry_ok e) as [_ Hpl _ _ _] by (by eapply Forall_lookup_1; [apply Ha|]).
  erewrite bind_ub.
  2:{ rewrite lslice_filled by done. cbn [mbind option_bind].
      rewrite <-(over_nil (ent_response_payload e)). apply blit_over; sizes. }
  cbn [app]. erewrite bind_ub.
  2:{ apply (zset_alter _ _ e (fun e => mk_entry true _ _ _ _ _ (over r (ent_response_payload e))));
        [apply (ok_next _ Ha)|done]. }
  erewrite bind_Done by done. unfold remember. by rewrite <-Hr.
Qed.

(** The whole of [auth_send_response], on every branch. *)
Lemma auth_send_response_run p c d junk s :
  authed_ok s -> packet_in p -> len d <= PROTOCOL_MAX_PAYLOAD -> bytes d -> u8 c ->
  auth_send_response p c (Some (d ++ junk)) (len d) s =
  Done tt
    (if signs (a_auth s) p then
       if PROTOCOL_MAX_PAYLOAD <? len d + AUTH_TAG_SIZE
       then reply (command_byte CMD_NACK) (pkt_sequence p) [error_byte ERR_INVALID_LENGTH] s
       else reply c (pkt_sequence p) (response_of (a_auth s) p c d)
              (mk_authed (remember p c d (a_auth s)) (a_link s))
     else reply c (pkt_sequence p) d s).
Proof.
  intros Hs Hp Hd Hb Hc. unfold auth_send_response.
  assert ((if 0 <? len d then x ← slice (d ++ junk) 0 (len d); lblit (undef PROTOCOL_MAX_PAYLOAD) 0 x
           else Some (undef PROTOCOL_MAX_PAYLOAD)) = Some (filled d PROTOCOL_MAX_PAYLOAD)) as Ef.
  { destruct (Z.ltb_spec 0 (len d)).
    - rewrite slice_prefix by done. cbn [mbind option_bind]. by apply (lblit_filled []).
    - by rewrite (zlen_0_inv d) by sizes. }
  erewrite bind_ub by exact Ef. erewrite bind_Done by done. fold (signs (a_auth s) p).
  destruct (signs (a_auth s) p).
  - destruct (Z.ltb_spec PROTOCOL_MAX_PAYLOAD (len d + AUTH_TAG_SIZE)); [by apply send_nack_run|].
    erewrite bind_Done by by apply sign_and_cache_run. cbn [fst snd].
    pose proof (zlen_response_of (a_auth s) p c d) as Hr.
    erewrite bind_ub by by apply lslice_filled.
    rewrite <-Hr. apply send_all_run; [|lia|done].
    destruct Hs as [Ha Hl]. split; [|done]. by apply auth_ok_remember.
  - erewrite bind_ub by by apply lslice_filled. by apply send_all_run.
Qed.

(** ** The handshake *)

Lemma nonce_pair_run prefix a client server :
  auth_ok a -> len prefix <= 32 -> len client = AUTH_NONCE_SIZE -> len server = AUTH_NONCE_SIZE ->
  hmac_prefixed_nonce_pair prefix (auth_key a) (auth_key_len a) client server =
  Some (Some (derived prefix (psk a) client server)).
Proof.
  intros Ha ? ? ?. destruct (psk_split a Ha) as (junk & -> & ->). by apply hmac_prefixed_nonce_pair_run.
Qed.

Lemma draw_random_spec `{!EspIdfSpec W} s server s' :
  draw_random s = (server, s') ->
  len server = AUTH_NONCE_SIZE /\ bytes server /\ a_auth s' = a_auth s /\
  l_proto (a_link s') = l_proto (a_link s) /\
  trace (l_io (a_link s')) = EvRandom server :: trace (l_io (a_link s)).
Proof.
  unfold draw_random. destruct (esp_fill_random _ _) as [x w] eqn:E. intros [= <- <-].
  pose proof (esp_fill_random_len AUTH_NONCE_SIZE (world (l_io (a_link s))) ltac:(done)) as Hl.
  pose proof (esp_fill_random_bytes AUTH_NONCE_SIZE (world (l_io (a_link s)))) as Hb.
  by rewrite E in Hl, Hb.
Qed.

Lemma draw_random_run `{!EspIdfSpec W} s :
  zoom authed_io (call (esp_fill_random AUTH_NONCE_SIZE) EvRandom) s =
  Done (draw_random s).1 (draw_random s).2.
Proof.
  unfold zoom, draw_random. rewrite call_run. simpl. by destruct (esp_fill_random _ _).
Qed.

Lemma blit_whole (dst src : list Z) : len dst = len src -> blit dst 0 src = Some src.
Proof.
  intros E. rewrite <-(app_nil_r dst). rewrite blit_prefix by done. by rewrite app_nil_r.
Qed.

Lemma auth_challenge_run `{!EspIdfSpec W} p s :
  authed_ok s -> packet_in p -> pkt_length p = AUTH_NONCE_SIZE ->
  let '(server, s') := draw_random s in
  auth_challenge p s =
  Done ERR_OK
    (reply (command_byte CMD_ACK) (pkt_sequence p) (challenge_answer (a_auth s) (pkt_data p) server)
       (mk_authed (challenged (pkt_data p) server (a_auth s)) (a_link s'))).
Proof.
  intros Hs Hp Hl. pose proof Hs as [Ha Hpr]. pose proof (draw_random_run s) as Hrun.
  destruct (draw_random s) as [server s'] eqn:E.
  destruct (draw_random_spec _ _ _ E) as (Hn & Hb & Ea & El & _). cbn [fst snd] in Hrun.
  unfold auth_challenge. erewrite bind_Done by done.
  destruct (pkt_data_split p Hp) as (junk & Ep & Epl). rewrite Hl in Epl. symmetry in Epl.
  set (client := pkt_data p) in *.
  erewrite bind_ub.
  2:{ unfold memcpy. rewrite Ep, slice_prefix by done. cbn [mbind option_bind].
      apply blit_whole. rewrite Epl. apply Ha. }
  erewrite bind_Done by done. cbn [a_auth a_link].
  set (s1 := mk_authed (set_client_nonce client (a_auth s)) (a_link s)).
  assert (zoom authed_io (call (esp_fill_random AUTH_NONCE_SIZE) EvRandom) s1 =
          Done server (mk_authed (set_client_nonce client (a_auth s)) (a_link s'))) as Hrun1.
  { rewrite draw_random_run. unfold draw_random, s1 in E |- *. cbn [a_link a_auth] in *.
    destruct (esp_fill_random _ _) as [x w]. by injection E as <- <-. }
  erewrite bind_Done by exact Hrun1.
  erewrite bind_ub by (apply blit_whole; rewrite Hn; apply Ha).
  erewrite bind_Done by done. cbn [a_auth a_link].
  erewrite bind_ub by by apply nonce_pair_run. cbn [a_auth a_link].
  do 3 (erewrite bind_Done by done). cbn [a_auth a_link].
  erewrite bind_ub by by apply nonce_pair_run. cbn [a_auth a_link].
  set (proof := derived AUTH_DEVICE_PROOF_PREFIX _ _ _). assert (len proof = 32) as Hpf by apply zlen_hmac.
  rewrite undef_filled. erewrite bind_ub by by apply lset_filled.
  erewrite bind_ub.
  2:{ rewrite slice_all by done. cbn [mbind option_bind]. apply lblit_filled; sizes. }
  erewrite bind_ub.
  2:{ rewrite slice_Some by sizes. cbn [mbind option_bind]. apply lblit_filled; sizes. }
  erewrite bind_ub by (apply lslice_filled; sizes).
  change (take (Z.to_nat AUTH_TAG_SIZE) (drop (Z.to_nat 0) proof))
    with (device_proof_tag (psk (a_auth s)) client server).
  rewrite <-app_assoc. cbn [app].
  erewrite bind_Done.
  2:{ apply send_all_run.
      - split; [cbn|by rewrite <-El in Hpr].
        apply auth_ok_clear, auth_ok_flags, auth_ok_session; [|apply zlen_hmac].
        apply auth_ok_server; [|done..]. by apply auth_ok_client.
      - assert (len (device_proof_tag (psk (a_auth s)) client server) = AUTH_TAG_SIZE)
          by (apply zlen_tag_of, zlen_hmac). sizes.
      - assert (len (device_proof_tag (psk (a_auth s)) client server) = AUTH_TAG_SIZE)
          by (apply zlen_tag_of, zlen_hmac). sizes. }
  done.
Qed.

Lemma proof_is_bad_run a p :
  auth_ok a -> packet_in p -> pkt_length p = AUTH_NONCE_SIZE + AUTH_TAG_SIZE ->
  proof_is_bad a p = Some (negb (proof_good a p)).
Proof.
  intros Ha Hp Hl. unfold proof_is_bad, proof_good.
  destruct (pending a || authenticated a) eqn:E.
  2:{ by apply orb_false_iff in E as [-> ->]. }
  assert (negb (pending a) && negb (authenticated a) = false) as ->
    by (by rewrite <-negb_orb, E). cbn [andb].
  destruct (pkt_data_split p Hp) as (junk & Ep & Epl).
  destruct (split_at (pkt_data p) AUTH_NONCE_SIZE) as (c & t & Ed & Hc); [sizes|].
  assert (len t = AUTH_TAG_SIZE) as Ht by (rewrite Ed, zlen_app in Epl; lia).
  rewrite Ep, Ed, <-app_assoc.
  rewrite <-(app_nil_r (client_nonce a)) at 1.
  rewrite constant_time_equal_run by (done || apply Ha). cbn [mbind option_bind].
  case_bool_decide as Ec.
  2:{ cbn [negb]. rewrite bool_decide_false; [done|]. intros Eq.
      apply app_inj_1 in Eq as [? _]; [done|]. pose proof (ok_client _ Ha). sizes. }
  cbn [negb]. rewrite nonce_pair_run by (try done; apply Ha). cbn [mbind option_bind].
  rewrite (slice_mid c t junk) by done. cbn [mbind option_bind].
  rewrite <-(app_nil_r t) at 1. rewrite tag_eq by (done || apply zlen_hmac).
  cbn [mbind option_bind]. subst c. unfold proof_tag. do 2 f_equal.
  apply bool_decide_ext. split; [by intros ->|apply app_inv_head].
Qed.

Lemma auth_proof_run p s :
  authed_ok s -> packet_in p -> pkt_length p = AUTH_NONCE_SIZE + AUTH_TAG_SIZE ->
  auth_proof p s =
  if proof_good (a_auth s) p
  then Done ERR_OK (reply (command_byte CMD_ACK) (pkt_sequence p) [error_byte ERR_OK]
                      (mk_authed (set_flags false true (a_auth s)) (a_link s)))
  else Done ERR_AUTH_REQUIRED s.
Proof.
  intros Hs Hp Hl. pose proof Hs as [Ha Hpr]. unfold auth_proof. erewrite bind_Done by done.
  erewrite bind_ub by by apply proof_is_bad_run.
  destruct (proof_good (a_auth s) p); cbn [negb]; [|done].
  erewrite bind_Done by done. erewrite bind_Done; [done|].
  apply send_ack_run. split; [|done]. by apply auth_ok_flags.
Qed.

(** ** Every operation keeps the invariant and only sends *)

(** The invariant holds and the trace has grown by harmless events, [n] of them
    transmissions. *)
Definition auth_safe (n : nat) s s' : Prop :=
  authed_ok s' /\ adds harmless n (trace (l_io (a_link s))) (trace (l_io (a_link s'))).

(** All of the session but the replay cache. *)
Definition same_session a a' : Prop := exists c n, a' = set_cache c n a.

Lemma same_session_refl a : same_session a a.
Proof. exists (replay_cache a), (next_replay_entry a). by destruct a. Qed.
Lemma auth_safe_refl s : authed_ok s -> auth_safe 0 s s.
Proof. intros. split; [done|]. apply adds_refl. Qed.

Lemma auth_safe_reply c q d a s :
  auth_ok a -> proto_ok (l_proto (a_link s)) -> len d <= PROTOCOL_MAX_PAYLOAD ->
  auth_safe 1 s (reply c q d (mk_authed a (a_link s))).
Proof.
  intros Ha Hp Hd. split; [by apply reply_ok|].
  destruct (reply_trace c q d (mk_authed a (a_link s))) as [err ->]. by apply adds_tx.
Qed.

Lemma auth_safe_reply_same c q d s :
  authed_ok s -> len d <= PROTOCOL_MAX_PAYLOAD -> auth_safe 1 s (reply c q d s).
Proof. destruct s. intros [] ?. by apply auth_safe_reply. Qed.

Lemma auth_send_response_safe p c d s :
  authed_ok s -> packet_in p -> len d <= PROTOCOL_MAX_PAYLOAD -> bytes d -> u8 c ->
  exists s', auth_send_response p c (Some d) (len d) s = Done tt s' /\ auth_safe 1 s s' /\
    same_session (a_auth s) (a_auth s').
Proof.
  intros Hs Hp Hd Hb Hc.
  pose proof (auth_send_response_run p c d [] s Hs Hp Hd Hb Hc) as E. rewrite app_nil_r in E.
  eexists. split; [exact E|]. pose proof (same_session_refl (a_auth s)).
  destruct (signs _ _); [|split; [by apply auth_safe_reply_same|done]].
  destruct (Z.ltb_spec PROTOCOL_MAX_PAYLOAD (len d + AUTH_TAG_SIZE)).
  - split; [by apply auth_safe_reply_same|done].
  - destruct Hs. split; [|by eexists _, _]. apply auth_safe_reply; [by apply auth_ok_remember|done|].
    rewrite zlen_response_of. lia.
Qed.

Lemma auth_send_nack_safe p e s :
  authed_ok s -> packet_in p ->
  exists s', auth_send_nack p e s = Done tt s' /\ auth_safe 1 s s' /\ same_session (a_auth s) (a_auth s').
Proof.
  intros. apply (auth_send_response_safe p (command_byte CMD_NACK) [error_byte e]); try done.
  by destruct e; repeat constructor.
Qed.

Lemma auth_send_ack_safe p s :
  authed_ok s -> packet_in p ->
  exists s', auth_send_ack p s = Done tt s' /\ auth_safe 1 s s' /\ same_session (a_auth s) (a_auth s').
Proof.
  intros. apply (auth_send_response_safe p (command_byte CMD_ACK) [error_byte ERR_OK]); try done.
  by repeat constructor.
Qed.

Lemma auth_check_replay_safe p s :
  authed_ok s -> packet_in p ->
  exists e (replayed : bool) s', auth_check_replay p s = Done (e, replayed) s' /\
    auth_safe (if replayed then 1 else 0) s s' /\ a_auth s' = a_auth s /\
    (replayed = true -> e = ERR_OK).
Proof.
  intros Hs Hp. pose proof (auth_safe_refl s Hs).
  destruct (required (a_auth s) && auth_command_is_protected (pkt_command p)) eqn:E.
  2:{ rewrite check_replay_unprotected by done. by exists ERR_OK, false, s. }
  apply andb_true_iff in E as [Hr Hc]. rewrite check_replay_run by done.
  destruct (authenticated (a_auth s)); [|by exists ERR_AUTH_REQUIRED, false, s].
  destruct (cached (a_auth s) p) as [e|] eqn:Ee; [|by exists ERR_OK, false, s].
  case_bool_decide; [|by exists ERR_AUTH_REQUIRED, false, s].
  eexists ERR_OK, true, _. split; [done|]. split; [|done].
  destruct Hs as [Ha Hpr]. destruct (cached_entry_ok _ _ _ Ha Ee) as [[] _].
  apply auth_safe_reply_same; [done|]. sizes.
Qed.

Lemma challenged_ok a client server :
  auth_ok a -> len client = AUTH_NONCE_SIZE -> len server = AUTH_NONCE_SIZE -> bytes server ->
  auth_ok (challenged client server a).
Proof.
  intros. apply auth_ok_clear, auth_ok_flags, auth_ok_session; [|apply zlen_hmac].
  apply auth_ok_server; [|done..]. by apply auth_ok_client.
Qed.

Lemma zlen_challenge_answer a client server :
  len server = AUTH_NONCE_SIZE -> len (challenge_answer a client server) = 33.
Proof.
  intros Hl. unfold challenge_answer. rewrite !zlen_app, Hl.
  unfold device_proof_tag. rewrite zlen_tag_of by apply zlen_hmac. done.
Qed.

Lemma handle_challenge p s :
  required (a_auth s) = true -> pkt_length p = AUTH_NONCE_SIZE ->
  auth_handle_packet p s = auth_challenge p s.
Proof. intros Hr Hl. unfold auth_handle_packet. erewrite bind_Done by done. by rewrite Hr, Hl. Qed.

Lemma handle_proof p s :
  required (a_auth s) = true -> pkt_length p = AUTH_NONCE_SIZE + AUTH_TAG_SIZE ->
  auth_handle_packet p s = auth_proof p s.
Proof. intros Hr Hl. unfold auth_handle_packet. erewrite bind_Done by done. by rewrite Hr, Hl. Qed.

(** What a handshake packet can do to the session. *)
Inductive handshake_effect p s s' : protocol_error_t -> Prop :=
| handshake_refused e :
    s' = s -> e <> ERR_OK -> handshake_effect p s s' e
| handshake_challenge server :
    required (a_auth s) = true -> pkt_length p = AUTH_NONCE_SIZE -> len server = AUTH_NONCE_SIZE ->
    a_auth s' = challenged (pkt_data p) server (a_auth s) ->
    EvRandom server ∈ trace (l_io (a_link s')) -> handshake_effect p s s' ERR_OK
| handshake_proof :
    required (a_auth s) = true -> proof_good (a_auth s) p = true ->
    a_auth s' = set_flags false true (a_auth s) -> handshake_effect p s s' ERR_OK.

Lemma auth_handle_packet_safe `{!EspIdfSpec W} p s :
  authed_ok s -> packet_in p ->
  exists e s', auth_handle_packet p s = Done e s' /\
    auth_safe (if bool_decide (e = ERR_OK) then 1 else 0) s s' /\ handshake_effect p s s' e.
Proof.
  intros Hs Hp. pose proof (auth_safe_refl s Hs).
  destruct (required (a_auth s)) eqn:Er.
  2:{ exists ERR_UNKNOWN_COMMAND, s. unfold auth_handle_packet. erewrite bind_Done by done. rewrite Er.
      split_and!; [done..|by constructor]. }
  destruct (Z.eqb_spec (pkt_length p) AUTH_NONCE_SIZE) as [E|].
  { rewrite handle_challenge by done. pose proof (auth_challenge_run p s Hs Hp E) as Hrun.
    destruct (draw_random s) as [server s'] eqn:Ed.
    destruct (draw_random_spec _ _ _ Ed) as (Hl & Hb & Ea & El & Et).
    destruct (reply_trace (command_byte CMD_ACK) (pkt_sequence p) (challenge_answer (a_auth s) (pkt_data p) server)
      (mk_authed (challenged (pkt_data p) server (a_auth s)) (a_link s'))) as [err T].
    do 2 eexists. split; [exact Hrun|]. destruct Hs as [Ha Hpr]. rewrite <-El in Hpr.
    assert (auth_ok (challenged (pkt_data p) server (a_auth s))) as Hch.
    { apply challenged_ok; [done|by rewrite zlen_pkt_data|done..]. }
    split; [split|].
    - apply reply_ok; [by split|]. by rewrite zlen_challenge_answer.
    - rewrite T. cbn [a_link]. rewrite Et. eexists [_; _]. split; [done|]. split; [by repeat constructor|done].
    - apply (handshake_challenge _ _ _ server); try done. rewrite T. cbn [a_link]. rewrite Et.
      right. by left. }
  destruct (Z.eqb_spec (pkt_length p) (AUTH_NONCE_SIZE + AUTH_TAG_SIZE)) as [E|].
  2:{ exists ERR_INVALID_LENGTH, s. unfold auth_handle_packet. erewrite bind_Done by done. rewrite Er.
      cbn [negb]. rewrite !(proj2 (Z.eqb_neq _ _)) by done.
      split_and!; [done..|by constructor]. }
  rewrite handle_proof, auth_proof_run by done. destruct (proof_good _ _) eqn:Eg.
  2:{ exists ERR_AUTH_REQUIRED, s. split_and!; [done..|by constructor]. }
  do 2 eexists. split; [done|]. destruct Hs as [Ha Hpr].
  split; [|by apply handshake_proof]. apply auth_safe_reply; [by apply auth_ok_flags|done..].
Qed.

(** ** The window of the replay cache *)

(** [e] answers [p], no other entry does, and [k] more entries were written
    since. *)
Definition in_window p e (k : Z) a : Prop :=
  exists i, 0 <= i < AUTH_REPLAY_CACHE_SIZE /\
    replay_cache a !! Z.to_nat i = Some e /\ matches p e = true /\
    (forall j e', replay_cache a !! j = Some e' -> matches p e' = true -> j = Z.to_nat i) /\
    next_replay_entry a = (i + 1 + k) mod AUTH_REPLAY_CACHE_SIZE.

Lemma in_window_cached p e k a : in_window p e k a -> cached a p = Some e.
Proof.
  intros (i & _ & Hi & Hm & Hu & _). unfold cached.
  assert (list_find (fun e => matches p e = true) (replay_cache a) = Some (Z.to_nat i, e)) as ->; [|done].
  apply list_find_Some. split; [done|]. split; [done|].
  intros j e' Hj Hlt Hm'. specialize (Hu j e' Hj Hm'). lia.
Qed.

Definition same_request p q : bool :=
  (pkt_command p =? pkt_command q) && (pkt_sequence p =? pkt_sequence q).

Lemma in_window_start p c d a :
  auth_ok a -> cached a p = None ->
  exists e, in_window p e 0 (remember p c d a) /\
    ent_request_digest e = request_digest p /\ ent_response_command e = c /\
    take (Z.to_nat (ent_response_length e)) (ent_response_payload e) = response_of a p c d.
Proof.
  intros Ha Hn. pose proof (ok_cache _ Ha) as Hc. pose proof (ok_next _ Ha) as Hx.
  destruct (lookup_lt_is_Some_2 (replay_cache a) (Z.to_nat (next_replay_entry a))) as [o Ho]; [sizes|].
  eexists. split; [exists (next_replay_entry a); split_and!|].
  - lia.
  - lia.
  - simpl. rewrite list_lookup_alter_eq, Ho. reflexivity.
  - unfold matches; simpl. by rewrite !Z.eqb_refl.
  - intros j e' Hj Hm. destruct (decide (j = Z.to_nat (next_replay_entry a))); [done|].
    simpl in Hj. rewrite list_lookup_alter_ne in Hj by done. unfold cached in Hn.
    apply fmap_None, list_find_None in Hn. rewrite Forall_lookup in Hn. by destruct (Hn _ _ Hj).
  - simpl. by rewrite Z.add_0_r.
  - simpl. split; [done|]. split; [done|]. unfold over. apply take_app_length'. sizes.
Qed.

Lemma in_window_remember p e k q c d a :
  in_window p e k a -> 0 <= k < AUTH_REPLAY_CACHE_SIZE - 1 -> same_request q p = false ->
  in_window p e (k + 1) (remember q c d a).
Proof.
  intros (i & Hi & Hl & Hm & Hu & Hx) Hk Hq.
  assert (next_replay_entry a <> i) as Hne.
  { intros E. rewrite E in Hx. unfold AUTH_REPLAY_CACHE_SIZE in *.
    pose proof (Z_div_mod_eq_full (i + 1 + k) 8). lia. }
  assert (0 <= next_replay_entry a) by (rewrite Hx; by apply Z.mod_pos_bound).
  exists i. split_and!; [lia|lia| |done| |].
  - simpl. by rewrite list_lookup_alter_ne by lia.
  - intros j e' Hj Hm'. simpl in Hj.
    destruct (decide (Z.to_nat (next_replay_entry a) = j)) as [<-|].
    + rewrite list_lookup_alter_eq in Hj. apply fmap_Some in Hj as (o & _ & ->).
      unfold matches, same_request in *. simpl in Hm'. by rewrite Hq in Hm'.
    + rewrite list_lookup_alter_ne in Hj by done. by eapply Hu.
  - simpl. rewrite Hx, Zplus_mod_idemp_l. f_equal. lia.
Qed.

Definition request_id (p : protocol_packet_t) : Z * Z := (pkt_command p, pkt_sequence p).

Lemma same_request_id p q : same_request p q = false <-> request_id p <> request_id q.
Proof.
  unfold same_request, request_id. rewrite andb_false_iff, !Z.eqb_neq. split.
  - intros [?|?]; congruence.
  - intros Hne. destruct (Z.eq_dec (pkt_command p) (pkt_command q)) as [E|]; [|by left]. right. congruence.
Qed.

(** The new entry answers its own request only. *)
Lemma remembered_elsewhere p q c b a j e :
  request_id q <> request_id p -> replay_cache (remember q c b a) !! j = Some e ->
  j = Z.to_nat (next_replay_entry a) -> matches p e = false.
Proof.
  intros Hne%same_request_id He ->. simpl in He. rewrite list_lookup_alter_eq in He.
  apply fmap_Some in He as (o & _ & ->). unfold matches, same_request in *. simpl. by rewrite Hne.
Qed.

Lemma remember_fresh p q c b a :
  cached a p = None -> request_id q <> request_id p -> cached (remember q c b a) p = None.
Proof.
  unfold cached. intros Hn Hne. apply fmap_None, list_find_None in Hn.
  apply fmap_None, list_find_None, Forall_lookup. intros j e He.
  destruct (decide (j = Z.to_nat (next_replay_entry a))) as [Ej|Ej].
  - by rewrite (remembered_elsewhere p q c b a j e Hne He Ej).
  - simpl in He. rewrite list_lookup_alter_ne in He by done. rewrite Forall_lookup in Hn. by eapply Hn.
Qed.

Lemma remember_cached p c b a : auth_ok a -> is_Some (cached (remember p c b a) p).
Proof.
  intros Ha. pose proof (ok_cache _ Ha). pose proof (ok_next _ Ha).
  destruct (lookup_lt_is_Some_2 (replay_cache a) (Z.to_nat (next_replay_entry a))) as [o Ho]; [sizes|].
  unfold cached. apply fmap_is_Some. eapply list_find_elem_of.
  - eapply list_elem_of_lookup_2. simpl. rewrite list_lookup_alter_eq, Ho. reflexivity.
  - unfold matches. simpl. by rewrite !Z.eqb_refl.
Qed.

(** [k] entries were written from slot [n] on, none of them for [p]. *)
Definition evicting p (n k : Z) a : Prop :=
  next_replay_entry a = (n + k) mod AUTH_REPLAY_CACHE_SIZE /\
  forall i e, 0 <= i < k -> replay_cache a !! Z.to_nat ((n + i) mod AUTH_REPLAY_CACHE_SIZE) = Some e ->
    matches p e = false.

Lemma evicting_start p a : auth_ok a -> evicting p (next_replay_entry a) 0 a.
Proof.
  intros Ha. pose proof (ok_next _ Ha). split; [|lia]. by rewrite Z.add_0_r, Z.mod_small.
Qed.

Lemma evicting_remember p n k q c b a :
  evicting p n k a -> request_id q <> request_id p -> evicting p n (k + 1) (remember q c b a).
Proof.
  intros [Hx He] Hne. split.
  { simpl. rewrite Hx, Zplus_mod_idemp_l. f_equal. lia. }
  intros i e Hi Hl.
  destruct (decide (Z.to_nat ((n + i) mod AUTH_REPLAY_CACHE_SIZE) = Z.to_nat (next_replay_entry a))) as [Ej|Ej].
  - by eapply remembered_elsewhere.
  - simpl in Hl. rewrite list_lookup_alter_ne in Hl by done. eapply He; [|exact Hl].
    split; [lia|]. destruct (Z.eq_dec i k) as [->|]; [|lia]. destruct Ej. by rewrite Hx.
Qed.

(** Once every slot was written, [p] is forgotten. *)
Lemma evicting_all p n a : auth_ok a -> evicting p n AUTH_REPLAY_CACHE_SIZE a -> cached a p = None.
Proof.
  intros Ha [_ He]. pose proof (ok_cache _ Ha) as Hc. unfold cached.
  apply fmap_None, list_find_None, Forall_lookup. intros j e Hl.
  pose proof (lookup_lt_Some _ _ _ Hl) as Hj. unfold zlen in Hc. unfold AUTH_REPLAY_CACHE_SIZE in *.
  pose proof (Z.mod_pos_bound (Z.of_nat j - n) 8 ltac:(lia)) as Hi.
  rewrite (He ((Z.of_nat j - n) mod 8) e); [done|lia|].
  rewrite Zplus_mod_idemp_r. replace (n + (Z.of_nat j - n)) with (Z.of_nat j) by lia.
  rewrite Z.mod_small, Nat2Z.id by lia. done.
Qed.

(** Responses sent one after the other. *)
Fixpoint respond_all (l : list (protocol_packet_t * Z * list Z)) : M (authed W) unit :=
  match l with
  | [] => mret tt
  | (q, c, d) :: l => _ ← auth_send_response q c (Some d) (len d); respond_all l
  end.

Definition response_in '((q, c, d) : protocol_packet_t * Z * list Z) : Prop :=
  packet_in q /\ len d <= PROTOCOL_MAX_PAYLOAD /\ bytes d /\ u8 c.

Lemma in_window_respond p e q c d k s :
  authed_ok s -> response_in (q, c, d) -> same_request q p = false ->
  in_window p e k (a_auth s) -> 0 <= k < AUTH_REPLAY_CACHE_SIZE - 1 ->
  exists s', auth_send_response q c (Some d) (len d) s = Done tt s' /\ authed_ok s' /\
    required (a_auth s') = required (a_auth s) /\
    authenticated (a_auth s') = authenticated (a_auth s) /\
    exists k', k <= k' <= k + 1 /\ in_window p e k' (a_auth s').
Proof.
  intros Hs (Hq & Hl & Hb & Hc) Hne Hw Hk.
  destruct (auth_send_response_safe q c d s Hs Hq Hl Hb Hc) as (s' & E & [Hs' _] & _).
  exists s'. split; [done|]. split; [done|].
  pose proof (auth_send_response_run q c d [] s Hs Hq Hl Hb Hc) as E'. rewrite app_nil_r, E in E'.
  injection E' as ->.
  destruct (signs (a_auth s) q); [|by split_and!; try done; exists k; split; [lia|]].
  destruct (Z.ltb_spec PROTOCOL_MAX_PAYLOAD (len d + AUTH_TAG_SIZE)).
  - split_and!; try done. exists k. split; [lia|done].
  - split_and!; try done. exists (k + 1). split; [lia|]. by apply in_window_remember.
Qed.

Lemma in_window_respond_all p e l : forall k s,
  authed_ok s -> Forall (fun r => response_in r /\ same_request r.1.1 p = false) l ->
  in_window p e k (a_auth s) -> 0 <= k -> k + len l <= AUTH_REPLAY_CACHE_SIZE - 1 ->
  exists s', respond_all l s = Done tt s' /\ authed_ok s' /\
    required (a_auth s') = required (a_auth s) /\
    authenticated (a_auth s') = authenticated (a_auth s) /\
    exists k', in_window p e k' (a_auth s').
Proof.
  induction l as [|[[q c] d] l IH]; intros k s Hs Hl Hw Hk Hn.
  { exists s. split_and!; try done. by exists k. }
  inversion_clear Hl as [|?? [Hr Hd] Hl']. rewrite zlen_cons in Hn. pose proof (zlen_nonneg l).
  destruct (in_window_respond p e q c d k s Hs Hr Hd Hw) as (s' & E & Hs' & Er & Ea & k' & Hk' & Hw'); [lia|].
  destruct (IH k' s' Hs' Hl' Hw') as (s'' & E' & Hs'' & Er' & Ea' & Hw''); [lia|lia|].
  exists s''. split_and!; [|done|congruence|congruence|done].
  cbn [respond_all]. by rewrite (bind_Done _ _ _ _ _ E).
Qed.

(** ** Handshake packets one after the other *)

Definition is_challenge p : bool := pkt_length p =? AUTH_NONCE_SIZE.

Lemma handshake_cases `{!EspIdfSpec W} p s :
  authed_ok s -> packet_in p -> required (a_auth s) = true ->
  let server := (esp_fill_random AUTH_NONCE_SIZE (world (l_io (a_link s)))).1 in
  exists e s', auth_handle_packet p s = Done e s' /\ authed_ok s' /\
    (forall ev, ev ∈ trace (l_io (a_link s)) -> ev ∈ trace (l_io (a_link s'))) /\
    if is_challenge p
    then a_auth s' = challenged (pkt_data p) server (a_auth s) /\ EvRandom server ∈ trace (l_io (a_link s'))
    else a_auth s' = a_auth s \/
      proof_good (a_auth s) p = true /\ a_auth s' = set_flags false true (a_auth s).
Proof.
  intros Hs Hp Hr server. destruct (auth_handle_packet_safe p s Hs Hp) as (e & s' & E & [Hs' Ht] & _).
  exists e, s'. split; [done|]. split; [done|]. split; [intros ev; by eapply adds_elem|]. unfold is_challenge.
  destruct (Z.eqb_spec (pkt_length p) AUTH_NONCE_SIZE) as [El|El].
  - pose proof (auth_challenge_run p s Hs Hp El) as Hrun.
    destruct (draw_random s) as [x s1] eqn:Ed. rewrite <-handle_challenge, E in Hrun by done.
    assert (x = server) as -> by (unfold draw_random in Ed; subst server; destruct (esp_fill_random _ _); by simplify_eq).
    destruct (draw_random_spec _ _ _ Ed) as (_ & _ & _ & _ & Et).
    injection Hrun as _ ->. split; [done|].
    destruct (reply_trace (command_byte CMD_ACK) (pkt_sequence p) (challenge_answer (a_auth s) (pkt_data p) server)
      (mk_authed (challenged (pkt_data p) server (a_auth s)) (a_link s1))) as [err T].
    change 240 with (command_byte CMD_ACK). rewrite T. cbn [a_link]. rewrite Et. right. by left.
  - destruct (Z.eqb_spec (pkt_length p) (AUTH_NONCE_SIZE + AUTH_TAG_SIZE)) as [E2|E2].
    + rewrite handle_proof, auth_proof_run in E by done. destruct (proof_good _ _); injection E as _ <-; auto.
    + unfold auth_handle_packet in E. erewrite bind_Done in E by done. rewrite Hr in E. cbn [negb] in E.
      rewrite !(proj2 (Z.eqb_neq _ _)) in E by done. injection E as _ <-. by left.
Qed.

(** [auth_handle_packet] on each packet; the caller answers the refused ones. *)
Fixpoint handshakes (l : list protocol_packet_t) : M (authed W) unit :=
  match l with
  | [] => mret tt
  | p :: l => _ ← auth_handle_packet p; handshakes l
  end.

Lemma handshakes_snoc l p s s1 e s' :
  handshakes l s = Done tt s1 -> auth_handle_packet p s1 = Done e s' -> handshakes (l ++ [p]) s = Done tt s'.
Proof.
  revert s. induction l as [|q l IH]; intros s E Ep; cbn [handshakes app] in *.
  - injection E as ->. by rewrite (bind_Done _ _ _ _ _ Ep).
  - destruct (auth_handle_packet q s) as [e1 s2| |] eqn:Eq; [|by unfold mbind, M_bind in E; rewrite Eq in E..].
    rewrite (bind_Done _ _ _ _ _ Eq) in E. rewrite (bind_Done _ _ _ _ _ Eq). by apply IH.
Qed.

(** The last challenge of [l], run from [s], is the one the session holds; if the
    session is authenticated, its proof came after that challenge. *)
Record challenged_by (key : list Z) s (l l0 : list protocol_packet_t) p1 l1 s0 s' : Prop := {
  ch_split : l = l0 ++ p1 :: l1;
  ch_run : handshakes l0 s = Done tt s0;
  ch_challenge : is_challenge p1 = true;
  ch_last : Forall (fun q => is_challenge q = false) l1;
  ch_server : server_nonce (a_auth s') = (esp_fill_random AUTH_NONCE_SIZE (world (l_io (a_link s0)))).1;
  ch_client : client_nonce (a_auth s') = pkt_data p1;
  ch_key : session_key (a_auth s') =
    derived AUTH_SESSION_PREFIX key (client_nonce (a_auth s')) (server_nonce (a_auth s'));
  ch_drawn : EvRandom (server_nonce (a_auth s')) ∈ trace (l_io (a_link s'));
  ch_proof : authenticated (a_auth s') = true -> exists p2, p2 ∈ l1 /\
    pkt_data p2 = client_nonce (a_auth s') ++
      proof_tag key (client_nonce (a_auth s')) (server_nonce (a_auth s'))
}.

Lemma handshakes_challenged `{!EspIdfSpec W} key s l :
  authed_ok s -> required (a_auth s) = true -> psk (a_auth s) = key ->
  pending (a_auth s) = false -> authenticated (a_auth s) = false -> Forall packet_in l ->
  exists s', handshakes l s = Done tt s' /\ authed_ok s' /\ required (a_auth s') = true /\
    psk (a_auth s') = key /\
    (pending (a_auth s') || authenticated (a_auth s') = true ->
     exists l0 p1 l1 s0, challenged_by key s l l0 p1 l1 s0 s').
Proof.
  intros Hs Hr Hk Hpe Hau Hl. induction l as [|p l IH] using rev_ind.
  { exists s. split_and!; try done. by rewrite Hpe, Hau. }
  apply Forall_app in Hl as [Hl Hp]. inversion_clear Hp as [|?? Hp1 _]. rename Hp1 into Hp.
  destruct (IH Hl) as (s1 & E1 & Hs1 & Hr1 & Hk1 & Hch).
  destruct (handshake_cases p s1 Hs1 Hp Hr1) as (e & s' & E & Hs' & Ht & Hcase).
  exists s'. split; [by eapply handshakes_snoc|]. split; [done|].
  destruct (is_challenge p) eqn:Ec.
  - destruct Hcase as [Ea Hrand]. rewrite Ea. split; [done|]. split; [done|]. intros _.
    exists l, p, [], s1. by split; rewrite ?Ea; try rewrite <-Hk1.
  - assert (forall a', a_auth s' = a' -> client_nonce a' = client_nonce (a_auth s1) ->
      server_nonce a' = server_nonce (a_auth s1) -> session_key a' = session_key (a_auth s1) ->
      (pending (a_auth s1) || authenticated (a_auth s1) = true) ->
      (authenticated a' = true -> authenticated (a_auth s1) = true \/ proof_good (a_auth s1) p = true) ->
      exists l0 p1 l1 s0, challenged_by key s (l ++ [p]) l0 p1 l1 s0 s') as Hkeep.
    { intros a' <- Ecl Ese Eke Hop Hor. destruct (Hch Hop) as (l0 & p1 & l1 & s0 & [El ? ? Hlast ? ? ? ? Hpr]).
      exists l0, p1, (l1 ++ [p]), s0. split; rewrite ?Ecl, ?Ese, ?Eke; try done.
      - by rewrite El, <-app_assoc.
      - apply Forall_app. split; [done|]. by apply Forall_singleton.
      - by apply Ht.
      - intros Ha'. destruct (Hor Ha') as [Ha|Hg].
        + destruct (Hpr Ha) as (p2 & Hin & Ep2). exists p2. split; [|done]. apply elem_of_app. by left.
        + exists p. split; [apply elem_of_app; right; by left|]. unfold proof_good in Hg.
          apply andb_true_iff in Hg as [_ Hg%bool_decide_eq_true]. by rewrite <-Hk1. }
    destruct Hcase as [Ea|[Hg Ea]]; rewrite Ea; (split; [done|]; split; [done|]); intros Hop.
    + apply (Hkeep _ Ea); try done. by left.
    + apply (Hkeep _ Ea); try done; [by apply andb_true_iff in Hg as [Hg _]|]. by right.
Qed.
End Runs.


(** ** Configuration *)

Lemma auth_configure_run key junk require :
  1 <= len key <= AUTH_KEY_MAX_SIZE ->
  auth_configure (Some (key ++ junk)) (len key) require =
  Some (mk_auth require false false (over key (zeros AUTH_KEY_MAX_SIZE)) (len key) (zeros AUTH_NONCE_SIZE)
          (zeros AUTH_NONCE_SIZE) (zeros SHA256_SIZE) cache_zero 0).
Proof.
  intros Hk. unfold auth_configure. destruct (Z.eqb_spec (len key) 0) as [|Hz]; [lia|].
  destruct (Z.ltb_spec AUTH_KEY_MAX_SIZE (len key)); [lia|]. cbn [orb].
  unfold memcpy. rewrite slice_prefix by done. cbn [mbind option_bind].
  assert (blit (auth_key auth_zero) 0 key = Some (over key (zeros AUTH_KEY_MAX_SIZE))) as ->; [|done].
  apply (blit_over []); sizes.
Qed.

Lemma psk_configured key junk require :
  1 <= len key <= AUTH_KEY_MAX_SIZE ->
  exists a, auth_configure (Some (key ++ junk)) (len key) require = Some a /\
    psk a = key /\ required a = require /\ pending a = false /\ authenticated a = false /\ auth_ok a.
Proof.
  intros Hk. eexists. split; [by apply auth_configure_run|]. split; [|split_and!; try done].
  - unfold psk, over. cbn [auth_key auth_key_len]. apply take_app_length'. sizes.
  - assert (len (zeros AUTH_KEY_MAX_SIZE) = AUTH_KEY_MAX_SIZE) as Hzl by done.
    split; try done; try apply bytes_zeros; try apply cache_zero_ok; cbn [auth_key auth_key_len]; try lia.
    rewrite zlen_over; lia.
Qed.

(** Any key array of which [n] bytes can be read, or none. *)
Lemma auth_configure_total key n require :
  match key with None => True | Some k => 0 <= n <= len k end ->
  exists a, auth_configure key n require = Some a /\ auth_ok a /\ pending a = false /\ authenticated a = false.
Proof.
  destruct key as [k|]; intros Hn; [|exists auth_zero; by split; [|split; [apply auth_zero_ok|]]].
  destruct (split_at k n Hn) as (key & junk & -> & <-).
  destruct (decide (1 <= len key <= AUTH_KEY_MAX_SIZE)) as [Hk|Hk].
  - destruct (psk_configured key junk require Hk) as (a & E & _ & _ & ? & ? & ?). by exists a.
  - exists auth_zero. split; [|by split; [apply auth_zero_ok|]].
    unfold auth_configure. destruct (Z.eqb_spec (len key) 0); [done|].
    destruct (Z.ltb_spec AUTH_KEY_MAX_SIZE (len key)); [done|]. pose proof (zlen_nonneg key). lia.
Qed.

(** ** Concrete instances *)

(** A packet with the given bytes in an otherwise cleared array. *)
Definition make_packet (command sequence : Z) (data : list Z) : protocol_packet_t :=
  mk_packet PROTOCOL_VERSION command sequence (len data) (over data (zeros PROTOCOL_MAX_PAYLOAD)).

Definition example_key : list Z := [107; 101; 121; 33].
Definition example_auth (pending authenticated : bool) : auth_state_t :=
  mk_auth true pending authenticated (over example_key (zeros AUTH_KEY_MAX_SIZE)) 4
    (replicate 16 5) (replicate 16 6) (replicate 32 9) cache_zero 0.
Definition example_authed (pending authenticated : bool) : authed sim :=
  mk_authed (example_auth pending authenticated) example_link.

Lemma example_authed_ok pn au : authed_ok (example_authed pn au).
Proof.
  split; [|done]. split; try done; try apply cache_zero_ok; try (simpl; lia).
  apply Forall_replicate. unfold u8. lia.
Qed.

(** * Properties *)

Section Properties.
Context {W : Type} `{EspIdf W, !EspIdfSpec W, Sha256Spec}.

(** C14 (functional): a host that knows the pre-shared key completes the
    handshake in two packets from every state. The device answers the
    challenge with fresh random bytes and its own proof, accepts the host's
    proof over both nonces, holds the derived session key, and starts the
    session with an empty replay cache. *)
Theorem handshake_completes (s : authed W) p1 p2 server s1 :
  authed_ok s -> required (a_auth s) = true -> packet_in p1 -> packet_in p2 ->
  pkt_length p1 = AUTH_NONCE_SIZE -> draw_random s = (server, s1) ->
  pkt_data p2 = pkt_data p1 ++ proof_tag (psk (a_auth s)) (pkt_data p1) server ->
  exists s2 s3 err1 err2,
    auth_handle_packet p1 s = Done ERR_OK s2 /\ auth_handle_packet p2 s2 = Done ERR_OK s3 /\
    authed_ok s3 /\ authenticated (a_auth s3) = true /\
    session_key (a_auth s3) = derived AUTH_SESSION_PREFIX (psk (a_auth s)) (pkt_data p1) server /\
    replay_cache (a_auth s3) = cache_zero /\
    trace (l_io (a_link s3)) =
      EvTx (encode_frame (sent_frame (command_byte CMD_ACK) (pkt_sequence p2) [error_byte ERR_OK])) err2 ::
      EvTx (encode_frame (sent_frame (command_byte CMD_ACK) (pkt_sequence p1)
              (challenge_answer (a_auth s) (pkt_data p1) server))) err1 ::
      EvRandom server :: trace (l_io (a_link s)).
Proof.
  intros Hs Hr Hp1 Hp2 Hl Hd E2. destruct (draw_random_spec _ _ _ Hd) as (Hn & Hb & Ea & El & Et).
  destruct (auth_handle_packet_safe p1 s Hs Hp1) as (r & s2 & E & [Hs2 _] & _).
  pose proof (auth_challenge_run p1 s Hs Hp1 Hl) as Hrun. rewrite Hd in Hrun.
  rewrite <-handle_challenge, E in Hrun by done. injection Hrun as -> ->.
  set (s2 := reply _ _ _ _) in *.
  assert (pkt_length p2 = AUTH_NONCE_SIZE + AUTH_TAG_SIZE) as Hl2.
  { rewrite <-(zlen_pkt_data p2), E2, zlen_app, zlen_pkt_data, Hl by done. unfold proof_tag.
    by rewrite zlen_tag_of by apply zlen_hmac. }
  assert (proof_good (a_auth s2) p2 = true) as Hg.
  { unfold proof_good. simpl. by apply bool_decide_true. }
  pose proof (auth_proof_run p2 s2 Hs2 Hp2 Hl2) as Hrun2. rewrite Hg in Hrun2.
  rewrite <-handle_proof in Hrun2 by done.
  set (s3 := reply _ _ _ _) in Hrun2.
  destruct (reply_trace (command_byte CMD_ACK) (pkt_sequence p1)
    (challenge_answer (a_auth s) (pkt_data p1) server)
    (mk_authed (challenged (pkt_data p1) server (a_auth s)) (a_link s1))) as [err1 T1].
  destruct (reply_trace (command_byte CMD_ACK) (pkt_sequence p2) [error_byte ERR_OK]
    (mk_authed (set_flags false true (a_auth s2)) (a_link s2))) as [err2 T2].
  exists s2, s3, err1, err2. split; [done|]. split; [done|]. split.
  { apply reply_ok; [|done]. destruct Hs2. split; [by apply auth_ok_flags|done]. }
  do 3 (split; [done|]). 
  etrans; [exact T2|]. f_equal. etrans; [exact T1|]. by f_equal.
Qed.

(** C9 (safety): nothing but the proof authenticates. Whatever handshake packets
    arrive after [auth_configure] stored the key, [auth_handle_packet] returns
    on each; and if the session is authenticated at the end, then the last
    challenge among them carried a client nonce, the device then drew the
    server nonce at random, and a later packet carried the client nonce and the
    proof tag over that nonce pair under the pre-shared key. The session key is
    the one derived from that pair. *)
Theorem only_the_proof_authenticates (s : authed W) key l :
  authed_ok s -> auth_configure (Some key) (len key) true = Some (a_auth s) ->
  1 <= len key <= AUTH_KEY_MAX_SIZE -> Forall packet_in l ->
  exists s', handshakes l s = Done tt s' /\
    (authenticated (a_auth s') = true ->
     exists l0 p1 l1 p2 l2 s0,
       l = l0 ++ p1 :: l1 ++ p2 :: l2 /\ handshakes l0 s = Done tt s0 /\
       let client := pkt_data p1 in
       let server := (esp_fill_random AUTH_NONCE_SIZE (world (l_io (a_link s0)))).1 in
       pkt_length p1 = AUTH_NONCE_SIZE /\
       Forall (fun q => pkt_length q <> AUTH_NONCE_SIZE) (l1 ++ p2 :: l2) /\
       EvRandom server ∈ trace (l_io (a_link s')) /\
       pkt_data p2 = client ++ proof_tag key client server /\
       session_key (a_auth s') = derived AUTH_SESSION_PREFIX key client server).
Proof.
  intros Hs Hcfg Hk Hl.
  destruct (psk_configured key [] true Hk) as (a & E & Epsk & Er & Ep & Eau & _).
  rewrite app_nil_r, Hcfg in E. injection E as <-.
  destruct (handshakes_challenged key s l Hs Er Epsk Ep Eau Hl) as (s' & E & _ & _ & _ & Hch).
  exists s'. split; [done|]. intros Ha.
  destruct Hch as (l0 & p1 & l1 & s0 & [El Erun Hc1%Z.eqb_eq Hlast Hse Hcl Hke Hdr Hpr]); [by rewrite Ha, orb_true_r|].
  destruct (Hpr Ha) as (p2 & (l1' & l2 & ->)%list_elem_of_split & Ep2).
  exists l0, p1, l1', p2, l2, s0. rewrite <-Hse, <-Hcl. cbv zeta. split_and!; try done.
  eapply Forall_impl; [exact Hlast|]. intros q Hq%Z.eqb_neq. exact Hq.
Qed.

(** C25 (functional): a lost acknowledgement of the proof costs no session. The
    same proof packet, sent again after it was accepted, is acknowledged again
    and leaves the authenticated session as it is. *)
Theorem proof_retry_keeps_the_session (s : authed W) p s1 :
  authed_ok s -> packet_in p -> pkt_length p = AUTH_NONCE_SIZE + AUTH_TAG_SIZE ->
  required (a_auth s) = true -> auth_handle_packet p s = Done ERR_OK s1 ->
  exists s2 err,
    auth_handle_packet p s1 = Done ERR_OK s2 /\ a_auth s2 = a_auth s1 /\
    trace (l_io (a_link s2)) =
      EvTx (encode_frame (sent_frame (command_byte CMD_ACK) (pkt_sequence p) [error_byte ERR_OK])) err ::
      trace (l_io (a_link s1)).
Proof.
  intros Hs Hp Hl Hr E. destruct (auth_handle_packet_safe p s Hs Hp) as (r & s1' & E1 & [Hs1 _] & _).
  rewrite E in E1. injection E1 as <- <-.
  rewrite handle_proof, auth_proof_run in E by done.
  destruct (proof_good (a_auth s) p) eqn:Eg; [|done]. injection E as <-. set (s1 := reply _ _ _ _) in *.
  assert (proof_good (a_auth s1) p = true) as Eg1.
  { unfold proof_good in *. apply andb_true_iff in Eg as [_ Eg]. by rewrite andb_true_iff. }
  rewrite handle_proof, auth_proof_run, Eg1 by done.
  destruct (reply_trace (command_byte CMD_ACK) (pkt_sequence p) [error_byte ERR_OK]
    (mk_authed (set_flags false true (a_auth s1)) (a_link s1))) as [err T].
  eexists _, err. split; [done|]. split; [done|exact T].
Qed.

(** C10 (functional): [auth_unwrap_packet] on a protected command of a device
    that requires authentication accepts exactly the packets of an
    authenticated session whose last [AUTH_TAG_SIZE] bytes are the request tag
    over command, sequence number and the bytes before them; it then yields
    those bytes. Everything else, too short packets included, is refused with
    [ERR_AUTH_REQUIRED]. *)
Theorem unwrap_accepts_exactly_tagged a p :
  auth_ok a -> packet_in p -> required a = true ->
  auth_command_is_protected (pkt_command p) = true ->
  exists r n, auth_unwrap_packet a p = Some (r, pkt_payload p, n) /\
    (r = ERR_OK \/ r = ERR_AUTH_REQUIRED) /\
    (r = ERR_OK <-> authenticated a = true /\ tagged (session_key a) p) /\
    (r = ERR_OK -> exists data, slice (pkt_payload p) 0 n = Some data /\
       pkt_data p = data ++ request_tag (session_key a) (pkt_command p) (pkt_sequence p) data).
Proof.
  intros Ha Hp Hr Hc. rewrite unwrap_protected_run by done.
  pose proof (tag_valid_spec (session_key a) p Hp) as Ht.
  destruct (authenticated a); cbn [andb].
  2:{ do 2 eexists. split; [done|]. split; [by right|]. naive_solver. }
  destruct (tag_valid (session_key a) p) eqn:E.
  2:{ do 2 eexists. split; [done|]. split; [by right|]. naive_solver. }
  do 2 eexists. split; [done|]. split; [by left|]. split; [naive_solver|]. intros _.
  destruct (proj1 Ht eq_refl) as [data Ed]. exists data. split; [|done].
  destruct (pkt_data_split p Hp) as (junk & Ep & El). rewrite Ep, Ed, <-app_assoc.
  apply slice_prefix. rewrite El, Ed, zlen_app, zlen_request_tag. lia.
Qed.

(** C15 (safety): a retry is answered, not executed. After the signed response
    to a request, and up to seven more responses, all to packets with another
    command or sequence number, an exact repetition of the request is answered
    with the very bytes sent the first time and the session is left untouched;
    another packet that reuses its command and sequence number with a different
    digest is refused. *)
Theorem retry_is_answered_from_the_cache (s : authed W) p c d later :
  authed_ok s -> signs (a_auth s) p = true -> cached (a_auth s) p = None ->
  response_in (p, c, d) -> len d + AUTH_TAG_SIZE <= PROTOCOL_MAX_PAYLOAD ->
  Forall (fun r => response_in r /\ same_request r.1.1 p = false) later ->
  len later < AUTH_REPLAY_CACHE_SIZE ->
  let out := encode_frame (sent_frame c (pkt_sequence p) (response_of (a_auth s) p c d)) in
  exists s1 s2 s3 err err',
    auth_send_response p c (Some d) (len d) s = Done tt s1 /\
    trace (l_io (a_link s1)) = EvTx out err :: trace (l_io (a_link s)) /\
    respond_all later s1 = Done tt s2 /\
    auth_check_replay p s2 = Done (ERR_OK, true) s3 /\
    a_auth s3 = a_auth s2 /\
    trace (l_io (a_link s3)) = EvTx out err' :: trace (l_io (a_link s2)) /\
    forall q, packet_in q -> same_request q p = true -> request_digest q <> request_digest p ->
      auth_check_replay q s2 = Done (ERR_AUTH_REQUIRED, false) s2.
Proof.
  intros Hs Hsg Hno (Hp & Hd & Hb & Hc) Hl Hlater Hn out.
  pose proof (auth_send_response_run p c d [] s Hs Hp Hd Hb Hc) as E1.
  rewrite app_nil_r, Hsg in E1. destruct (Z.ltb_spec PROTOCOL_MAX_PAYLOAD (len d + AUTH_TAG_SIZE)); [lia|].
  set (s0 := mk_authed (remember p c d (a_auth s)) (a_link s)) in E1.
  destruct (auth_send_response_safe p c d s Hs Hp Hd Hb Hc) as (s1 & E1' & [Hs1 _] & _).
  rewrite E1' in E1. injection E1 as ->.
  destruct (reply_trace c (pkt_sequence p) (response_of (a_auth s) p c d) s0) as [err T1].
  destruct (in_window_start p c d (a_auth s) (proj1 Hs) Hno) as (e & Hw & He1 & He2 & He3).
  unfold signs in Hsg. rewrite !andb_true_iff in Hsg. destruct Hsg as [[Hr Hau] Hpr].
  destruct (in_window_respond_all p e later 0 _ Hs1 Hlater Hw ltac:(lia) ltac:(lia))
    as (s2 & E2 & Hs2 & Er & Eau & k' & Hw'). cbn in Er, Eau.
  apply in_window_cached in Hw' as Hca.
  destruct (reply_trace c (pkt_sequence p) (response_of (a_auth s) p c d) s2) as [err' T3].
  eexists _, s2, _, err, err'. split; [exact E1'|]. split; [exact T1|]. split; [exact E2|].
  split.
  { rewrite check_replay_run by congruence. rewrite Eau, Hau, Hca, He1, He2, He3.
    by rewrite bool_decide_true. }
  split; [done|]. split; [exact T3|].
  intros q Hq Hsame Hdig. unfold same_request in Hsame.
  apply andb_true_iff in Hsame as [Hqc%Z.eqb_eq Hqs%Z.eqb_eq].
  assert (cached (a_auth s2) q = Some e) as Hcq.
  { rewrite <-Hca. unfold cached, matches. by rewrite Hqc, Hqs. }
  rewrite check_replay_run by congruence. rewrite Eau, Hau, Hcq, He1.
  by rewrite bool_decide_false by congruence.
Qed.

(** C24 (invariant): every operation of the authentication layer runs without
    undefined behaviour, returns, keeps the layout of [s_auth] and of the
    transmit buffer, and touches the outside only by drawing random bytes and
    by sending packets: one for an accepted handshake packet, for a replayed
    response and for every response, none otherwise. *)
Theorem auth_operations_are_safe (s : authed W) p c d e :
  authed_ok s -> packet_in p -> len d <= PROTOCOL_MAX_PAYLOAD -> bytes d -> u8 c ->
  let safe {A} (m : M (authed W) A) (sent : A -> nat) :=
    wp m (fun r s' => auth_safe (sent r) s s') (fun _ => False) s in
  safe (auth_handle_packet p) (fun r => if bool_decide (r = ERR_OK) then 1 else 0)%nat /\
  safe (auth_check_replay p) (fun r => if r.2 then 1 else 0)%nat /\
  safe (auth_send_response p c (Some d) (len d)) (fun _ => 1%nat) /\
  safe (auth_send_ack p) (fun _ => 1%nat) /\ safe (auth_send_nack p e) (fun _ => 1%nat) /\
  is_Some (auth_unwrap_packet (a_auth s) p).
Proof.
  intros Hs Hp Hd Hb Hc safe. unfold safe. split_and!.
  - destruct (auth_handle_packet_safe p s Hs Hp) as (r & s' & E & Hs' & _). by eapply wp_Done.
  - destruct (auth_check_replay_safe p s Hs Hp) as (r & b & s' & E & Hs' & _). by eapply wp_Done.
  - destruct (auth_send_response_safe p c d s Hs Hp Hd Hb Hc) as (s' & E & Hs' & _). by eapply wp_Done.
  - destruct (auth_send_ack_safe p s Hs Hp) as (s' & E & Hs' & _). by eapply wp_Done.
  - destruct (auth_send_nack_safe p e s Hs Hp) as (s' & E & Hs' & _). by eapply wp_Done.
  - destruct (required (a_auth s) && auth_command_is_protected (pkt_command p)) eqn:E.
    + apply andb_true_iff in E as [??]. rewrite unwrap_protected_run by (done || apply Hs). by eexists.
    + rewrite unwrap_unprotected by done. by eexists.
Qed.
End Properties.

(** C26 (functional): [auth_configure] with a key of 1 to [AUTH_KEY_MAX_SIZE]
    bytes stores exactly that key and enables authentication as asked; with a
    missing, empty or too long key the device runs without authentication. In
    every case no session is open and the state is well formed. *)
Theorem auth_configure_stores_the_key key junk require :
  exists a, auth_configure (Some (key ++ junk)) (len key) require = Some a /\ auth_ok a /\
    pending a = false /\ authenticated a = false /\
    (1 <= len key <= AUTH_KEY_MAX_SIZE -> psk a = key /\ auth_is_enabled a = require) /\
    (len key = 0 \/ AUTH_KEY_MAX_SIZE < len key -> auth_is_enabled a = false) /\
    auth_configure None (len key) require = Some auth_zero /\ auth_is_enabled auth_zero = false.
Proof.
  pose proof (zlen_nonneg key).
  destruct (decide (1 <= len key <= AUTH_KEY_MAX_SIZE)) as [Hk|Hk].
  - destruct (psk_configured key junk require Hk) as (a & E & Hp & Hr & Hpn & Hau & Ha).
    exists a. split_and!; try done; lia.
  - exists auth_zero. assert ((len key =? 0) || (AUTH_KEY_MAX_SIZE <? len key) = true) as E.
    { rewrite orb_true_iff, Z.eqb_eq, Z.ltb_lt. lia. }
    unfold auth_configure. rewrite E. split_and!; try done; apply auth_zero_ok.
Qed.


Lemma handshake_completes_witness :
  let p1 := make_packet 5 40 (replicate 16 7) in
  let key := psk (example_auth false false) in
  let p2 := make_packet 5 41 (replicate 16 7 ++ proof_tag key (replicate 16 7) (zeros 16)) in
  exists s2 s3 err1 err2,
    auth_handle_packet p1 (example_authed false false) = Done ERR_OK s2 /\
    auth_handle_packet p2 s2 = Done ERR_OK s3 /\
    authed_ok s3 /\ authenticated (a_auth s3) = true /\
    session_key (a_auth s3) = derived AUTH_SESSION_PREFIX key (replicate 16 7) (zeros 16) /\
    replay_cache (a_auth s3) = cache_zero /\
    trace (l_io (a_link s3)) =
      [EvTx (encode_frame (sent_frame (command_byte CMD_ACK) 41 [error_byte ERR_OK])) err2;
       EvTx (encode_frame (sent_frame (command_byte CMD_ACK) 40
               (challenge_answer (example_auth false false) (replicate 16 7) (zeros 16)))) err1;
       EvRandom (zeros 16)].
Proof.
  intros p1 key p2.
  refine (handshake_completes (example_authed false false) p1 p2 (zeros 16)
    (draw_random (example_authed false false)).2 (example_authed_ok _ _) eq_refl _ _ eq_refl eq_refl _).
  - apply (bool_decide_eq_true_1 (packet_in p1)). vm_compute. reflexivity.
  - apply (bool_decide_eq_true_1 (packet_in p2)). vm_compute. reflexivity.
  - vm_compute. reflexivity.
Defined.

(** The proof packet for the pending challenge of [example_auth]. *)
Definition example_proof : protocol_packet_t :=
  make_packet 5 41
    (replicate 16 5 ++ proof_tag (psk (example_auth true false)) (replicate 16 5) (replicate 16 6)).

(** A configured device, a wrong proof, and a handshake by a host with the key. *)
Definition configured_auth : auth_state_t := default auth_zero (auth_configure (Some example_key) 4 true).
Definition configured_authed : authed sim := mk_authed configured_auth example_link.
Definition example_handshake : list protocol_packet_t :=
  [example_proof; make_packet 5 1 (replicate 16 7);
   make_packet 5 2 (replicate 16 7 ++ proof_tag example_key (replicate 16 7) (zeros 16))].

Lemma configured_auth_key : auth_configure (Some example_key) (len example_key) true = Some configured_auth.
Proof. vm_compute. reflexivity. Qed.
Lemma configured_authed_ok : authed_ok configured_authed.
Proof.
  split; [|done]. destruct (psk_configured example_key [] true ltac:(split; discriminate)) as (a & E & _ & _ & _ & _ & Ha).
  rewrite app_nil_r, configured_auth_key in E. by injection E as <-.
Qed.
Lemma example_handshake_in : Forall packet_in example_handshake.
Proof. apply (bool_decide_eq_true_1 (Forall packet_in example_handshake)). vm_compute. reflexivity. Qed.
Lemma example_handshake_authenticates s' :
  handshakes example_handshake configured_authed = Done tt s' -> authenticated (a_auth s') = true.
Proof. vm_compute. by intros [= <-]. Qed.

Lemma only_the_proof_authenticates_witness :
  exists s' l0 p1 l1 p2 l2, handshakes example_handshake configured_authed = Done tt s' /\
    authenticated (a_auth s') = true /\ example_handshake = l0 ++ p1 :: l1 ++ p2 :: l2 /\
    session_key (a_auth s') = derived AUTH_SESSION_PREFIX example_key (pkt_data p1) (zeros 16).
Proof.
  destruct (only_the_proof_authenticates configured_authed example_key example_handshake configured_authed_ok
    configured_auth_key ltac:(split; discriminate) example_handshake_in) as (s' & E & Hauth).
  pose proof (example_handshake_authenticates s' E) as Ha.
  destruct (Hauth Ha) as (l0 & p1 & l1 & p2 & l2 & s0 & El & _ & _ & _ & _ & _ & Ek).
  exists s', l0, p1, l1, p2, l2. split; [exact E|]. split; [exact Ha|]. split; [exact El|exact Ek].
Defined.

Lemma proof_retry_keeps_the_session_witness :
  exists s1 s2 err,
    auth_handle_packet example_proof (example_authed true false) = Done ERR_OK s1 /\
    auth_handle_packet example_proof s1 = Done ERR_OK s2 /\ a_auth s2 = a_auth s1 /\
    trace (l_io (a_link s2)) =
      EvTx (encode_frame (sent_frame (command_byte CMD_ACK) 41 [error_byte ERR_OK])) err ::
      trace (l_io (a_link s1)).
Proof.
  destruct (auth_handle_packet example_proof (example_authed true false)) as [r s1| |] eqn:E;
    [|exfalso; revert E; vm_compute; discriminate..].
  assert (r = ERR_OK) as -> by (revert E; vm_compute; by intros [= <- _]).
  exists s1. refine ((fun P => let '(ex_intro _ s2 (ex_intro _ err H)) := P in
    ex_intro _ s2 (ex_intro _ err (conj eq_refl H)))
    (proof_retry_keeps_the_session (example_authed true false) example_proof s1
      (example_authed_ok _ _) _ eq_refl eq_refl E)).
  apply (bool_decide_eq_true_1 (packet_in example_proof)). vm_compute. reflexivity.
Defined.

(** A tagged OTA_ABORT under the session key of [example_auth]. *)
Definition example_abort (sequence : Z) : protocol_packet_t :=
  make_packet 0x13 sequence (request_tag (replicate 32 9) 0x13 sequence []).

Lemma example_abort_in q : packet_in (example_abort q).
Proof.
  unfold packet_in, example_abort, make_packet. cbn [pkt_payload pkt_length].
  pose proof (zlen_request_tag (replicate 32 9) 0x13 q []) as E. rewrite zlen_over; rewrite E; done.
Qed.

Lemma unwrap_accepts_exactly_tagged_witness :
  exists r n, auth_unwrap_packet (example_auth false true) (example_abort 7) =
      Some (r, pkt_payload (example_abort 7), n) /\
    (r = ERR_OK \/ r = ERR_AUTH_REQUIRED) /\
    (r = ERR_OK <-> true = true /\ tagged (replicate 32 9) (example_abort 7)) /\
    (r = ERR_OK -> exists data, slice (pkt_payload (example_abort 7)) 0 n = Some data /\
       pkt_data (example_abort 7) = data ++ request_tag (replicate 32 9) 0x13 7 data).
Proof.
  exact (unwrap_accepts_exactly_tagged (example_auth false true) (example_abort 7)
    (proj1 (example_authed_ok false true)) (example_abort_in 7) eq_refl eq_refl).
Defined.

Lemma retry_is_answered_from_the_cache_witness :
  let s := example_authed false true in
  let p := example_abort 7 in
  let out := encode_frame (sent_frame 0xF0 7 (response_of (example_auth false true) p 0xF0 [0])) in
  exists s1 s2 s3 err err',
    auth_send_response p 0xF0 (Some [0]) 1 s = Done tt s1 /\
    trace (l_io (a_link s1)) = [EvTx out err] /\
    respond_all [(example_abort 8, 0xF0, [0])] s1 = Done tt s2 /\
    auth_check_replay p s2 = Done (ERR_OK, true) s3 /\
    a_auth s3 = a_auth s2 /\
    trace (l_io (a_link s3)) = EvTx out err' :: trace (l_io (a_link s2)) /\
    forall q, packet_in q -> same_request q p = true -> request_digest q <> request_digest p ->
      auth_check_replay q s2 = Done (ERR_AUTH_REQUIRED, false) s2.
Proof.
  intros s p out.
  assert (forall q, response_in (example_abort q, 0xF0, [0])) as Hr.
  { intros q. split; [apply example_abort_in|]. split; [done|].
    split; [apply bytes_one|]; unfold u8; lia. }
  refine (retry_is_answered_from_the_cache s p 0xF0 [0] [(example_abort 8, 0xF0, [0])]
    (example_authed_ok _ _) eq_refl eq_refl (Hr 7) _ _ eq_refl).
  - discriminate.
  - apply Forall_singleton. split; [apply Hr|reflexivity].
Defined.

Lemma auth_operations_are_safe_witness :
  wp (auth_handle_packet example_proof)
    (fun r s' => auth_safe (if bool_decide (r = ERR_OK) then 1 else 0) (example_authed true false) s')
    (fun _ => False) (example_authed true false).
Proof.
  refine (proj1 (auth_operations_are_safe (example_authed true false) example_proof 0xF0 [0] ERR_BUSY
    (example_authed_ok _ _) _ _ _ _)).
  - apply (bool_decide_eq_true_1 (packet_in example_proof)). vm_compute. reflexivity.
  - discriminate.
  - apply bytes_one. unfold u8. lia.
  - unfold u8. lia.
Defined.
