(* ===== verification/OtaManager.v ===== *)
(** ota_manager.h and ota_manager.c: one firmware update session over the
    ESP-IDF OTA calls; the step relation that specifies it and the refinement
    of that relation by the C code. *)
From S2P Require Import Prelude Machine EspIdf SimEnv Protocol.

(** * Data *)

Definition OTA_SHA256_SIZE : Z := 32.
Definition OTA_BEGIN_PAYLOAD_SIZE : Z := 4 + OTA_SHA256_SIZE.
Definition OTA_DATA_HEADER_SIZE : Z := 8.
Definition OTA_MAX_CHUNK_DATA_SIZE : Z := 1016.
#[export] Hint Unfold OTA_SHA256_SIZE OTA_BEGIN_PAYLOAD_SIZE OTA_DATA_HEADER_SIZE
  OTA_MAX_CHUNK_DATA_SIZE : consts.

Record ota_state_t : Type := mk_ota_state {
  ota_active : bool;
  firmware_size : Z;
  bytes_received : Z;
  last_chunk_offset : Z;
  last_chunk_length : Z;
  last_chunk_data : list Z;
  expected_sha256 : list Z;
  ota_handle : Z;
  ota_partition : option esp_partition_t
}.

(** [memset(&s_ota, 0, sizeof(s_ota))] *)
Definition ota_zero : ota_state_t :=
  mk_ota_state false 0 0 0 0 (zeros OTA_MAX_CHUNK_DATA_SIZE) (zeros OTA_SHA256_SIZE) 0 None.

(** The statics of ota_manager.c. *)
Record ota_statics : Type := mk_ota_statics {
  s_ota : ota_state_t;
  s_actual_sha256 : list Z
}.

(** What ota_manager.c acts on. *)
Record updater (W : Type) : Type := mk_updater { u_ota : ota_statics; u_io : io W }.
Arguments mk_updater {W}. Arguments u_ota {W}. Arguments u_io {W}.
Definition updater_io {W} : lens (updater W) (io W) :=
  mk_lens u_io (fun t s => mk_updater (u_ota s) t).
Definition set_ota {W} (o : ota_state_t) : M (updater W) unit :=
  modify (fun s => mk_updater (mk_ota_statics o (s_actual_sha256 (u_ota s))) (u_io s)).
Definition set_actual_sha256 {W} (digest : list Z) : M (updater W) unit :=
  modify (fun s => mk_updater (mk_ota_statics (s_ota (u_ota s)) digest) (u_io s)).

(** * Operations *)

Definition read_u32_le (data : list Z) (off : Z) : option Z :=
  b0 ← zget data off;
  b1 ← zget data (off + 1);
  b2 ← zget data (off + 2);
  b3 ← zget data (off + 3);
  Some (Z.lor (Z.lor (Z.lor b0 (Z.shiftl b1 8)) (Z.shiftl b2 16)) (Z.shiftl b3 24)).

Section Code.
Context {W : Type} `{EspIdf W}.

Definition ota_manager_begin (payload : list Z) (length : Z) : M (updater W) protocol_error_t :=
  u ← gets u_ota;
  if ota_active (s_ota u) then mret ERR_OTA_ALREADY_STARTED else
  if negb (length =? OTA_BEGIN_PAYLOAD_SIZE) then mret ERR_INVALID_LENGTH else
  size ← ub (read_u32_le payload 0);
  if size =? 0 then mret ERR_OTA_SIZE_ERROR else
  next ← zoom updater_io (query esp_ota_get_next_update_partition);
  match next with
  | None => mret ERR_OTA_INVALID_IMAGE
  | Some partition =>
      if part_size partition <? size then mret ERR_OTA_SIZE_ERROR else
      r ← zoom updater_io
            (call (esp_ota_begin partition size) (fun r => EvOtaBegin partition size r.1 r.2));
      if negb (bool_decide (r.1 = ESP_OK)) then mret ERR_OTA_FLASH_ERROR else
      digest ← ub (memcpy (expected_sha256 ota_zero) 0 payload 4 OTA_SHA256_SIZE);
      _ ← set_ota (mk_ota_state true size 0 0 0 (last_chunk_data ota_zero) digest r.2 (Some partition));
      mret ERR_OK
  end.

Definition ota_manager_abort : M (updater W) protocol_error_t :=
  u ← gets u_ota;
  if negb (ota_active (s_ota u)) then mret ERR_OTA_NOT_STARTED else
  err ← zoom updater_io
          (call (esp_ota_abort (ota_handle (s_ota u))) (EvOtaAbort (ota_handle (s_ota u))));
  _ ← set_ota ota_zero;
  mret (if bool_decide (err = ESP_OK) then ERR_OK else ERR_OTA_FLASH_ERROR).

(** The condition of lines 115-118, evaluated left to right. *)
Definition is_last_chunk (o : ota_state_t) (payload : list Z) (offset data_length : Z) : option bool :=
  if (offset =? last_chunk_offset o) && (data_length =? last_chunk_length o) &&
     (to_u32 (offset + data_length) =? bytes_received o)
  then
    data ← slice payload OTA_DATA_HEADER_SIZE data_length;
    last ← slice (last_chunk_data o) 0 data_length;
    Some (bool_decide (data = last))
  else Some false.

Definition ota_manager_write_data (payload : list Z) (length : Z) : M (updater W) protocol_error_t :=
  u ← gets u_ota;
  let o := s_ota u in
  if negb (ota_active o) then mret ERR_OTA_NOT_STARTED else
  if length <=? OTA_DATA_HEADER_SIZE then mret ERR_INVALID_LENGTH else
  chunk_number ← ub (read_u32_le payload 0);
  offset ← ub (read_u32_le payload 4);
  let data_length := length - OTA_DATA_HEADER_SIZE in
  if OTA_MAX_CHUNK_DATA_SIZE <? data_length then mret ERR_INVALID_LENGTH else
  if negb (offset =? bytes_received o) then
    duplicate ← ub (is_last_chunk o payload offset data_length);
    mret (if duplicate : bool then ERR_OK else ERR_OTA_INVALID_OFFSET)
  else
  if firmware_size o <? to_u32 (offset + data_length) then mret ERR_OTA_SIZE_ERROR else
  data ← ub (slice payload OTA_DATA_HEADER_SIZE data_length);
  err ← zoom updater_io
          (call (esp_ota_write (ota_handle o) data) (EvOtaWrite (ota_handle o) data));
  if negb (bool_decide (err = ESP_OK)) then mret ERR_OTA_FLASH_ERROR else
  last ← ub (blit (last_chunk_data o) 0 data);
  _ ← set_ota (mk_ota_state (ota_active o) (firmware_size o)
                 (to_u32 (bytes_received o + data_length)) offset data_length last
                 (expected_sha256 o) (ota_handle o) (ota_partition o));
  mret ERR_OK.

Definition ota_manager_end : M (updater W) protocol_error_t :=
  u ← gets u_ota;
  let o := s_ota u in
  if negb (ota_active o) then mret ERR_OTA_NOT_STARTED else
  if negb (bytes_received o =? firmware_size o) then mret ERR_OTA_SIZE_ERROR else
  err ← zoom updater_io (call (esp_ota_end (ota_handle o)) (EvOtaEnd (ota_handle o)));
  if negb (bool_decide (err = ESP_OK)) then _ ← set_ota ota_zero; mret ERR_OTA_INVALID_IMAGE else
  partition ← ub (ota_partition o);
  r ← zoom updater_io
        (call (esp_partition_get_sha256 partition) (fun r => EvPartitionSha partition r.1 r.2));
  _ ← set_actual_sha256 r.2;
  if negb (bool_decide (r.1 = ESP_OK)) then _ ← set_ota ota_zero; mret ERR_OTA_HASH_MISMATCH else
  u ← gets u_ota;
  actual ← ub (slice (s_actual_sha256 u) 0 OTA_SHA256_SIZE);
  expected ← ub (slice (expected_sha256 o) 0 OTA_SHA256_SIZE);
  if negb (bool_decide (actual = expected)) then _ ← set_ota ota_zero; mret ERR_OTA_HASH_MISMATCH else
  err ← zoom updater_io (call (esp_ota_set_boot_partition partition) (EvSetBoot partition));
  if negb (bool_decide (err = ESP_OK)) then _ ← set_ota ota_zero; mret ERR_OTA_INVALID_IMAGE else
  _ ← set_ota ota_zero;
  mret ERR_OK.

Definition ota_manager_is_active (u : ota_statics) : bool := ota_active (s_ota u).
End Code.

(** * Specification: an update session *)

(** An open session: where it writes, what it expects, and the chunks that were
    accepted so far, oldest first. *)
Record session : Type := mk_session {
  ses_partition : esp_partition_t;
  ses_size : Z;
  ses_handle : Z;
  ses_digest : list Z;
  ses_chunks : list (list Z)
}.
Definition ses_image (x : session) : list Z := concat (ses_chunks x).
Definition accept (d : list Z) (x : session) : session :=
  mk_session (ses_partition x) (ses_size x) (ses_handle x) (ses_digest x) (ses_chunks x ++ [d]).

(** [d] at [offset] repeats the chunk accepted last. *)
Definition is_retry (x : session) (offset : Z) (d : list Z) : Prop :=
  exists cs, ses_chunks x = cs ++ [d] /\ offset = len (concat cs).

Inductive ota_request : Type :=
| ReqBegin (payload : list Z)
| ReqData (payload : list Z)
| ReqEnd
| ReqAbort.

(** [ota_step next x req r evs x']: with [next] as the free update slot, the
    request [req] is answered [r], causes the effects [evs] (newest first) and
    takes the session from [x] to [x']. *)
Inductive ota_step (next : option esp_partition_t) :
  option session -> ota_request -> protocol_error_t -> list event -> option session -> Prop :=
| begin_active x pl :
    ota_step next (Some x) (ReqBegin pl) ERR_OTA_ALREADY_STARTED [] (Some x)
| begin_length pl :
    len pl <> OTA_BEGIN_PAYLOAD_SIZE ->
    ota_step next None (ReqBegin pl) ERR_INVALID_LENGTH [] None
| begin_empty d :
    len d = OTA_SHA256_SIZE ->
    ota_step next None (ReqBegin (le32 0 ++ d)) ERR_OTA_SIZE_ERROR [] None
| begin_no_slot size d :
    len d = OTA_SHA256_SIZE -> u32 size -> size <> 0 -> next = None ->
    ota_step next None (ReqBegin (le32 size ++ d)) ERR_OTA_INVALID_IMAGE [] None
| begin_too_big size d p :
    len d = OTA_SHA256_SIZE -> u32 size -> size <> 0 -> next = Some p -> part_size p < size ->
    ota_step next None (ReqBegin (le32 size ++ d)) ERR_OTA_SIZE_ERROR [] None
| begin_fails size d p err h :
    len d = OTA_SHA256_SIZE -> u32 size -> size <> 0 -> next = Some p -> size <= part_size p ->
    err <> ESP_OK ->
    ota_step next None (ReqBegin (le32 size ++ d)) ERR_OTA_FLASH_ERROR [EvOtaBegin p size err h] None
| begin_ok size d p h :
    len d = OTA_SHA256_SIZE -> u32 size -> size <> 0 -> next = Some p -> size <= part_size p ->
    ota_step next None (ReqBegin (le32 size ++ d)) ERR_OK [EvOtaBegin p size ESP_OK h]
      (Some (mk_session p size h d []))
| data_idle pl :
    ota_step next None (ReqData pl) ERR_OTA_NOT_STARTED [] None
| data_length x pl :
    len pl <= OTA_DATA_HEADER_SIZE \/ OTA_DATA_HEADER_SIZE + OTA_MAX_CHUNK_DATA_SIZE < len pl ->
    ota_step next (Some x) (ReqData pl) ERR_INVALID_LENGTH [] (Some x)
| data_retry x n offset d :
    u32 n -> u32 offset -> 1 <= len d <= OTA_MAX_CHUNK_DATA_SIZE ->
    offset <> len (ses_image x) -> is_retry x offset d ->
    ota_step next (Some x) (ReqData (le32 n ++ le32 offset ++ d)) ERR_OK [] (Some x)
| data_offset x n offset d :
    u32 n -> u32 offset -> 1 <= len d <= OTA_MAX_CHUNK_DATA_SIZE ->
    offset <> len (ses_image x) -> ~ is_retry x offset d ->
    ota_step next (Some x) (ReqData (le32 n ++ le32 offset ++ d)) ERR_OTA_INVALID_OFFSET [] (Some x)
| data_overrun x n offset d :
    u32 n -> u32 offset -> 1 <= len d <= OTA_MAX_CHUNK_DATA_SIZE ->
    offset = len (ses_image x) -> ses_size x < offset + len d ->
    ota_step next (Some x) (ReqData (le32 n ++ le32 offset ++ d)) ERR_OTA_SIZE_ERROR [] (Some x)
| data_fails x n offset d err :
    u32 n -> u32 offset -> 1 <= len d <= OTA_MAX_CHUNK_DATA_SIZE ->
    offset = len (ses_image x) -> offset + len d <= ses_size x -> err <> ESP_OK ->
    ota_step next (Some x) (ReqData (le32 n ++ le32 offset ++ d)) ERR_OTA_FLASH_ERROR
      [EvOtaWrite (ses_handle x) d err] (Some x)
| data_ok x n offset d :
    u32 n -> u32 offset -> 1 <= len d <= OTA_MAX_CHUNK_DATA_SIZE ->
    offset = len (ses_image x) -> offset + len d <= ses_size x ->
    ota_step next (Some x) (ReqData (le32 n ++ le32 offset ++ d)) ERR_OK
      [EvOtaWrite (ses_handle x) d ESP_OK] (Some (accept d x))
| end_idle :
    ota_step next None ReqEnd ERR_OTA_NOT_STARTED [] None
| end_incomplete x :
    len (ses_image x) <> ses_size x ->
    ota_step next (Some x) ReqEnd ERR_OTA_SIZE_ERROR [] (Some x)
| end_rejected x err :
    len (ses_image x) = ses_size x -> err <> ESP_OK ->
    ota_step next (Some x) ReqEnd ERR_OTA_INVALID_IMAGE [EvOtaEnd (ses_handle x) err] None
| end_unreadable x err digest :
    len (ses_image x) = ses_size x -> err <> ESP_OK ->
    ota_step next (Some x) ReqEnd ERR_OTA_HASH_MISMATCH
      [EvPartitionSha (ses_partition x) err digest; EvOtaEnd (ses_handle x) ESP_OK] None
| end_mismatch x digest :
    len (ses_image x) = ses_size x -> digest <> ses_digest x ->
    ota_step next (Some x) ReqEnd ERR_OTA_HASH_MISMATCH
      [EvPartitionSha (ses_partition x) ESP_OK digest; EvOtaEnd (ses_handle x) ESP_OK] None
| end_boot_fails x err :
    len (ses_image x) = ses_size x -> err <> ESP_OK ->
    ota_step next (Some x) ReqEnd ERR_OTA_INVALID_IMAGE
      [EvSetBoot (ses_partition x) err;
       EvPartitionSha (ses_partition x) ESP_OK (ses_digest x); EvOtaEnd (ses_handle x) ESP_OK] None
| end_ok x :
    len (ses_image x) = ses_size x ->
    ota_step next (Some x) ReqEnd ERR_OK
      [EvSetBoot (ses_partition x) ESP_OK;
       EvPartitionSha (ses_partition x) ESP_OK (ses_digest x); EvOtaEnd (ses_handle x) ESP_OK] None
| abort_idle :
    ota_step next None ReqAbort ERR_OTA_NOT_STARTED [] None
| abort_ok x :
    ota_step next (Some x) ReqAbort ERR_OK [EvOtaAbort (ses_handle x) ESP_OK] None
| abort_fails x err :
    err <> ESP_OK ->
    ota_step next (Some x) ReqAbort ERR_OTA_FLASH_ERROR [EvOtaAbort (ses_handle x) err] None.

(** The traces an updater can produce from requests in [P], with the session
    they leave open. Between requests anything that is not an update effect may
    happen. *)
Definition foreign (e : event) : Prop :=
  match e with
  | EvOtaBegin _ _ _ _ | EvOtaWrite _ _ _ | EvOtaEnd _ _ | EvOtaAbort _ _ | EvPartitionSha _ _ _
  | EvSetBoot _ _ => False
  | _ => True
  end.

Inductive ota_run (P : ota_request -> Prop) : list event -> option session -> Prop :=
| run_start : ota_run P [] None
| run_foreign t x e : ota_run P t x -> foreign e -> ota_run P (e :: t) x
| run_step t x next req r evs x' :
    ota_run P t x -> P req -> ota_step next x req r evs x' -> ota_run P (evs ++ t) x'.

(** The request [req] as a call of the C function that serves it. The payload
    array may continue behind the payload. *)
Definition ota_call {W} `{EspIdf W} (req : ota_request) (junk : list Z) : M (updater W) protocol_error_t :=
  match req with
  | ReqBegin pl => ota_manager_begin (pl ++ junk) (len pl)
  | ReqData pl => ota_manager_write_data (pl ++ junk) (len pl)
  | ReqEnd => ota_manager_end
  | ReqAbort => ota_manager_abort
  end.

Definition request_payload (req : ota_request) : list Z :=
  match req with ReqBegin pl | ReqData pl => pl | _ => [] end.

(** The effects as calls on the world: [performs evs w w'] when making the calls
    of [evs], oldest last in the list, from [w] gives the recorded results and
    leaves [w']. *)
Section Performs.
Context {W : Type} `{EspIdf W}.

Definition effect (e : event) (w w' : W) : Prop :=
  match e with
  | EvOtaBegin p n err h => esp_ota_begin p n w = ((err, h), w')
  | EvOtaWrite h d err => esp_ota_write h d w = (err, w')
  | EvOtaEnd h err => esp_ota_end h w = (err, w')
  | EvOtaAbort h err => esp_ota_abort h w = (err, w')
  | EvPartitionSha p err digest => esp_partition_get_sha256 p w = ((err, digest), w')
  | EvSetBoot p err => esp_ota_set_boot_partition p w = (err, w')
  | _ => True
  end.

Fixpoint performs (evs : list event) (w w' : W) : Prop :=
  match evs with
  | [] => w' = w
  | e :: evs => exists w1, performs evs w w1 /\ effect e w1 w'
  end.
End Performs.

(** ** The abstraction *)

(** The bookkeeping of the chunk accepted last. *)
Definition last_chunk_rel (o : ota_state_t) (chunks : list (list Z)) : Prop :=
  match last chunks with
  | None => last_chunk_length o = 0
  | Some d =>
      last_chunk_length o = len d /\
      last_chunk_offset o = len (concat chunks) - len d /\
      exists junk, last_chunk_data o = d ++ junk
  end.

Record session_rel (o : ota_state_t) (x : session) : Prop := {
  rel_active : ota_active o = true;
  rel_size : firmware_size o = ses_size x;
  rel_received : bytes_received o = len (ses_image x);
  rel_handle : ota_handle o = ses_handle x;
  rel_partition : ota_partition o = Some (ses_partition x);
  rel_digest : expected_sha256 o = ses_digest x;
  rel_digest_len : len (ses_digest x) = OTA_SHA256_SIZE;
  rel_last : last_chunk_rel o (ses_chunks x);
  rel_chunks : Forall (fun d => 1 <= len d <= OTA_MAX_CHUNK_DATA_SIZE) (ses_chunks x);
  rel_fits : len (ses_image x) <= ses_size x <= part_size (ses_partition x)
}.

(** Room for the 32-bit sum of an offset and a chunk length. *)
Definition partition_fits (p : esp_partition_t) : Prop :=
  part_size p + OTA_MAX_CHUNK_DATA_SIZE < 2 ^ 32.

Record ota_rel (u : ota_statics) (x : option session) : Prop := {
  rel_last_len : len (last_chunk_data (s_ota u)) = OTA_MAX_CHUNK_DATA_SIZE;
  rel_actual_len : len (s_actual_sha256 u) = OTA_SHA256_SIZE;
  rel_session :
    match x with
    | None => ota_active (s_ota u) = false
    | Some x => session_rel (s_ota u) x /\ partition_fits (ses_partition x)
    end
}.

(** What the update slot must satisfy: the flash chips the IDF supports are far
    smaller than the 32-bit address space. *)
Class FlashSpec (W : Type) `{EspIdf W} : Prop := {
  update_partition_fits w p : esp_ota_get_next_update_partition w = Some p -> partition_fits p
}.

#[export] Instance sim_flash_spec : FlashSpec sim.
Proof. split. intros w p [= <-]. unfold partition_fits. simpl. done. Qed.

(** * Lemmas *)

(** The first four bytes of a payload are the encoding of a number. *)
Lemma le32_split pl : bytes pl -> 4 <= len pl -> exists v rest, u32 v /\ pl = le32 v ++ rest.
Proof.
  intros Hb Hl. destruct (split_at pl 4) as (b & rest & -> & H4); [lia|].
  apply Forall_app in Hb as [Hb _]. pose proof (le_value_bound b Hb) as Hv. rewrite H4 in Hv.
  exists (le_value b), rest. split; [exact Hv|]. f_equal. symmetry.
  apply le_value_inj; [apply bytes_le32|done| |by apply le32_value].
  change (length (le32 (le_value b))) with 4%nat. sizes.
Qed.

Lemma read_u32_le_run a v c off :
  off = len a -> u32 v -> read_u32_le (a ++ le32 v ++ c) off = Some v.
Proof.
  intros Ho Hv. change read_u32_le with read_le32.
  rewrite read_le32_mid by (done || apply bytes_le32). by rewrite le32_value.
Qed.

Lemma ota_rel_zero digest : len digest = OTA_SHA256_SIZE -> ota_rel (mk_ota_statics ota_zero digest) None.
Proof. by split. Qed.

Section Refinement.
Context {W : Type} `{EspIdf W, !EspIdfSpec W, !FlashSpec W}.
Implicit Types (s : updater W) (x : option session).

(** The C function answered as the specification allows. *)
Definition implements (req : ota_request) s x (r : protocol_error_t) (s' : updater W) : Prop :=
  exists evs x', ota_step (esp_ota_get_next_update_partition (world (u_io s))) x req r evs x' /\
    ota_rel (u_ota s') x' /\ trace (u_io s') = evs ++ trace (u_io s) /\
    performs evs (world (u_io s)) (world (u_io s')).

Lemma implements_same req s x r :
  ota_rel (u_ota s) x -> ota_step (esp_ota_get_next_update_partition (world (u_io s))) x req r [] x ->
  implements req s x r s.
Proof. intros. by exists [], x. Qed.

Lemma begin_refines s x pl junk :
  ota_rel (u_ota s) x -> bytes pl ->
  wp (ota_manager_begin (pl ++ junk) (len pl)) (implements (ReqBegin pl) s x) (fun _ => False) s.
Proof.
  intros Hr Hb. unfold ota_manager_begin. rewrite wp_bind, wp_gets.
  destruct x as [x|].
  { destruct Hr as [? ? [Hx Hf]]. rewrite (rel_active _ _ Hx). apply implements_same; [done|constructor]. }
  rewrite (rel_session _ _ Hr). rewrite wp_if.
  destruct (Z.eqb_spec (len pl) OTA_BEGIN_PAYLOAD_SIZE) as [Hl|Hl]; cbn [negb].
  2:{ apply implements_same; [done|by constructor]. }
  destruct (le32_split pl Hb) as (size & d & Hs & ->); [sizes|].
  assert (len d = OTA_SHA256_SIZE) as Hd by sizes.
  rewrite <-app_assoc, wp_bind, wp_ub. exists size.
  split; [by apply (read_u32_le_run [])|]. rewrite wp_if.
  destruct (Z.eqb_spec size 0) as [->|Hz].
  { apply implements_same; [done|by constructor]. }
  rewrite wp_bind, wp_zoom, wp_query. cbn [updater_io view set].
  destruct (esp_ota_get_next_update_partition (world (u_io s))) as [p|] eqn:Ep.
  2:{ exists [], None. rewrite Ep. split; [by apply begin_no_slot|]. done. }
  rewrite wp_if. destruct (Z.ltb_spec (part_size p) size).
  { exists [], None. rewrite Ep. split; [by eapply begin_too_big|]. done. }
  rewrite wp_bind, wp_zoom, wp_call. cbn [updater_io view set u_io u_ota].
  destruct (esp_ota_begin p size (world (u_io s))) as [[err h] w] eqn:Eb. cbn [fst snd].
  rewrite wp_if. case_bool_decide as He; cbn [negb].
  2:{ exists [EvOtaBegin p size err h], None. rewrite Ep. split; [by eapply begin_fails|]. split_and!; [done..|]. by eexists. }
  subst err. rewrite wp_bind, wp_ub. exists d. split.
  { unfold memcpy. rewrite slice_mid by done. cbn [mbind option_bind].
    change (expected_sha256 ota_zero) with (zeros OTA_SHA256_SIZE ++ []).
    rewrite blit_prefix by (rewrite zlen_zeros; sizes). by rewrite app_nil_r. }
  rewrite wp_bind. unfold set_ota. rewrite wp_modify, wp_ret.
  exists [EvOtaBegin p size ESP_OK h], (Some (mk_session p size h d [])). rewrite Ep.
  split; [by apply begin_ok|]. split; [|split; [done|by eexists]]. destruct Hr as [_ Ha _].
  split; [done|done|]. split; [|by eapply update_partition_fits].
  split; try done. change (0 <= size <= part_size p). unfold u32 in *. lia.
Qed.

Lemma abort_refines s x :
  ota_rel (u_ota s) x -> wp ota_manager_abort (implements ReqAbort s x) (fun _ => False) s.
Proof.
  intros Hr. unfold ota_manager_abort. rewrite wp_bind, wp_gets.
  destruct x as [x|].
  2:{ rewrite (rel_session _ _ Hr). apply implements_same; [done|constructor]. }
  destruct Hr as [? Ha [Hx Hf]]. rewrite (rel_active _ _ Hx). cbn [negb].
  rewrite wp_bind, wp_zoom, wp_call. cbn [updater_io view set u_io u_ota].
  rewrite (rel_handle _ _ Hx). destruct (esp_ota_abort _ _) as [err w] eqn:Eab. cbn [fst snd].
  rewrite wp_bind. unfold set_ota. rewrite wp_modify, wp_ret.
  eexists [EvOtaAbort (ses_handle x) err], None. split; [|split; [by apply ota_rel_zero|split; [done|by eexists]]].
  case_bool_decide; [subst; apply abort_ok|by apply abort_fails].
Qed.

Lemma zlen_image_snoc (cs : list (list Z)) d : len (concat (cs ++ [d])) = len (concat cs) + len d.
Proof. rewrite concat_app. cbn [concat]. by rewrite app_nil_r, zlen_app. Qed.

(** The test of lines 115-118 recognises exactly the last chunk. *)
Lemma is_last_chunk_run o xs pre offset d junk :
  session_rel o xs -> partition_fits (ses_partition xs) -> len pre = OTA_DATA_HEADER_SIZE ->
  1 <= len d ->
  exists b, is_last_chunk o (pre ++ d ++ junk) offset (len d) = Some b /\
    (b = true <-> is_retry xs offset d).
Proof.
  intros Hx Hf Hpre Hd. unfold is_last_chunk. rewrite slice_mid by done. cbn [mbind option_bind].
  pose proof (rel_last _ _ Hx) as Hl. pose proof (rel_fits _ _ Hx) as Hfit.
  unfold last_chunk_rel in Hl. unfold partition_fits in Hf. unfold is_retry, ses_image in *.
  destruct (last (ses_chunks xs)) as [d0|] eqn:El.
  2:{ apply last_None in El. rewrite Hl, El.
      destruct (Z.eqb_spec (len d) 0); [lia|]. rewrite andb_false_r. cbn [andb].
      exists false. split; [done|]. split; [done|]. intros (cs & E & _). by destruct cs. }
  apply last_Some in El as [cs El]. destruct Hl as (-> & -> & junk' & ->).
  rewrite El, zlen_image_snoc in Hfit. rewrite El, zlen_image_snoc, Z.add_simpl_r.
  pose proof (zlen_nonneg (concat cs)). pose proof (zlen_nonneg d0).
  assert ((exists cs0, cs ++ [d0] = cs0 ++ [d] /\ offset = len (concat cs0)) <->
          offset = len (concat cs) /\ d = d0) as Hiff.
  { split; [|intros [-> ->]; by exists cs]. intros (cs0 & E & ->). by apply app_inj_2 in E as [-> [= ->]]. }
  setoid_rewrite Hiff. rewrite (rel_received _ _ Hx). unfold ses_image. rewrite El, zlen_image_snoc.
  destruct (Z.eqb_spec offset (len (concat cs))) as [->|]; cbn [andb].
  2:{ exists false. naive_solver. }
  destruct (Z.eqb_spec (len d) (len d0)) as [E|]; cbn [andb].
  2:{ exists false. naive_solver. }
  unfold to_u32. rewrite Z.mod_small, E, Z.eqb_refl by sizes.
  rewrite slice_prefix by done. cbn [mbind option_bind].
  eexists. split; [done|]. rewrite bool_decide_eq_true. naive_solver.
Qed.

Lemma accept_rel o xs d offset last :
  session_rel o xs -> 1 <= len d <= OTA_MAX_CHUNK_DATA_SIZE -> offset = len (ses_image xs) ->
  offset + len d <= ses_size xs -> (exists junk, last = d ++ junk) ->
  session_rel (mk_ota_state (ota_active o) (firmware_size o) (offset + len d) offset (len d) last
                 (expected_sha256 o) (ota_handle o) (ota_partition o)) (accept d xs).
Proof.
  intros Hx Hd -> Hfit Hlast. destruct Hx. unfold accept. unfold ses_image in *.
  split; cbn [ota_active firmware_size bytes_received ota_handle ota_partition expected_sha256
    ses_partition ses_size ses_handle ses_digest ses_chunks]; unfold ses_image; try done.
  - cbn [ses_chunks]. by rewrite zlen_image_snoc.
  - unfold last_chunk_rel. rewrite last_snoc. split_and!; [done| |done].
    cbn [last_chunk_offset]. rewrite zlen_image_snoc. lia.
  - apply Forall_app. split; [done|]. by apply Forall_singleton.
  - cbn [ses_chunks]. rewrite zlen_image_snoc. lia.
Qed.

Lemma data_refines s x pl junk :
  ota_rel (u_ota s) x -> bytes pl ->
  wp (ota_manager_write_data (pl ++ junk) (len pl)) (implements (ReqData pl) s x) (fun _ => False) s.
Proof.
  intros Hr Hb. unfold ota_manager_write_data. rewrite wp_bind, wp_gets.
  destruct x as [x|].
  2:{ rewrite (rel_session _ _ Hr). apply implements_same; [done|constructor]. }
  pose proof Hr as [Hll Ha [Hx Hf]]. set (o := s_ota (u_ota s)) in *.
  rewrite (rel_active _ _ Hx). cbn [negb]. rewrite wp_if.
  destruct (Z.leb_spec (len pl) OTA_DATA_HEADER_SIZE).
  { apply implements_same; [done|]. apply data_length. by left. }
  destruct (le32_split pl Hb) as (n & pl' & Hn & ->); [sizes|].
  apply Forall_app in Hb as [_ Hb].
  destruct (le32_split pl' Hb) as (offset & d & Ho & ->); [sizes|].
  rewrite wp_bind, wp_ub. exists n. split.
  { rewrite <-app_assoc. by apply (read_u32_le_run []). }
  rewrite wp_bind, wp_ub. exists offset. split.
  { rewrite <-!app_assoc. by apply (read_u32_le_run (le32 n)). }
  assert (len (le32 n ++ le32 offset ++ d) - OTA_DATA_HEADER_SIZE = len d) as -> by sizes.
  rewrite wp_if. destruct (Z.ltb_spec OTA_MAX_CHUNK_DATA_SIZE (len d)).
  { apply implements_same; [done|]. apply data_length. right. sizes. }
  assert (1 <= len d <= OTA_MAX_CHUNK_DATA_SIZE) as Hd by sizes.
  replace ((le32 n ++ le32 offset ++ d) ++ junk) with ((le32 n ++ le32 offset) ++ d ++ junk)
    by (by rewrite <-!app_assoc).
  rewrite (rel_received _ _ Hx), wp_if.
  destruct (Z.eqb_spec offset (len (ses_image x))) as [Eo|Eo]; cbn [negb].
  2:{ destruct (is_last_chunk_run o x (le32 n ++ le32 offset) offset d junk Hx Hf eq_refl)
        as (b & Eb & Hb'); [lia|].
      rewrite wp_bind, wp_ub. exists b. split; [done|]. apply implements_same; [done|].
      destruct b.
      - apply data_retry; try done. by apply Hb'.
      - apply data_offset; try done. rewrite <-Hb'. done. }
  pose proof (rel_fits _ _ Hx) as Hfit. pose proof (zlen_nonneg (ses_image x)).
  unfold partition_fits in Hf.
  assert (to_u32 (offset + len d) = offset + len d) as Hmod by (unfold to_u32; apply Z.mod_small; lia).
  rewrite Hmod, (rel_size _ _ Hx), wp_if. destruct (Z.ltb_spec (ses_size x) (offset + len d)).
  { apply implements_same; [done|]. by apply data_overrun. }
  rewrite wp_bind, wp_ub. exists d. split; [by apply slice_mid|].
  rewrite wp_bind, wp_zoom, wp_call. cbn [updater_io view set u_io u_ota].
  rewrite (rel_handle _ _ Hx). destruct (esp_ota_write _ _ _) as [err w] eqn:Ew. cbn [fst snd].
  rewrite wp_if.
  case_bool_decide as He; cbn [negb].
  2:{ exists [EvOtaWrite (ses_handle x) d err], (Some x). split; [by apply data_fails|].
      split_and!; [done..|]. by eexists. }
  subst err. destruct (split_at (last_chunk_data o) (len d)) as (l1 & l2 & El & Hl1); [lia|].
  rewrite wp_bind, wp_ub. exists (d ++ l2). split; [rewrite El; by apply blit_prefix|].
  rewrite wp_bind. unfold set_ota. rewrite wp_modify, wp_ret. cbn [u_ota u_io].
  exists [EvOtaWrite (ses_handle x) d ESP_OK], (Some (accept d x)).
  split; [by apply data_ok|]. split; [|split; [done|by eexists]]. rewrite <-Eo, Hmod.
  rewrite <-(rel_size _ _ Hx), <-(rel_handle _ _ Hx).
  pose proof (rel_active _ _ Hx) as Eac. rewrite <-Eac.
  split; [|done|split].
  - cbn [u_ota u_io s_ota last_chunk_data]. rewrite <-Hll, El, !zlen_app. lia.
  - apply accept_rel; try done. by exists l2.
  - unfold partition_fits. done.
Qed.

Lemma end_refines s x :
  ota_rel (u_ota s) x -> wp ota_manager_end (implements ReqEnd s x) (fun _ => False) s.
Proof.
  intros Hr. unfold ota_manager_end. rewrite wp_bind, wp_gets.
  destruct x as [x|].
  2:{ rewrite (rel_session _ _ Hr). apply implements_same; [done|constructor]. }
  pose proof Hr as [Hll Ha [Hx Hf]]. set (o := s_ota (u_ota s)) in *.
  rewrite (rel_active _ _ Hx), (rel_received _ _ Hx), (rel_size _ _ Hx), (rel_handle _ _ Hx),
    (rel_partition _ _ Hx). cbn [negb]. rewrite wp_if.
  destruct (Z.eqb_spec (len (ses_image x)) (ses_size x)) as [Es|]; cbn [negb].
  2:{ apply implements_same; [done|by constructor]. }
  rewrite wp_bind, wp_zoom, wp_call. cbn [updater_io view set u_io u_ota].
  destruct (esp_ota_end _ _) as [err w] eqn:Een. cbn [fst snd]. unfold set_ota, set_actual_sha256.
  rewrite wp_if. case_bool_decide as He; cbn [negb].
  2:{ rewrite wp_bind, wp_modify, wp_ret. exists [EvOtaEnd (ses_handle x) err], None.
      split; [by apply end_rejected|]. split; [by apply ota_rel_zero|].
      split; [done|]. by repeat eexists. }
  subst err. rewrite wp_bind, wp_ub. exists (ses_partition x). split; [done|].
  rewrite wp_bind, wp_zoom, wp_call. cbn [updater_io view set u_io u_ota].
  pose proof (esp_partition_get_sha256_len (ses_partition x) w) as Hdl.
  destruct (esp_partition_get_sha256 _ _) as [[err digest] w'] eqn:Esh. cbn [fst snd] in *.
  rewrite wp_bind, wp_modify. cbn [u_io u_ota s_ota s_actual_sha256].
  rewrite wp_if. case_bool_decide as He; cbn [negb].
  2:{ rewrite wp_bind, wp_modify, wp_ret.
      exists [EvPartitionSha (ses_partition x) err digest; EvOtaEnd (ses_handle x) ESP_OK], None.
      split; [by apply end_unreadable|]. split; [by apply ota_rel_zero|].
      split; [done|]. by repeat eexists. }
  subst err. rewrite wp_bind, wp_gets. cbn [u_io u_ota s_ota s_actual_sha256].
  rewrite wp_bind, wp_ub. exists digest. split; [by apply slice_all|].
  rewrite wp_bind, wp_ub. exists (ses_digest x).
  split; [rewrite <-(rel_digest _ _ Hx); apply slice_all; by rewrite (rel_digest _ _ Hx), (rel_digest_len _ _ Hx)|].
  rewrite wp_if. case_bool_decide as He; cbn [negb].
  2:{ rewrite wp_bind, wp_modify, wp_ret.
      exists [EvPartitionSha (ses_partition x) ESP_OK digest; EvOtaEnd (ses_handle x) ESP_OK], None.
      split; [by apply end_mismatch|]. split; [by apply ota_rel_zero|].
      split; [done|]. by repeat eexists. }
  subst digest. rewrite wp_bind, wp_zoom, wp_call. cbn [updater_io view set u_io u_ota].
  destruct (esp_ota_set_boot_partition _ _) as [err w''] eqn:Ebt. cbn [fst snd].
  rewrite wp_if. case_bool_decide as He; cbn [negb]; rewrite wp_bind, wp_modify, wp_ret;
    [subst err; eexists [EvSetBoot _ ESP_OK; _; _], None|eexists [EvSetBoot _ err; _; _], None].
  - split; [by apply end_ok|]. split; [by apply ota_rel_zero|].
      split; [done|]. by repeat eexists.
  - split; [by apply end_boot_fails|]. split; [by apply ota_rel_zero|].
      split; [done|]. by repeat eexists.
Qed.

Lemma call_refines req junk s x :
  ota_rel (u_ota s) x -> bytes (request_payload req) ->
  wp (ota_call req junk) (implements req s x) (fun _ => False) s.
Proof.
  destruct req; cbn [ota_call request_payload]; intros.
  - by apply begin_refines.
  - by apply data_refines.
  - by apply end_refines.
  - by apply abort_refines.
Qed.
End Refinement.

(** * Lemmas: traces of the specification *)

(** The bytes written since the last successful [esp_ota_begin]. *)
Fixpoint flash_image (t : list event) : list Z :=
  match t with
  | [] => []
  | EvOtaBegin _ _ ESP_OK _ :: _ => []
  | EvOtaWrite _ d ESP_OK :: t => flash_image t ++ d
  | _ :: t => flash_image t
  end.

Lemma flash_image_foreign e t : foreign e -> flash_image (e :: t) = flash_image t.
Proof. by destruct e. Qed.

Lemma ses_image_accept d x : ses_image (accept d x) = ses_image x ++ d.
Proof. unfold ses_image. cbn. rewrite concat_app. cbn. by rewrite app_nil_r. Qed.

(** What an open session says about the trace and the requests that led to it. *)
Record traced (P : ota_request -> Prop) (t : list event) (x : session) : Prop := {
  traced_image : flash_image t = ses_image x;
  traced_begin : EvOtaBegin (ses_partition x) (ses_size x) ESP_OK (ses_handle x) ∈ t;
  traced_fits : len (ses_image x) <= ses_size x <= part_size (ses_partition x);
  traced_request : P (ReqBegin (le32 (ses_size x) ++ ses_digest x));
  traced_chunks : Forall (fun d => exists n offset, P (ReqData (le32 n ++ le32 offset ++ d))) (ses_chunks x)
}.

Section Runs.
Context (P : ota_request -> Prop).

Lemma traced_write t x d err :
  traced P t x -> err <> ESP_OK -> traced P (EvOtaWrite (ses_handle x) d err :: t) x.
Proof. intros [] He. split; [by destruct err|by right|done..]. Qed.

Lemma ota_run_traced t x : ota_run P t (Some x) -> traced P t x.
Proof.
  intros Hrun. remember (Some x) as y eqn:Ey. revert x Ey.
  induction Hrun as [|t y e Hrun IH He|t y next req r evs y' Hrun IH HP Hst]; [done| |].
  { intros x ->. destruct (IH x eq_refl). split; [by rewrite flash_image_foreign|by right|done..]. }
  intros x ->. inversion Hst; subst; cbn [app]; try (by apply IH);
    try (apply traced_write; [by apply IH|done]).
  - split; [done|by left| |done|constructor].
    change (0 <= size <= part_size p). unfold u32 in *. lia.
  - destruct (IH _ eq_refl) as [Hi Hb Hf Hr Hc]. split; [|by right| |done|].
    + cbn [flash_image]. by rewrite Hi, ses_image_accept.
    + rewrite ses_image_accept, zlen_app. cbn [accept ses_size ses_partition]. lia.
    + cbn [accept ses_chunks]. apply Forall_app. split; [done|]. apply Forall_singleton. eauto.
Qed.
End Runs.

Lemma ota_run_mono (P Q : ota_request -> Prop) t x :
  (forall req, P req -> Q req) -> ota_run P t x -> ota_run Q t x.
Proof. intros HPQ. induction 1; [constructor|by constructor|]. eapply run_step; eauto. Qed.

Lemma ota_run_harmless P t0 t x : Forall harmless t0 -> ota_run P t x -> ota_run P (t0 ++ t) x.
Proof.
  intros Ht Hr. induction Ht as [|e t0 He Ht IH]; [done|]. apply run_foreign; [done|].
  by destruct e.
Qed.

(** No update step transmits. *)
Lemma step_silent next x req r evs x' : ota_step next x req r evs x' -> tx_count evs = 0%nat.
Proof. by inversion 1. Qed.

(** Nor does it read the link. *)
Lemma step_rx next x req r evs x' t : ota_step next x req r evs x' -> rx_bytes (evs ++ t) = rx_bytes t.
Proof. by inversion 1. Qed.

(** Nor does it restart the chip or draw random bytes. *)
Lemma step_foreign next x req r evs x' e : ota_step next x req r evs x' -> e ∈ evs -> ~ foreign e.
Proof.
  inversion 1; subst; rewrite ?elem_of_cons, ?elem_of_nil; intros He;
    repeat destruct He as [He|He]; subst; cbn; tauto.
Qed.

(** The effects of one request that switch the boot partition. *)
Lemma step_boot next x req r evs x' pre p err post :
  ota_step next x req r evs x' -> evs = pre ++ EvSetBoot p err :: post ->
  exists y, x = Some y /\ req = ReqEnd /\ pre = [] /\ p = ses_partition y /\ len (ses_image y) = ses_size y /\
    post = [EvPartitionSha p ESP_OK (ses_digest y); EvOtaEnd (ses_handle y) ESP_OK].
Proof.
  intros Hst E. inversion Hst; subst; try (by destruct pre as [|? [|? [|? [|]]]]);
    destruct pre as [|? [|? [|? [|]]]]; try done; simplify_eq/=; eauto 10.
Qed.

(** The effects of one request that write flash. *)
Lemma step_write next x req r evs x' pre h d err post :
  ota_step next x req r evs x' -> evs = pre ++ EvOtaWrite h d err :: post ->
  exists y, x = Some y /\ post = [] /\ h = ses_handle y /\ len (ses_image y) + len d <= ses_size y.
Proof.
  intros Hst E. inversion Hst; subst; try (by destruct pre as [|? [|? [|? [|]]]]);
    destruct pre as [|? [|? [|? [|]]]]; try done; simplify_eq/=; eauto 10.
Qed.

(** An effect of a run, seen from the session that was open when it happened. *)
Lemma ota_run_event P t x t1 e t2 :
  ota_run P t x -> t = t1 ++ e :: t2 -> ~ foreign e ->
  exists next t3 x3 req r evs x' pre post, ota_run P t3 x3 /\ P req /\ ota_step next x3 req r evs x' /\
    evs = pre ++ e :: post /\ t2 = post ++ t3.
Proof.
  intros Hrun. revert t1.
  induction Hrun as [|t x e' Hrun IH He|t x next req r evs x' Hrun IH HP Hst]; intros t1 E Hne.
  - by destruct t1.
  - destruct t1; simplify_eq/=; [done|by eapply IH].
  - apply List.app_eq_app in E as (l & [[E1 E2]|[E1 E2]]).
    + destruct l as [|e1 l]; [by apply (IH []); [symmetry; exact E2|]|]. injection E2 as <- ->.
      by exists next, t, x, req, r, evs, x', t1, l.
    + by apply (IH l).
Qed.

Lemma ota_run_boot P t x t1 p err t2 :
  ota_run P t x -> t = t1 ++ EvSetBoot p err :: t2 ->
  exists y t3, t2 = EvPartitionSha p ESP_OK (ses_digest y) :: EvOtaEnd (ses_handle y) ESP_OK :: t3 /\
    p = ses_partition y /\ traced P t3 y /\ len (ses_image y) = ses_size y.
Proof.
  intros Hrun E. destruct (ota_run_event _ _ _ _ _ _ Hrun E)
    as (next & t3 & x3 & req & r & evs & x' & pre & post & Hrun3 & _ & Hst & Ee & ->); [by intros []|].
  destruct (step_boot _ _ _ _ _ _ _ _ _ _ Hst Ee) as (y & -> & _ & _ & -> & Hl & ->).
  exists y, t3. split_and!; try done. by apply ota_run_traced.
Qed.

Lemma ota_run_write P t x t1 h d err t2 :
  ota_run P t x -> t = t1 ++ EvOtaWrite h d err :: t2 ->
  exists y, h = ses_handle y /\ traced P t2 y /\ len (flash_image t2) + len d <= ses_size y.
Proof.
  intros Hrun E. destruct (ota_run_event _ _ _ _ _ _ Hrun E)
    as (next & t3 & x3 & req & r & evs & x' & pre & post & Hrun3 & _ & Hst & Ee & ->); [by intros []|].
  destruct (step_write _ _ _ _ _ _ _ _ _ _ _ Hst Ee) as (y & -> & -> & -> & Hl).
  change ([] ++ t3) with t3. apply ota_run_traced in Hrun3.
  exists y. split_and!; try done. by rewrite (traced_image _ _ _ Hrun3).
Qed.

(** * Lemmas: the requests behind a run *)

(** [ota_history qs t x]: the requests [qs], oldest first, were served; their
    effects are [t] and they leave the session [x]. *)
Inductive ota_history : list ota_request -> list event -> option session -> Prop :=
| history_start : ota_history [] [] None
| history_step qs t x next req r evs x' :
    ota_history qs t x -> ota_step next x req r evs x' -> ota_history (qs ++ [req]) (evs ++ t) x'.

(** The OTA_DATA requests that carry the chunks one after the other from
    [offset] on; each chunk comes with the chunk number its request states. *)
Fixpoint chunks_from (offset : Z) (chunks : list (Z * list Z)) : list ota_request :=
  match chunks with
  | [] => []
  | (n, d) :: chunks => ReqData (le32 n ++ le32 offset ++ d) :: chunks_from (offset + len d) chunks
  end.

(** The chunks a list of effects put into flash, oldest first. *)
Fixpoint written (t : list event) : list (list Z) :=
  match t with
  | [] => []
  | EvOtaWrite _ d ESP_OK :: t => written t ++ [d]
  | _ :: t => written t
  end.

Definition writes_to (h : Z) (e : event) : Prop := exists d err, e = EvOtaWrite h d err.

Lemma chunks_from_snoc offset chunks n d :
  chunks_from offset (chunks ++ [(n, d)]) =
  chunks_from offset chunks ++ [ReqData (le32 n ++ le32 (offset + len (concat chunks.*2)) ++ d)].
Proof.
  revert offset. induction chunks as [|[m c] chunks IH]; intros offset.
  - cbn. by rewrite Z.add_0_r.
  - cbn [app chunks_from fmap list_fmap concat snd]. by rewrite IH, zlen_app, Z.add_assoc.
Qed.

(** Since its OTA_BEGIN, an open session wrote only to its handle, and what it
    wrote are the chunks of OTA_DATA requests at the right offsets. *)
Record recorded (qs : list ota_request) (t : list event) (x : session)
    (chunks : list (Z * list Z)) (ws t0 : list event) : Prop := {
  rec_trace : t = ws ++ EvOtaBegin (ses_partition x) (ses_size x) ESP_OK (ses_handle x) :: t0;
  rec_writes : Forall (writes_to (ses_handle x)) ws;
  rec_written : written ws = ses_chunks x;
  rec_chunks : chunks.*2 = ses_chunks x;
  rec_requests : ReqBegin (le32 (ses_size x) ++ ses_digest x) :: chunks_from 0 chunks `sublist_of` qs
}.

Lemma recorded_idle qs t x chunks ws t0 req :
  recorded qs t x chunks ws t0 -> recorded (qs ++ [req]) t x chunks ws t0.
Proof. intros []. split; [done..|]. by apply sublist_inserts_r. Qed.

Lemma history_recorded qs t x :
  ota_history qs t (Some x) -> exists chunks ws t0, recorded qs t x chunks ws t0.
Proof.
  intros Hh. remember (Some x) as y eqn:Ey. revert x Ey.
  induction Hh as [|qs t y next req r evs y' Hh IH Hst]; [done|]. intros x ->.
  inversion Hst; subst; cbn [app];
    try (destruct (IH _ eq_refl) as (chunks & ws & t0 & Hrec);
         pose proof (recorded_idle _ _ _ _ _ _ req Hrec); by exists chunks, ws, t0);
    try (destruct (IH _ eq_refl) as (chunks & ws & t0 & Hrec);
         exists chunks, ws, t0; by apply recorded_idle).
  - exists [], [], t. split; try done. cbn. by apply sublist_inserts_l.
  - destruct (IH _ eq_refl) as (chunks & ws & t0 & [-> Hw Hwr Hc Hq]).
    exists chunks, (EvOtaWrite (ses_handle x) d err :: ws), t0. split; try done.
    + constructor; [by do 2 eexists|done].
    + by destruct err.
    + by apply sublist_inserts_r.
  - destruct (IH _ eq_refl) as (chunks & ws & t0 & [-> Hw Hwr Hc Hq]).
    exists (chunks ++ [(n, d)]), (EvOtaWrite (ses_handle x0) d ESP_OK :: ws), t0. split; try done.
    + constructor; [by do 2 eexists|done].
    + cbn [written accept ses_chunks]. by rewrite Hwr.
    + cbn [accept ses_chunks]. by rewrite fmap_app, Hc.
    + rewrite chunks_from_snoc, Z.add_0_l, Hc, app_comm_cons. by apply sublist_app.
Qed.

(** An effect of a history, seen from the session that was open when it happened. *)
Lemma history_event qs t x t1 e t2 :
  ota_history qs t x -> t = t1 ++ e :: t2 ->
  exists next qs1 t3 x3 req r evs x' qs2 pre post, ota_history qs1 t3 x3 /\ qs = qs1 ++ req :: qs2 /\
    ota_step next x3 req r evs x' /\ evs = pre ++ e :: post /\ t2 = post ++ t3.
Proof.
  intros Hh. revert t1. induction Hh as [|qs t x next req r evs x' Hh IH Hst]; intros t1 E.
  - by destruct t1.
  - assert (forall t1, t = t1 ++ e :: t2 -> exists next qs1 t3 x3 req0 r evs x' qs2 pre post,
      ota_history qs1 t3 x3 /\ qs ++ [req] = qs1 ++ req0 :: qs2 /\ ota_step next x3 req0 r evs x' /\
      evs = pre ++ e :: post /\ t2 = post ++ t3) as Hold.
    { intros t1' E'. destruct (IH t1' E')
        as (next' & qs1 & t3 & x3 & req' & r' & evs' & x'' & qs2 & pre & post & ? & -> & ?).
      exists next', qs1, t3, x3, req', r', evs', x'', (qs2 ++ [req]), pre, post. by rewrite <-app_assoc. }
    apply List.app_eq_app in E as (l & [[E1 E2]|[E1 E2]]); [|by apply (Hold l)].
    destruct l as [|e1 l]; [by apply (Hold [])|]. injection E2 as <- ->.
    by exists next, qs, t, x, req, r, evs, x', [], t1, l.
Qed.

(** * Lemmas: an upload on working flash *)

(** The first byte of an application image. *)
Definition ESP_IMAGE_HEADER_MAGIC : Z := 0xE9.

(** Flash that works, as esp_ota_ops.h and esp_partition.h document it. A slot has
    a content and an update handle writes to a slot. [image_digest] is ESP-IDF's
    verdict on a content: the SHA-256 digest of a valid application image. An
    image is written from its magic byte on, [esp_ota_end] validates it, and the
    digest of a slot is the one of the image it holds. *)
Class HealthyFlash (W : Type) `{EspIdf W} : Type := {
  image_digest : list Z -> option (list Z);
  slot_content : W -> esp_partition_t -> list Z;
  handle_slot : W -> Z -> option esp_partition_t;
  healthy_begin p n w :
    esp_ota_get_next_update_partition w = Some p -> 0 < n <= part_size p ->
    exists h w', esp_ota_begin p n w = ((ESP_OK, h), w') /\
      handle_slot w' h = Some p /\ slot_content w' p = [];
  healthy_write h p d w :
    handle_slot w h = Some p -> len (slot_content w p ++ d) <= part_size p ->
    head (slot_content w p ++ d) = Some ESP_IMAGE_HEADER_MAGIC ->
    exists w', esp_ota_write h d w = (ESP_OK, w') /\
      handle_slot w' h = Some p /\ slot_content w' p = (slot_content w p ++ d);
  healthy_end h p w :
    handle_slot w h = Some p ->
    exists err w', esp_ota_end h w = (err, w') /\
      (err = ESP_OK <-> is_Some (image_digest (slot_content w p))) /\
      slot_content w' p = slot_content w p;
  healthy_sha p digest w :
    image_digest (slot_content w p) = Some digest ->
    exists w', esp_partition_get_sha256 p w = ((ESP_OK, digest), w') /\
      slot_content w' p = slot_content w p;
  healthy_boot p w :
    is_Some (image_digest (slot_content w p)) ->
    exists w', esp_ota_set_boot_partition p w = (ESP_OK, w') /\
      esp_ota_get_boot_partition w' = Some p
}.

#[export, program] Instance sim_healthy : HealthyFlash sim :=
  { image_digest := sim_image_digest; slot_content := sim_slot;
    handle_slot _ h := if h =? 7 then Some sim_ota_1 else None }.
Next Obligation. intros p n w [= <-] Hn. by do 2 eexists. Qed.
Next Obligation.
  intros h p d w Hh Hl Hm. cbn in Hh. destruct (h =? 7) eqn:E7; [|done]. injection Hh as <-.
  change (head (sim_flash w ++ d) = Some ESP_IMAGE_HEADER_MAGIC) in Hm. cbn.
  exists (sim_set_flash (sim_flash w ++ d) w). rewrite E7.
  change (sim_slot w sim_ota_1) with (sim_flash w).
  destruct (sim_flash w ++ d) as [|b l]; [done|]. by injection Hm as ->.
Qed.
Next Obligation.
  intros h p w Hh. cbn in Hh. destruct (h =? 7); [|done]. injection Hh as <-.
  exists (sim_check (sim_flash w)), w. split; [done|]. split; [|done].
  change (sim_slot w sim_ota_1) with (sim_flash w). unfold sim_check. destruct (sim_image_digest (sim_flash w)); naive_solver.
Qed.
Next Obligation. intros p digest w E. exists w. cbn. by rewrite E. Qed.
Next Obligation.
  intros p w [digest E]. cbn. unfold sim_check. rewrite E. by eexists.
Qed.

(** Requests served one after the other. *)
Fixpoint run_requests {W} `{EspIdf W} (l : list ota_request) : M (updater W) (list protocol_error_t) :=
  match l with
  | [] => mret []
  | req :: l => r ← ota_call req []; rs ← run_requests l; mret (r :: rs)
  end.

(** The OTA_DATA requests of an upload; chunk [(d, k)] is sent [1 + k] times. *)
Fixpoint chunk_requests (n offset : Z) (l : list (list Z * nat)) : list ota_request :=
  match l with
  | [] => []
  | (d, k) :: l =>
      replicate (S k) (ReqData (le32 n ++ le32 offset ++ d)) ++
      chunk_requests (n + 1) (offset + len d) l
  end.
Definition upload_requests (digest : list Z) (l : list (list Z * nat)) : list ota_request :=
  ReqBegin (le32 (len (concat l.*1)) ++ digest) :: chunk_requests 0 0 l ++ [ReqEnd].

Lemma le32_app_inj a b x y : u32 a -> u32 b -> le32 a ++ x = le32 b ++ y -> a = b /\ x = y.
Proof.
  intros Ha Hb E. apply app_inj_1 in E as [E ->]; [|done]. split; [|done].
  by rewrite <-(le32_value a), E, le32_value.
Qed.

(** The specification decides: a new chunk is written, a repeated one is not. *)
Lemma step_data_new next x pl n offset d r evs x' :
  u32 n -> u32 offset -> 1 <= len d <= OTA_MAX_CHUNK_DATA_SIZE ->
  offset = len (ses_image x) -> offset + len d <= ses_size x ->
  pl = le32 n ++ le32 offset ++ d -> ota_step next (Some x) (ReqData pl) r evs x' ->
  (exists err, err <> ESP_OK /\ evs = [EvOtaWrite (ses_handle x) d err]) \/
  r = ERR_OK /\ evs = [EvOtaWrite (ses_handle x) d ESP_OK] /\ x' = Some (accept d x).
Proof.
  intros Hn Ho Hd Eo Hf Epl Hst. inversion Hst; subst;
    try match goal with E : _ = le32 _ ++ _ |- _ =>
          apply le32_app_inj in E as [-> E]; [|done..]; apply le32_app_inj in E as [? ->]; [|done..] end;
    simplify_eq; try done; eauto; exfalso; sizes.
Qed.

Lemma step_data_retry next x pl n offset d r evs x' :
  u32 n -> u32 offset -> 1 <= len d <= OTA_MAX_CHUNK_DATA_SIZE ->
  offset <> len (ses_image x) -> is_retry x offset d ->
  pl = le32 n ++ le32 offset ++ d -> ota_step next (Some x) (ReqData pl) r evs x' ->
  r = ERR_OK /\ evs = [] /\ x' = Some x.
Proof.
  intros Hn Ho Hd Eo Hf Epl Hst. inversion Hst; subst;
    try match goal with E : _ = le32 _ ++ _ |- _ =>
          apply le32_app_inj in E as [-> E]; [|done..]; apply le32_app_inj in E as [<- ->]; [|done..] end;
    simplify_eq; try done; exfalso; sizes.
Qed.

Lemma step_begin next size d p r evs x' pl :
  len d = OTA_SHA256_SIZE -> u32 size -> size <> 0 -> next = Some p -> size <= part_size p ->
  pl = le32 size ++ d -> ota_step next None (ReqBegin pl) r evs x' ->
  (exists err h, err <> ESP_OK /\ evs = [EvOtaBegin p size err h]) \/
  (exists h, r = ERR_OK /\ evs = [EvOtaBegin p size ESP_OK h] /\ x' = Some (mk_session p size h d [])).
Proof.
  intros Hd Hs Hz Hn Hf Epl Hst. inversion Hst; subst;
    try match goal with E : _ = le32 _ ++ _ |- _ => apply le32_app_inj in E as [? ->]; [|done || (unfold u32; lia)..] end;
    simplify_eq; try done; eauto 10; exfalso; sizes.
Qed.

Definition accept_all (ds : list (list Z)) (x : session) : session := foldl (fun x d => accept d x) x ds.

Lemma accept_all_image ds x : ses_image (accept_all ds x) = ses_image x ++ concat ds.
Proof.
  revert x. induction ds as [|d ds IH]; intros x; cbn [accept_all foldl concat]; [by rewrite app_nil_r|].
  change (foldl _ _ ds) with (accept_all ds (accept d x)). by rewrite IH, ses_image_accept, <-app_assoc.
Qed.

Lemma accept_all_fields ds x :
  ses_partition (accept_all ds x) = ses_partition x /\ ses_size (accept_all ds x) = ses_size x /\
  ses_handle (accept_all ds x) = ses_handle x /\ ses_digest (accept_all ds x) = ses_digest x.
Proof.
  revert x. induction ds as [|d ds IH]; intros x; [done|].
  change (accept_all (d :: ds) x) with (accept_all ds (accept d x)). by destruct (IH (accept d x)) as (-> & -> & -> & ->).
Qed.

(** The calls that [performs] lists, as equations on the worlds they pass. *)
Ltac unfold_effects :=
  cbn [performs effect] in *;
  repeat match goal with
  | Hx : exists _, _ |- _ => destruct Hx
  | Hx : _ /\ _ |- _ => destruct Hx
  end; subst; simplify_eq.

Section Upload.
Context {W : Type} `{EspIdf W, !EspIdfSpec W, !FlashSpec W, !HealthyFlash W}.
Implicit Types s : updater W.

(** The slot of the session holds what was accepted so far. *)
Definition on_flash (w : W) (x : session) : Prop :=
  handle_slot w (ses_handle x) = Some (ses_partition x) /\
  slot_content w (ses_partition x) = ses_image x.

(** The answer to OTA_END once every byte of [image] was written. *)
Definition end_answer (digest image : list Z) : protocol_error_t :=
  match image_digest image with
  | None => ERR_OTA_INVALID_IMAGE
  | Some actual => if bool_decide (digest = actual) then ERR_OK else ERR_OTA_HASH_MISMATCH
  end.

(** What it means for the boot choice. *)
Definition end_outcome (r : protocol_error_t) (p : esp_partition_t) (evs : list event) (w : W) : Prop :=
  if bool_decide (r = ERR_OK) then esp_ota_get_boot_partition w = Some p
  else Forall (fun e => match e with EvSetBoot _ _ => False | _ => True end) evs.

Lemma call_runs req junk s x :
  ota_rel (u_ota s) x -> bytes (request_payload req) ->
  exists r s', ota_call req junk s = Done r s' /\ implements req s x r s'.
Proof.
  intros Hr Hb. pose proof (call_refines req junk s x Hr Hb) as Hwp. unfold wp in Hwp.
  destruct (ota_call req junk s) as [r s'|?|]; [by exists r, s'|done..].
Qed.

Lemma end_outcome_spec digest image p evs w :
  end_outcome (end_answer digest image) p evs w ->
  if bool_decide (image_digest image = Some digest)
  then end_answer digest image = ERR_OK /\ esp_ota_get_boot_partition w = Some p
  else end_answer digest image <> ERR_OK /\
    Forall (fun e => match e with EvSetBoot _ _ => False | _ => True end) evs.
Proof.
  unfold end_outcome, end_answer. destruct (image_digest image) as [actual|].
  2:{ rewrite !bool_decide_false by done. by intros. }
  destruct (decide (digest = actual)) as [->|].
  - rewrite (bool_decide_true (actual = actual)), !bool_decide_true by done. by intros.
  - rewrite (bool_decide_false (digest = actual)), !bool_decide_false by congruence. by intros.
Qed.

Lemma run_requests_app l1 l2 s rs1 s1 rs2 s2 :
  run_requests l1 s = Done rs1 s1 -> run_requests l2 s1 = Done rs2 s2 ->
  run_requests (l1 ++ l2) s = Done (rs1 ++ rs2) s2.
Proof.
  revert s rs1. induction l1 as [|q l1 IH]; intros s rs1 E1 E2; [by injection E1 as <- <-|].
  cbn [run_requests app] in *. destruct (ota_call q [] s) as [r s'| |] eqn:Eq;
    [|by unfold mbind, M_bind in E1; rewrite Eq in E1..].
  rewrite (bind_Done _ _ _ _ _ Eq) in E1. rewrite (bind_Done _ _ _ _ _ Eq).
  destruct (run_requests l1 s') as [rs s''| |] eqn:El; [|by unfold mbind, M_bind in E1; rewrite El in E1..].
  rewrite (bind_Done _ _ _ _ _ El) in E1. injection E1 as <- <-.
  by erewrite bind_Done by by apply IH.
Qed.

Lemma run_one req s r s' : ota_call req [] s = Done r s' -> run_requests [req] s = Done [r] s'.
Proof. intros E. cbn [run_requests]. by rewrite (bind_Done _ _ _ _ _ E). Qed.

(** A new chunk is written once. *)
Lemma serve_new junk s x n offset d :
  ota_rel (u_ota s) (Some x) -> u32 n -> u32 offset -> bytes d ->
  1 <= len d <= OTA_MAX_CHUNK_DATA_SIZE -> offset = len (ses_image x) ->
  offset + len d <= ses_size x -> on_flash (world (u_io s)) x ->
  head (ses_image x ++ d) = Some ESP_IMAGE_HEADER_MAGIC ->
  exists s', ota_call (ReqData (le32 n ++ le32 offset ++ d)) junk s = Done ERR_OK s' /\
    ota_rel (u_ota s') (Some (accept d x)) /\
    trace (u_io s') = EvOtaWrite (ses_handle x) d ESP_OK :: trace (u_io s) /\
    on_flash (world (u_io s')) (accept d x).
Proof.
  intros Hr Hn Ho Hb Hd Eo Hf [Hh Hc] Hm.
  destruct (call_runs (ReqData (le32 n ++ le32 offset ++ d)) junk s (Some x) Hr)
    as (r & s' & E & evs & x' & Hst & Hr' & Ht & Hp).
  { unfold request_payload. auto using bytes_app, bytes_le32. }
  pose proof Hr as [_ _ [Hx _]]. pose proof (rel_fits _ _ Hx) as Hsz.
  destruct (healthy_write (ses_handle x) (ses_partition x) d (world (u_io s))) as (w' & Ew & Hh' & Hw);
    [done|rewrite Hc, zlen_app; lia|by rewrite Hc|].
  apply (step_data_new _ _ _ n offset d) in Hst as [(err & He & ->)|(-> & -> & ->)]; try done.
  - destruct Hp as (w1 & -> & Eff). simpl in Eff. rewrite Ew in Eff. congruence.
  - exists s'. split_and!; try done. destruct Hp as (w1 & -> & Eff). simpl in Eff. rewrite Ew in Eff.
    injection Eff as <-. split; [done|]. by rewrite ses_image_accept, <-Hc.
Qed.

(** Its repetitions change nothing. *)
Lemma serve_retries k s x n offset d :
  ota_rel (u_ota s) (Some x) -> u32 n -> u32 offset -> bytes d ->
  1 <= len d <= OTA_MAX_CHUNK_DATA_SIZE -> offset <> len (ses_image x) -> is_retry x offset d ->
  exists s', run_requests (replicate k (ReqData (le32 n ++ le32 offset ++ d))) s =
      Done (replicate k ERR_OK) s' /\
    ota_rel (u_ota s') (Some x) /\ u_io s' = u_io s.
Proof.
  intros Hr Hn Ho Hb Hd Eo Hre. revert s Hr. induction k as [|k IH]; intros s Hr; [by exists s|].
  destruct (call_runs (ReqData (le32 n ++ le32 offset ++ d)) [] s (Some x) Hr)
    as (r & s1 & E & evs & x' & Hst & Hr' & Ht & Hp).
  { unfold request_payload. auto using bytes_app, bytes_le32. }
  apply (step_data_retry _ _ _ n offset d) in Hst as (-> & -> & ->); try done.
  destruct (IH s1 Hr') as (s' & E' & Hr'' & Eio). exists s'. split_and!; [|done|].
  - change (replicate (S k) ?q) with ([q] ++ replicate k q).
    eapply (run_requests_app [_]); [by apply run_one|done].
  - rewrite Eio. destruct s1 as [? [w t]], s as [? [w0 t0]]. cbn in *. congruence.
Qed.

Lemma serve_chunks l : forall s x n,
  ota_rel (u_ota s) (Some x) -> 0 <= n <= len (ses_image x) ->
  Forall (fun c => bytes c.1 /\ 1 <= len c.1 <= OTA_MAX_CHUNK_DATA_SIZE) l ->
  len (ses_image x) + len (concat l.*1) <= ses_size x -> on_flash (world (u_io s)) x ->
  head (ses_image x ++ concat l.*1) = Some ESP_IMAGE_HEADER_MAGIC ->
  exists rs s', run_requests (chunk_requests n (len (ses_image x)) l) s = Done rs s' /\
    Forall (eq ERR_OK) rs /\ ota_rel (u_ota s') (Some (accept_all l.*1 x)) /\
    trace (u_io s') = reverse ((fun d => EvOtaWrite (ses_handle x) d ESP_OK) <$> l.*1) ++ trace (u_io s) /\
    on_flash (world (u_io s')) (accept_all l.*1 x).
Proof.
  induction l as [|[d k] l IH]; intros s x n Hr Hn Hl Hf Hfl Hm.
  { by exists [], s. }
  inversion_clear Hl as [|?? [Hb Hd] Hl']. cbn [fst fmap list_fmap concat] in *. rewrite zlen_app in Hf.
  pose proof (zlen_nonneg (concat l.*1)).
  pose proof Hr as [_ _ [Hx Hfit]]. pose proof (rel_fits _ _ Hx) as Hsz. unfold partition_fits in Hfit.
  assert (u32 n /\ u32 (len (ses_image x))) as [Hun Huo] by sizes.
  rewrite app_assoc in Hm.
  destruct (serve_new [] s x n _ d Hr Hun Huo Hb Hd eq_refl) as (s1 & E1 & Hr1 & Ht1 & Hw1); [lia|done| |].
  { rewrite <-Hm. symmetry. apply head_app_long. sizes. }
  destruct (serve_retries k s1 (accept d x) n (len (ses_image x)) d Hr1 Hun Huo Hb Hd)
    as (s2 & E2 & Hr2 & Eio).
  { rewrite ses_image_accept, zlen_app. lia. }
  { by exists (ses_chunks x). }
  destruct (IH s2 (accept d x) (n + 1) Hr2) as (rs & s3 & E3 & Hrs & Hr3 & Ht3 & Hw3).
  { rewrite ses_image_accept, zlen_app. lia. }
  { done. }
  { rewrite ses_image_accept, zlen_app. cbn [accept ses_size]. lia. }
  { by rewrite Eio. }
  { by rewrite ses_image_accept. }
  rewrite ses_image_accept, zlen_app in E3.
  exists (([ERR_OK] ++ replicate k ERR_OK) ++ rs), s3. split_and!.
  - cbn [chunk_requests]. eapply run_requests_app; [|exact E3].
    change (replicate (S k) ?q) with ([q] ++ replicate k q).
    eapply run_requests_app; [by apply run_one|done].
  - apply Forall_app. split; [|done]. constructor; [done|]. by apply Forall_replicate.
  - done.
  - rewrite Ht3, Eio, Ht1, reverse_cons, <-app_assoc. done.
  - exact Hw3.
Qed.

Lemma serve_begin junk s size digest p :
  ota_rel (u_ota s) None -> esp_ota_get_next_update_partition (world (u_io s)) = Some p ->
  0 < size <= part_size p -> len digest = OTA_SHA256_SIZE -> bytes digest ->
  exists h s', ota_call (ReqBegin (le32 size ++ digest)) junk s = Done ERR_OK s' /\
    ota_rel (u_ota s') (Some (mk_session p size h digest [])) /\
    trace (u_io s') = EvOtaBegin p size ESP_OK h :: trace (u_io s) /\
    on_flash (world (u_io s')) (mk_session p size h digest []).
Proof.
  intros Hr Hp Hs Hd Hb.
  destruct (call_runs (ReqBegin (le32 size ++ digest)) junk s None Hr) as (r & s' & E & evs & x' & Hst & Hr' & Ht & Hpf).
  { unfold request_payload. auto using bytes_app, bytes_le32. }
  assert (u32 size) as Hu.
  { pose proof (update_partition_fits _ _ Hp) as Hf. unfold partition_fits in Hf. sizes. }
  destruct (healthy_begin p size (world (u_io s)) Hp Hs) as (h & w' & Eb & Hh & Hw).
  rewrite Hp in Hst.
  eapply (step_begin _ size digest p) in Hst as [(err & h' & He & ->)|(h' & -> & -> & ->)]; try done; [| |lia..].
  - destruct Hpf as (w1 & -> & Eff). simpl in Eff. rewrite Eb in Eff. congruence.
  - destruct Hpf as (w1 & -> & Eff). simpl in Eff. rewrite Eb in Eff. injection Eff as <- Ew.
    exists h, s'. by rewrite <-Ew.
Qed.

Lemma serve_end junk s x :
  ota_rel (u_ota s) (Some x) -> len (ses_image x) = ses_size x -> on_flash (world (u_io s)) x ->
  let r := end_answer (ses_digest x) (ses_image x) in
  exists evs s', ota_call ReqEnd junk s = Done r s' /\
    ota_rel (u_ota s') None /\ trace (u_io s') = evs ++ trace (u_io s) /\
    Forall (fun e => ~ foreign e) evs /\ end_outcome r (ses_partition x) evs (world (u_io s')).
Proof.
  intros Hr Hl [Hh Hc] r0. destruct (call_runs ReqEnd junk s (Some x) Hr) as (r & s' & E & evs & x' & Hst & Hr' & Ht & Hpf);
    [by constructor|].
  destruct (healthy_end (ses_handle x) (ses_partition x) (world (u_io s)) Hh) as (err & w1 & E1 & Hok & Hc1).
  rewrite Hc in *. rewrite E.
  assert (Forall (fun e => ~ foreign e) evs) as Hown.
  { apply Forall_forall. intros e. by eapply step_foreign. }
  exists evs, s'. subst r0. unfold end_answer, end_outcome.
  destruct (image_digest (ses_image x)) as [actual|] eqn:Ed.
  2:{ assert (err <> ESP_OK) as Hne by (rewrite Hok; apply is_Some_None).
      inversion Hst; subst; try done; unfold_effects; try congruence.
      rewrite bool_decide_false by done. split_and!; try done. by repeat constructor. }
  assert (err = ESP_OK) as -> by (by apply Hok).
  destruct (healthy_sha (ses_partition x) actual w1) as (w2 & E2 & Hc2); [by rewrite Hc1|].
  destruct (healthy_boot (ses_partition x) w2) as (w3 & E3 & Hbt); [by rewrite Hc2, Hc1, Ed|].
  inversion Hst; subst; try done; unfold_effects; try congruence.
  - rewrite (bool_decide_false (ses_digest x = actual)), bool_decide_false by congruence.
    split_and!; try done. by repeat constructor.
  - rewrite !bool_decide_true by congruence. split_and!; try done. congruence.
Qed.
End Upload.

(** Serving requests keeps the code and its specification together. *)
Lemma run_requests_run {W} `{EspIdf W, !EspIdfSpec W, !FlashSpec W} (P : ota_request -> Prop) l :
  forall s x rs s',
  ota_rel (u_ota s) x -> ota_run P (trace (u_io s)) x ->
  Forall (fun req => P req /\ bytes (request_payload req)) l -> run_requests l s = Done rs s' ->
  exists x', ota_rel (u_ota s') x' /\ ota_run P (trace (u_io s')) x'.
Proof.
  induction l as [|req l IH]; intros s x rs s' Hr Hrun Hl E; [injection E as _ <-; by exists x|].
  inversion_clear Hl as [|?? [HP Hb] Hl']. cbn [run_requests] in E.
  pose proof (call_refines req [] s x Hr Hb) as Hwp. unfold wp in Hwp.
  destruct (ota_call req [] s) as [r s1| |] eqn:E1; [|done..]. rewrite (bind_Done _ _ _ _ _ E1) in E.
  destruct Hwp as (evs & x1 & Hst & Hr1 & Ht & _).
  destruct (run_requests l s1) as [rs1 s2| |] eqn:E2;
    [|unfold mbind, M_bind in E; by rewrite E2 in E..].
  rewrite (bind_Done _ _ _ _ _ E2) in E. injection E as _ <-.
  eapply (IH s1 x1 rs1); [done| |done|done]. rewrite Ht. by eapply run_step.
Qed.

Lemma run_requests_history {W} `{EspIdf W, !EspIdfSpec W, !FlashSpec W} l :
  forall s x qs rs s',
  ota_rel (u_ota s) x -> ota_history qs (trace (u_io s)) x ->
  Forall (fun req => bytes (request_payload req)) l -> run_requests l s = Done rs s' ->
  exists x', ota_rel (u_ota s') x' /\ ota_history (qs ++ l) (trace (u_io s')) x'.
Proof.
  induction l as [|req l IH]; intros s x qs rs s' Hr Hh Hl E.
  { injection E as _ <-. exists x. by rewrite app_nil_r. }
  inversion_clear Hl as [|?? Hb Hl']. destruct (call_runs req [] s x Hr Hb) as (r & s1 & E1 & Hi).
  destruct Hi as (evs & x1 & Hst & Hr1 & Ht & _). cbn [run_requests] in E.
  rewrite (bind_Done _ _ _ _ _ E1) in E.
  destruct (run_requests l s1) as [rs1 s2| |] eqn:E2; [|unfold mbind, M_bind in E; by rewrite E2 in E..].
  rewrite (bind_Done _ _ _ _ _ E2) in E. injection E as _ <-.
  rewrite cons_middle, app_assoc. eapply (IH s1 x1 _ rs1); [done| |done|done].
  rewrite Ht. by eapply history_step.
Qed.

(** * Properties *)

(** The statics as the C startup code leaves them. *)
Definition ota_statics_zero : ota_statics := mk_ota_statics ota_zero (zeros OTA_SHA256_SIZE).

Lemma ota_statics_zero_rel : ota_rel ota_statics_zero None.
Proof. by apply ota_rel_zero. Qed.

Section Properties.
Context {W : Type} `{EspIdf W, !EspIdfSpec W, !FlashSpec W}.

(** C5 (refinement): the four functions of ota_manager.c implement the session
    specification [ota_step] on every request and every answer of the flash
    driver: they return without undefined behaviour, with the answer and the
    effects a step allows, from related states to related states. *)
Theorem ota_manager_implements_sessions (s : updater W) x req junk :
  ota_rel (u_ota s) x -> bytes (request_payload req) ->
  wp (ota_call req junk)
    (fun r s' => exists evs x',
       ota_step (esp_ota_get_next_update_partition (world (u_io s))) x req r evs x' /\
       ota_rel (u_ota s') x' /\ trace (u_io s') = evs ++ trace (u_io s))
    (fun _ => False) s.
Proof.
  intros Hr Hb. eapply wp_mono; [by apply call_refines| |done].
  intros r s' (evs & x' & ? & ? & ? & _). by exists evs, x'.
Qed.

(** C3 (safety): whatever requests arrive after start-up and however the flash
    driver answers, the boot partition is switched only to a slot that holds a
    verified image. Directly before the switch the image was closed and its
    digest read back and equal to the announced one; before that, back to the
    OTA_BEGIN that opened the slot, flash was written only through its handle;
    and the chunks written are those of OTA_DATA requests, each at the offset
    where the one before ended, up to exactly the announced size, between that
    OTA_BEGIN and an OTA_END in the order of the requests. *)
Theorem boot_switch_needs_a_verified_image (s : updater W) l rs s' t1 p err t2 :
  u_ota s = ota_statics_zero -> trace (u_io s) = [] ->
  Forall (fun req => bytes (request_payload req)) l -> run_requests l s = Done rs s' ->
  trace (u_io s') = t1 ++ EvSetBoot p err :: t2 ->
  exists size digest h chunks ws t0,
    t2 = EvPartitionSha p ESP_OK digest :: EvOtaEnd h ESP_OK :: ws ++ EvOtaBegin p size ESP_OK h :: t0 /\
    Forall (writes_to h) ws /\ written ws = chunks.*2 /\ len (concat chunks.*2) = size /\
    ReqBegin (le32 size ++ digest) :: chunks_from 0 chunks ++ [ReqEnd] `sublist_of` l.
Proof.
  intros Hs Ht Hl E Et.
  destruct (run_requests_history l s None [] rs s') as (x' & _ & Hh); [| |done..|].
  { rewrite Hs. apply ota_statics_zero_rel. }
  { rewrite Ht. constructor. }
  change ([] ++ l) with l in Hh. destruct (history_event _ _ _ _ _ _ Hh Et)
    as (next & qs1 & t3 & x3 & req & r & evs & x2 & qs2 & pre & post & Hh1 & -> & Hst & Ee & ->).
  destruct (step_boot _ _ _ _ _ _ _ _ _ _ Hst Ee) as (y & -> & -> & _ & -> & Hsz & ->).
  destruct (history_recorded _ _ _ Hh1) as (chunks & ws & t0 & [-> Hw Hwr Hc Hq]).
  exists (ses_size y), (ses_digest y), (ses_handle y), chunks, ws, t0. rewrite Hc.
  split_and!; try done. rewrite app_comm_cons. apply sublist_app; [done|].
  apply sublist_skip, sublist_nil_l.
Qed.

(** C21 (bounds): no write leaves the announced image: when a chunk goes to
    flash, an update session was opened on the handle, and the bytes already
    written plus the chunk fit the size announced, which fits the partition. *)
Theorem writes_stay_within_the_announced_size (s : updater W) l rs s' t1 h d err t2 :
  u_ota s = ota_statics_zero -> trace (u_io s) = [] ->
  Forall (fun req => bytes (request_payload req)) l -> run_requests l s = Done rs s' ->
  trace (u_io s') = t1 ++ EvOtaWrite h d err :: t2 ->
  exists p size, EvOtaBegin p size ESP_OK h ∈ t2 /\
    len (flash_image t2) + len d <= size <= part_size p.
Proof.
  intros Hs Ht Hl E Et.
  destruct (run_requests_run (fun _ => True) l s None rs s') as (x' & _ & Hrun); [| | |done|].
  { rewrite Hs. apply ota_statics_zero_rel. }
  { rewrite Ht. constructor. }
  { by eapply Forall_impl; [exact Hl|]. }
  destruct (ota_run_write _ _ _ _ _ _ _ _ Hrun Et) as (y & -> & [_ Hb Hf _ _] & Hsz).
  exists (ses_partition y), (ses_size y). split; [done|]. lia.
Qed.

(** C6 (liveness): an upload over a lossy link installs the image. On flash
    that works, an OTA_BEGIN, the chunks in order, each sent any number of
    extra times, and an OTA_END are answered; every chunk is acknowledged and
    reaches flash exactly once and in order; and OTA_END is acknowledged, and
    the slot becomes the boot choice, exactly if ESP-IDF takes the bytes for an
    application image whose digest is the announced one. Otherwise it answers
    [ERR_OTA_INVALID_IMAGE] or [ERR_OTA_HASH_MISMATCH] and the boot choice is
    never touched. *)
Theorem upload_installs_the_image `{!HealthyFlash W} (s : updater W) p digest chunks :
  ota_rel (u_ota s) None -> esp_ota_get_next_update_partition (world (u_io s)) = Some p ->
  Forall (fun c => bytes c.1 /\ 1 <= len c.1 <= OTA_MAX_CHUNK_DATA_SIZE) chunks ->
  len (concat chunks.*1) <= part_size p -> bytes digest -> len digest = OTA_SHA256_SIZE ->
  let image := concat chunks.*1 in
  head image = Some ESP_IMAGE_HEADER_MAGIC ->
  let last := end_answer digest image in
  exists rs h evs s',
    run_requests (upload_requests digest chunks) s = Done (rs ++ [last]) s' /\
    Forall (eq ERR_OK) rs /\ ota_rel (u_ota s') None /\
    trace (u_io s') = evs ++ reverse ((fun d => EvOtaWrite h d ESP_OK) <$> chunks.*1) ++
      EvOtaBegin p (len image) ESP_OK h :: trace (u_io s) /\
    if bool_decide (image_digest image = Some digest)
    then last = ERR_OK /\ esp_ota_get_boot_partition (world (u_io s')) = Some p
    else last <> ERR_OK /\ Forall (fun e => match e with EvSetBoot _ _ => False | _ => True end) evs.
Proof.
  intros Hr Hp Hc Hs Hb Hd image Hm last.
  assert (0 < len image <= part_size p) as Hs'.
  { split; [|done]. destruct image; [done|]. rewrite zlen_cons. pose proof (zlen_nonneg image). lia. }
  destruct (serve_begin [] s (len image) digest p Hr Hp Hs' Hd Hb) as (h & s1 & E1 & Hr1 & Ht1 & Hw1).
  destruct (serve_chunks chunks s1 _ 0 Hr1) as (rs & s2 & E2 & Hrs & Hr2 & Ht2 & Hw2);
    [done|done|done|done|done|].
  pose proof (accept_all_fields chunks.*1 (mk_session p (len image) h digest [])) as (F1 & F2 & F3 & F4).
  destruct (serve_end [] s2 _ Hr2) as (evs & s3 & E3 & Hr3 & Ht3 & _ & Hok).
  { by rewrite accept_all_image, F2. }
  { done. }
  rewrite F1, F4, accept_all_image in *. change ([] ++ concat chunks.*1) with image in *. fold last in E3, Hok.
  exists ([ERR_OK] ++ rs), h, evs, s3. split.
  { unfold upload_requests. rewrite <-app_assoc. change (ReqBegin ?x :: ?l) with ([ReqBegin x] ++ l).
    eapply run_requests_app; [by apply run_one|]. eapply run_requests_app; [exact E2|by apply run_one]. }
  split; [by constructor|]. split; [done|]. split; [by rewrite Ht3, Ht2, Ht1, <-?app_assoc|].
  by apply end_outcome_spec.
Qed.
End Properties.

(** ** Concrete instances *)

Definition example_updater : updater sim := mk_updater ota_statics_zero (sim_io sim_init).

(** A small image the simulated chip accepts, in two chunks; the first is sent twice. *)
Definition example_image : list Z := sim_image [1; 2].
Definition example_digest : list Z := drop 3 example_image.
Definition example_chunks : list (list Z * nat) :=
  [(take 2 example_image, 1%nat); (drop 2 example_image, 0%nat)].
Definition example_requests : list ota_request := upload_requests example_digest example_chunks.

Lemma example_requests_bytes : Forall (fun req => bytes (request_payload req)) example_requests.
Proof. vm_compute. repeat constructor; discriminate. Qed.

Lemma ota_manager_implements_sessions_witness :
  wp (ota_call (ReqBegin (le32 35 ++ example_digest)) [0; 0])
    (fun r s' => exists evs x', ota_step (Some sim_ota_1) None (ReqBegin (le32 35 ++ example_digest)) r evs x' /\
       ota_rel (u_ota s') x' /\ trace (u_io s') = evs ++ [])
    (fun _ => False) example_updater.
Proof.
  refine (ota_manager_implements_sessions example_updater None
    (ReqBegin (le32 35 ++ example_digest)) [0; 0] ota_statics_zero_rel _).
  vm_compute. repeat constructor; discriminate.
Defined.

(** What the example upload does: it is acknowledged throughout, and the last
    four effects are these. *)
Lemma example_run : exists s',
  run_requests example_requests example_updater = Done (replicate 5 ERR_OK) s' /\
  trace (u_io s') =
    [EvSetBoot sim_ota_1 ESP_OK; EvPartitionSha sim_ota_1 ESP_OK example_digest; EvOtaEnd 7 ESP_OK;
     EvOtaWrite 7 (drop 2 example_image) ESP_OK; EvOtaWrite 7 (take 2 example_image) ESP_OK;
     EvOtaBegin sim_ota_1 35 ESP_OK 7].
Proof. eexists. split; vm_compute; reflexivity. Qed.

Lemma boot_switch_needs_a_verified_image_witness :
  exists s' t2 size digest h chunks ws t0,
    run_requests example_requests example_updater = Done (replicate 5 ERR_OK) s' /\
    trace (u_io s') = [] ++ EvSetBoot sim_ota_1 ESP_OK :: t2 /\
    t2 = EvPartitionSha sim_ota_1 ESP_OK digest :: EvOtaEnd h ESP_OK :: ws ++
      EvOtaBegin sim_ota_1 size ESP_OK h :: t0 /\
    Forall (writes_to h) ws /\ written ws = chunks.*2 /\ len (concat chunks.*2) = size /\
    ReqBegin (le32 size ++ digest) :: chunks_from 0 chunks ++ [ReqEnd] `sublist_of` example_requests.
Proof.
  destruct example_run as (s' & E & Et). eexists s', _.
  destruct (boot_switch_needs_a_verified_image example_updater example_requests (replicate 5 ERR_OK) s'
    [] sim_ota_1 ESP_OK _ eq_refl eq_refl example_requests_bytes E Et)
    as (size & digest & h & chunks & ws & t0 & P).
  exists size, digest, h, chunks, ws, t0. split; [exact E|]. split; [exact Et|exact P].
Defined.

Lemma writes_stay_within_the_announced_size_witness :
  exists s' t2 p size,
    run_requests example_requests example_updater = Done (replicate 5 ERR_OK) s' /\
    trace (u_io s') = [EvSetBoot sim_ota_1 ESP_OK; EvPartitionSha sim_ota_1 ESP_OK example_digest;
      EvOtaEnd 7 ESP_OK] ++ EvOtaWrite 7 (drop 2 example_image) ESP_OK :: t2 /\
    EvOtaBegin p size ESP_OK 7 ∈ t2 /\ len (flash_image t2) + len (drop 2 example_image) <= size <= part_size p.
Proof.
  destruct example_run as (s' & E & Et). eexists s', _.
  destruct (writes_stay_within_the_announced_size example_updater example_requests (replicate 5 ERR_OK) s'
    [_; _; _] 7 (drop 2 example_image) ESP_OK _ eq_refl eq_refl example_requests_bytes E Et) as (p & size & P).
  exists p, size. split; [exact E|]. split; [exact Et|exact P].
Defined.

Lemma example_chunks_image : concat example_chunks.*1 = example_image.
Proof. vm_compute. reflexivity. Qed.
Lemma example_chunks_bytes :
  Forall (fun c => bytes c.1 /\ 1 <= len c.1 <= OTA_MAX_CHUNK_DATA_SIZE) example_chunks.
Proof. vm_compute. repeat constructor; discriminate. Qed.
Lemma example_digest_bytes : bytes example_digest.
Proof. vm_compute. repeat constructor; discriminate. Qed.
Lemma example_image_good :
  sim_image_digest example_image = Some example_digest.
Proof. vm_compute. reflexivity. Qed.

Lemma upload_installs_the_image_witness :
  exists rs h evs s',
    run_requests example_requests example_updater =
      Done (rs ++ [end_answer example_digest (concat example_chunks.*1)]) s' /\
    Forall (eq ERR_OK) rs /\ ota_rel (u_ota s') None /\
    trace (u_io s') = evs ++ reverse ((fun d => EvOtaWrite h d ESP_OK) <$> example_chunks.*1) ++
      [EvOtaBegin sim_ota_1 (len (concat example_chunks.*1)) ESP_OK h] /\
    end_answer example_digest (concat example_chunks.*1) = ERR_OK /\
    sim_boot (world (u_io s')) = Some sim_ota_1.
Proof.
  pose proof (upload_installs_the_image example_updater sim_ota_1 example_digest example_chunks
    ota_statics_zero_rel eq_refl example_chunks_bytes) as P.
  destruct P as (rs & h & evs & s' & P1 & P2 & P3 & P4 & P5);
    [vm_compute; discriminate|exact example_digest_bytes|vm_compute; reflexivity|vm_compute; reflexivity|].
  rewrite bool_decide_true in P5 by (rewrite example_chunks_image; exact example_image_good).
  exists rs, h, evs, s'. by split_and!; try apply P5.
Defined.
