(* ===== verification/DeviceInfo.v ===== *)
(** device_info.h and device_info.c: the boot counter and the CMD_INFO payload;
    the payload format with its decoder, and the theorem that the C code builds
    that format. *)
From Stdlib Require Import String Ascii.
From S2P Require Import Prelude Machine EspIdf SimEnv Protocol Hmac.

(** * Data *)

(** The static of device_info.c and the outside. *)
Record info_state (W : Type) : Type := mk_info { s_boot_count : Z; i_io : io W }.
Arguments mk_info {W}. Arguments s_boot_count {W}. Arguments i_io {W}.
Definition info_io {W} : lens (info_state W) (io W) :=
  mk_lens i_io (fun t s => mk_info (s_boot_count s) t).

(** * Operations *)

Definition ota_state_name (state : esp_ota_img_states_t) : list Z :=
  string_bytes
    (match state with
     | ESP_OTA_IMG_NEW => "NEW"
     | ESP_OTA_IMG_PENDING_VERIFY => "PENDING_VERIFY"
     | ESP_OTA_IMG_VALID => "VALID"
     | ESP_OTA_IMG_INVALID => "INVALID"
     | ESP_OTA_IMG_ABORTED => "ABORTED"
     | ESP_OTA_IMG_UNDEFINED => "UNDEFINED"
     | ESP_OTA_IMG_other _ => "UNKNOWN"
     end).

Definition chip_model_name (model : esp_chip_model_t) : list Z :=
  string_bytes
    (match model with
     | CHIP_ESP32 => "ESP32"
     | CHIP_ESP32S2 => "ESP32-S2"
     | CHIP_ESP32S3 => "ESP32-S3"
     | CHIP_ESP32C2 => "ESP32-C2"
     | CHIP_ESP32C3 => "ESP32-C3"
     | CHIP_ESP32C5 => "ESP32-C5"
     | CHIP_ESP32C6 => "ESP32-C6"
     | CHIP_ESP32C61 => "ESP32-C61"
     | CHIP_ESP32H2 => "ESP32-H2"
     | CHIP_ESP32H21 => "ESP32-H21"
     | CHIP_ESP32H4 => "ESP32-H4"
     | CHIP_ESP32P4 => "ESP32-P4"
     | CHIP_ESP32S31 => "ESP32-S31"
     | CHIP_POSIX_LINUX => "POSIX-Linux"
     | CHIP_other _ => "unknown"
     end).

(** The buffer and [*offset] afterwards. *)
Definition put_u32_le (buffer : list Z) (offset value : Z) : option (list Z * Z) :=
  buffer ← zset buffer offset (Z.land value 0xFF);
  buffer ← zset buffer (offset + 1) (Z.land (Z.shiftr value 8) 0xFF);
  buffer ← zset buffer (offset + 2) (Z.land (Z.shiftr value 16) 0xFF);
  buffer ← zset buffer (offset + 3) (Z.land (Z.shiftr value 24) 0xFF);
  Some (buffer, offset + 4).

(** The result, the buffer and [*offset]. *)
Definition put_str8 (buffer : list Z) (capacity offset : Z) (value : list Z)
  : option (bool * list Z * Z) :=
  let length := len value in
  if (255 <? length) || (capacity <? offset + 1 + length) then Some (false, buffer, offset) else
  buffer ← zset buffer offset (to_u8 length);
  let offset := offset + 1 in
  buffer ← blit buffer offset value;
  Some (true, buffer, offset + length).

(** Strings put one after the other, until one does not fit ([||] of lines
    235-241 and 272-273). *)
Fixpoint put_all (buffer : list Z) (capacity offset : Z) (values : list (list Z))
  : option (bool * list Z * Z) :=
  match values with
  | [] => Some (true, buffer, offset)
  | value :: values =>
      r ← put_str8 buffer capacity offset value;
      let '(ok, buffer, offset) := r in
      if ok : bool then put_all buffer capacity offset values else Some (false, buffer, offset)
  end.

Definition partition_is_ota_slot {W} `{EspIdf W} (partition : option esp_partition_t) : bool :=
  match partition with
  | None => false
  | Some p =>
      part_type_app p && (ESP_PARTITION_SUBTYPE_APP_OTA_0 <=? part_subtype p) &&
      (part_subtype p <=? ESP_PARTITION_SUBTYPE_APP_OTA_15)
  end.

Definition is_digit (c : Z) : bool := (48 <=? c) && (c <=? 57).

(** The loop of lines 116-122: a cursor is the rest of its string, whose end
    reads as NUL. [None] is the return of [false]. *)
Fixpoint version_digits (parsed : Z) (value : list Z) : option (Z * list Z) :=
  match value with
  | c :: rest =>
      if is_digit c then
        let parsed := to_u32 (to_u32 (parsed * 10) + (c - 48)) in
        if 255 <? parsed then None else version_digits parsed rest
      else Some (parsed, value)
  | [] => Some (parsed, value)
  end.

Definition parse_version_component (cursor : list Z) : option (Z * list Z) :=
  match cursor with
  | c :: _ =>
      if is_digit c then
        '(parsed, value) ← version_digits 0 cursor;
        Some (to_u8 parsed, value)
      else None
  | [] => None
  end.

(** [*cursor++ != '.'] *)
Definition skip_dot (cursor : list Z) : option (list Z) :=
  match cursor with
  | c :: rest => if c =? 46 then Some rest else None
  | [] => None
  end.

(** [*major], [*minor], [*patch]. *)
Definition parse_app_version (version : option (list Z)) : Z * Z * Z :=
  match version with
  | None => (0, 0, 0)
  | Some version =>
      let version :=
        match version with
        | c :: rest => if (c =? 118) || (c =? 86) then rest else version
        | [] => version
        end in
      default (0, 0, 0)
        ('(major, cursor) ← parse_version_component version;
         cursor ← skip_dot cursor;
         '(minor, cursor) ← parse_version_component cursor;
         cursor ← skip_dot cursor;
         '(patch, _) ← parse_version_component cursor;
         Some (major, minor, patch))
  end.

Section Code.
Context {W : Type} `{EspIdf W}.

Definition set_boot_count (n : Z) : M (info_state W) unit := modify (fun s => mk_info n (i_io s)).

Definition device_info_init : M (info_state W) unit :=
  err ← zoom info_io (silent nvs_flash_init);
  if bool_decide (err = ESP_ERR_NVS_NO_FREE_PAGES) || bool_decide (err = ESP_ERR_NVS_NEW_VERSION_FOUND)
  then mret tt else
  if negb (bool_decide (err = ESP_OK)) then mret tt else
  opened ← zoom info_io (silent nvs_open);
  let '(err, nvs) := opened in
  if negb (bool_decide (err = ESP_OK)) then mret tt else
  got ← zoom info_io (query (nvs_get_u32 nvs));
  let boot_count := default 0 got.2 in
  let count := to_u32 (boot_count + 1) in
  _ ← set_boot_count count;
  err ← zoom info_io (call (nvs_set_u32 nvs count) (EvNvsSet count));
  _ ← (if bool_decide (err = ESP_OK)
       then _ ← zoom info_io (call (nvs_commit nvs) EvNvsCommit); mret tt
       else mret tt);
  zoom info_io (silent (fun w => (tt, nvs_close nvs w))).

(** The state reported through the out-pointer, which starts as UNDEFINED. *)
Definition image_state (partition : option esp_partition_t) (w : W) : esp_ota_img_states_t :=
  default ESP_OTA_IMG_UNDEFINED (esp_ota_get_state_partition partition w).2.

(** The loop of lines 257-278, over the partitions the iterator yields. The
    first component is [None] for a [return 0]. *)
Fixpoint put_slots (w : W) (slots : list esp_partition_t) (buffer : list Z)
    (capacity offset slot_count : Z) : option (option Z * list Z * Z) :=
  match slots with
  | [] => Some (Some slot_count, buffer, offset)
  | slot :: slots =>
      if negb (partition_is_ota_slot (Some slot)) then put_slots w slots buffer capacity offset slot_count
      else if slot_count =? 255 then Some (None, buffer, offset)
      else
        r ← put_all buffer capacity offset
              [part_label slot; ota_state_name (image_state (Some slot) w)];
        let '(ok, buffer, offset) := r in
        if ok : bool then put_slots w slots buffer capacity offset (slot_count + 1)
        else Some (None, buffer, offset)
  end.

(** The strings of lines 208-215. *)
Definition info_strings (w : W) : list (list Z) :=
  let running := esp_ota_get_running_partition w in
  let boot := esp_ota_get_boot_partition w in
  let desc := esp_app_get_description w in
  let ota_state :=
    match running with Some _ => image_state running w | None => ESP_OTA_IMG_UNDEFINED end in
  [chip_model_name (esp_chip_model w);
   match running with Some p => part_label p | None => string_bytes "unknown" end;
   match boot with Some p => part_label p | None => string_bytes "unknown" end;
   ota_state_name ota_state;
   match desc with Some d => desc_idf_ver d | None => string_bytes "unknown" end;
   match desc with Some d => desc_project_name d | None => string_bytes "esp32_ota_link" end;
   match desc with Some d => desc_date d | None => string_bytes "unknown" end].

(** Returns the length and leaves the buffer, also on the error paths. *)
Definition device_info_build_payload (boot_count : Z) (w : W) (buffer : list Z) (capacity : Z)
  : option (Z * list Z) :=
  let '(fw_major, fw_minor, fw_patch) :=
    parse_app_version (desc_version <$> esp_app_get_description w) in
  if capacity <? 17 then Some (0, buffer) else
  buffer ← zset buffer 0 PROTOCOL_VERSION;
  buffer ← zset buffer 1 fw_major;
  buffer ← zset buffer 2 fw_minor;
  buffer ← zset buffer 3 fw_patch;
  '(buffer, offset) ← put_u32_le buffer 4 (to_u32 (esp_timer_get_time w mod 2 ^ 64 / 1000000));
  '(buffer, offset) ← put_u32_le buffer offset (to_u32 (heap_caps_get_free_size w));
  '(buffer, offset) ← put_u32_le buffer offset boot_count;
  buffer ← zset buffer offset (if esp_ota_check_rollback_is_possible w then 1 else 0);
  let offset := offset + 1 in
  r ← put_all buffer capacity offset (info_strings w);
  let '(ok, buffer, offset) := r in
  if negb ok then Some (0, buffer) else
  if capacity <? offset + 1 then Some (0, buffer) else
  let slot_count_offset := offset in
  r ← put_slots w (esp_partition_find_app w) buffer capacity (offset + 1) 0;
  let '(slot_count, buffer, offset) := r in
  match slot_count with
  | None => Some (0, buffer)
  | Some slot_count =>
      buffer ← zset buffer slot_count_offset slot_count;
      Some (offset, buffer)
  end.
End Code.

(** * Specification: the payload of CMD_INFO *)

Record device_info : Type := mk_device_info {
  inf_version : Z * Z * Z;
  inf_uptime : Z;
  inf_heap : Z;
  inf_boot_count : Z;
  inf_rollback : bool;
  inf_chip : list Z;
  inf_running : list Z;               (** the label of the running partition *)
  inf_boot : list Z;                  (** the label of the boot partition *)
  inf_state : list Z;                 (** the state of the running image *)
  inf_idf : list Z;
  inf_project : list Z;
  inf_date : list Z;
  inf_slots : list (list Z * list Z)  (** label and image state *)
}.

Definition str8 (s : list Z) : list Z := len s :: s.
Definition slot_strings (slots : list (list Z * list Z)) : list (list Z) :=
  slots ≫= (fun s => [s.1; s.2]).
Definition info_header (i : device_info) : list Z :=
  let '(major, minor, patch) := inf_version i in
  [PROTOCOL_VERSION; major; minor; patch] ++ le32 (inf_uptime i) ++ le32 (inf_heap i) ++
  le32 (inf_boot_count i) ++ [Z.b2z (inf_rollback i)].
Definition inf_strings (i : device_info) : list (list Z) :=
  [inf_chip i; inf_running i; inf_boot i; inf_state i; inf_idf i; inf_project i; inf_date i].
Definition encode_info (i : device_info) : list Z :=
  info_header i ++ (inf_strings i ≫= str8) ++ [len (inf_slots i)] ++ (slot_strings (inf_slots i) ≫= str8).

(** The decoder: what a host reads out of a payload. *)
Definition take_str8 (l : list Z) : option (list Z * list Z) :=
  match l with
  | n :: l => if n <=? len l then Some (take (Z.to_nat n) l, drop (Z.to_nat n) l) else None
  | [] => None
  end.
Fixpoint take_strings (n : nat) (l : list Z) : option (list (list Z) * list Z) :=
  match n with
  | O => Some ([], l)
  | S n => '(s, l) ← take_str8 l; '(ss, l) ← take_strings n l; Some (s :: ss, l)
  end.
Fixpoint pairs (l : list (list Z)) : list (list Z * list Z) :=
  match l with
  | a :: b :: l => (a, b) :: pairs l
  | _ => []
  end.
Definition decode_info (l : list Z) : option device_info :=
  match l with
  | ver :: major :: minor :: patch :: u0 :: u1 :: u2 :: u3 :: h0 :: h1 :: h2 :: h3 ::
      b0 :: b1 :: b2 :: b3 :: rb :: l =>
      if negb (ver =? PROTOCOL_VERSION) then None else
      '(strings, l) ← take_strings 7 l;
      match strings, l with
      | [chip; running; boot; state; idf; project; date], n :: l =>
          '(slots, l) ← take_strings (2 * Z.to_nat n) l;
          if bool_decide (l = []) then
            Some (mk_device_info (major, minor, patch) (le_value [u0; u1; u2; u3])
                    (le_value [h0; h1; h2; h3]) (le_value [b0; b1; b2; b3]) (negb (rb =? 0))
                    chip running boot state idf project date (pairs slots))
          else None
      | _, _ => None
      end
  | _ => None
  end.

Definition str_ok (s : list Z) : Prop := len s <= 255.

(** Values that fit their fields. *)
Record info_ok (i : device_info) : Prop := {
  info_uptime_ok : u32 (inf_uptime i);
  info_heap_ok : u32 (inf_heap i);
  info_boot_ok : u32 (inf_boot_count i);
  info_strings_ok : Forall str_ok (inf_strings i);
  info_slots_ok : Forall str_ok (slot_strings (inf_slots i));
  info_slots_count : len (inf_slots i) <= 255
}.

(** What the device reports in world [w]. *)
Section Report.
Context {W : Type} `{EspIdf W}.

Definition ota_slots (w : W) : list esp_partition_t :=
  filter (fun p => partition_is_ota_slot (Some p) = true) (esp_partition_find_app w).
Definition slot_report (w : W) (p : esp_partition_t) : list Z * list Z :=
  (part_label p, ota_state_name (image_state (Some p) w)).
Definition or_unknown (s : option (list Z)) : list Z := default (string_bytes "unknown") s.
Definition device_report (boot_count : Z) (w : W) : device_info :=
  mk_device_info (parse_app_version (desc_version <$> esp_app_get_description w))
    (to_u32 (esp_timer_get_time w mod 2 ^ 64 / 1000000)) (to_u32 (heap_caps_get_free_size w))
    boot_count (esp_ota_check_rollback_is_possible w)
    (chip_model_name (esp_chip_model w))
    (or_unknown (part_label <$> esp_ota_get_running_partition w))
    (or_unknown (part_label <$> esp_ota_get_boot_partition w))
    (ota_state_name (default ESP_OTA_IMG_UNDEFINED
       (p ← esp_ota_get_running_partition w; (esp_ota_get_state_partition (Some p) w).2)))
    (or_unknown (desc_idf_ver <$> esp_app_get_description w))
    (default (string_bytes "esp32_ota_link") (desc_project_name <$> esp_app_get_description w))
    (or_unknown (desc_date <$> esp_app_get_description w))
    (slot_report w <$> ota_slots w).

(** It can be encoded and fits [capacity]. *)
Definition report_fits (boot_count : Z) (w : W) (capacity : Z) : Prop :=
  let i := device_report boot_count w in
  Forall str_ok (inf_strings i) /\ Forall str_ok (slot_strings (inf_slots i)) /\
  len (inf_slots i) <= 255 /\ len (encode_info i) <= capacity.
End Report.

#[export] Instance str_ok_dec s : Decision (str_ok s).
Proof. unfold str_ok. apply _. Defined.
#[export] Instance report_fits_dec {W} `{EspIdf W} bc (w : W) cap : Decision (report_fits bc w cap).
Proof. unfold report_fits. apply _. Defined.

(** A version number and a byte in decimal. *)
Definition decimal (n : Z) : list Z :=
  if n <? 10 then [48 + n]
  else if n <? 100 then [48 + n / 10; 48 + n mod 10]
  else [48 + n / 100; 48 + n / 10 mod 10; 48 + n mod 10].
Definition version_string (major minor patch : Z) : list Z :=
  decimal major ++ [46] ++ decimal minor ++ [46] ++ decimal patch.

(** * Lemmas: the decoder inverts the encoder *)

Lemma take_str8_app s l : take_str8 (str8 s ++ l) = Some (s, l).
Proof.
  unfold take_str8, str8. cbn [app]. destruct (Z.leb_spec (len s) (len (s ++ l))) as [_|]; [|sizes].
  assert (Z.to_nat (len s) = length s) as -> by sizes. by rewrite take_app_length, drop_app_length.
Qed.

Lemma take_strings_app ss l : take_strings (length ss) ((ss ≫= str8) ++ l) = Some (ss, l).
Proof.
  induction ss as [|s ss IH]; [done|]. cbn [take_strings length mbind list_bind].
  rewrite <-app_assoc, take_str8_app. cbn [mbind option_bind]. by rewrite IH.
Qed.

Lemma pairs_slot_strings slots : pairs (slot_strings slots) = slots.
Proof. induction slots as [|[a b] slots IH]; [done|]. cbn. unfold slot_strings in IH. by rewrite IH. Qed.

Lemma length_slot_strings slots : length (slot_strings slots) = (2 * length slots)%nat.
Proof.
  induction slots as [|[a b] slots IH]; [done|]. cbn. unfold slot_strings in IH. rewrite IH. lia.
Qed.

Lemma decode_encode_info i : info_ok i -> decode_info (encode_info i) = Some i.
Proof.
  intros [Hu Hh Hb _ _ _]. pose proof (take_strings_app (inf_strings i)) as Hstr.
  destruct i as [[[ma mi] pa] up heap boot rb s1 s2 s3 s4 s5 s6 s7 slots]; simpl in Hu, Hh, Hb.
  unfold encode_info, info_header, decode_info.
  cbn [inf_version inf_uptime inf_heap inf_boot_count inf_rollback inf_slots le32 app].
  rewrite Z.eqb_refl; cbn [negb]. change 7%nat with (length [s1; s2; s3; s4; s5; s6; s7]).
  change (inf_strings _) with [s1; s2; s3; s4; s5; s6; s7] in *.
  rewrite Hstr. cbn [mbind option_bind app].
  assert ((2 * Z.to_nat (len slots))%nat = length (slot_strings slots)) as ->.
  { rewrite length_slot_strings. sizes. }
  rewrite <-(app_nil_r (slot_strings slots ≫= str8)), take_strings_app. cbn [mbind option_bind].
  rewrite bool_decide_true by done. rewrite pairs_slot_strings.
  pose proof (le32_value up Hu) as E1. pose proof (le32_value heap Hh) as E2.
  pose proof (le32_value boot Hb) as E3. unfold le32 in E1, E2, E3. rewrite E1, E2, E3.
  by destruct rb.
Qed.

(** * Lemmas: the C code builds the encoding *)

Lemma zlen_str8 s : len (str8 s) = 1 + len s.
Proof. unfold str8. sizes. Qed.
#[export] Hint Rewrite zlen_str8 : zlen.

Section Put.
Context (l : list Z) (capacity : Z) (Hcap : capacity <= len l).

Lemma put_u32_le_run a v off :
  off = len a -> len a + 4 <= capacity ->
  put_u32_le (over a l) off v = Some (over (a ++ le32 v) l, len (a ++ le32 v)).
Proof using Hcap.
  intros -> Ha. unfold put_u32_le. rewrite zset_over by lia. cbn [mbind option_bind].
  do 3 (rewrite zset_over by sizes; cbn [mbind option_bind]).
  rewrite !land_255, (shiftr_div _ 8 256), (shiftr_div _ 16 65536), (shiftr_div _ 24 16777216),
    <-!app_assoc by done. do 2 f_equal. sizes.
Qed.

Lemma put_str8_run a v :
  len a <= capacity ->
  put_str8 (over a l) capacity (len a) v =
  Some (if bool_decide (str_ok v /\ len (a ++ str8 v) <= capacity)
        then (true, over (a ++ str8 v) l, len (a ++ str8 v)) else (false, over a l, len a)).
Proof using Hcap.
  intros Ha. pose proof (zlen_nonneg v). unfold put_str8, str_ok. rewrite zlen_app, zlen_str8.
  destruct (Z.ltb_spec 255 (len v)).
  { rewrite bool_decide_false by lia. done. }
  destruct (Z.ltb_spec capacity (len a + 1 + len v)); cbn [orb].
  { rewrite bool_decide_false by lia. done. }
  rewrite bool_decide_true by lia. rewrite zset_over by lia. cbn [mbind option_bind].
  rewrite blit_over by sizes. cbn [mbind option_bind].
  unfold to_u8. rewrite (Z.mod_small (len v)) by lia. rewrite <-app_assoc. do 2 f_equal. lia.
Qed.

(** The strings fit, or the code stops at one that does not. *)
Lemma put_all_run vs a :
  len a <= capacity ->
  let enc := a ++ (vs ≫= str8) in
  if bool_decide (Forall str_ok vs /\ len enc <= capacity)
  then put_all (over a l) capacity (len a) vs = Some (true, over enc l, len enc)
  else exists b, put_all (over a l) capacity (len a) vs = Some (false, over b l, len b) /\
         len b <= capacity.
Proof using Hcap.
  revert a. induction vs as [|v vs IH]; intros a Ha enc; subst enc; cbn [mbind list_bind].
  { rewrite app_nil_r, bool_decide_true by done. done. }
  cbn [put_all]. rewrite put_str8_run by done. cbn [mbind option_bind].
  rewrite app_assoc.
  destruct (bool_decide_reflect (str_ok v /\ len (a ++ str8 v) <= capacity)) as [Hv|Hv].
  - specialize (IH (a ++ str8 v) (proj2 Hv)). cbn zeta in IH.
    case_bool_decide as H1; [rewrite bool_decide_true; [exact IH|]|rewrite bool_decide_false; [exact IH|]];
      rewrite Forall_cons; tauto.
  - rewrite bool_decide_false; [by exists a|]. rewrite Forall_cons. intros [[] H2]. apply Hv.
    split; [done|]. rewrite zlen_app in H2. pose proof (zlen_nonneg (vs ≫= str8)). cbn [mbind] in *. lia.
Qed.

Context {W : Type} `{EspIdf W} (w : W).

Definition slots_of (ps : list esp_partition_t) : list (list Z * list Z) :=
  slot_report w <$> filter (fun p => partition_is_ota_slot (Some p) = true) ps.

Lemma put_slots_run ps : forall a n,
  len a <= capacity -> 0 <= n <= 255 ->
  let slots := slots_of ps in
  let enc := a ++ (slot_strings slots ≫= str8) in
  if bool_decide (Forall str_ok (slot_strings slots) /\ n + len slots <= 255 /\ len enc <= capacity)
  then put_slots w ps (over a l) capacity (len a) n = Some (Some (n + len slots), over enc l, len enc)
  else exists b, put_slots w ps (over a l) capacity (len a) n = Some (None, over b l, len b) /\
         len b <= capacity.
Proof using Hcap.
  induction ps as [|p ps IH]; intros a n Ha Hn; cbn zeta.
  { cbn. rewrite app_nil_r, zlen_nil, Z.add_0_r, bool_decide_true; [done|].
    split; [constructor|]. change (len (@nil (list Z * list Z))) with 0. lia. }
  cbn [put_slots]. unfold slots_of in *. rewrite filter_cons.
  destruct (partition_is_ota_slot (Some p)); cbn [negb]; [rewrite decide_True by done|by apply IH].
  cbn [fmap list_fmap]. change (slot_strings (slot_report w p :: ?x)) with
    ((slot_report w p).1 :: (slot_report w p).2 :: slot_strings x).
  set (slots := slot_report w <$> _) in *.
  change (list_fmap _ _ (slot_report w) _) with slots.
  rewrite zlen_cons. pose proof (zlen_nonneg slots).
  destruct (Z.eqb_spec n 255) as [->|].
  { rewrite bool_decide_false by lia. by exists a. }
  pose proof (put_all_run [part_label p; ota_state_name (image_state (Some p) w)] a Ha) as Hall.
  cbn zeta in Hall. cbn [slot_report fst snd].
  set (s1 := part_label p) in *. set (s2 := ota_state_name _) in *.
  assert (forall x, (s1 :: s2 :: x) ≫= str8 = ([s1; s2] ≫= str8) ++ (x ≫= str8)) as Hb.
  { intros x. cbn. by rewrite app_nil_r, <-app_assoc. }
  rewrite Hb, app_assoc. set (a' := a ++ ([s1; s2] ≫= str8)) in *.
  revert Hall. destruct (bool_decide_reflect (Forall str_ok [s1; s2] /\ len a' <= capacity)) as [Hf|Hf];
    rewrite Forall_cons, Forall_singleton in Hf; intros Hall.
  - rewrite Hall. cbn [mbind option_bind]. specialize (IH a' (n + 1) (proj2 Hf) ltac:(lia)).
    cbn zeta in IH. rewrite Z.add_assoc.
    case_bool_decide as Hd; [rewrite bool_decide_true; [exact IH|]|rewrite bool_decide_false; [exact IH|]];
      rewrite !Forall_cons; tauto.
  - destruct Hall as (b & -> & ?). cbn [mbind option_bind]. rewrite bool_decide_false; [by exists b|].
    rewrite !Forall_cons. intros ((? & ? & ?) & _ & Hl). apply Hf. split; [done|].
    rewrite zlen_app in Hl. pose proof (zlen_nonneg (slot_strings slots ≫= str8)). lia.
Qed.

(** A cell left out on the way and filled in at the end. *)
Lemma over_snoc_old a : len a < len l -> exists o, over a l = over (a ++ [o]) l.
Proof using.
  intros Ha. destruct (drop (length a) l) as [|o r] eqn:E.
  { apply (f_equal length) in E. rewrite length_drop in E. simpl in E. sizes. }
  exists o. unfold over. rewrite E, length_app, <-drop_drop, E. simpl. by rewrite <-app_assoc, drop_0.
Qed.
Lemma zset_over_mid a o b x off :
  off = len a -> zset (over (a ++ o :: b) l) off x = Some (over (a ++ x :: b) l).
Proof using.
  intros ->. unfold over, zset. rewrite <-!app_assoc. cbn [app].
  change (o :: ?t) with ([o] ++ t). rewrite blit_mid by done.
  rewrite !length_app. done.
Qed.
End Put.

Lemma zlen_info_header i : len (info_header i) = 17.
Proof. unfold info_header. destruct (inf_version i) as [[? ?] ?]. sizes. Qed.
#[export] Hint Rewrite zlen_info_header : zlen.

Section Build.
Context {W : Type} `{EspIdf W}.

(** The strings and slots, once the header is in the buffer. *)
(** The values the code computes are the ones reported. *)
Lemma report_strings bc (w : W) : inf_strings (device_report bc w) = info_strings w.
Proof.
  unfold inf_strings, info_strings, device_report, or_unknown, image_state. cbn.
  by destruct (esp_ota_get_running_partition w), (esp_ota_get_boot_partition w), (esp_app_get_description w).
Qed.

Lemma build_tail_run bc (w : W) l capacity :
  17 <= capacity <= len l ->
  let i := device_report bc w in
  exists n b,
    (r ← put_all (over (info_header i) l) capacity 17 (info_strings w);
     let '(ok, buffer, offset) := r in
     if negb ok then Some (0, buffer) else
     if capacity <? offset + 1 then Some (0, buffer) else
     r ← put_slots w (esp_partition_find_app w) buffer capacity (offset + 1) 0;
     let '(slot_count, buffer, offset') := r in
     match slot_count with
     | None => Some (0, buffer)
     | Some slot_count => buffer ← zset buffer offset slot_count; Some (offset', buffer)
     end) = Some (n, b) /\ len b = len l /\
    if bool_decide (report_fits bc w capacity) then n = len (encode_info i) /\ b = over (encode_info i) l
    else n = 0.
Proof.
  intros Hc i.
  assert (report_fits bc w capacity <->
          Forall str_ok (info_strings w) /\ Forall str_ok (slot_strings (inf_slots i)) /\
          len (inf_slots i) <= 255 /\ len (encode_info i) <= capacity) as Hrf.
  { unfold report_fits. by rewrite report_strings. }
  pose proof (put_all_run l capacity (proj2 Hc) (info_strings w) (info_header i)) as Hall.
  rewrite zlen_info_header in Hall. specialize (Hall (proj1 Hc)). cbn zeta in Hall.
  set (a := info_header i ++ (info_strings w ≫= str8)) in *.
  assert (encode_info i = a ++ [len (inf_slots i)] ++ (slot_strings (inf_slots i) ≫= str8)) as Ee.
  { unfold a, encode_info, i. by rewrite report_strings, <-app_assoc. }
  pose proof (zlen_nonneg (slot_strings (inf_slots i) ≫= str8)).
  revert Hall. destruct (bool_decide_reflect (Forall str_ok (info_strings w) /\ len a <= capacity)) as [Ha|Ha].
  2:{ intros (b & -> & Hb). cbn [mbind option_bind negb]. do 2 eexists. split; [done|].
      split; [rewrite zlen_over; lia|].
      rewrite bool_decide_false; [done|]. rewrite Hrf, Ee, !zlen_app, zlen_cons, zlen_nil.
      intros (? & _ & _ & ?). apply Ha. split; [done|]. cbn [mbind] in *. lia. }
  intros ->. cbn [mbind option_bind negb]. destruct (Z.ltb_spec capacity (len a + 1)).
  { do 2 eexists. split; [done|]. split; [rewrite zlen_over; lia|].
    rewrite bool_decide_false; [done|]. rewrite Hrf, Ee, !zlen_app, zlen_cons, zlen_nil.
    intros (? & _ & _ & ?). cbn [mbind] in *. lia. }
  destruct (over_snoc_old l a) as [o Eo]; [lia|]. rewrite Eo.
  replace (len a + 1) with (len (a ++ [o])) by sizes.
  pose proof (put_slots_run l capacity (proj2 Hc) w (esp_partition_find_app w) (a ++ [o]) 0) as Hs.
  specialize (Hs ltac:(sizes) ltac:(lia)). cbn zeta in Hs.
  change (slots_of w (esp_partition_find_app w)) with (inf_slots i) in Hs. rewrite Z.add_0_l in Hs.
  set (tail := slot_strings (inf_slots i) ≫= str8) in *.
  assert (len ((a ++ [o]) ++ tail) = len (encode_info i)) as El by (rewrite Ee; sizes).
  rewrite El in Hs. case_bool_decide as Hd.
  - rewrite Hs. cbn [mbind option_bind]. rewrite <-app_assoc. cbn [app].
    rewrite zset_over_mid by done. cbn [mbind option_bind]. do 2 eexists. split; [done|].
    split; [rewrite zlen_over; [done|]; rewrite Ee in Hd; cbn [app] in Hd; lia|].
    rewrite bool_decide_true by tauto. split; [done|]. by rewrite Ee.
  - destruct Hs as (b & -> & Hb). cbn [mbind option_bind]. do 2 eexists. split; [done|].
    split; [rewrite zlen_over; lia|]. rewrite bool_decide_false by tauto. done.
Qed.

Lemma build_payload_run bc (w : W) l capacity :
  capacity <= len l ->
  let i := device_report bc w in
  exists n b, device_info_build_payload bc w l capacity = Some (n, b) /\ len b = len l /\
    if bool_decide (report_fits bc w capacity) then n = len (encode_info i) /\ b = over (encode_info i) l
    else n = 0.
Proof.
  intros Hc i. unfold device_info_build_payload.
  destruct (parse_app_version (desc_version <$> esp_app_get_description w)) as [[ma mi] pa] eqn:Ev.
  destruct (Z.ltb_spec capacity 17).
  { do 2 eexists. split; [done|]. split; [done|].
    rewrite bool_decide_false; [done|]. unfold report_fits. intros (_ & _ & _ & Hl). fold i in Hl.
    unfold encode_info in Hl. rewrite zlen_app, zlen_info_header, zlen_app in Hl.
    pose proof (zlen_nonneg (inf_strings i ≫= str8)).
    pose proof (zlen_nonneg ([len (inf_slots i)] ++ (slot_strings (inf_slots i) ≫= str8))). lia. }
  destruct (build_tail_run bc w l capacity ltac:(lia)) as (n & b & E & Hlen & Hfit).
  exists n, b. split; [|done]. rewrite <-E. clear E.
  rewrite <-(over_nil l) at 1.
  do 4 (rewrite zset_over by sizes; cbn [mbind option_bind app]).
  do 3 (rewrite (put_u32_le_run l capacity) by sizes; cbn [mbind option_bind]; rewrite <-?app_assoc).
  rewrite zset_over by sizes. cbn [mbind option_bind]. rewrite <-!app_assoc. cbn [app].
  assert (info_header (device_report bc w) =
    PROTOCOL_VERSION :: ma :: mi :: pa :: le32 (to_u32 (esp_timer_get_time w mod 2 ^ 64 / 1000000)) ++
    le32 (to_u32 (heap_caps_get_free_size w)) ++ le32 bc ++
    [if esp_ota_check_rollback_is_possible w then 1 else 0]) as ->.
  { unfold info_header, device_report. cbn. rewrite Ev. by destruct (esp_ota_check_rollback_is_possible w). }
  reflexivity.
Qed.
End Build.

(** ** The report fits its fields *)

Lemma to_u32_range x : u32 (to_u32 x).
Proof. apply Z.mod_pos_bound. lia. Qed.

Lemma device_report_ok {W} `{EspIdf W} bc (w : W) cap :
  u32 bc -> report_fits bc w cap -> info_ok (device_report bc w).
Proof. intros Hbc (Hs & Hl & Hn & _). split; try done; apply to_u32_range. Qed.

(** ** Versions *)

Definition no_digit (l : list Z) : Prop := match l with c :: _ => is_digit c = false | [] => True end.

Lemma is_digit_decimal d : 0 <= d <= 9 -> is_digit (48 + d) = true.
Proof. intros. unfold is_digit. rewrite andb_true_iff, !Z.leb_le. lia. Qed.

Lemma version_digits_step p d l :
  0 <= d <= 9 -> 0 <= p -> p * 10 + d <= 255 ->
  version_digits p ((48 + d) :: l) = version_digits (p * 10 + d) l.
Proof.
  intros Hd Hp Hle. cbn [version_digits]. rewrite is_digit_decimal by done.
  replace (48 + d - 48) with d by lia. unfold to_u32.
  rewrite (Z.mod_small (p * 10)), Z.mod_small by lia. by destruct (Z.ltb_spec 255 (p * 10 + d)); [lia|].
Qed.

Lemma version_digits_end p l : no_digit l -> version_digits p l = Some (p, l).
Proof. destruct l as [|c l]; [done|]. cbn. by intros ->. Qed.

Lemma version_digits_decimal n l : u8 n -> no_digit l -> version_digits 0 (decimal n ++ l) = Some (n, l).
Proof.
  intros Hn Hl. unfold u8 in Hn.
  unfold decimal. destruct (Z.ltb_spec n 10); [|destruct (Z.ltb_spec n 100)]; cbn [app].
  - rewrite version_digits_step, version_digits_end by (done || lia). done.
  - pose proof (Z_div_mod_eq_full n 10). pose proof (Z.mod_pos_bound n 10 ltac:(lia)).
    do 2 (rewrite version_digits_step by lia). rewrite version_digits_end by done. do 2 f_equal. lia.
  - pose proof (Z_div_mod_eq_full n 10). pose proof (Z.mod_pos_bound n 10 ltac:(lia)).
    assert (n / 100 = n / 10 / 10) as E by (by rewrite Z.div_div by lia).
    pose proof (Z_div_mod_eq_full (n / 10) 10). pose proof (Z.mod_pos_bound (n / 10) 10 ltac:(lia)).
    rewrite E. do 3 (rewrite version_digits_step by lia). rewrite version_digits_end by done.
    do 2 f_equal. lia.
Qed.

Lemma parse_decimal n l :
  u8 n -> no_digit l -> parse_version_component (decimal n ++ l) = Some (n, l).
Proof.
  intros Hn Hl. pose proof (version_digits_decimal n l Hn Hl) as E.
  unfold parse_version_component. destruct (decimal n ++ l) as [|c r] eqn:Ec.
  { unfold decimal in Ec. by destruct (n <? 10), (n <? 100). }
  assert (is_digit c = true) as ->; [|rewrite E; cbn [mbind option_bind]; by rewrite to_u8_id].
  unfold u8 in Hn. unfold decimal in Ec.
  destruct (Z.ltb_spec n 10); [|destruct (Z.ltb_spec n 100)]; cbn [app] in Ec; injection Ec as <- _;
    apply is_digit_decimal.
  - lia.
  - split; [apply Z.div_pos; lia|]. assert (n / 10 < 10) by (apply Z.div_lt_upper_bound; lia). lia.
  - split; [apply Z.div_pos; lia|]. assert (n / 100 < 10) by (apply Z.div_lt_upper_bound; lia). lia.
Qed.

(** The number a list of digits denotes, after [p]. *)
Definition digits_from (p : Z) (ds : list Z) : Z := foldl (fun v c => 10 * v + (c - 48)) p ds.
Definition digits (ds : list Z) : Prop := Forall (fun c => is_digit c = true) ds.

Lemma digits_from_le ds : forall p, 0 <= p -> digits ds -> p <= digits_from p ds.
Proof.
  induction ds as [|c ds IH]; intros p Hp Hd; [done|]. inversion_clear Hd as [|?? Hc Hd'].
  unfold is_digit in Hc. rewrite andb_true_iff, !Z.leb_le in Hc.
  cbn [digits_from foldl]. etrans; [|apply IH; [lia|done]]. lia.
Qed.

Lemma version_digits_run ds l : forall p,
  0 <= p <= 255 -> digits ds -> no_digit l ->
  version_digits p (ds ++ l) = if digits_from p ds <=? 255 then Some (digits_from p ds, l) else None.
Proof.
  induction ds as [|c ds IH]; intros p Hp Hd Hl.
  { cbn [app digits_from foldl]. rewrite (proj2 (Z.leb_le _ _)) by lia.
    destruct l as [|c l]; [done|]. cbn [version_digits]. by rewrite Hl. }
  inversion_clear Hd as [|?? Hc Hd']. cbn [app version_digits]. rewrite Hc.
  unfold is_digit in Hc. rewrite andb_true_iff, !Z.leb_le in Hc. unfold to_u32.
  rewrite (Z.mod_small (p * 10)), Z.mod_small by lia.
  cbn [digits_from foldl]. replace (p * 10 + (c - 48)) with (10 * p + (c - 48)) by lia.
  destruct (Z.ltb_spec 255 (10 * p + (c - 48))).
  - pose proof (digits_from_le ds (10 * p + (c - 48)) ltac:(lia) Hd').
    by rewrite (proj2 (Z.leb_gt _ _)) by (unfold digits_from in *; lia).
  - apply IH; [lia|done..].
Qed.

Lemma parse_digits ds l :
  ds <> [] -> digits ds -> no_digit l ->
  parse_version_component (ds ++ l) =
  if digits_from 0 ds <=? 255 then Some (digits_from 0 ds, l) else None.
Proof.
  intros Hne Hd Hl. pose proof (version_digits_run ds l 0 ltac:(lia) Hd Hl) as E.
  unfold parse_version_component. destruct ds as [|c ds]; [done|]. pose proof Hd as Hd'.
  inversion_clear Hd' as [|?? Hc _]. cbn [app] in *. rewrite Hc, E.
  destruct (Z.leb_spec (digits_from 0 (c :: ds)) 255); [|done]. cbn [mbind option_bind].
  pose proof (digits_from_le (c :: ds) 0 ltac:(lia) Hd). by rewrite to_u8_id by (unfold u8; lia).
Qed.

(** The leading letter of a version string. *)
Lemma parse_prefix prefix ds rest :
  prefix ∈ [[]; [118]; [86]] -> ds <> [] -> digits ds ->
  parse_app_version (Some (prefix ++ ds ++ rest)) =
  default (0, 0, 0)
    ('(major, cursor) ← parse_version_component (ds ++ rest);
     cursor ← skip_dot cursor;
     '(minor, cursor) ← parse_version_component cursor;
     cursor ← skip_dot cursor;
     '(patch, _) ← parse_version_component cursor;
     Some (major, minor, patch)).
Proof.
  intros Hpre Hne Hd. unfold parse_app_version. destruct ds as [|c ds]; [done|].
  inversion_clear Hd as [|?? Hc _]. unfold is_digit in Hc. rewrite andb_true_iff, !Z.leb_le in Hc.
  rewrite !elem_of_cons, elem_of_nil in Hpre. destruct Hpre as [->|[->|[->|[]]]]; [|done..].
  cbn [app]. destruct (Z.eqb_spec c 118), (Z.eqb_spec c 86); cbn [orb]; [lia..|done].
Qed.

Lemma decimal_digits n : u8 n -> decimal n <> [] /\ digits (decimal n).
Proof.
  unfold u8. intros Hn. unfold decimal, digits.
  destruct (Z.ltb_spec n 10); [|destruct (Z.ltb_spec n 100)]; (split; [done|]);
    repeat constructor; apply is_digit_decimal; try (apply Z.mod_pos_bound; lia); try lia.
  - split; [apply Z.div_pos; lia|]. assert (n / 10 < 10) by (apply Z.div_lt_upper_bound; lia). lia.
  - pose proof (Z.mod_pos_bound n 10). lia.
  - split; [apply Z.div_pos; lia|]. assert (n / 100 < 10) by (apply Z.div_lt_upper_bound; lia). lia.
  - pose proof (Z.mod_pos_bound (n / 10) 10). lia.
  - pose proof (Z.mod_pos_bound n 10). lia.
Qed.

(** ** Boot counting on any storage *)

Section Init.
Context {W : Type} `{EspIdf W}.

Definition nvs_event (e : event) : Prop :=
  match e with EvNvsSet _ _ | EvNvsCommit _ => True | _ => False end.

(** Whatever the storage answers, [device_info_init] returns, stores at most
    the boot count, and keeps it a [uint32_t]. *)
Lemma device_info_init_wp (s : info_state W) Q H' :
  u32 (s_boot_count s) ->
  (forall s' new, u32 (s_boot_count s') -> trace (i_io s') = new ++ trace (i_io s) ->
     Forall nvs_event new -> Q tt s') ->
  wp device_info_init Q H' s.
Proof.
  intros Hs HQ. unfold device_info_init, set_boot_count. repeat (autorewrite with wp).
  destruct (_ || _); autorewrite with wp; [by apply (HQ _ [])|].
  destruct (negb _); autorewrite with wp; [by apply (HQ _ [])|].
  destruct (nvs_open _) as [[err nvs] w]. cbn [fst snd].
  destruct (negb _); repeat (autorewrite with wp); [by apply (HQ _ [])|].
  set (r := nvs_get_u32 nvs _).
  assert (u32 (to_u32 (default 0 r.2 + 1))) as Hc by apply to_u32_range.
  destruct (bool_decide _); repeat (autorewrite with wp).
  - eapply (HQ _ (_ :: _ :: [])); [exact Hc|reflexivity|by repeat constructor].
  - eapply (HQ _ (_ :: [])); [exact Hc|reflexivity|by repeat constructor].
Qed.
End Init.

(** ** Boot counting on working non-volatile storage *)

Class NvsWorks (W : Type) `{EspIdf W} : Type := {
  nvs_stored : W -> option Z;
  nvs_init_works w : exists w', nvs_flash_init w = (ESP_OK, w') /\ nvs_stored w' = nvs_stored w;
  nvs_open_works w : exists h w', nvs_open w = ((ESP_OK, h), w') /\ nvs_stored w' = nvs_stored w;
  nvs_get_works h w : (nvs_get_u32 h w).2 = nvs_stored w;
  nvs_set_works h v w : exists w', nvs_set_u32 h v w = (ESP_OK, w') /\ nvs_stored w' = Some v;
  nvs_commit_works h w : exists w', nvs_commit h w = (ESP_OK, w') /\ nvs_stored w' = nvs_stored w;
  nvs_close_works h w : nvs_stored (nvs_close h w) = nvs_stored w
}.

#[export, program] Instance sim_nvs_works : NvsWorks sim := { nvs_stored := sim_nvs }.
Next Obligation. by eexists. Qed.
Next Obligation. by do 2 eexists. Qed.
Next Obligation. by destruct w as [? ? ? []]. Qed.
Next Obligation. by eexists. Qed.
Next Obligation. by eexists. Qed.
Next Obligation. done. Qed.

(** [n] starts of the device: the static is cleared, the storage is kept. *)
Fixpoint boots {W} `{EspIdf W} (n : nat) : M (info_state W) unit :=
  match n with
  | O => mret tt
  | S n => _ ← boots n; _ ← set_boot_count 0; device_info_init
  end.

Section Boots.
Context {W : Type} `{EspIdf W, !NvsWorks W}.

Lemma device_info_init_run (s : info_state W) :
  exists s', device_info_init s = Done tt s' /\
    s_boot_count s' = to_u32 (default 0 (nvs_stored (world (i_io s))) + 1) /\
    nvs_stored (world (i_io s')) = Some (s_boot_count s') /\
    trace (i_io s') = EvNvsCommit ESP_OK :: EvNvsSet (s_boot_count s') ESP_OK :: trace (i_io s).
Proof.
  unfold device_info_init.
  destruct (nvs_init_works (world (i_io s))) as (w1 & E1 & H1).
  erewrite bind_Done by (apply zoom_Done; rewrite silent_run; cbn [info_io view]; rewrite E1; reflexivity).
  cbn [fst snd info_io set bool_decide esp_err_t_eq_dec decide decide_rel orb negb].
  change (bool_decide (ESP_OK = ESP_ERR_NVS_NO_FREE_PAGES)) with false.
  change (bool_decide (ESP_OK = ESP_ERR_NVS_NEW_VERSION_FOUND)) with false.
  change (bool_decide (ESP_OK = ESP_OK)) with true. cbn [orb negb].
  destruct (nvs_open_works w1) as (h & w2 & E2 & H2).
  erewrite bind_Done by (apply zoom_Done; rewrite silent_run; cbn [info_io view i_io world]; rewrite E2; reflexivity).
  cbn [fst snd info_io set]. change (bool_decide (ESP_OK = ESP_OK)) with true. cbn [negb].
  erewrite bind_Done by (apply zoom_Done; reflexivity). cbn [info_io view set i_io world].
  rewrite nvs_get_works, H2, H1. set (count := to_u32 _).
  erewrite bind_Done by reflexivity. cbn [i_io].
  destruct (nvs_set_works h count w2) as (w3 & E3 & H3).
  erewrite bind_Done by (apply zoom_Done; rewrite call_run; cbn [info_io view i_io world]; rewrite E3; reflexivity).
  cbn [fst snd info_io set s_boot_count i_io]. change (bool_decide (ESP_OK = ESP_OK)) with true. cbn iota.
  destruct (nvs_commit_works h w3) as (w4 & E4 & H4).
  erewrite bind_Done.
  2:{ erewrite bind_Done by (apply zoom_Done; rewrite call_run; cbn [info_io view i_io world]; rewrite E4; reflexivity).
      reflexivity. }
  eexists. split; [apply zoom_Done; rewrite silent_run; reflexivity|].
  cbn [info_io set view i_io s_boot_count world trace fst snd].
  split; [done|]. split; [|done]. by rewrite nvs_close_works, H4, H3.
Qed.

Lemma boots_run n (s : info_state W) v :
  u32 v -> nvs_stored (world (i_io s)) = Some v ->
  exists s', boots n s = Done tt s' /\ nvs_stored (world (i_io s')) = Some (to_u32 (v + Z.of_nat n)) /\
    ((0 < n)%nat -> s_boot_count s' = to_u32 (v + Z.of_nat n)).
Proof.
  intros Hv Hs. induction n as [|n (s1 & E1 & N1 & _)].
  { exists s. split; [done|]. split; [|lia]. rewrite Hs. unfold to_u32, u32 in *.
    rewrite Z.add_0_r, Z.mod_small; [done|lia]. }
  cbn [boots]. erewrite bind_Done by exact E1. erewrite bind_Done by reflexivity. cbn [i_io].
  destruct (device_info_init_run (mk_info 0 (i_io s1))) as (s2 & E2 & C2 & N2 & _).
  exists s2. cbn [i_io] in C2. rewrite N1 in C2. change (default 0 (Some ?x)) with x in C2.
  unfold to_u32 in *. rewrite Zplus_mod_idemp_l in C2.
  replace (v + Z.of_nat n + 1) with (v + Z.of_nat (S n)) in C2 by lia.
  rewrite N2, C2. done.
Qed.
End Boots.

(** * Properties *)

(** C29 (roundtrip): what the device reports is what a host decodes. When the
    report fits the buffer, [device_info_build_payload] fills the front of the
    buffer with exactly the encoding of the device's version, uptime, free heap,
    boot count, rollback flag, seven strings and OTA slots, returns its length,
    and the decoder gives the report back. When it does not fit (a string over
    255 bytes, more than 255 slots, or too little room) it returns 0. It never
    writes outside the buffer. *)
Theorem info_payload_decodes {W} `{EspIdf W} bc (w : W) buffer capacity :
  u32 bc -> capacity <= len buffer ->
  exists n b, device_info_build_payload bc w buffer capacity = Some (n, b) /\ len b = len buffer /\
    if bool_decide (report_fits bc w capacity)
    then 0 < n <= capacity /\
      exists data, slice b 0 n = Some data /\ decode_info data = Some (device_report bc w)
    else n = 0.
Proof.
  intros Hbc Hc. destruct (build_payload_run bc w buffer capacity Hc) as (n & b & E & Hl & Hfit).
  exists n, b. split; [done|]. split; [done|]. case_bool_decide as Hf; [|done].
  destruct Hfit as [-> ->]. pose proof Hf as (_ & _ & _ & Hle). split.
  { split; [|done]. unfold encode_info. rewrite zlen_app, zlen_info_header.
    pose proof (zlen_nonneg ((inf_strings (device_report bc w) ≫= str8) ++
      [len (inf_slots (device_report bc w))] ++ (slot_strings (inf_slots (device_report bc w)) ≫= str8))).
    lia. }
  exists (encode_info (device_report bc w)).
  split; [by apply slice_prefix|]. by eapply decode_encode_info, device_report_ok.
Qed.

(** C30 (roundtrip): [parse_app_version] reads every version [major.minor.patch]
    with components up to 255, with or without a leading [v] or [V] and whatever
    follows the number, back from its decimal form. *)
Theorem version_parse_inverts_decimal major minor patch prefix suffix :
  u8 major -> u8 minor -> u8 patch -> prefix ∈ [[]; [118]; [86]] -> no_digit suffix ->
  parse_app_version (Some (prefix ++ version_string major minor patch ++ suffix)) = (major, minor, patch).
Proof.
  intros Ha Hi Hp Hpre Hs. unfold version_string. rewrite <-!app_assoc.
  destruct (decimal_digits major Ha) as [Hne Hd]. rewrite parse_prefix by done.
  cbn [app]. rewrite parse_decimal by done. cbn [mbind option_bind skip_dot]. rewrite Z.eqb_refl. cbn [mbind option_bind].
  rewrite parse_decimal by done. cbn [mbind option_bind skip_dot]. rewrite Z.eqb_refl. cbn [mbind option_bind].
  rewrite parse_decimal by done. done.
Qed.

(** C34 (bounds): a version component that overflows is rejected, not wrapped.
    For three runs of decimal digits, of any length, separated by dots, with or
    without a leading [v] or [V] and whatever follows them,
    [parse_app_version] reports the numbers they denote if all three are at
    most 255, and 0.0.0 otherwise. *)
Theorem version_overflow_is_rejected ds1 ds2 ds3 prefix suffix :
  Forall (fun ds => ds <> [] /\ digits ds) [ds1; ds2; ds3] -> prefix ∈ [[]; [118]; [86]] -> no_digit suffix ->
  let n1 := digits_from 0 ds1 in let n2 := digits_from 0 ds2 in let n3 := digits_from 0 ds3 in
  parse_app_version (Some (prefix ++ ds1 ++ [46] ++ ds2 ++ [46] ++ ds3 ++ suffix)) =
  if (n1 <=? 255) && (n2 <=? 255) && (n3 <=? 255) then (n1, n2, n3) else (0, 0, 0).
Proof.
  intros Hds Hpre Hs n1 n2 n3. rewrite !Forall_cons in Hds.
  destruct Hds as ([Hn1 Hd1] & [Hn2 Hd2] & [Hn3 Hd3] & _). rewrite parse_prefix by done.
  rewrite parse_digits by done. fold n1. destruct (n1 <=? 255); [|done].
  cbn [mbind option_bind skip_dot app]. rewrite Z.eqb_refl. cbn [mbind option_bind].
  rewrite parse_digits by done. fold n2. destruct (n2 <=? 255); [|done].
  cbn [mbind option_bind skip_dot app andb]. rewrite Z.eqb_refl. cbn [mbind option_bind].
  rewrite parse_digits by done. fold n3. by destruct (n3 <=? 255).
Qed.

(** C31 (functional): the boot count counts starts. On working non-volatile
    storage, after [n] starts the device reports the stored count plus [n], as a
    32-bit number, and that number is what is stored. *)
Theorem boot_count_counts_starts {W} `{EspIdf W, !NvsWorks W} (s : info_state W) n v :
  u32 v -> nvs_stored (world (i_io s)) = Some v -> (0 < n)%nat ->
  exists s', boots n s = Done tt s' /\ s_boot_count s' = to_u32 (v + Z.of_nat n) /\
    nvs_stored (world (i_io s')) = Some (s_boot_count s').
Proof.
  intros Hv Hs Hn. destruct (boots_run n s v Hv Hs) as (s' & E & N & C).
  exists s'. rewrite (C Hn). done.
Qed.

(** ** Concrete instances *)

Lemma info_payload_decodes_witness :
  exists n b, device_info_build_payload 7 sim_init (zeros 256) 256 = Some (n, b) /\ len b = 256 /\
    0 < n <= 256 /\
    exists data, slice b 0 n = Some data /\ decode_info data = Some (device_report 7 sim_init).
Proof.
  assert (bool_decide (report_fits 7 sim_init 256) = true) as Hf by (vm_compute; reflexivity).
  destruct (info_payload_decodes 7 sim_init (zeros 256) 256) as (n & b & E & Hl & P);
    [unfold u32; lia|discriminate|].
  rewrite Hf in P. exists n, b. split; [exact E|]. split; [exact Hl|exact P].
Defined.

Lemma version_parse_inverts_decimal_witness :
  parse_app_version (Some ([118] ++ version_string 1 20 255 ++ [45; 114; 99])) = (1, 20, 255).
Proof.
  apply (version_parse_inverts_decimal 1 20 255 [118] [45; 114; 99]); try (unfold u8; lia).
  - apply elem_of_cons. right. apply elem_of_cons. left. reflexivity.
  - reflexivity.
Defined.

Lemma version_overflow_is_rejected_witness :
  parse_app_version (Some ([] ++ [48; 49] ++ [46] ++ [50; 53; 54] ++ [46] ++ [51] ++ [])) = (0, 0, 0).
Proof.
  apply (version_overflow_is_rejected [48; 49] [50; 53; 54] [51] [] []); [|apply elem_of_cons; left; reflexivity|exact I].
  repeat constructor; discriminate.
Defined.

Lemma boot_count_counts_starts_witness :
  exists s', boots 3 (mk_info 0 (sim_io sim_init)) = Done tt s' /\ s_boot_count s' = 9 /\
    nvs_stored (world (i_io s')) = Some (s_boot_count s').
Proof.
  apply (boot_count_counts_starts (mk_info 0 (sim_io sim_init)) 3 6); [unfold u32; lia|reflexivity|lia].
Defined.
