(* ===== verification/Lifecycle.v ===== *)
(** ota_link.c, lines 56-67 and 207-230: the validation state of the running
    application, its confirmation, and the rollback. *)
From S2P Require Import Prelude Machine EspIdf SimEnv.

(** * Operations *)

Section Code.
Context {W : Type} `{EspIdf W}.

(** The error and the state, which starts as UNDEFINED, after
    [esp_ota_get_state_partition(esp_ota_get_running_partition(), &state)]. *)
Definition running_state (w : W) : esp_err_t * esp_ota_img_states_t :=
  let '(err, state) := esp_ota_get_state_partition (esp_ota_get_running_partition w) w in
  (err, default ESP_OTA_IMG_UNDEFINED state).

Definition needs_validation (state : esp_ota_img_states_t) : bool :=
  bool_decide (state = ESP_OTA_IMG_NEW) || bool_decide (state = ESP_OTA_IMG_PENDING_VERIFY).

Definition running_app_needs_validation : M (io W) bool :=
  r ← query running_state;
  let '(err, state) := r in
  if negb (bool_decide (err = ESP_OK)) then mret false else mret (needs_validation state).

Definition ota_link_mark_app_valid : M (io W) esp_err_t :=
  r ← query running_state;
  let '(err, state) := r in
  if negb (bool_decide (err = ESP_OK)) then mret err else
  if negb (needs_validation state) then mret ESP_ERR_INVALID_STATE else
  call esp_ota_mark_app_valid_cancel_rollback EvMarkValid.

(** When the rollback is granted the call does not return. *)
Definition ota_link_mark_app_invalid_and_reboot : M (io W) esp_err_t :=
  r ← call esp_ota_mark_app_invalid_rollback_and_reboot EvMarkInvalidReboot;
  match r with
  | Some err => mret err
  | None => halt
  end.
End Code.

(** * Lemmas *)

Section Runs.
Context {W : Type} `{EspIdf W}.

(** The running image can still be rolled back. *)
Definition unconfirmed (w : W) : bool :=
  bool_decide ((running_state w).1 = ESP_OK) && needs_validation (running_state w).2.

Lemma needs_validation_run (s : io W) :
  running_app_needs_validation s = Done (unconfirmed (world s)) s.
Proof.
  unfold running_app_needs_validation, unconfirmed, query, mbind, M_bind.
  destruct (running_state (world s)) as [err state]. cbn [fst snd].
  by destruct (bool_decide (err = ESP_OK)).
Qed.

Lemma needs_validation_wp Q H' (s : io W) :
  wp running_app_needs_validation Q H' s <-> Q (unconfirmed (world s)) s.
Proof. unfold wp. by rewrite needs_validation_run. Qed.

Lemma mark_valid_wp Q H' (s : io W) :
  (unconfirmed (world s) = false -> forall err, err <> ESP_OK -> Q err s) ->
  (unconfirmed (world s) = true ->
   let r := esp_ota_mark_app_valid_cancel_rollback (world s) in
   Q r.1 (mk_io r.2 (EvMarkValid r.1 :: trace s))) ->
  wp ota_link_mark_app_valid Q H' s.
Proof.
  intros Hno Hyes. unfold ota_link_mark_app_valid, unconfirmed in *. autorewrite with wp.
  destruct (running_state (world s)) as [err state]. cbn [fst snd] in *.
  destruct (bool_decide (err = ESP_OK)) eqn:Ee; cbn [negb andb] in *; autorewrite with wp.
  2:{ apply Hno; [done|]. by apply bool_decide_eq_false in Ee. }
  destruct (needs_validation state); cbn [negb]; autorewrite with wp; [by apply Hyes|by apply Hno].
Qed.
End Runs.

(** * Properties *)

(** C28 (functional): only an unconfirmed image is confirmed. When the state of
    the running image is NEW or PENDING_VERIFY, [ota_link_mark_app_valid] asks
    the boot loader once and returns its answer; otherwise nothing is touched
    and the answer is the error of the query or ESP_ERR_INVALID_STATE. The
    automatic confirmation is planned in exactly the first case. *)
Theorem only_unconfirmed_images_are_confirmed {W} `{EspIdf W} (s : io W) :
  let '(err, state) := running_state (world s) in
  let pending := err = ESP_OK /\ (state = ESP_OTA_IMG_NEW \/ state = ESP_OTA_IMG_PENDING_VERIFY) in
  let r := esp_ota_mark_app_valid_cancel_rollback (world s) in
  (pending /\ running_app_needs_validation s = Done true s /\
   ota_link_mark_app_valid s = Done r.1 (mk_io r.2 (EvMarkValid r.1 :: trace s))) \/
  (~ pending /\ running_app_needs_validation s = Done false s /\
   ota_link_mark_app_valid s =
     Done (if bool_decide (err = ESP_OK) then ESP_ERR_INVALID_STATE else err) s).
Proof.
  pose proof (needs_validation_run s) as E. unfold unconfirmed in E.
  unfold ota_link_mark_app_valid, query, mbind, M_bind.
  destruct (running_state (world s)) as [err state] eqn:Er. cbn [fst snd] in E.
  assert (needs_validation state = true <-> state = ESP_OTA_IMG_NEW \/ state = ESP_OTA_IMG_PENDING_VERIFY) as Hn.
  { unfold needs_validation. by rewrite orb_true_iff, !bool_decide_eq_true. }
  destruct (decide (err = ESP_OK)) as [->|Hne].
  - rewrite bool_decide_true in E |- * by done. cbn [negb andb] in *.
    destruct (needs_validation state); cbn [negb]; [left|right].
    + split; [by split; [|apply Hn]|]. split; [done|apply call_run].
    + split; [by intros [_ ?%Hn]|]. by split.
  - rewrite bool_decide_false in E |- * by done. right. split; [by intros [? _]|]. by split.
Qed.
