(* ===== verification/Commands.v ===== *)
(** commands.h and commands.c: the state of the whole device, the dispatch of a
    received packet to its handler, and what packets can and cannot cause. *)
From stdpp Require Import sets.
From S2P Require Import Prelude Machine EspIdf SimEnv Protocol Hmac Auth OtaManager DeviceInfo Lifecycle.

(** * Data *)

(** The statics of auth.c, protocol.c, ota_manager.c, device_info.c and
    commands.c ([s_info_payload]), and the outside. *)
Record device (W : Type) : Type := mk_device {
  d_auth : auth_state_t;
  d_proto : proto_state W;
  d_ota : ota_statics;
  d_boot_count : Z;
  d_info_payload : list Z;
  d_io : io W
}.
Arguments mk_device {W}. Arguments d_auth {W}. Arguments d_proto {W}. Arguments d_ota {W}.
Arguments d_boot_count {W}. Arguments d_info_payload {W}. Arguments d_io {W}.

Definition device_authed {W} : lens (device W) (authed W) :=
  mk_lens (fun d => mk_authed (d_auth d) (mk_link (d_proto d) (d_io d)))
    (fun t d => mk_device (a_auth t) (l_proto (a_link t)) (d_ota d) (d_boot_count d)
                  (d_info_payload d) (l_io (a_link t))).
Definition device_link {W} : lens (device W) (link W) :=
  mk_lens (fun d => mk_link (d_proto d) (d_io d))
    (fun t d => mk_device (d_auth d) (l_proto t) (d_ota d) (d_boot_count d) (d_info_payload d) (l_io t)).
Definition device_updater {W} : lens (device W) (updater W) :=
  mk_lens (fun d => mk_updater (d_ota d) (d_io d))
    (fun t d => mk_device (d_auth d) (d_proto d) (u_ota t) (d_boot_count d) (d_info_payload d) (u_io t)).
Definition device_io {W} : lens (device W) (io W) :=
  mk_lens d_io
    (fun t d => mk_device (d_auth d) (d_proto d) (d_ota d) (d_boot_count d) (d_info_payload d) t).
Definition set_info_payload {W} (b : list Z) : M (device W) unit :=
  modify (fun d => mk_device (d_auth d) (d_proto d) (d_ota d) (d_boot_count d) b (d_io d)).

(** * Operations *)

Section Code.
Context {W : Type} `{EspIdf W, Sha256}.

Definition handle_authenticated_replay (packet : protocol_packet_t) : M (device W) bool :=
  r ← zoom device_authed (auth_check_replay packet);
  let '(error, replayed) := r in
  if negb (bool_decide (error = ERR_OK)) then
    _ ← zoom device_authed (auth_send_nack packet error);
    mret true
  else mret replayed.

(** Lines 65-69 and the like: the replay check, then the tag check. [None]: the
    packet was answered. *)
Definition unwrap (packet : protocol_packet_t) : M (device W) (option (protocol_error_t * list Z * Z)) :=
  replayed ← handle_authenticated_replay packet;
  if replayed : bool then mret None else
  a ← gets d_auth;
  r ← ub (auth_unwrap_packet a packet);
  mret (Some r).

Definition send_nack (packet : protocol_packet_t) (error : protocol_error_t) : M (device W) unit :=
  zoom device_authed (auth_send_nack packet error).

(** [if (error == ERR_OK) ack; else nack] *)
Definition send_result (packet : protocol_packet_t) (error : protocol_error_t) : M (device W) unit :=
  if bool_decide (error = ERR_OK) then zoom device_authed (auth_send_ack packet)
  else zoom device_authed (auth_send_nack packet error).

(** Lines 41-43. *)
Definition handle_ping (packet : protocol_packet_t) : M (device W) unit :=
  zoom device_link (protocol_send_ack (pkt_sequence packet)).

Definition handle_get_info (packet : protocol_packet_t) : M (device W) unit :=
  d ← get;
  r ← ub (device_info_build_payload (d_boot_count d) (world (d_io d)) (d_info_payload d)
            PROTOCOL_MAX_PAYLOAD);
  let '(length, buffer) := r in
  _ ← set_info_payload buffer;
  if length =? 0 then
    zoom device_link (protocol_send_nack (pkt_sequence packet) ERR_INVALID_LENGTH)
  else
    zoom device_link
      (protocol_send_packet (command_byte CMD_INFO) (pkt_sequence packet) (Some buffer) (to_u16 length)).

Definition handle_auth (packet : protocol_packet_t) : M (device W) unit :=
  error ← zoom device_authed (auth_handle_packet packet);
  if negb (bool_decide (error = ERR_OK)) then
    zoom device_link (protocol_send_nack (pkt_sequence packet) error)
  else mret tt.

Definition handle_reboot (packet : protocol_packet_t) : M (device W) unit :=
  r ← unwrap packet;
  match r with
  | None => mret tt
  | Some (error, _, length) =>
      if negb (bool_decide (error = ERR_OK)) || negb (length =? 0) then
        send_nack packet (if negb (bool_decide (error = ERR_OK)) then error else ERR_INVALID_LENGTH)
      else
      u ← gets d_ota;
      if ota_manager_is_active u then send_nack packet ERR_BUSY else
      _ ← zoom device_authed (auth_send_ack packet);
      _ ← zoom device_io (delay_ms 100);
      zoom device_io esp_restart
  end.

Definition handle_rollback (packet : protocol_packet_t) : M (device W) unit :=
  r ← unwrap packet;
  match r with
  | None => mret tt
  | Some (error, _, length) =>
      if negb (bool_decide (error = ERR_OK)) || negb (length =? 0) then
        send_nack packet (if negb (bool_decide (error = ERR_OK)) then error else ERR_INVALID_LENGTH)
      else
      u ← gets d_ota;
      if ota_manager_is_active u then send_nack packet ERR_BUSY else
      possible ← zoom device_io (query esp_ota_check_rollback_is_possible);
      if negb possible then send_nack packet ERR_ROLLBACK_NOT_AVAILABLE else
      _ ← zoom device_authed (auth_send_ack packet);
      _ ← zoom device_io (delay_ms 100);
      _ ← zoom device_io ota_link_mark_app_invalid_and_reboot;
      mret tt
  end.

Definition handle_ota_begin (packet : protocol_packet_t) : M (device W) unit :=
  r ← unwrap packet;
  match r with
  | None => mret tt
  | Some (error, payload, length) =>
      error ← (if bool_decide (error = ERR_OK)
               then zoom device_updater (ota_manager_begin payload length) else mret error);
      send_result packet error
  end.

Definition handle_ota_data (packet : protocol_packet_t) : M (device W) unit :=
  r ← unwrap packet;
  match r with
  | None => mret tt
  | Some (error, payload, length) =>
      error ← (if bool_decide (error = ERR_OK)
               then zoom device_updater (ota_manager_write_data payload length) else mret error);
      send_result packet error
  end.

(** Lines 131-151 and 171-191: OTA_ABORT and OTA_END take no payload. *)
Definition handle_ota_abort (packet : protocol_packet_t) : M (device W) unit :=
  r ← unwrap packet;
  match r with
  | None => mret tt
  | Some (error, _, length) =>
      let error := if bool_decide (error = ERR_OK) && negb (length =? 0) then ERR_INVALID_LENGTH else error in
      error ← (if bool_decide (error = ERR_OK)
               then zoom device_updater ota_manager_abort else mret error);
      send_result packet error
  end.

Definition handle_ota_end (packet : protocol_packet_t) : M (device W) unit :=
  r ← unwrap packet;
  match r with
  | None => mret tt
  | Some (error, _, length) =>
      let error := if bool_decide (error = ERR_OK) && negb (length =? 0) then ERR_INVALID_LENGTH else error in
      error ← (if bool_decide (error = ERR_OK)
               then zoom device_updater ota_manager_end else mret error);
      send_result packet error
  end.

Definition commands_handle_packet (packet : protocol_packet_t) : M (device W) unit :=
  if negb (pkt_version packet =? PROTOCOL_VERSION) then
    zoom device_link (protocol_send_nack (pkt_sequence packet) ERR_INVALID_PACKET)
  else
  let command := pkt_command packet in
  if command =? command_byte CMD_PING then handle_ping packet
  else if command =? command_byte CMD_GET_INFO then handle_get_info packet
  else if command =? command_byte CMD_AUTH then handle_auth packet
  else if command =? command_byte CMD_REBOOT then handle_reboot packet
  else if command =? command_byte CMD_ROLLBACK then handle_rollback packet
  else if command =? command_byte CMD_OTA_BEGIN then handle_ota_begin packet
  else if command =? command_byte CMD_OTA_ABORT then handle_ota_abort packet
  else if command =? command_byte CMD_OTA_DATA then handle_ota_data packet
  else if command =? command_byte CMD_OTA_END then handle_ota_end packet
  else zoom device_link (protocol_send_nack (pkt_sequence packet) ERR_UNKNOWN_COMMAND).
End Code.

(** * Specifications *)

(** A packet as the parser delivers it, with the bytes it carries. *)
Definition received (p : protocol_packet_t) : Prop := packet_in p /\ bytes (pkt_data p).

#[export] Instance device_authed_laws {W} : LensLaws (@device_authed W).
Proof. split; [by intros [? [? ?]] []|by intros []|done]. Qed.
#[export] Instance device_updater_laws {W} : LensLaws (@device_updater W).
Proof. split; [by intros [] []|by intros []|done]. Qed.
#[export] Instance device_link_laws {W} : LensLaws (@device_link W).
Proof. split; [by intros [] []|by intros []|done]. Qed.
#[export] Instance device_io_laws {W} : LensLaws (@device_io W).
Proof. split; [by intros t []|by intros []|done]. Qed.

Section Spec.
Context {W : Type} `{EspIdf W, Sha256}.

(** The invariant of the device; [x] is the update session it holds. *)
Record device_ok (d : device W) (x : option session) : Prop := {
  device_authed_ok : authed_ok (view device_authed d);
  device_ota_rel : ota_rel (d_ota d) x;
  device_boot_count : u32 (d_boot_count d);
  device_info_buffer : len (d_info_payload d) = PROTOCOL_MAX_PAYLOAD
}.

Definition trace_of (d : device W) : list event := trace (d_io d).

(** The payload a protected command is executed with, when it is: without
    authentication the packet's bytes; with it, in an authenticated session,
    the bytes before a valid tag, unless command and sequence number are in
    the replay cache. *)
Definition admitted (a : auth_state_t) (p : protocol_packet_t) : option (list Z) :=
  if required a then
    match cached a p with
    | None =>
        if authenticated a && tag_valid (session_key a) p
        then Some (take (Z.to_nat (pkt_length p - AUTH_TAG_SIZE)) (pkt_data p)) else None
    | Some _ => None
    end
  else Some (pkt_data p).

(** The update request a packet makes with payload [data]. *)
Definition update_request (p : protocol_packet_t) (data : list Z) : option ota_request :=
  let command := pkt_command p in
  if command =? command_byte CMD_OTA_BEGIN then Some (ReqBegin data)
  else if command =? command_byte CMD_OTA_DATA then Some (ReqData data)
  else if command =? command_byte CMD_OTA_END then if bool_decide (data = []) then Some ReqEnd else None
  else if command =? command_byte CMD_OTA_ABORT then if bool_decide (data = []) then Some ReqAbort else None
  else None.

(** Only packets were sent and random bytes drawn: [n] transmissions. *)
Record quiet (n : nat) (d d' : device W) : Prop := {
  quiet_authed : authed_ok (view device_authed d');
  quiet_ota : d_ota d' = d_ota d;
  quiet_boot : d_boot_count d' = d_boot_count d;
  quiet_info : len (d_info_payload d') = len (d_info_payload d);
  quiet_trace : adds harmless n (trace_of d) (trace_of d')
}.

(** Everything a packet can do when [commands_handle_packet] returns. *)
Inductive packet_effect (p : protocol_packet_t) (d : device W) (x : option session)
    (d' : device W) : option session -> Prop :=
| effect_none :
    quiet 1 d d' -> same_session (d_auth d) (d_auth d') -> packet_effect p d x d' x
| effect_handshake :
    quiet 1 d d' -> pkt_command p = command_byte CMD_AUTH ->
    handshake_effect p (view device_authed d) (view device_authed d') ERR_OK ->
    packet_effect p d x d' x
| effect_update data req next r evs x' t :
    admitted (d_auth d) p = Some data -> update_request p data = Some req ->
    ota_step next x req r evs x' ->
    device_ok d' x' -> same_session (d_auth d) (d_auth d') ->
    trace_of d' = t ++ evs ++ trace_of d -> Forall harmless t -> tx_count t = 1%nat ->
    packet_effect p d x d' x'
| effect_rollback_refused err t :
    admitted (d_auth d) p = Some [] -> pkt_command p = command_byte CMD_ROLLBACK -> x = None ->
    device_ok d' x -> same_session (d_auth d) (d_auth d') ->
    trace_of d' = EvMarkInvalidReboot (Some err) :: t ++ trace_of d -> Forall harmless t ->
    tx_count t = 1%nat -> packet_effect p d x d' x.

(** Everything it can do when the chip restarts instead. *)
Definition restart_effect (p : protocol_packet_t) (d : device W) (x : option session) (d' : device W)
  : Prop :=
  x = None /\ admitted (d_auth d) p = Some [] /\
  exists e t, trace_of d' = e :: t ++ trace_of d /\ Forall harmless t /\ tx_count t = 1%nat /\
    (pkt_command p = command_byte CMD_REBOOT /\ e = EvRestart \/
     pkt_command p = command_byte CMD_ROLLBACK /\ e = EvMarkInvalidReboot None).

(** Packets handled one after the other. *)
Fixpoint serve (l : list protocol_packet_t) : M (device W) unit :=
  match l with
  | [] => mret tt
  | p :: l => _ ← commands_handle_packet p; serve l
  end.
End Spec.

(** * Lemmas *)

Section Effects.
Context {W : Type} `{EspIdf W, !EspIdfSpec W, !FlashSpec W, Sha256Spec}.
Implicit Types (d : device W) (p : protocol_packet_t) (x : option session).

Lemma quiet_trans n m d1 d2 d3 : quiet n d1 d2 -> quiet m d2 d3 -> quiet (n + m) d1 d3.
Proof.
  intros [? ? ? ? ?] [? ? ? ? ?]. split; [done|congruence..|]. by eapply adds_trans.
Qed.

Lemma quiet_ok n d d' x : device_ok d x -> quiet n d d' -> device_ok d' x.
Proof. intros [? ? ? ?] [? ? ? ? ?]. split; congruence. Qed.

(** An operation of the authentication layer, run on the device. *)
Lemma zoom_authed_quiet {A} (m : M (authed W) A) d x r s' n :
  device_ok d x -> m (view device_authed d) = Done r s' -> auth_safe n (view device_authed d) s' ->
  zoom device_authed m d = Done r (set device_authed s' d) /\ quiet n d (set device_authed s' d) /\
  d_auth (set device_authed s' d) = a_auth s'.
Proof.
  intros Hd E [Hs Ht]. split; [by apply zoom_Done|]. split; [|done].
  split; [by rewrite view_set|done..].
Qed.

Lemma send_nack_quiet p e d x :
  device_ok d x -> packet_in p ->
  exists d', send_nack p e d = Done tt d' /\ quiet 1 d d' /\ same_session (d_auth d) (d_auth d').
Proof.
  intros Hd Hp. destruct (auth_send_nack_safe p e _ (device_authed_ok _ _ Hd) Hp) as (s' & E & Hs & Hss).
  destruct (zoom_authed_quiet _ d x _ _ _ Hd E Hs) as (E' & Hq & Ea). eexists. split; [exact E'|].
  by rewrite Ea.
Qed.

Lemma send_ack_quiet p d x :
  device_ok d x -> packet_in p ->
  exists d', zoom device_authed (auth_send_ack p) d = Done tt d' /\ quiet 1 d d' /\
    same_session (d_auth d) (d_auth d').
Proof.
  intros Hd Hp. destruct (auth_send_ack_safe p _ (device_authed_ok _ _ Hd) Hp) as (s' & E & Hs & Hss).
  destruct (zoom_authed_quiet _ d x _ _ _ Hd E Hs) as (E' & Hq & Ea). eexists. split; [exact E'|].
  by rewrite Ea.
Qed.

Lemma send_result_quiet p e d x :
  device_ok d x -> packet_in p ->
  exists d', send_result p e d = Done tt d' /\ quiet 1 d d' /\ same_session (d_auth d) (d_auth d').
Proof.
  intros Hd Hp. unfold send_result. destruct (bool_decide _).
  - by eapply send_ack_quiet.
  - by eapply (send_nack_quiet p e).
Qed.

(** An unsigned packet. *)
Lemma send_link_quiet c q data junk n d x :
  device_ok d x -> len data <= PROTOCOL_MAX_PAYLOAD -> n = len data ->
  exists d', zoom device_link (protocol_send_packet c q (Some (data ++ junk)) n) d = Done tt d' /\
    quiet 1 d d' /\ d_auth d' = d_auth d.
Proof.
  intros Hd Hl ->. pose proof (device_authed_ok _ _ Hd) as [Ha Hp].
  pose proof (protocol_send_packet_run c q data junk (view device_link d) Hp Hl) as E.
  eexists. split; [by apply zoom_Done|]. split; [|done].
  split; [split; [done|]|done..|].
  - apply after_send_ok; [done|]. sizes.
  - unfold trace_of. cbn [device_link set d_io].
    destruct (after_send_trace (encode_frame (sent_frame c q data)) (view device_link d)) as [err T].
    cbn [device_link view] in *. rewrite T. by apply adds_tx.
Qed.

(** ** The guard of every protected command *)

Definition answered (n : nat) d d' : Prop := quiet n d d' /\ same_session (d_auth d) (d_auth d').

Lemma replay_pass p d :
  auth_check_replay p (view device_authed d) = Done (ERR_OK, false) (view device_authed d) ->
  handle_authenticated_replay p d = Done false d.
Proof.
  intros E. unfold handle_authenticated_replay.
  by rewrite (bind_Done _ _ _ _ _ (zoom_Done _ _ _ _ _ E)), set_view.
Qed.

Lemma replay_refuse p d x :
  device_ok d x -> packet_in p ->
  auth_check_replay p (view device_authed d) = Done (ERR_AUTH_REQUIRED, false) (view device_authed d) ->
  exists d', handle_authenticated_replay p d = Done true d' /\ answered 1 d d'.
Proof.
  intros Hd Hp E. destruct (send_nack_quiet p ERR_AUTH_REQUIRED d x Hd Hp) as (d' & En & Hq & Hs).
  exists d'. split; [|done]. unfold handle_authenticated_replay.
  rewrite (bind_Done _ _ _ _ _ (zoom_Done _ _ _ _ _ E)), set_view.
  change (bool_decide (ERR_AUTH_REQUIRED = ERR_OK)) with false. cbn [negb].
  by erewrite bind_Done by exact En.
Qed.

Lemma replay_again p d x s' :
  device_ok d x -> packet_in p ->
  auth_check_replay p (view device_authed d) = Done (ERR_OK, true) s' ->
  exists d', handle_authenticated_replay p d = Done true d' /\ answered 1 d d'.
Proof.
  intros Hd Hp E. destruct (auth_check_replay_safe p _ (device_authed_ok _ _ Hd) Hp)
    as (e & b & s & E' & Hsafe & Ea & _).
  rewrite E in E'. injection E' as <- <- <-.
  destruct (zoom_authed_quiet _ d x _ _ _ Hd E Hsafe) as (E2 & Hq & Ea').
  eexists. split; [|split; [exact Hq|]].
  - unfold handle_authenticated_replay. by rewrite (bind_Done _ _ _ _ _ E2).
  - rewrite Ea', Ea. apply same_session_refl.
Qed.

Lemma replay_run p d x :
  device_ok d x -> packet_in p -> required (d_auth d) = true ->
  auth_command_is_protected (pkt_command p) = true ->
  if authenticated (d_auth d) && bool_decide (cached (d_auth d) p = None)
  then handle_authenticated_replay p d = Done false d
  else exists d', handle_authenticated_replay p d = Done true d' /\ answered 1 d d'.
Proof.
  intros Hd Hp Hr Hc.
  pose proof (check_replay_run p _ (device_authed_ok _ _ Hd) Hp Hr Hc) as Hrun.
  cbn [device_authed view a_auth] in Hrun.
  destruct (authenticated (d_auth d)); cbn [andb]; [|by eapply replay_refuse].
  destruct (cached (d_auth d) p) as [e|].
  - rewrite bool_decide_false by done. case_bool_decide; [by eapply replay_again|by eapply replay_refuse].
  - rewrite bool_decide_true by done. by apply replay_pass.
Qed.

Lemma unwrap_answered p d d' :
  handle_authenticated_replay p d = Done true d' -> unwrap p d = Done None d'.
Proof. intros E. unfold unwrap. by rewrite (bind_Done _ _ _ _ _ E). Qed.

Lemma unwrap_passed p d r :
  handle_authenticated_replay p d = Done false d -> auth_unwrap_packet (d_auth d) p = Some r ->
  unwrap p d = Done (Some r) d.
Proof.
  intros E Er. unfold unwrap. rewrite (bind_Done _ _ _ _ _ E).
  erewrite bind_Done by reflexivity. by rewrite (bind_ub _ _ _ _ Er).
Qed.

Lemma unwrap_run p d x :
  device_ok d x -> received p -> auth_command_is_protected (pkt_command p) = true ->
  match admitted (d_auth d) p with
  | Some data => exists junk,
      unwrap p d = Done (Some (ERR_OK, data ++ junk, len data)) d /\ bytes data
  | None =>
      (exists d', unwrap p d = Done None d' /\ answered 1 d d') \/
      (exists pl n, unwrap p d = Done (Some (ERR_AUTH_REQUIRED, pl, n)) d)
  end.
Proof.
  intros Hd [Hp Hb] Hc. destruct (pkt_data_split p Hp) as (junk & Ep & El).
  unfold admitted. destruct (required (d_auth d)) eqn:Er.
  2:{ exists junk. split; [|done]. rewrite <-Ep, <-El.
      apply unwrap_passed; [|apply unwrap_unprotected; by rewrite Er].
      apply replay_pass, check_replay_unprotected. cbn [device_authed view a_auth]. by rewrite Er. }
  pose proof (replay_run p d x Hd Hp Er Hc) as Hrun.
  destruct (cached (d_auth d) p) as [e|].
  { rewrite bool_decide_false, andb_false_r in Hrun by done. destruct Hrun as (d' & E & Ha).
    left. exists d'. split; [by apply unwrap_answered|done]. }
  rewrite bool_decide_true, andb_true_r in Hrun by done.
  destruct (authenticated (d_auth d)) eqn:Eau; cbn [andb].
  2:{ destruct Hrun as (d' & E & Ha). left. exists d'. split; [by apply unwrap_answered|done]. }
  pose proof (unwrap_protected_run (d_auth d) p (proj1 (device_authed_ok _ _ Hd)) Hp Er Hc) as Hu.
  rewrite Eau in Hu. cbn [andb] in Hu.
  destruct (tag_valid (session_key (d_auth d)) p) eqn:Ev.
  2:{ right. do 2 eexists. by apply unwrap_passed. }
  destruct (split_at (pkt_data p) (pkt_length p - AUTH_TAG_SIZE)) as (data & tag & Ed & Hl).
  { unfold tag_valid in Ev. apply andb_true_iff in Ev as [Hle%Z.leb_le _]. sizes. }
  assert (take (Z.to_nat (pkt_length p - AUTH_TAG_SIZE)) (pkt_data p) = data) as ->.
  { rewrite Ed. apply take_app_length'. sizes. }
  exists (tag ++ junk). rewrite Ep, Ed, <-app_assoc, <-Hl in Hu.
  split; [by apply unwrap_passed|]. rewrite Ed in Hb. by apply Forall_app in Hb as [? _].
Qed.

(** ** The handlers *)

(** The effect and the invariant, together. *)
Definition settles p d x d' : Prop := exists x', packet_effect p d x d' x' /\ device_ok d' x'.

Lemma answered_settles p d x d' : device_ok d x -> answered 1 d d' -> settles p d x d'.
Proof. intros Hd [Hq Hs]. exists x. split; [by apply effect_none|]. by eapply quiet_ok. Qed.

Lemma answered_wp p d x d' (m : M (device W) unit) H' :
  device_ok d x -> m d = Done tt d' -> answered 1 d d' -> wp m (fun _ d' => settles p d x d') H' d.
Proof. intros Hd E Ha. eapply wp_Done; [exact E|]. by apply answered_settles. Qed.

Lemma send_nack_wp p e d x H' :
  device_ok d x -> packet_in p -> wp (send_nack p e) (fun _ d' => settles p d x d') H' d.
Proof.
  intros Hd Hp. destruct (send_nack_quiet p e d x Hd Hp) as (d' & E & Hq & Hs).
  by eapply answered_wp.
Qed.

Lemma send_link_wp p c q data junk n d x H' :
  device_ok d x -> len data <= PROTOCOL_MAX_PAYLOAD -> n = len data ->
  wp (zoom device_link (protocol_send_packet c q (Some (data ++ junk)) n))
    (fun _ d' => settles p d x d') H' d.
Proof.
  intros Hd Hl Hn. destruct (send_link_quiet c q data junk n d x Hd Hl Hn) as (d' & E & Hq & Ea).
  eapply answered_wp; [done|exact E|]. split; [done|]. rewrite Ea. apply same_session_refl.
Qed.

Lemma guard_wp p d x (k : option (protocol_error_t * list Z * Z) -> M (device W) unit) Q H' :
  device_ok d x -> received p -> auth_command_is_protected (pkt_command p) = true ->
  (forall data junk, admitted (d_auth d) p = Some data -> bytes data ->
     wp (k (Some (ERR_OK, data ++ junk, len data))) Q H' d) ->
  (forall pl n, wp (k (Some (ERR_AUTH_REQUIRED, pl, n))) Q H' d) ->
  (forall d', answered 1 d d' -> wp (k None) Q H' d') ->
  wp (unwrap p ≫= k) Q H' d.
Proof.
  intros Hd Hp Hc Hgo Hno Hans. apply wp_bind. pose proof (unwrap_run p d x Hd Hp Hc) as Hrun.
  destruct (admitted (d_auth d) p) as [data|].
  - destruct Hrun as (junk & E & Hb). eapply wp_Done; [exact E|]. by apply Hgo.
  - destruct Hrun as [(d' & E & Ha)|(pl & n & E)]; (eapply wp_Done; [exact E|]); auto.
Qed.

Lemma none_wp p d x H' :
  device_ok d x ->
  forall d', answered 1 d d' -> wp (mret tt : M (device W) unit) (fun _ d' => settles p d x d') H' d'.
Proof. intros Hd d' Ha. apply wp_ret. by apply answered_settles. Qed.

(** An admitted update request is served and its result sent. *)
Lemma update_wp p d x req data junk H' :
  device_ok d x -> packet_in p -> admitted (d_auth d) p = Some data ->
  update_request p data = Some req -> bytes (request_payload req) ->
  wp (error ← zoom device_updater (ota_call req junk); send_result p error)
    (fun _ d' => settles p d x d') H' d.
Proof.
  intros Hd Hp Had Hreq Hb. rewrite wp_bind, wp_zoom.
  eapply wp_mono; [apply (call_refines req junk (view device_updater d) x)| |done]; [apply Hd|done|].
  intros r u (evs & x' & Hst & Hrel & Ht & _). set (d1 := set device_updater u d).
  assert (device_ok d1 x') as Hd1 by (destruct Hd as [[] ? ? ?]; by split).
  destruct (send_result_quiet p r d1 x' Hd1 Hp) as (d' & E & Hq & Hs).
  eapply wp_Done; [exact E|]. exists x'.
  assert (device_ok d' x') as Hd' by (by eapply quiet_ok).
  split; [|done]. destruct (quiet_trace _ _ _ Hq) as (t & Et & Hh & Hn).
  eapply (effect_update p d x d' data req); try done. rewrite Et. unfold trace_of. f_equal. exact Ht.
Qed.

Lemma result_wp p d x H' :
  device_ok d x -> packet_in p ->
  wp (error ← (mret ERR_AUTH_REQUIRED : M (device W) protocol_error_t); send_result p error)
    (fun _ d' => settles p d x d') H' d.
Proof. intros. rewrite wp_bind, wp_ret. by apply send_nack_wp. Qed.

Lemma handle_ota_begin_wp p d x :
  device_ok d x -> received p -> pkt_command p = command_byte CMD_OTA_BEGIN ->
  wp (handle_ota_begin p) (fun _ d' => settles p d x d') (restart_effect p d x) d.
Proof.
  intros Hd Hp Hc. apply guard_wp with x; [done..|by rewrite Hc| | |by apply none_wp].
  - intros data junk Had Hb. apply (update_wp p d x (ReqBegin data) data junk); try done; [apply Hp|].
    unfold update_request. by rewrite Hc.
  - intros. apply result_wp; [done|apply Hp].
Qed.

Lemma handle_ota_data_wp p d x :
  device_ok d x -> received p -> pkt_command p = command_byte CMD_OTA_DATA ->
  wp (handle_ota_data p) (fun _ d' => settles p d x d') (restart_effect p d x) d.
Proof.
  intros Hd Hp Hc. apply guard_wp with x; [done..|by rewrite Hc| | |by apply none_wp].
  - intros data junk Had Hb. apply (update_wp p d x (ReqData data) data junk); try done; [apply Hp|].
    unfold update_request. by rewrite Hc.
  - intros. apply result_wp; [done|apply Hp].
Qed.

(** OTA_ABORT and OTA_END: an empty payload, or [ERR_INVALID_LENGTH]. *)
Lemma no_payload_wp p d x req data H' :
  device_ok d x -> received p -> admitted (d_auth d) p = Some data ->
  (data = [] -> update_request p data = Some req) -> request_payload req = [] ->
  let error := if bool_decide (ERR_OK = ERR_OK) && negb (len data =? 0) then ERR_INVALID_LENGTH else ERR_OK in
  wp (error ← (if bool_decide (error = ERR_OK)
               then zoom device_updater (ota_call req []) else mret error);
      send_result p error)
    (fun _ d' => settles p d x d') H' d.
Proof.
  intros Hd Hp Had Hreq Hpl. change (bool_decide (ERR_OK = ERR_OK)) with true. cbn [andb].
  destruct (Z.eqb_spec (len data) 0) as [Hl|Hl]; cbn [negb].
  - apply zlen_0_inv in Hl as ->. change (bool_decide (ERR_OK = ERR_OK)) with true. cbn iota.
    apply (update_wp p d x req []); try done; [apply Hp|by apply Hreq|rewrite Hpl; constructor].
  - change (bool_decide (ERR_INVALID_LENGTH = ERR_OK)) with false. cbn iota.
    rewrite wp_bind, wp_ret. apply send_nack_wp; [done|apply Hp].
Qed.

Lemma handle_ota_end_wp p d x :
  device_ok d x -> received p -> pkt_command p = command_byte CMD_OTA_END ->
  wp (handle_ota_end p) (fun _ d' => settles p d x d') (restart_effect p d x) d.
Proof.
  intros Hd Hp Hc. apply guard_wp with x; [done..|by rewrite Hc| | |by apply none_wp].
  - intros data junk Had Hb. apply (no_payload_wp p d x ReqEnd data); try done.
    intros ->. unfold update_request. by rewrite Hc.
  - intros. apply result_wp; [done|apply Hp].
Qed.

Lemma handle_ota_abort_wp p d x :
  device_ok d x -> received p -> pkt_command p = command_byte CMD_OTA_ABORT ->
  wp (handle_ota_abort p) (fun _ d' => settles p d x d') (restart_effect p d x) d.
Proof.
  intros Hd Hp Hc. apply guard_wp with x; [done..|by rewrite Hc| | |by apply none_wp].
  - intros data junk Had Hb. apply (no_payload_wp p d x ReqAbort data); try done.
    intros ->. unfold update_request. by rewrite Hc.
  - intros. apply result_wp; [done|apply Hp].
Qed.

(** The acknowledgement and the pause before a restart. *)
Lemma ack_and_delay p d x :
  device_ok d x -> packet_in p ->
  exists d1 d2, zoom device_authed (auth_send_ack p) d = Done tt d1 /\
    zoom device_io (delay_ms 100) d1 = Done tt d2 /\ answered 1 d d2.
Proof.
  intros Hd Hp. destruct (send_ack_quiet p d x Hd Hp) as (d1 & E1 & Hq & Hs).
  do 2 eexists. split; [exact E1|]. split; [apply zoom_Done, call_run|].
  split; [|exact Hs]. apply (quiet_trans 1 0 _ d1); [done|]. destruct Hq as [[Ha Hp'] ? ? ? ?].
  split; try done. exists [EvDelay 100]. split; [done|]. split; [by repeat constructor|done].
Qed.

Lemma idle_session d x : device_ok d x -> ota_manager_is_active (d_ota d) = false -> x = None.
Proof.
  intros Hd Ha. destruct x as [x|]; [|done]. destruct (device_ota_rel _ _ Hd) as [_ _ [Hx _]].
  unfold ota_manager_is_active in Ha. by rewrite (rel_active _ _ Hx) in Ha.
Qed.

(** The common part of REBOOT and ROLLBACK, up to the checks of the payload and
    of the update session. *)
Lemma restart_guard_wp p d x (k : M (device W) unit) :
  device_ok d x -> received p -> auth_command_is_protected (pkt_command p) = true ->
  (admitted (d_auth d) p = Some [] -> x = None ->
     wp k (fun _ d' => settles p d x d') (restart_effect p d x) d) ->
  wp (r ← unwrap p;
      match r with
      | None => mret tt
      | Some (error, _, length) =>
          if negb (bool_decide (error = ERR_OK)) || negb (length =? 0) then
            send_nack p (if negb (bool_decide (error = ERR_OK)) then error else ERR_INVALID_LENGTH)
          else
          u ← gets d_ota;
          if ota_manager_is_active u then send_nack p ERR_BUSY else k
      end) (fun _ d' => settles p d x d') (restart_effect p d x) d.
Proof.
  intros Hd Hp Hc Hk. apply guard_wp with x; [done..| | |by apply none_wp].
  - intros data junk Had Hb. change (bool_decide (ERR_OK = ERR_OK)) with true. cbn [negb orb].
    destruct (Z.eqb_spec (len data) 0) as [Hl|]; cbn [negb];
      [|apply send_nack_wp; [done|apply Hp]].
    apply zlen_0_inv in Hl as ->. rewrite wp_bind, wp_gets.
    destruct (ota_manager_is_active (d_ota d)) eqn:Ea; [apply send_nack_wp; [done|apply Hp]|].
    apply Hk; [done|]. by eapply idle_session.
  - intros pl n. change (bool_decide (ERR_AUTH_REQUIRED = ERR_OK)) with false. cbn [negb orb].
    apply send_nack_wp; [done|apply Hp].
Qed.

Lemma handle_reboot_wp p d x :
  device_ok d x -> received p -> pkt_command p = command_byte CMD_REBOOT ->
  wp (handle_reboot p) (fun _ d' => settles p d x d') (restart_effect p d x) d.
Proof.
  intros Hd Hp Hc. apply restart_guard_wp; [done..|by rewrite Hc|]. intros Had ->.
  destruct (ack_and_delay p d None Hd (proj1 Hp)) as (d1 & d2 & E1 & E2 & [Hq Hs]).
  rewrite wp_bind. eapply wp_Done; [exact E1|]. rewrite wp_bind. eapply wp_Done; [exact E2|].
  rewrite wp_zoom. split; [done|]. split; [done|].
  destruct (quiet_trace _ _ _ Hq) as (t & Et & Hh & Hn). exists EvRestart, t.
  split; [|split; [done|split; [done|by left]]].
  unfold trace_of in *. cbn [device_io set d_io trace view] in *. by rewrite Et.
Qed.

Lemma handle_rollback_wp p d x :
  device_ok d x -> received p -> pkt_command p = command_byte CMD_ROLLBACK ->
  wp (handle_rollback p) (fun _ d' => settles p d x d') (restart_effect p d x) d.
Proof.
  intros Hd Hp Hc. apply restart_guard_wp; [done..|by rewrite Hc|]. intros Had ->.
  rewrite wp_bind, wp_zoom, wp_query, set_view.
  destruct (esp_ota_check_rollback_is_possible _); cbn [negb]; [|by apply send_nack_wp; [|apply Hp]].
  destruct (ack_and_delay p d None Hd (proj1 Hp)) as (d1 & d2 & E1 & E2 & [Hq Hs]).
  rewrite wp_bind. eapply wp_Done; [exact E1|]. rewrite wp_bind. eapply wp_Done; [exact E2|].
  destruct (quiet_trace _ _ _ Hq) as (t & Et & Hh & Hn).
  rewrite wp_bind, wp_zoom. unfold ota_link_mark_app_invalid_and_reboot.
  rewrite wp_bind, wp_call. destruct (esp_ota_mark_app_invalid_rollback_and_reboot _) as [r w]. cbn [fst snd].
  destruct r as [err|].
  - rewrite !wp_ret. set (d3 := set device_io _ d2).
    assert (trace_of d3 = EvMarkInvalidReboot (Some err) :: t ++ trace_of d) as Et3.
    { unfold trace_of in *. cbn [d3 device_io set d_io trace view] in *. by rewrite Et. }
    assert (device_ok d3 None) as Hd3.
    { destruct (quiet_ok _ _ _ _ Hd Hq) as [[] ? ? ?]. by split. }
    exists None. split; [|done]. by eapply effect_rollback_refused.
  - rewrite wp_halt. split; [done|]. split; [done|]. exists (EvMarkInvalidReboot None), t.
    split; [|split; [done|split; [done|by right]]].
    unfold trace_of in *. cbn [device_io set d_io trace view] in *. by rewrite Et.
Qed.

Lemma settles_from p d d1 x d' :
  d_auth d1 = d_auth d -> d_ota d1 = d_ota d -> d_boot_count d1 = d_boot_count d ->
  len (d_info_payload d1) = len (d_info_payload d) -> trace_of d1 = trace_of d -> device_ok d1 x ->
  answered 1 d1 d' -> settles p d x d'.
Proof.
  intros Ea Eo Eb Ei Et Hd1 [[? ? ? ? ?] Hs]. exists x. split.
  - apply effect_none; [split; congruence|by rewrite <-Ea].
  - by eapply quiet_ok.
Qed.

Lemma handle_get_info_wp p d x H' :
  device_ok d x -> wp (handle_get_info p) (fun _ d' => settles p d x d') H' d.
Proof.
  intros Hd. unfold handle_get_info. rewrite wp_bind, wp_get, wp_bind, wp_ub.
  pose proof (device_info_buffer _ _ Hd) as Hi.
  destruct (build_payload_run (d_boot_count d) (world (d_io d)) (d_info_payload d) PROTOCOL_MAX_PAYLOAD)
    as (n & b & E & Hl & Hfit); [lia|].
  exists (n, b). split; [done|]. rewrite wp_bind. unfold set_info_payload. rewrite wp_modify.
  set (d1 := mk_device _ _ _ _ b _).
  assert (device_ok d1 x) as Hd1 by (destruct Hd; split; try done; by subst d1; cbn [d_info_payload] in *; lia).
  assert (forall d', answered 1 d1 d' -> settles p d x d') as Hset.
  { intros d'. by apply settles_from. }
  destruct (Z.eqb_spec n 0) as [->|Hn].
  { destruct (send_link_quiet (command_byte CMD_NACK) (pkt_sequence p) [error_byte ERR_INVALID_LENGTH] []
      1 d1 x Hd1) as (d' & E' & Hq & Ea); [done..|].
    eapply wp_Done; [exact E'|]. apply Hset. split; [done|]. rewrite Ea. apply same_session_refl. }
  case_bool_decide as Hf; [destruct Hfit as [-> ->]|lia]. pose proof Hf as (_ & _ & _ & Hle).
  unfold over. destruct (send_link_quiet (command_byte CMD_INFO) (pkt_sequence p)
    (encode_info (device_report (d_boot_count d) (world (d_io d))))
    (drop (length (encode_info (device_report (d_boot_count d) (world (d_io d))))) (d_info_payload d))
    (to_u16 (len (encode_info (device_report (d_boot_count d) (world (d_io d)))))) d1 x Hd1 Hle)
    as (d' & E' & Hq & Ea).
  { unfold to_u16. apply Z.mod_small. pose proof (zlen_nonneg (encode_info (device_report (d_boot_count d) (world (d_io d))))). sizes. }
  eapply wp_Done; [exact E'|]. apply Hset. split; [done|]. rewrite Ea. apply same_session_refl.
Qed.

Lemma handle_auth_wp p d x H' :
  device_ok d x -> packet_in p -> pkt_command p = command_byte CMD_AUTH ->
  wp (handle_auth p) (fun _ d' => settles p d x d') H' d.
Proof.
  intros Hd Hp Hc. unfold handle_auth. rewrite wp_bind.
  destruct (auth_handle_packet_safe p _ (device_authed_ok _ _ Hd) Hp) as (e & s' & E & Hs & He).
  destruct (zoom_authed_quiet _ d x _ _ _ Hd E Hs) as (E' & Hq & Ea).
  eapply wp_Done; [exact E'|]. case_bool_decide as Hok; cbn [negb].
  - subst e. rewrite wp_ret. exists x. split; [|by eapply quiet_ok].
    apply effect_handshake; [done|done|]. by rewrite view_set.
  - inversion He as [? Es Hne|? ? ? ? ? ? Ee|? ? ? Ee]; [|by rewrite <-Ee in Hok..]. subst s'.
    rewrite set_view. apply (send_link_wp p _ _ [error_byte e] []); done.
Qed.

(** The whole dispatch. *)
Lemma commands_wp p d x :
  device_ok d x -> received p ->
  wp (commands_handle_packet p) (fun _ d' => settles p d x d') (restart_effect p d x) d.
Proof.
  intros Hd Hp. unfold commands_handle_packet.
  assert (forall e, wp (zoom device_link (protocol_send_nack (pkt_sequence p) e))
    (fun _ d' => settles p d x d') (restart_effect p d x) d) as Hnack.
  { intros e. by apply (send_link_wp p _ _ [error_byte e] []). }
  destruct (Z.eqb_spec (pkt_version p) PROTOCOL_VERSION); cbn [negb]; [|done].
  destruct (Z.eqb_spec (pkt_command p) (command_byte CMD_PING));
    [by apply (send_link_wp p _ _ [error_byte ERR_OK] [])|].
  destruct (Z.eqb_spec (pkt_command p) (command_byte CMD_GET_INFO)); [by apply handle_get_info_wp|].
  destruct (Z.eqb_spec (pkt_command p) (command_byte CMD_AUTH)); [by apply handle_auth_wp; [|apply Hp|]|].
  destruct (Z.eqb_spec (pkt_command p) (command_byte CMD_REBOOT)); [by apply handle_reboot_wp|].
  destruct (Z.eqb_spec (pkt_command p) (command_byte CMD_ROLLBACK)); [by apply handle_rollback_wp|].
  destruct (Z.eqb_spec (pkt_command p) (command_byte CMD_OTA_BEGIN)); [by apply handle_ota_begin_wp|].
  destruct (Z.eqb_spec (pkt_command p) (command_byte CMD_OTA_ABORT)); [by apply handle_ota_abort_wp|].
  destruct (Z.eqb_spec (pkt_command p) (command_byte CMD_OTA_DATA)); [by apply handle_ota_data_wp|].
  destruct (Z.eqb_spec (pkt_command p) (command_byte CMD_OTA_END)); [by apply handle_ota_end_wp|].
  done.
Qed.

(** Handling a packet reads nothing from the link. *)
Lemma settles_rx p d x d' : settles p d x d' -> rx_bytes (trace_of d') = rx_bytes (trace_of d).
Proof.
  intros (x' & He & _).
  destruct He as [Hq _|Hq _ _|data req next r evs x' t _ _ Hst _ _ -> Ht _|err t _ _ _ _ _ -> Ht _].
  - destruct (quiet_trace _ _ _ Hq) as (new & -> & Hn & _). by apply rx_bytes_harmless.
  - destruct (quiet_trace _ _ _ Hq) as (new & -> & Hn & _). by apply rx_bytes_harmless.
  - rewrite rx_bytes_harmless by done. by eapply step_rx.
  - by apply rx_bytes_harmless.
Qed.
Lemma restart_rx p d x d' : restart_effect p d x d' -> rx_bytes (trace_of d') = rx_bytes (trace_of d).
Proof.
  intros (_ & _ & e & t & -> & Ht & _ & Hc).
  destruct Hc as [[_ ->]|[_ ->]]; by apply rx_bytes_harmless.
Qed.

(** Handling a packet transmits once. *)
Definition sent_once d d' : Prop := exists new, trace_of d' = new ++ trace_of d /\ tx_count new = 1%nat.

Lemma settles_tx p d x d' : settles p d x d' -> sent_once d d'.
Proof.
  intros (x' & He & _).
  destruct He as [Hq _|Hq _ _|data req next r evs x' t _ _ Hst _ _ Et _ Hn|err t _ _ _ _ _ Et _ Hn].
  - destruct (quiet_trace _ _ _ Hq) as (new & ? & _ & ?). by exists new.
  - destruct (quiet_trace _ _ _ Hq) as (new & ? & _ & ?). by exists new.
  - exists (t ++ evs). rewrite <-app_assoc, tx_count_app, (step_silent _ _ _ _ _ _ Hst), Hn. done.
  - exists (EvMarkInvalidReboot (Some err) :: t). done.
Qed.
Lemma restart_tx p d x d' : restart_effect p d x d' -> sent_once d d'.
Proof.
  intros (_ & _ & e & t & Et & _ & Hn & Hc). exists (e :: t). split; [done|].
  by destruct Hc as [[_ ->]|[_ ->]].
Qed.
Lemma sent_once_count d d' : sent_once d d' -> tx_count (trace_of d') = S (tx_count (trace_of d)).
Proof. intros (new & -> & Hn). by rewrite tx_count_app, Hn. Qed.
End Effects.

(** * Lemmas: a device that requires authentication *)

Section Authority.
Context {W : Type} `{EspIdf W, !EspIdfSpec W, !FlashSpec W, Sha256Spec}.
Context (key : list Z).
Implicit Types (d : device W) (p : protocol_packet_t) (x : option session)
  (l : list protocol_packet_t) (t : list event).

(** The host proved knowledge of the key for this pair of nonces, the second of
    which the device drew. *)
Definition session_open l t (client server : list Z) : Prop :=
  EvRandom server ∈ t /\
  exists q, q ∈ l /\ pkt_command q = command_byte CMD_AUTH /\
    pkt_data q = client ++ proof_tag key client server.

(** One of the packets carries command [c] with payload [data], tagged under
    the key of such a session. *)
Definition authorised l t (c : protocol_command_t) (data : list Z) : Prop :=
  exists client server p, session_open l t client server /\ p ∈ l /\
    pkt_command p = command_byte c /\
    pkt_data p = data ++ request_tag (derived AUTH_SESSION_PREFIX key client server)
                           (pkt_command p) (pkt_sequence p) data.

Definition request_command (req : ota_request) : protocol_command_t :=
  match req with
  | ReqBegin _ => CMD_OTA_BEGIN | ReqData _ => CMD_OTA_DATA
  | ReqEnd => CMD_OTA_END | ReqAbort => CMD_OTA_ABORT
  end.
Definition authentic l t (req : ota_request) : Prop :=
  authorised l t (request_command req) (request_payload req).

Definition is_restart (e : event) : Prop :=
  match e with EvRestart | EvMarkInvalidReboot _ => True | _ => False end.

(** The invariant along the packets [l] served so far. *)
Record obeys l d x : Prop := {
  obeys_ok : device_ok d x;
  obeys_required : required (d_auth d) = true;
  obeys_psk : psk (d_auth d) = key;
  obeys_run : ota_run (authentic l (trace_of d)) (trace_of d) x;
  obeys_restart e : e ∈ trace_of d -> is_restart e ->
    authorised l (trace_of d) CMD_REBOOT [] \/ authorised l (trace_of d) CMD_ROLLBACK [];
  obeys_session :
    pending (d_auth d) = true \/ authenticated (d_auth d) = true ->
    session_key (d_auth d) =
      derived AUTH_SESSION_PREFIX key (client_nonce (d_auth d)) (server_nonce (d_auth d)) /\
    EvRandom (server_nonce (d_auth d)) ∈ trace_of d;
  obeys_open :
    authenticated (d_auth d) = true ->
    session_open l (trace_of d) (client_nonce (d_auth d)) (server_nonce (d_auth d))
}.

Lemma session_open_mono l l' t t' c s :
  l ⊆ l' -> (forall e, e ∈ t -> e ∈ t') -> session_open l t c s -> session_open l' t' c s.
Proof. intros Hl Ht (He & q & Hq & ? & ?). split; [by apply Ht|]. exists q. split; [by apply Hl|done]. Qed.

Lemma authorised_mono l l' t t' c data :
  l ⊆ l' -> (forall e, e ∈ t -> e ∈ t') -> authorised l t c data -> authorised l' t' c data.
Proof.
  intros Hl Ht (cl & sv & p & Ho & Hp & ? & ?). exists cl, sv, p.
  split; [by eapply session_open_mono|]. split; [by apply Hl|done].
Qed.

(** What the guard admits was authorised. *)
Lemma admitted_authorised l d x p c data :
  obeys l d x -> received p -> pkt_command p = command_byte c -> admitted (d_auth d) p = Some data ->
  authorised (p :: l) (trace_of d) c data.
Proof.
  intros Ho [Hp _] Hc. unfold admitted. rewrite (obeys_required _ _ _ Ho).
  destruct (cached (d_auth d) p); [done|].
  destruct (authenticated (d_auth d)) eqn:Ea; cbn [andb]; [|done].
  destruct (tag_valid (session_key (d_auth d)) p) eqn:Ev; [|done]. intros [= <-].
  destruct (obeys_session _ _ _ Ho (or_intror Ea)) as [Ek _].
  exists (client_nonce (d_auth d)), (server_nonce (d_auth d)), p.
  split; [eapply session_open_mono; [|done|by apply (obeys_open _ _ _ Ho)]; set_solver|].
  split; [by left|]. split; [done|]. unfold tag_valid in Ev.
  apply andb_true_iff in Ev as [_ Ev%bool_decide_eq_true]. rewrite <-Ek, <-Ev. by rewrite take_drop.
Qed.

Lemma update_request_shape p data req :
  update_request p data = Some req ->
  pkt_command p = command_byte (request_command req) /\ data = request_payload req.
Proof.
  unfold update_request. intros E.
  destruct (Z.eqb_spec (pkt_command p) (command_byte CMD_OTA_BEGIN)); [by simplify_eq|].
  destruct (Z.eqb_spec (pkt_command p) (command_byte CMD_OTA_DATA)); [by simplify_eq|].
  destruct (Z.eqb_spec (pkt_command p) (command_byte CMD_OTA_END)); [by case_bool_decide; simplify_eq|].
  destruct (Z.eqb_spec (pkt_command p) (command_byte CMD_OTA_ABORT)); [by case_bool_decide; simplify_eq|done].
Qed.

(** One more packet and a longer trace, with the session as it was. *)
Lemma obeys_extend l d x p d' x' new :
  obeys l d x -> device_ok d' x' -> same_session (d_auth d) (d_auth d') ->
  trace_of d' = new ++ trace_of d ->
  ota_run (authentic (p :: l) (trace_of d')) (trace_of d') x' ->
  (forall e, e ∈ new -> is_restart e ->
     authorised (p :: l) (trace_of d') CMD_REBOOT [] \/ authorised (p :: l) (trace_of d') CMD_ROLLBACK []) ->
  obeys (p :: l) d' x'.
Proof.
  intros [Hok Hreq Hpsk Hrun Hres Hses Hopen] Hd' (c & n & Ea) Et Hrun' Hnew.
  assert (forall e, e ∈ trace_of d -> e ∈ trace_of d') as Hin.
  { intros e He. rewrite Et. apply elem_of_app. by right. }
  split; [done|by rewrite Ea|by rewrite Ea|done| | |].
  - intros e He Hr. rewrite Et in He. apply elem_of_app in He as [He|He]; [by eapply Hnew|].
    destruct (Hres e He Hr); [left|right]; (eapply authorised_mono; [|exact Hin|done]; set_solver).
  - rewrite Ea. intros Hp. destruct (Hses Hp) as [? ?]. split; [done|]. by apply Hin.
  - rewrite Ea. intros Hau. eapply session_open_mono; [|exact Hin|by apply Hopen]. set_solver.
Qed.

Lemma ota_run_extend l d x p new :
  obeys l d x -> Forall harmless new ->
  ota_run (authentic (p :: l) (new ++ trace_of d)) (new ++ trace_of d) x.
Proof.
  intros Ho Hn. apply ota_run_harmless; [done|]. eapply ota_run_mono; [|apply (obeys_run _ _ _ Ho)].
  intros req. apply authorised_mono; [set_solver|]. intros e He. apply elem_of_app. by right.
Qed.

Lemma harmless_not_restart new e : Forall harmless new -> e ∈ new -> ~ is_restart e.
Proof. intros Hn He. rewrite Forall_forall in Hn. specialize (Hn e He). destruct e; cbn in *; tauto. Qed.

(** ** What one packet does to the invariant *)

Lemma adds_restart_free n t t' :
  adds harmless n t t' -> exists new, t' = new ++ t /\ Forall harmless new.
Proof. intros (new & -> & ? & _). by exists new. Qed.

Lemma quiet_obeys l d x p d' n :
  obeys l d x -> quiet n d d' -> same_session (d_auth d) (d_auth d') -> obeys (p :: l) d' x.
Proof.
  intros Ho Hq Hs. destruct (adds_restart_free _ _ _ (quiet_trace _ _ _ Hq)) as (new & Et & Hn).
  eapply obeys_extend; [done|by eapply quiet_ok; [apply Ho|]|done|exact Et| |].
  - rewrite Et. by apply ota_run_extend.
  - intros e He Hr. exfalso. by eapply harmless_not_restart.
Qed.

Lemma handshake_obeys l d x p d' n :
  obeys l d x -> received p -> pkt_command p = command_byte CMD_AUTH -> quiet n d d' ->
  handshake_effect p (view device_authed d) (view device_authed d') ERR_OK -> obeys (p :: l) d' x.
Proof.
  intros Ho [Hp _] Hc Hq Hh. pose proof Ho as [Hok Hreq Hpsk Hrun Hres Hses Hopen].
  destruct (adds_restart_free _ _ _ (quiet_trace _ _ _ Hq)) as (new & Et & Hn).
  assert (forall e, e ∈ trace_of d -> e ∈ trace_of d') as Hin.
  { intros e He. rewrite Et. apply elem_of_app. by right. }
  assert (device_ok d' x) as Hd' by by eapply quiet_ok.
  assert (ota_run (authentic (p :: l) (trace_of d')) (trace_of d') x) as Hrun'.
  { rewrite Et. by apply ota_run_extend. }
  assert (forall e, e ∈ trace_of d' -> is_restart e ->
    authorised (p :: l) (trace_of d') CMD_REBOOT [] \/ authorised (p :: l) (trace_of d') CMD_ROLLBACK []) as Hres'.
  { intros e He Hr. rewrite Et in He. apply elem_of_app in He as [He|He].
    - exfalso. by eapply harmless_not_restart.
    - destruct (Hres e He Hr); [left|right]; (eapply authorised_mono; [|exact Hin|done]; set_solver). }
  inversion Hh as [|server ? ? ? Ea Hr|? Hg Ea]; [done| |]; cbn [device_authed view a_auth a_link l_io] in *.
  - split; [done|by rewrite Ea|by rewrite Ea|done|done| |].
    + rewrite Ea. intros _. split; [|exact Hr]. by rewrite <-Hpsk.
    + by rewrite Ea.
  - unfold proof_good in Hg. apply andb_true_iff in Hg as [Hpa%orb_true_iff Hpd%bool_decide_eq_true].
    destruct (Hses Hpa) as [Ek Er].
    split; [done|by rewrite Ea|by rewrite Ea|done|done| |].
    + rewrite Ea. intros _. split; [done|by apply Hin].
    + rewrite Ea. intros _. split; [by apply Hin|]. exists p. split; [by left|]. split; [done|].
      rewrite Hpd. by rewrite Hpsk.
Qed.

Lemma effect_obeys l d x p d' x' :
  obeys l d x -> received p -> packet_effect p d x d' x' -> device_ok d' x' -> obeys (p :: l) d' x'.
Proof.
  intros Ho Hp He Hd'. destruct He as [Hq Hs|Hq Hc Hh|data req next r evs x' t Had Hreq Hst _ Hs Et Ht _
    |err t Had Hc -> _ Hs Et Ht _].
  - by eapply quiet_obeys.
  - by eapply handshake_obeys.
  - destruct (update_request_shape _ _ _ Hreq) as [Hc ->].
    pose proof (admitted_authorised l d x p _ _ Ho Hp Hc Had) as Hauth.
    assert (forall e, e ∈ trace_of d -> e ∈ trace_of d') as Hin.
    { intros e He. rewrite Et. apply elem_of_app. right. apply elem_of_app. by right. }
    eapply (obeys_extend l d x p d' x' (t ++ evs)); [done|done|done|by rewrite <-app_assoc| |].
    + rewrite Et at 2. apply ota_run_harmless; [done|]. eapply run_step; [| |exact Hst].
      * eapply ota_run_mono; [|apply (obeys_run _ _ _ Ho)]. intros q. apply authorised_mono; [set_solver|done].
      * by eapply authorised_mono; [| |exact Hauth].
    + intros e He Hr. exfalso. apply elem_of_app in He as [He|He]; [by eapply harmless_not_restart|].
      apply (step_foreign _ _ _ _ _ _ _ Hst He). by destruct e.
  - pose proof (admitted_authorised l d None p CMD_ROLLBACK [] Ho Hp Hc Had) as Hauth.
    eapply (obeys_extend l d None p d' None (_ :: t)); [done|done|done|exact Et| |].
    + rewrite Et. constructor; [|done]. apply ota_run_harmless; [done|].
      eapply ota_run_mono; [|apply (obeys_run _ _ _ Ho)]. intros q. apply authorised_mono; [set_solver|].
      intros e He. right. apply elem_of_app. by right.
    + intros e He Hr. right. eapply authorised_mono; [| |exact Hauth]; [done|].
      intros e' He'. rewrite Et. right. apply elem_of_app. by right.
Qed.

(** ** A run of packets *)

(** The states a run ends in, whether it returns or the chip restarts: the
    trace satisfies the update specification, and restarts are authorised. *)
Definition accountable l d : Prop :=
  (exists x, ota_run (authentic l (trace_of d)) (trace_of d) x) /\
  (forall e, e ∈ trace_of d -> is_restart e ->
    authorised l (trace_of d) CMD_REBOOT [] \/ authorised l (trace_of d) CMD_ROLLBACK []).

(** The trace of a device that acts for the holder of the key only. A boot
    switch names the partition of a completely written image whose digest was
    read back; its size, its digest and every chunk of it are authorised. So
    is every restart. *)
Definition acts_for l t : Prop :=
  (forall t1 part err t2, t = t1 ++ EvSetBoot part err :: t2 ->
     exists size digest h t3 chunks,
       t2 = EvPartitionSha part ESP_OK digest :: EvOtaEnd h ESP_OK :: t3 /\
       EvOtaBegin part size ESP_OK h ∈ t3 /\ flash_image t3 = concat chunks /\
       len (flash_image t3) = size /\
       authorised l t CMD_OTA_BEGIN (le32 size ++ digest) /\
       Forall (fun c => exists n offset, authorised l t CMD_OTA_DATA (le32 n ++ le32 offset ++ c)) chunks) /\
  (forall e, e ∈ t -> is_restart e -> authorised l t CMD_REBOOT [] \/ authorised l t CMD_ROLLBACK []).

Lemma accountable_acts_for l d : accountable l d -> acts_for l (trace_of d).
Proof.
  intros [(x & Hrun) Hres]. split; [|exact Hres]. intros t1 p err t2 Et.
  destruct (ota_run_boot _ _ _ _ _ _ _ Hrun Et) as (y & t3 & -> & -> & [Hi Hb _ Hq Hc] & Hsz).
  exists (ses_size y), (ses_digest y), (ses_handle y), t3, (ses_chunks y). by rewrite Hi.
Qed.

(** A configured device without a session, before its first packet. *)
Lemma obeys_configured d :
  device_ok d None -> 1 <= len key <= AUTH_KEY_MAX_SIZE ->
  (exists junk, auth_configure (Some (key ++ junk)) (len key) true = Some (d_auth d)) ->
  Forall (fun e => foreign e /\ ~ is_restart e) (trace_of d) -> obeys [] d None.
Proof.
  intros Hd Hk (junk & Hcfg) Ht.
  destruct (psk_configured key junk true Hk) as (a & Ea & Hpsk & Hreq & Hpn & Hau & _).
  rewrite Hcfg in Ea. injection Ea as <-.
  split; [done..| | | |]; rewrite ?Hpn, ?Hau; [| |by intros []|done].
  - generalize (authentic [] (trace_of d)). intros P. induction Ht as [|e t [He _] _ IH]; by constructor.
  - intros e He Hr. rewrite Forall_forall in Ht. by destruct (Ht e He).
Qed.

(** An event that is neither an update effect nor a restart. *)
Lemma obeys_event l d x e w :
  obeys l d x -> foreign e -> ~ is_restart e ->
  obeys l (set device_io (mk_io w (e :: trace_of d)) d) x.
Proof.
  intros [Hok Hreq Hpsk Hrun Hres Hses Hopen] Hf Hr.
  assert (forall l' t c data, authorised l' t c data -> authorised l' (e :: t) c data) as Hmono.
  { intros l' t c data. apply authorised_mono; [done|]. by right. }
  split; try done; cbn [device_io set d_io d_auth trace_of trace].
  - by destruct Hok as [[] ? ? ?].
  - constructor; [|done]. eapply ota_run_mono; [|exact Hrun]. intros q. apply Hmono.
  - intros e' [->|He]%elem_of_cons Hr'; [done|]. destruct (Hres e' He Hr'); [left|right]; by apply Hmono.
  - intros Hp. destruct (Hses Hp) as [? ?]. split; [done|by right].
  - intros Ha. eapply session_open_mono; [done| |by apply Hopen]. by right.
Qed.

Lemma obeys_accountable l d x : obeys l d x -> accountable l d.
Proof. intros []. split; [by exists x|done]. Qed.

Lemma restart_accountable l d x p d' :
  obeys l d x -> received p -> restart_effect p d x d' -> accountable (p :: l) d'.
Proof.
  intros Ho Hp (-> & Had & e & t & Et & Ht & _ & Hc).
  assert (authorised (p :: l) (trace_of d) CMD_REBOOT [] \/ authorised (p :: l) (trace_of d) CMD_ROLLBACK [])
    as Hauth by (destruct Hc as [[Hc _]|[Hc _]]; [left|right]; by eapply admitted_authorised).
  assert (forall e, e ∈ trace_of d -> e ∈ trace_of d') as Hin.
  { intros e' He. rewrite Et. right. apply elem_of_app. by right. }
  split.
  - exists None. rewrite Et at 2. constructor; [|by destruct Hc as [[_ ->]|[_ ->]]].
    apply ota_run_harmless; [done|]. eapply ota_run_mono; [|apply (obeys_run _ _ _ Ho)].
    intros q. apply authorised_mono; [set_solver|done].
  - intros _ _ _. destruct Hauth; [left|right]; by eapply authorised_mono.
Qed.

Lemma accountable_mono l l' d : l ⊆ l' -> accountable l d -> accountable l' d.
Proof.
  intros Hl [(x & Hrun) Hres]. split.
  - exists x. eapply ota_run_mono; [|exact Hrun]. intros q. by apply authorised_mono.
  - intros e He Hr. destruct (Hres e He Hr); [left|right]; by eapply authorised_mono.
Qed.

Lemma serve_accountable l : forall l0 d x,
  obeys l0 d x -> Forall received l ->
  wp (serve l) (fun _ => accountable (l ++ l0)) (accountable (l ++ l0)) d.
Proof.
  induction l as [|p l IH]; intros l0 d x Ho Hl; [by eapply obeys_accountable|].
  inversion_clear Hl as [|?? Hp Hl']. cbn [serve]. rewrite wp_bind.
  eapply wp_mono; [apply (commands_wp p d x (obeys_ok _ _ _ Ho) Hp)| |].
  - intros _ d' (x' & He & Hd'). pose proof (effect_obeys l0 d x p d' x' Ho Hp He Hd') as Ho'.
    assert (l ++ p :: l0 ⊆ (p :: l) ++ l0) as Hsub by set_solver.
    eapply wp_mono; [by apply (IH (p :: l0) d' x')| |].
    + intros ? s'. by apply accountable_mono.
    + intros s'. by apply accountable_mono.
  - intros d' Hr. eapply accountable_mono; [|by eapply restart_accountable]. set_solver.
Qed.
End Authority.

(** * Lemmas: retried commands *)

Section Retries.
Context {W : Type} `{EspIdf W, !EspIdfSpec W, !FlashSpec W, Sha256Spec}.
Implicit Types (d : device W) (p : protocol_packet_t) (x : option session).

(** OTA_BEGIN, OTA_DATA, OTA_END or OTA_ABORT. *)
Definition is_update (p : protocol_packet_t) : Prop :=
  pkt_command p ∈ [command_byte CMD_OTA_BEGIN; command_byte CMD_OTA_DATA;
                   command_byte CMD_OTA_END; command_byte CMD_OTA_ABORT].

Lemma is_update_protected p : is_update p -> auth_command_is_protected (pkt_command p) = true.
Proof.
  unfold is_update. rewrite !elem_of_cons, elem_of_nil. by intros [->|[->|[->|[->|[]]]]].
Qed.

Lemma update_request_is_update p data req : update_request p data = Some req -> is_update p.
Proof.
  intros [Hc _]%update_request_shape. unfold is_update. rewrite Hc, !elem_of_cons.
  destruct req; cbn; tauto.
Qed.

(** The handlers of the four update commands start with the guard. *)
Lemma update_answered p d d' :
  pkt_version p = PROTOCOL_VERSION -> is_update p -> unwrap p d = Done None d' ->
  commands_handle_packet p d = Done tt d'.
Proof.
  intros Hv Hu Eu. unfold commands_handle_packet. rewrite Hv, Z.eqb_refl. cbn [negb].
  unfold is_update in Hu. rewrite !elem_of_cons, elem_of_nil in Hu.
  destruct Hu as [->|[->|[->|[->|[]]]]]; cbn -[handle_ota_begin handle_ota_data handle_ota_end handle_ota_abort];
    [unfold handle_ota_begin|unfold handle_ota_data|unfold handle_ota_end|unfold handle_ota_abort];
    by rewrite (bind_Done _ _ _ _ _ Eu).
Qed.

(** Past the guard, an update packet is one call of ota_manager.c and its answer. *)
Lemma dispatch_update p d data junk req :
  pkt_version p = PROTOCOL_VERSION -> update_request p data = Some req ->
  unwrap p d = Done (Some (ERR_OK, data ++ junk, len data)) d ->
  commands_handle_packet p d = (r ← zoom device_updater (ota_call req junk); send_result p r) d.
Proof.
  intros Hv Hreq Eu. unfold commands_handle_packet. rewrite Hv, Z.eqb_refl. cbn [negb].
  destruct (update_request_shape _ _ _ Hreq) as [Hc ->].
  rewrite Hc. destruct req as [pl|pl| |];
    cbn -[handle_ota_begin handle_ota_data handle_ota_end handle_ota_abort];
    [unfold handle_ota_begin|unfold handle_ota_data|unfold handle_ota_end|unfold handle_ota_abort];
    by rewrite (bind_Done _ _ _ _ _ Eu).
Qed.

(** An admitted update packet is executed. *)
Lemma update_executed p d x data req :
  device_ok d x -> received p -> pkt_version p = PROTOCOL_VERSION ->
  admitted (d_auth d) p = Some data -> update_request p data = Some req ->
  exists junk, commands_handle_packet p d = (r ← zoom device_updater (ota_call req junk); send_result p r) d /\
    bytes (request_payload req).
Proof.
  intros Hd Hp Hv Had Hreq. pose proof (update_request_is_update _ _ _ Hreq) as Hu.
  pose proof (unwrap_run p d x Hd Hp (is_update_protected _ Hu)) as Hrun. rewrite Had in Hrun.
  destruct Hrun as (junk & Eu & Hb). exists junk. split; [by eapply dispatch_update|].
  by destruct (update_request_shape _ _ _ Hreq) as [_ <-].
Qed.

(** A packet with a bad tag is refused. *)
Lemma update_refused p d x :
  device_ok d x -> received p -> pkt_version p = PROTOCOL_VERSION -> is_update p ->
  required (d_auth d) = true -> authenticated (d_auth d) = true -> cached (d_auth d) p = None ->
  tag_valid (session_key (d_auth d)) p = false ->
  commands_handle_packet p d = send_result p ERR_AUTH_REQUIRED d.
Proof.
  intros Hd [Hp _] Hv Hu Hr Hau Hca Hno. pose proof (is_update_protected _ Hu) as Hc.
  pose proof (replay_run p d x Hd Hp Hr Hc) as Hrep.
  rewrite Hau, bool_decide_true in Hrep by done. cbn [andb] in Hrep.
  pose proof (unwrap_protected_run (d_auth d) p (proj1 (device_authed_ok _ _ Hd)) Hp Hr Hc) as Hun.
  rewrite Hau, Hno in Hun. cbn [andb] in Hun.
  pose proof (unwrap_passed p d _ Hrep Hun) as Eu.
  unfold commands_handle_packet. rewrite Hv, Z.eqb_refl. cbn [negb].
  unfold is_update in Hu. rewrite !elem_of_cons, elem_of_nil in Hu.
  destruct Hu as [->|[->|[->|[->|[]]]]]; cbn -[handle_ota_begin handle_ota_data handle_ota_end handle_ota_abort];
    [unfold handle_ota_begin|unfold handle_ota_data|unfold handle_ota_end|unfold handle_ota_abort];
    by rewrite (bind_Done _ _ _ _ _ Eu).
Qed.

(** So is one whose command and sequence number are cached with another digest. *)
Lemma update_stale p d x ent :
  device_ok d x -> received p -> pkt_version p = PROTOCOL_VERSION -> is_update p ->
  required (d_auth d) = true -> authenticated (d_auth d) = true ->
  cached (d_auth d) p = Some ent -> ent_request_digest ent <> request_digest p ->
  commands_handle_packet p d = send_result p ERR_AUTH_REQUIRED d.
Proof.
  intros Hd [Hp _] Hv Hu Hr Hau Hca Hdg.
  assert (auth_check_replay p (view device_authed d) = Done (ERR_AUTH_REQUIRED, false) (view device_authed d)) as Hrun.
  { rewrite (check_replay_run p _ (device_authed_ok _ _ Hd) Hp Hr (is_update_protected _ Hu)).
    cbn [device_authed view a_auth]. by rewrite Hau, Hca, bool_decide_false by done. }
  destruct (send_nack_quiet p ERR_AUTH_REQUIRED d x Hd Hp) as (d' & En & _).
  change (send_result p ERR_AUTH_REQUIRED d) with (send_nack p ERR_AUTH_REQUIRED d). rewrite En.
  apply update_answered; [done..|]. apply unwrap_answered. unfold handle_authenticated_replay.
  rewrite (bind_Done _ _ _ _ _ (zoom_Done _ _ _ _ _ Hrun)), set_view.
  change (bool_decide (ERR_AUTH_REQUIRED = ERR_OK)) with false. cbn [negb].
  by erewrite bind_Done by exact En.
Qed.

(** The response to a result. *)
Definition result_command (e : protocol_error_t) : Z :=
  if bool_decide (e = ERR_OK) then command_byte CMD_ACK else command_byte CMD_NACK.

(** The device after a signed response to [p] was sent and remembered. *)
Definition after_result p e d : device W :=
  set device_authed
    (reply (result_command e) (pkt_sequence p) (response_of (d_auth d) p (result_command e) [error_byte e])
       (mk_authed (remember p (result_command e) [error_byte e] (d_auth d)) (mk_link (d_proto d) (d_io d)))) d.

Lemma send_result_run p e d x :
  device_ok d x -> packet_in p -> signs (d_auth d) p = true ->
  send_result p e d = Done tt (after_result p e d) /\ device_ok (after_result p e d) x.
Proof.
  intros Hd Hp Hsg. assert (send_result p e d = Done tt (after_result p e d)) as E.
  { assert (send_result p e d =
      zoom device_authed (auth_send_response p (result_command e) (Some [error_byte e]) 1) d) as ->.
    { unfold send_result, result_command. case_bool_decide; [by subst|done]. }
    pose proof (auth_send_response_run p (result_command e) [error_byte e] [] (view device_authed d)
      (device_authed_ok _ _ Hd) Hp ltac:(done) ltac:(by destruct e; repeat constructor)
      ltac:(unfold result_command; by destruct (bool_decide _))) as Hrun.
    cbn [app device_authed view a_auth] in Hrun. rewrite Hsg in Hrun.
    change (PROTOCOL_MAX_PAYLOAD <? len [error_byte e] + AUTH_TAG_SIZE) with false in Hrun.
    by apply (zoom_Done device_authed). }
  split; [done|]. destruct (send_result_quiet p e d x Hd Hp) as (d' & E' & Hq & _).
  rewrite E in E'. injection E' as <-. by eapply quiet_ok.
Qed.

(** The signed answer of the device: what the host checks. *)
Definition answer (k : list Z) p (r : protocol_error_t) : list Z :=
  encode_frame (sent_frame (result_command r) (pkt_sequence p)
    ([error_byte r] ++ response_tag k (pkt_command p) (result_command r) (pkt_sequence p) [error_byte r])).

Lemma after_result_trace p e d : exists err,
  trace_of (after_result p e d) = EvTx (answer (session_key (d_auth d)) p e) err :: trace_of d.
Proof. apply reply_trace. Qed.

(** The entry it leaves in the cache. *)
Lemma after_result_cached p e d x :
  device_ok d x -> cached (d_auth d) p = None ->
  exists ent, cached (d_auth (after_result p e d)) p = Some ent /\ ent_request_digest ent = request_digest p /\
    encode_frame (sent_frame (ent_response_command ent) (pkt_sequence p)
      (take (Z.to_nat (ent_response_length ent)) (ent_response_payload ent))) =
    answer (session_key (d_auth d)) p e.
Proof.
  intros Hd Hca. destruct (in_window_start p (result_command e) [error_byte e] (d_auth d)
    (proj1 (device_authed_ok _ _ Hd)) Hca) as (ent & Hw & He1 & He2 & He3).
  exists ent. split; [by eapply in_window_cached|]. split; [done|]. by rewrite He2, He3.
Qed.

(** The device after a cached response was sent again. *)
Definition resent p ent d : device W :=
  set device_authed
    (reply (ent_response_command ent) (pkt_sequence p)
       (take (Z.to_nat (ent_response_length ent)) (ent_response_payload ent)) (view device_authed d)) d.

(** A cached command is answered from the cache. *)
Lemma update_replayed p d x ent :
  device_ok d x -> received p -> pkt_version p = PROTOCOL_VERSION -> is_update p ->
  required (d_auth d) = true -> authenticated (d_auth d) = true ->
  cached (d_auth d) p = Some ent -> ent_request_digest ent = request_digest p ->
  commands_handle_packet p d = Done tt (resent p ent d) /\ device_ok (resent p ent d) x.
Proof.
  intros Hd [Hp Hb] Hv Hu Hr Hau Hca Hdg. pose proof (is_update_protected _ Hu) as Hc.
  pose proof (check_replay_run p _ (device_authed_ok _ _ Hd) Hp Hr Hc) as Hrun.
  cbn [device_authed view a_auth] in Hrun. rewrite Hau, Hca, bool_decide_true in Hrun by done.
  destruct (auth_check_replay_safe p _ (device_authed_ok _ _ Hd) Hp) as (e' & b' & s' & E' & Hsafe & Ea & _).
  cbn [device_authed view a_auth] in E'. rewrite Hrun in E'. injection E' as <- <- <-.
  destruct (zoom_authed_quiet _ d x _ _ _ Hd Hrun Hsafe) as (E2 & Hq & Ea').
  split; [|by eapply quiet_ok].
  assert (unwrap p d = Done None (resent p ent d)) as Eu.
  { apply unwrap_answered. unfold handle_authenticated_replay. by rewrite (bind_Done _ _ _ _ _ E2). }
  by apply update_answered.
Qed.

Lemma resent_trace p ent d : exists err,
  trace_of (resent p ent d) = EvTx (encode_frame (sent_frame (ent_response_command ent) (pkt_sequence p)
    (take (Z.to_nat (ent_response_length ent)) (ent_response_payload ent)))) err :: trace_of d.
Proof. apply reply_trace. Qed.

(** ** Forged packets *)

(** A device in an authenticated session. *)
Definition in_session (k : list Z) (a : auth_state_t) : Prop :=
  required a = true /\ authenticated a = true /\ session_key a = k.

Lemma in_session_signs k p a : in_session k a -> is_update p -> signs a p = true.
Proof. intros (Hr & Hau & _) Hu. unfold signs. rewrite Hr, Hau. by apply is_update_protected. Qed.

(** A tagged packet with a fresh request id is admitted. *)
Lemma tagged_admitted k p data a :
  received p -> pkt_data p = data ++ request_tag k (pkt_command p) (pkt_sequence p) data ->
  in_session k a -> cached a p = None -> admitted a p = Some data.
Proof.
  intros [Hp _] Ed (Hr & Hau & Hk) Hca. unfold admitted. rewrite Hr, Hca, Hau, Hk.
  pose proof (zlen_pkt_data p Hp) as Hl. rewrite Ed, zlen_app, zlen_request_tag in Hl.
  assert (tag_valid k p = true) as -> by (apply tag_valid_spec; [done|by eexists]).
  cbn [andb]. rewrite Ed. f_equal. apply take_app_length'. sizes.
Qed.

Lemma cached_id a p q : request_id p = request_id q -> cached a p = cached a q.
Proof. unfold request_id, cached, matches. by intros [= -> ->]. Qed.

(** An update packet whose tag is wrong. *)
Definition forged (k : list Z) p : Prop :=
  received p /\ pkt_version p = PROTOCOL_VERSION /\ is_update p /\ tag_valid k p = false.

(** It is refused, and the refusal is cached. *)
Lemma forged_refused k p d x :
  device_ok d x -> in_session k (d_auth d) -> forged k p -> cached (d_auth d) p = None ->
  commands_handle_packet p d = Done tt (after_result p ERR_AUTH_REQUIRED d) /\
  device_ok (after_result p ERR_AUTH_REQUIRED d) x.
Proof.
  intros Hd Hses (Hp & Hv & Hu & Ht) Hca. pose proof Hses as (Hr & Hau & Hk).
  rewrite (update_refused p d x) by congruence || done.
  apply send_result_run; [done|apply Hp|by eapply in_session_signs].
Qed.

(** Forged packets with request ids of their own fill the cache, slot by slot. *)
Lemma forged_evict k p n fs : forall i d x,
  device_ok d x -> in_session k (d_auth d) ->
  Forall (fun q => forged k q /\ cached (d_auth d) q = None /\ request_id q <> request_id p) fs ->
  NoDup (request_id <$> fs) -> evicting p n i (d_auth d) ->
  exists d', serve fs d = Done tt d' /\ device_ok d' x /\ in_session k (d_auth d') /\
    d_ota d' = d_ota d /\ evicting p n (i + len fs) (d_auth d').
Proof.
  induction fs as [|q fs IH]; intros i d x Hd Hses Hfs Hnd Hev.
  { exists d. by rewrite Z.add_0_r. }
  inversion_clear Hfs as [|?? (Hq & Hca & Hne) Hfs']. cbn [fmap list_fmap] in Hnd.
  inversion_clear Hnd as [|?? Hni Hnd'].
  destruct (forged_refused k q d x Hd Hses Hq Hca) as [E Hd1].
  set (d1 := after_result q ERR_AUTH_REQUIRED d) in *.
  destruct (IH (i + 1) d1 x Hd1) as (d' & E' & Hd' & Hses' & Eo & Hev'); [done| |done|by apply evicting_remember|].
  { apply Forall_forall. intros f Hf. rewrite Forall_forall in Hfs'. destruct (Hfs' f Hf) as (? & Hcf & ?).
    split_and!; [done| |done]. apply remember_fresh; [done|]. intros Eq. apply Hni. rewrite Eq.
    by apply list_elem_of_fmap_2. }
  exists d'. rewrite zlen_cons, Z.add_assoc. split; [|done].
  cbn [serve]. by rewrite (bind_Done _ _ _ _ _ E).
Qed.

(** A packet whose command and sequence number are taken is answered, never executed. *)
Lemma taken_refused k p d x :
  device_ok d x -> in_session k (d_auth d) -> received p -> pkt_version p = PROTOCOL_VERSION -> is_update p ->
  is_Some (cached (d_auth d) p) ->
  exists d', commands_handle_packet p d = Done tt d' /\ device_ok d' x /\ in_session k (d_auth d') /\
    is_Some (cached (d_auth d') p) /\ d_ota d' = d_ota d /\ adds harmless 1 (trace_of d) (trace_of d').
Proof.
  intros Hd Hses Hp Hv Hu [ent Hca]. pose proof Hses as (Hr & Hau & Hk).
  destruct (decide (ent_request_digest ent = request_digest p)) as [Hdg|Hdg].
  - destruct (update_replayed p d x ent Hd Hp Hv Hu Hr Hau Hca Hdg) as [E Hd'].
    destruct (resent_trace p ent d) as [err T]. exists (resent p ent d).
    rewrite T. split_and!; try done. by apply adds_tx.
  - rewrite (update_stale p d x ent Hd Hp Hv Hu Hr Hau Hca Hdg).
    destruct (send_result_run p ERR_AUTH_REQUIRED d x Hd (proj1 Hp)) as [E Hd']; [by eapply in_session_signs|].
    destruct (after_result_trace p ERR_AUTH_REQUIRED d) as [err T]. exists (after_result p ERR_AUTH_REQUIRED d).
    rewrite T. split_and!; try done; [by apply remember_cached, (device_authed_ok _ _ Hd)|by apply adds_tx].
Qed.

Lemma taken_blocked k p n : forall d x,
  device_ok d x -> in_session k (d_auth d) -> received p -> pkt_version p = PROTOCOL_VERSION -> is_update p ->
  is_Some (cached (d_auth d) p) ->
  exists d', serve (replicate n p) d = Done tt d' /\ d_ota d' = d_ota d /\
    adds harmless n (trace_of d) (trace_of d').
Proof.
  induction n as [|n IH]; intros d x Hd Hses Hp Hv Hu Hca.
  { exists d. split_and!; try done. apply adds_refl. }
  destruct (taken_refused k p d x Hd Hses Hp Hv Hu Hca) as (d1 & E & Hd1 & Hses1 & Hca1 & Eo & Ht).
  destruct (IH d1 x Hd1 Hses1 Hp Hv Hu Hca1) as (d' & E' & Eo' & Ht').
  exists d'. split; [cbn [replicate serve]; by rewrite (bind_Done _ _ _ _ _ E)|]. split; [congruence|].
  by apply (adds_trans _ 1 n _ _ _ Ht Ht').
Qed.

(** The invariant over a list of packets. *)
Lemma serve_ok l : forall d x d',
  device_ok d x -> Forall received l -> serve l d = Done tt d' -> exists x', device_ok d' x'.
Proof.
  induction l as [|p l IH]; intros d x d' Hd Hl E; [injection E as <-; by exists x|].
  inversion_clear Hl as [|?? Hp Hl']. pose proof (commands_wp p d x Hd Hp) as Hwp. unfold wp in Hwp.
  cbn [serve] in E. destruct (commands_handle_packet p d) as [[] d1| |] eqn:E1;
    [|unfold mbind, M_bind in E; by rewrite E1 in E..].
  rewrite (bind_Done _ _ _ _ _ E1) in E. destruct Hwp as (x1 & _ & Hd1). by eapply IH.
Qed.
End Retries.

(** * Properties *)

Section Properties.
Context {W : Type} `{EspIdf W, !EspIdfSpec W, !FlashSpec W, Sha256Spec}.

(** C2 (safety): with authentication required, no sequence of packets, however
    chosen and however the chip answers, makes the device switch its boot
    partition or restart without the pre-shared key. A boot switch names the
    partition of a completely written image whose digest was read back; size
    and digest come from an OTA_BEGIN packet and every chunk of the image from
    an OTA_DATA packet that was tagged under the key of a session, and each
    such session was opened by a proof over a nonce the device drew. A restart
    was asked for by a REBOOT or ROLLBACK packet tagged in the same way. *)
Theorem device_acts_only_for_the_key_holder (d : device W) key l :
  device_ok d None -> trace_of d = [] ->
  auth_configure (Some key) (len key) true = Some (d_auth d) -> 1 <= len key <= AUTH_KEY_MAX_SIZE ->
  Forall received l ->
  wp (serve l) (fun _ d' => acts_for key l (trace_of d')) (fun d' => acts_for key l (trace_of d')) d.
Proof.
  intros Hd Ht Hcfg Hk Hl.
  assert (obeys key [] d None) as Ho.
  { apply obeys_configured; [done..| |by rewrite Ht]. exists []. by rewrite app_nil_r. }
  pose proof (serve_accountable key l [] d None Ho Hl) as Hwp. rewrite app_nil_r in Hwp.
  eapply wp_mono; [exact Hwp|intros ? d'|intros d']; apply accountable_acts_for.
Qed.

(** C12 (safety): every packet is answered exactly once. Whatever a received
    packet carries and however the chip answers, its handling has no undefined
    behaviour, keeps the invariant of the device, and transmits exactly one
    packet, also when it ends in a restart. *)
Theorem every_packet_is_answered_once (d : device W) x p :
  device_ok d x -> received p ->
  let once d' := exists new, trace_of d' = new ++ trace_of d /\ tx_count new = 1%nat in
  wp (commands_handle_packet p) (fun _ d' => once d' /\ exists x', device_ok d' x') once d.
Proof.
  intros Hd Hp once. eapply wp_mono; [by apply commands_wp| |].
  - intros [] d' Hs. split; [by eapply settles_tx|]. destruct Hs as (x' & _ & ?). by exists x'.
  - intros d'. apply restart_tx.
Qed.

(** C11 (safety): a packet without a valid tag has no effect. On a device that
    requires authentication, a packet of a protected command that arrives
    outside an authenticated session, or whose tag is not the one of its bytes
    under the session key, is answered and leaves the update session, the
    flash, the boot choice and the running chip alone. *)
Theorem untagged_packets_are_harmless (d : device W) x p :
  device_ok d x -> received p -> required (d_auth d) = true ->
  ~ (authenticated (d_auth d) = true /\ tagged (session_key (d_auth d)) p) ->
  wp (commands_handle_packet p)
    (fun _ d' => d_ota d' = d_ota d /\ adds harmless 1 (trace_of d) (trace_of d'))
    (fun _ => False) d.
Proof.
  intros Hd Hp Hr Hno.
  assert (admitted (d_auth d) p = None) as Had.
  { unfold admitted. rewrite Hr. destruct (cached _ _); [done|].
    destruct (authenticated (d_auth d)) eqn:Ea; cbn [andb]; [|done].
    destruct (tag_valid (session_key (d_auth d)) p) eqn:Ev; [|done].
    destruct Hno. split; [done|]. by apply tag_valid_spec; [apply Hp|]. }
  eapply wp_mono; [by apply commands_wp| |].
  - intros _ d' (x' & He & _). destruct He as [Hq _|Hq _ _|data ? ? ? ? ? ? Ha|? ? Ha]; try congruence.
    + split; [apply (quiet_ota _ _ _ Hq)|apply (quiet_trace _ _ _ Hq)].
    + split; [apply (quiet_ota _ _ _ Hq)|apply (quiet_trace _ _ _ Hq)].
  - intros d' (_ & Ha & _). congruence.
Qed.

(** C4 (functional): a retried update command is executed once. In an
    authenticated session, an OTA_BEGIN, OTA_DATA, OTA_END or OTA_ABORT packet
    with a valid tag and a new command and sequence number makes exactly one
    call of the update manager, a step of the update session with the request
    the packet carries, and is answered with its signed result. The same packet
    again gets the same bytes as answer, and neither the update session nor the
    authentication state nor anything outside changes. *)
Theorem retried_update_is_executed_once (d : device W) x p data req :
  device_ok d x -> received p -> pkt_version p = PROTOCOL_VERSION ->
  required (d_auth d) = true -> authenticated (d_auth d) = true ->
  admitted (d_auth d) p = Some data -> update_request p data = Some req ->
  exists junk r u evs x' err1 err2 d1 d2,
    let out := answer (session_key (d_auth d)) p r in
    ota_call req junk (view device_updater d) = Done r u /\
    ota_step (esp_ota_get_next_update_partition (world (d_io d))) x req r evs x' /\
    trace (u_io u) = evs ++ trace_of d /\
    commands_handle_packet p d = Done tt d1 /\ device_ok d1 x' /\ d_ota d1 = u_ota u /\
    trace_of d1 = EvTx out err1 :: evs ++ trace_of d /\
    commands_handle_packet p d1 = Done tt d2 /\ d_ota d2 = d_ota d1 /\ d_auth d2 = d_auth d1 /\
    trace_of d2 = EvTx out err2 :: trace_of d1.
Proof.
  intros Hd Hp Hv Hr Hau Had Hreq. pose proof (update_request_is_update _ _ _ Hreq) as Hu.
  assert (cached (d_auth d) p = None) as Hca.
  { unfold admitted in Had. rewrite Hr in Had. by destruct (cached _ _). }
  destruct (update_executed p d x data req Hd Hp Hv Had Hreq) as (junk & E & Hb).
  destruct (call_runs req junk (view device_updater d) x (device_ota_rel _ _ Hd) Hb)
    as (r & u & Ec & evs & x' & Hst & Hrel & Ht & _).
  set (d0 := set device_updater u d).
  assert (device_ok d0 x') as Hd0 by (destruct Hd as [[] ? ? ?]; by split).
  destruct (send_result_run p r d0 x' Hd0 (proj1 Hp)) as [Es Hd1];
    [by apply (in_session_signs (session_key (d_auth d)))|].
  destruct (after_result_trace p r d0) as [err1 T1].
  destruct (after_result_cached p r d0 x' Hd0 Hca) as (ent & Hent & Hdg & Eans).
  destruct (update_replayed p _ x' ent Hd1 Hp Hv Hu Hr Hau Hent Hdg) as [E2 _].
  destruct (resent_trace p ent (after_result p r d0)) as [err2 T2]. rewrite Eans in T2.
  exists junk, r, u, evs, x', err1, err2, (after_result p r d0), (resent p ent (after_result p r d0)).
  cbv zeta. split_and!; try done.
  - rewrite E. by erewrite bind_Done by (apply zoom_Done; exact Ec).
  - rewrite T1. by f_equal.
Qed.

(** C35 (error): the replay window can be emptied without the key. Every signed
    response is cached, also the refusal of a packet with a bad tag. A captured
    update packet that was answered before is answered from the cache and not
    executed; but after eight forged packets, none with a valid tag, with
    request ids of their own, that change nothing else in the update session,
    the same captured packet is admitted and executed a second time. *)
Theorem forged_packets_reopen_a_replay (d : device W) x k p ent data req fs :
  device_ok d x -> in_session k (d_auth d) ->
  received p -> pkt_version p = PROTOCOL_VERSION ->
  pkt_data p = data ++ request_tag k (pkt_command p) (pkt_sequence p) data ->
  update_request p data = Some req ->
  cached (d_auth d) p = Some ent -> ent_request_digest ent = request_digest p ->
  len fs = AUTH_REPLAY_CACHE_SIZE -> NoDup (request_id <$> fs) ->
  Forall (fun q => forged k q /\ cached (d_auth d) q = None /\ request_id q <> request_id p) fs ->
  (commands_handle_packet p d = Done tt (resent p ent d) /\ d_ota (resent p ent d) = d_ota d) /\
  exists d' junk, serve fs d = Done tt d' /\ device_ok d' x /\ d_ota d' = d_ota d /\
    commands_handle_packet p d' = (r ← zoom device_updater (ota_call req junk); send_result p r) d'.
Proof.
  intros Hd Hses Hp Hv Ed Hreq Hca Hdg Hlen Hnd Hfs. pose proof Hses as (Hr & Hau & Hk).
  pose proof (update_request_is_update _ _ _ Hreq) as Hu.
  split; [split; [by apply (update_replayed p d x ent)|done]|].
  destruct (forged_evict k p _ fs 0 d x Hd Hses Hfs Hnd (evicting_start p _ (proj1 (device_authed_ok _ _ Hd))))
    as (d' & E & Hd' & Hses' & Eo & Hev).
  rewrite Hlen in Hev. apply evicting_all in Hev; [|apply (device_authed_ok _ _ Hd')].
  destruct (update_executed p d' x data req Hd' Hp Hv) as (junk & E' & _); [|done|by exists d', junk].
  by eapply tagged_admitted.
Qed.

(** C36 (error): a forged packet blocks a genuine one. A packet without a valid
    tag that carries the command and sequence number the host uses next is
    refused and cached with its digest; the host's own correctly tagged packet,
    which the device would have executed, is then refused or answered from the
    cache however often it is repeated: the update session stays as it is. *)
Theorem forged_packet_blocks_a_request (d : device W) x k p data req f n :
  device_ok d x -> in_session k (d_auth d) ->
  received p -> pkt_version p = PROTOCOL_VERSION ->
  pkt_data p = data ++ request_tag k (pkt_command p) (pkt_sequence p) data ->
  update_request p data = Some req -> cached (d_auth d) p = None ->
  forged k f -> request_id f = request_id p ->
  (exists junk, commands_handle_packet p d = (r ← zoom device_updater (ota_call req junk); send_result p r) d) /\
  exists d', serve (f :: replicate n p) d = Done tt d' /\ d_ota d' = d_ota d /\
    adds harmless (S n) (trace_of d) (trace_of d').
Proof.
  intros Hd Hses Hp Hv Ed Hreq Hca Hf Eid. pose proof (update_request_is_update _ _ _ Hreq) as Hu. split.
  { destruct (update_executed p d x data req Hd Hp Hv) as (junk & E & _); [|done|by exists junk].
    by eapply tagged_admitted. }
  assert (cached (d_auth d) f = None) as Hcf by (by rewrite (cached_id _ f p Eid)).
  destruct (forged_refused k f d x Hd Hses Hf Hcf) as [E Hd1].
  destruct (after_result_trace f ERR_AUTH_REQUIRED d) as [err T].
  set (d1 := after_result f ERR_AUTH_REQUIRED d) in *.
  destruct (taken_blocked k p n d1 x Hd1 Hses Hp Hv Hu) as (d' & E' & Eo & Ht).
  { rewrite <-(cached_id _ f p Eid). apply remember_cached, (device_authed_ok _ _ Hd). }
  exists d'. split; [cbn [serve]; by rewrite (bind_Done _ _ _ _ _ E)|]. split; [done|].
  eapply (adds_trans _ 1 n); [|exact Ht]. rewrite T. by apply adds_tx.
Qed.
End Properties.

(** ** Concrete instances *)

Definition example_device (a : auth_state_t) : device sim :=
  mk_device a (mk_proto 0 None 0 (zeros TX_BUFFER_SIZE)) ota_statics_zero 7 (zeros PROTOCOL_MAX_PAYLOAD)
    (sim_io sim_init).

Lemma example_device_ok a : auth_ok a -> device_ok (example_device a) None.
Proof. intros Ha. split; [by split|apply ota_statics_zero_rel|unfold u32; simpl; lia|done]. Qed.

(** A packet of a protected command tagged under [session]. *)
Definition tagged_packet (session : list Z) (command sequence : Z) (data : list Z) : protocol_packet_t :=
  make_packet command sequence (data ++ request_tag session command sequence data).

(** A host that holds [example_key]: handshake and a whole update. *)
Definition example_nonce : list Z := replicate 16 7.
Definition example_session : list Z :=
  derived AUTH_SESSION_PREFIX example_key example_nonce (zeros 16).
Definition example_host : list protocol_packet_t :=
  [make_packet 0x05 1 example_nonce;
   make_packet 0x05 2 (example_nonce ++ proof_tag example_key example_nonce (zeros 16));
   tagged_packet example_session 0x10 3 (le32 35 ++ example_digest);
   tagged_packet example_session 0x11 4 (le32 0 ++ le32 0 ++ example_image);
   tagged_packet example_session 0x12 5 []].

Definition key_device : device sim := example_device (default auth_zero (auth_configure (Some example_key) 4 true)).

Lemma key_device_ok : device_ok key_device None.
Proof.
  apply example_device_ok.
  destruct (psk_configured example_key [] true ltac:(split; discriminate)) as (a & E & _ & _ & _ & _ & Ha).
  rewrite app_nil_r in E. change (len example_key) with 4 in E. by rewrite E.
Qed.

#[export] Instance received_dec p : Decision (received p).
Proof. unfold received. apply _. Defined.

Lemma example_host_received : Forall received example_host.
Proof. apply (bool_decide_eq_true_1 (Forall received example_host)). vm_compute. reflexivity. Qed.

Definition done_state {S A} (r : outcome S A) (s : S) : S := match r with Done _ s' => s' | _ => s end.

(** A device in an authenticated session. *)
Definition session_device : device sim := example_device (example_auth false true).

(** Eight packets without a valid tag, as anyone on the link can send them. *)
Definition forged_packets : list protocol_packet_t :=
  (fun n => make_packet 0x13 (100 + n) (zeros 16)) <$> seqZ 0 8.

(** What an eavesdropper captured: a host opens an update, aborts it and opens
    another. *)
Definition captured_abort : protocol_packet_t := tagged_packet (replicate 32 9) 0x13 11 [].
Definition captured_host : list protocol_packet_t :=
  [tagged_packet (replicate 32 9) 0x10 10 (le32 35 ++ example_digest);
   captured_abort;
   tagged_packet (replicate 32 9) 0x10 12 (le32 35 ++ example_digest)].
Definition captured_device : device sim := done_state (serve captured_host session_device) session_device.

(** The end of the host's update, computed once. *)
Definition updated_device : device sim := done_state (serve example_host key_device) key_device.

Lemma updated_device_run : serve example_host key_device = Done tt updated_device.
Proof. vm_compute. reflexivity. Qed.
Lemma updated_device_boot : exists t2, trace_of updated_device = [hd EvRestart (trace_of updated_device)] ++ EvSetBoot sim_ota_1 ESP_OK :: t2.
Proof. eexists. vm_compute. reflexivity. Qed.

Lemma key_device_configured :
  auth_configure (Some example_key) (len example_key) true = Some (d_auth key_device).
Proof. vm_compute. reflexivity. Qed.

Lemma example_key_length : 1 <= len example_key <= AUTH_KEY_MAX_SIZE.
Proof. done. Qed.

Lemma device_acts_only_for_the_key_holder_witness :
  exists size digest,
    authorised example_key example_host (trace_of updated_device) CMD_OTA_BEGIN (le32 size ++ digest).
Proof.
  destruct updated_device_boot as [t2 Et].
  pose proof (device_acts_only_for_the_key_holder key_device example_key example_host key_device_ok eq_refl
    key_device_configured example_key_length example_host_received) as Hwp. cbv zeta in Hwp.
  match type of Hwp with wp ?m ?Q ?H ?s =>
    pose proof (@wp_Done_inv (device sim) unit m Q H s tt updated_device Hwp updated_device_run) as Hpost
  end.
  destruct Hpost as [Hboot _].
  destruct (Hboot _ sim_ota_1 ESP_OK t2 Et) as (size & digest & h & t3 & chunks & _ & _ & _ & _ & Ha & _).
  exists size, digest. exact Ha.
Defined.

Lemma captured_abort_received : received captured_abort.
Proof. apply (bool_decide_eq_true_1 (received captured_abort)). vm_compute. reflexivity. Qed.

Lemma every_packet_is_answered_once_witness :
  let d := example_device (example_auth false true) in
  let once d' := exists new, trace_of d' = new ++ trace_of d /\ tx_count new = 1%nat in
  wp (commands_handle_packet captured_abort) (fun _ d' => once d' /\ exists x', device_ok d' x') once d.
Proof.
  exact (every_packet_is_answered_once (example_device (example_auth false true)) None captured_abort
    (example_device_ok _ (proj1 (example_authed_ok false true))) captured_abort_received).
Defined.

Lemma forged_received : received (make_packet 0x13 100 (zeros 16)).
Proof. apply (bool_decide_eq_true_1 (received (make_packet 0x13 100 (zeros 16)))). vm_compute. reflexivity. Qed.
Lemma forged_untagged : ~ tagged (replicate 32 9) (make_packet 0x13 100 (zeros 16)).
Proof.
  intros Ht. apply (proj2 (tag_valid_spec (replicate 32 9) _ (proj1 forged_received))) in Ht.
  revert Ht. vm_compute. discriminate.
Qed.

Lemma untagged_packets_are_harmless_witness :
  let p := make_packet 0x13 100 (zeros 16) in
  let d := example_device (example_auth false true) in
  wp (commands_handle_packet p)
    (fun _ d' => d_ota d' = d_ota d /\ adds harmless 1 (trace_of d) (trace_of d')) (fun _ => False) d.
Proof.
  intros p d.
  exact (untagged_packets_are_harmless d None p
    (example_device_ok _ (proj1 (example_authed_ok false true))) forged_received eq_refl
    (fun H => forged_untagged (proj2 H))).
Defined.

Lemma session_device_ok : device_ok session_device None.
Proof. apply example_device_ok, (proj1 (example_authed_ok false true)). Qed.

Lemma captured_host_received : Forall received captured_host.
Proof. apply (bool_decide_eq_true_1 (Forall received captured_host)). vm_compute. reflexivity. Qed.

(** The first packet of the captured host. *)
Definition captured_begin : protocol_packet_t := hd captured_abort captured_host.
Lemma captured_begin_received : received captured_begin.
Proof. pose proof captured_host_received as Hall. by inversion Hall. Qed.
Lemma captured_begin_admitted :
  admitted (d_auth session_device) captured_begin = Some (le32 35 ++ example_digest).
Proof. vm_compute. reflexivity. Qed.

Lemma retried_update_is_executed_once_witness :
  let d := session_device in let p := captured_begin in let req := ReqBegin (le32 35 ++ example_digest) in
  exists junk r u evs x' err1 err2 d1 d2,
    let out := answer (replicate 32 9) p r in
    ota_call req junk (view device_updater d) = Done r u /\
    ota_step (Some sim_ota_1) None req r evs x' /\
    trace (u_io u) = evs ++ [] /\
    commands_handle_packet p d = Done tt d1 /\ device_ok d1 x' /\ d_ota d1 = u_ota u /\
    trace_of d1 = EvTx out err1 :: evs ++ [] /\
    commands_handle_packet p d1 = Done tt d2 /\ d_ota d2 = d_ota d1 /\ d_auth d2 = d_auth d1 /\
    trace_of d2 = EvTx out err2 :: trace_of d1.
Proof.
  exact (retried_update_is_executed_once session_device None captured_begin (le32 35 ++ example_digest)
    (ReqBegin (le32 35 ++ example_digest)) session_device_ok captured_begin_received eq_refl eq_refl eq_refl
    captured_begin_admitted eq_refl).
Defined.

Lemma captured_device_run : serve captured_host session_device = Done tt captured_device.
Proof. vm_compute. reflexivity. Qed.
Lemma captured_device_ok : exists x, device_ok captured_device x.
Proof. exact (serve_ok captured_host session_device None _ session_device_ok captured_host_received captured_device_run). Qed.
Lemma captured_session : in_session (replicate 32 9) (d_auth captured_device).
Proof. vm_compute. by split_and!. Qed.
Lemma captured_abort_cached : exists ent,
  cached (d_auth captured_device) captured_abort = Some ent /\ ent_request_digest ent = request_digest captured_abort.
Proof. eexists. split; vm_compute; reflexivity. Qed.
#[export] Instance forged_dec k p : Decision (forged k p).
Proof. unfold forged, is_update. apply _. Defined.
Lemma forged_packets_forged :
  Forall (fun q => forged (replicate 32 9) q /\ cached (d_auth captured_device) q = None /\
    request_id q <> request_id captured_abort) forged_packets.
Proof.
  apply Forall_forall. intros q Hq.
  assert (bool_decide (Forall (forged (replicate 32 9)) forged_packets) = true) as Hf by (vm_compute; reflexivity).
  apply bool_decide_eq_true, (proj1 (Forall_forall _ _)) with (x := q) in Hf; [|done]. split; [done|].
  apply list_elem_of_fmap in Hq as (n & -> & Hn). apply elem_of_seqZ in Hn.
  assert (n = 0 \/ n = 1 \/ n = 2 \/ n = 3 \/ n = 4 \/ n = 5 \/ n = 6 \/ n = 7) as Hcase by lia.
  split; [|unfold request_id; simpl; intros [= E]; lia].
  destruct Hcase as [->|[->|[->|[->|[->|[->|[->| ->]]]]]]]; vm_compute; reflexivity.
Qed.
Lemma forged_packets_nodup : NoDup (request_id <$> forged_packets).
Proof. apply (bool_decide_eq_true_1 (NoDup (request_id <$> forged_packets))). vm_compute. reflexivity. Qed.

Definition tagged_data (p : protocol_packet_t) (data : list Z) : Prop :=
  pkt_data p = data ++ request_tag (replicate 32 9) (pkt_command p) (pkt_sequence p) data.
Lemma captured_abort_data : tagged_data captured_abort [].
Proof. vm_compute. reflexivity. Qed.
Lemma captured_begin_data : tagged_data captured_begin (le32 35 ++ example_digest).
Proof. vm_compute. reflexivity. Qed.

Lemma forged_packets_reopen_a_replay_witness :
  exists ent d' junk,
    commands_handle_packet captured_abort captured_device = Done tt (resent captured_abort ent captured_device) /\
    serve forged_packets captured_device = Done tt d' /\ d_ota d' = d_ota captured_device /\
    commands_handle_packet captured_abort d' =
      (r ← zoom device_updater (ota_call ReqAbort junk); send_result captured_abort r) d'.
Proof.
  destruct captured_device_ok as [x Hd]. destruct captured_abort_cached as (ent & Hca & Hdg).
  destruct (forged_packets_reopen_a_replay captured_device x (replicate 32 9) captured_abort ent [] ReqAbort
    forged_packets Hd captured_session captured_abort_received eq_refl captured_abort_data eq_refl Hca Hdg eq_refl
    forged_packets_nodup forged_packets_forged) as [[E _] (d' & junk & E1 & _ & E2 & E3)].
  exists ent, d', junk. split; [exact E|]. split; [exact E1|]. split; [exact E2|exact E3].
Defined.

Lemma forged_begin_forged : forged (replicate 32 9) (make_packet 0x10 10 (zeros 16)).
Proof. apply (bool_decide_eq_true_1 (forged (replicate 32 9) (make_packet 0x10 10 (zeros 16)))). vm_compute. reflexivity. Qed.

Lemma forged_packet_blocks_a_request_witness :
  exists junk d',
    commands_handle_packet captured_begin session_device =
      (r ← zoom device_updater (ota_call (ReqBegin (le32 35 ++ example_digest)) junk);
       send_result captured_begin r) session_device /\
    serve (make_packet 0x10 10 (zeros 16) :: replicate 3 captured_begin) session_device = Done tt d' /\
    d_ota d' = d_ota session_device.
Proof.
  destruct (forged_packet_blocks_a_request session_device None (replicate 32 9) captured_begin
    (le32 35 ++ example_digest) (ReqBegin (le32 35 ++ example_digest)) (make_packet 0x10 10 (zeros 16)) 3
    session_device_ok (conj eq_refl (conj eq_refl eq_refl)) captured_begin_received eq_refl captured_begin_data eq_refl eq_refl
    forged_begin_forged eq_refl) as [[junk E] (d' & E1 & E2 & _)].
  exists junk, d'. split; [exact E|]. split; [exact E1|exact E2].
Defined.
