(* ===== verification/Host.v ===== *)
(** What a host that holds the key achieves: the whole update over the link, with
    every packet sent any number of extra times, on flash that works. *)
From stdpp Require Import sets.
From S2P Require Import Prelude Machine EspIdf SimEnv Protocol Hmac Auth OtaManager Commands.

(** * Specifications *)

(** The transmissions in a trace, oldest first, and its update effects. *)
Fixpoint sent (t : list event) : list (list Z) :=
  match t with
  | [] => []
  | EvTx data _ :: t => sent t ++ [data]
  | _ :: t => sent t
  end.
#[export] Instance foreign_dec e : Decision (foreign e).
Proof. destruct e; apply _. Defined.
Definition updates (t : list event) : list event := filter (fun e => ~ foreign e) t.

(** A packet as the host sends it, and how many extra times it sends it. *)
Definition delivery : Type := protocol_packet_t * nat.
Definition wire (l : list delivery) : list protocol_packet_t :=
  concat ((fun pn => replicate (S pn.2) pn.1) <$> l).

(** The OTA_DATA requests for the chunks of an image. *)
Fixpoint data_requests (n offset : Z) (chunks : list (list Z)) : list ota_request :=
  match chunks with
  | [] => []
  | d :: chunks => ReqData (le32 n ++ le32 offset ++ d) :: data_requests (n + 1) (offset + len d) chunks
  end.

Section Spec.
Context {W : Type} `{EspIdf W, Sha256, !HealthyFlash W}.

(** The world moved on, but flash, the boot choice and the update slot did not. *)
Definition steady (w w' : W) : Prop :=
  (forall p, slot_content w' p = slot_content w p) /\ (forall h, handle_slot w' h = handle_slot w h) /\
  esp_ota_get_boot_partition w' = esp_ota_get_boot_partition w /\
  esp_ota_get_next_update_partition w' = esp_ota_get_next_update_partition w.

(** Sending leaves flash alone. *)
Definition link_steady (p : proto_state W) : Prop :=
  forall data w, steady w ((active_writer p).1 (active_writer p).2 data w).2.

(** The packet makes the request, tagged under the session key. *)
Definition asks (k : list Z) (req : ota_request) (p : protocol_packet_t) : Prop :=
  received p /\ pkt_version p = PROTOCOL_VERSION /\
  pkt_command p = command_byte (request_command req) /\
  pkt_data p = request_payload req ++ request_tag k (pkt_command p) (pkt_sequence p) (request_payload req).

Definition answers (k : list Z) (r : protocol_error_t) (l : list delivery) : list (list Z) :=
  concat ((fun pn => replicate (S pn.2) (answer k pn.1 r)) <$> l).

(** A device in the session, over a link that leaves its flash alone. *)
Record on_link (k : list Z) (d : device W) (x : option session) : Prop := {
  on_ok : device_ok d x;
  on_session : in_session k (d_auth d);
  on_steady : link_steady (d_proto d)
}.
End Spec.

(** * Lemmas: traces and the link *)

Lemma sent_app t t' : sent (t ++ t') = sent t' ++ sent t.
Proof.
  induction t as [|e t IH]; [by rewrite app_nil_r|]. destruct e; cbn [app sent]; rewrite IH; try done.
  by rewrite app_assoc.
Qed.
Lemma updates_app t t' : updates (t ++ t') = updates t ++ updates t'.
Proof. apply filter_app. Qed.
Lemma updates_tx data err t : updates (EvTx data err :: t) = updates t.
Proof. unfold updates. rewrite filter_cons_False; [done|]. intros Hn. by apply Hn. Qed.

Lemma serve_app {W} `{EspIdf W, Sha256} l1 l2 (d d1 : device W) :
  serve l1 d = Done tt d1 -> serve (l1 ++ l2) d = serve l2 d1.
Proof.
  revert d. induction l1 as [|p l1 IH]; intros d E; [by injection E as <-|]. cbn [serve app] in *.
  unfold mbind, M_bind in *. destruct (commands_handle_packet p d) as [[] d'| |]; [by apply IH|done..].
Qed.

Section Link.
Context {W : Type} `{EspIdf W, Sha256Spec, !HealthyFlash W}.

Lemma steady_trans (w1 w2 w3 : W) : steady w1 w2 -> steady w2 w3 -> steady w1 w3.
Proof.
  unfold steady. intros (S1&O1&B1&N1) (S2&O2&B2&N2). split_and!; [|intros|congruence..].
  - intros p. by rewrite S2.
  - by rewrite O2.
Qed.

Lemma steady_on_flash (w w' : W) x : steady w w' -> on_flash w x -> on_flash w' x.
Proof. intros (S0 & Hh & _) [E1 E2]. split; [by rewrite Hh|by rewrite S0]. Qed.

Lemma after_send_steady data (s : link W) :
  link_steady (l_proto s) ->
  steady (world (l_io s)) (world (l_io (after_send data s))) /\ link_steady (l_proto (after_send data s)).
Proof.
  intros Hs. pose proof (Hs data (world (l_io s))) as Hw. unfold after_send.
  assert (forall write context tx port, active_writer (l_proto s) = (write, context) ->
    link_steady (mk_proto port (Some write) context tx)) as Hkeep.
  { intros write context tx port E. unfold link_steady in *. by rewrite E in Hs. }
  destruct (active_writer (l_proto s)) as [write context]. cbn [fst snd] in Hw.
  destruct (write context data (world (l_io s))) as [err w]. cbn [fst snd] in Hw. split; [exact Hw|].
  by apply Hkeep.
Qed.

End Link.

(** * Lemmas: one request over the link *)

Section Delivery.
Context {W : Type} `{EspIdf W, !EspIdfSpec W, !FlashSpec W, Sha256Spec, !HealthyFlash W}.
Implicit Types (d : device W) (p : protocol_packet_t) (x : option session) (k : list Z) (u : updater W).

Lemma asks_update k req p : asks k req p -> is_update p /\ update_request p (request_payload req) = Some req.
Proof.
  intros (_ & _ & Hc & _). unfold is_update, update_request. rewrite Hc, !elem_of_cons.
  destruct req; cbn; split; auto.
Qed.

Lemma asks_admitted k req p a :
  asks k req p -> in_session k a -> cached a p = None -> admitted a p = Some (request_payload req).
Proof. intros (Hp & _ & _ & Ed) Hses Hca. by eapply tagged_admitted. Qed.

(** The device after [n] answers to [p], which made the call that ended in [u]. *)
Record delivered k d p r u (n : nat) d' x : Prop := {
  dl_link : on_link k d' x;
  dl_updates : updates (trace_of d') = updates (trace (u_io u));
  dl_sent : sent (trace_of d') = sent (trace_of d) ++ replicate n (answer k p r);
  dl_steady : steady (world (u_io u)) (world (d_io d'));
  dl_cached : exists ent, cached (d_auth d') p = Some ent /\ ent_request_digest ent = request_digest p /\
    encode_frame (sent_frame (ent_response_command ent) (pkt_sequence p)
      (take (Z.to_nat (ent_response_length ent)) (ent_response_payload ent))) = answer k p r;
  dl_fresh q : cached (d_auth d) q = None -> request_id p <> request_id q -> cached (d_auth d') q = None
}.

Lemma first_delivery k d p req x :
  on_link k d x -> asks k req p -> cached (d_auth d) p = None ->
  exists junk, forall r u x',
    ota_call req junk (view device_updater d) = Done r u -> ota_rel (u_ota u) x' ->
    sent (trace (u_io u)) = sent (trace_of d) ->
    exists d', commands_handle_packet p d = Done tt d' /\ delivered k d p r u 1 d' x'.
Proof.
  intros [Hd Hses Hst] Hask Hca. pose proof Hask as (Hp & Hv & _ & _).
  destruct (asks_update _ _ _ Hask) as [Hu Hreq].
  destruct (update_executed p d x _ req Hd Hp Hv (asks_admitted k req p _ Hask Hses Hca) Hreq) as (junk & E & _).
  exists junk. intros r u x' Ecall Hrel Hsent.
  set (d1 := set device_updater u d).
  assert (device_ok d1 x') as Hd1 by (destruct Hd as [[] ? ? ?]; by split).
  destruct (send_result_run p r d1 x' Hd1 (proj1 Hp)) as [Es Hd2]; [by eapply in_session_signs|].
  exists (after_result p r d1). split; [by rewrite E, (bind_Done _ _ _ _ _ (zoom_Done _ _ _ _ _ Ecall))|].
  destruct (after_result_trace p r d1) as [err T].
  destruct (after_result_cached p r d1 x' Hd1 Hca) as (ent & Hent & Hdg & Ea).
  change (trace_of d1) with (trace (u_io u)) in T.
  assert (session_key (d_auth d1) = k) as Ek by apply Hses. rewrite Ek in T, Ea.
  destruct (after_send_steady (answer k p r) (mk_link (d_proto d1) (d_io d1)) Hst) as [Hw Hst'].
  rewrite <-Ek in Hw, Hst'. split.
  - split; [exact Hd2|exact Hses|exact Hst'].
  - by rewrite T, updates_tx.
  - rewrite T. cbn [sent]. by rewrite Hsent.
  - exact Hw.
  - by exists ent.
  - intros q Hq Hne. by apply remember_fresh.
Qed.

Lemma next_delivery k d p r u n d' x req :
  asks k req p -> delivered k d p r u n d' x ->
  exists d2, commands_handle_packet p d' = Done tt d2 /\ delivered k d p r u (S n) d2 x.
Proof.
  intros Hask [[Hd (Hr & Hau & Hk) Hst] Hup Hse Hsd (ent & Hca & Hdg & Ha) Hfr].
  pose proof Hask as (Hp & Hv & _ & _). destruct (asks_update _ _ _ Hask) as [Hu _].
  destruct (update_replayed p d' x ent Hd Hp Hv Hu Hr Hau Hca Hdg) as [E Hd2].
  exists (resent p ent d'). split; [done|].
  destruct (resent_trace p ent d') as [err T]. rewrite Ha in T.
  destruct (after_send_steady (answer k p r) (mk_link (d_proto d') (d_io d')) Hst) as [Hw Hst'].
  rewrite <-Ha in Hw, Hst'. split.
  - split; [exact Hd2|by split_and!|exact Hst'].
  - by rewrite T, updates_tx.
  - rewrite T. cbn [sent]. rewrite Hse, <-app_assoc. f_equal. symmetry. apply replicate_S_end.
  - eapply steady_trans; [exact Hsd|exact Hw].
  - by exists ent.
  - exact Hfr.
Qed.

(** A packet and its repetitions are one call. *)
Lemma deliver_all k d p req x n :
  on_link k d x -> asks k req p -> cached (d_auth d) p = None ->
  exists junk, forall r u x',
    ota_call req junk (view device_updater d) = Done r u -> ota_rel (u_ota u) x' ->
    sent (trace (u_io u)) = sent (trace_of d) ->
    exists d', serve (replicate (S n) p) d = Done tt d' /\ delivered k d p r u (S n) d' x'.
Proof.
  intros Hl Hask Hca. destruct (first_delivery k d p req x Hl Hask Hca) as (junk & Hfirst).
  exists junk. intros r u x' Ec Hrel Hsent. induction n as [|n (d' & E & Hdl)].
  - destruct (Hfirst r u x' Ec Hrel Hsent) as (d' & E & Hdl). exists d'. split; [|done].
    cbn [replicate serve]. by rewrite (bind_Done _ _ _ _ _ E).
  - destruct (next_delivery k d p r u (S n) d' x' req Hask Hdl) as (d2 & E2 & Hdl2).
    exists d2. split; [|done]. rewrite (replicate_S_end (S n)), (serve_app _ _ _ _ E).
    cbn [serve]. by rewrite (bind_Done _ _ _ _ _ E2).
Qed.
End Delivery.

(** * Lemmas: the stages of an update *)

Section Stages.
Context {W : Type} `{EspIdf W, !EspIdfSpec W, !FlashSpec W, Sha256Spec, !HealthyFlash W}.
Implicit Types (d : device W) (p : protocol_packet_t) (x : option session) (k : list Z) (l : list delivery).

(** From [d] to [d'], the deliveries [l] were answered [r] and caused [evs]. *)
Record stage k d l r evs d' x : Prop := {
  st_link : on_link k d' x;
  st_updates : updates (trace_of d') = evs ++ updates (trace_of d);
  st_sent : sent (trace_of d') = sent (trace_of d) ++ answers k r l;
  st_fresh q : cached (d_auth d) q = None -> request_id q ∉ request_id <$> l.*1 -> cached (d_auth d') q = None
}.

Lemma answers_app k r l1 l2 : answers k r (l1 ++ l2) = answers k r l1 ++ answers k r l2.
Proof. unfold answers. by rewrite fmap_app, concat_app. Qed.
Lemma wire_app l1 l2 : wire (l1 ++ l2) = wire l1 ++ wire l2.
Proof. unfold wire. by rewrite fmap_app, concat_app. Qed.

Lemma wire_one p n : wire [(p, n)] = replicate (S n) p.
Proof. unfold wire. cbn [fmap list_fmap concat fst snd]. by rewrite app_nil_r. Qed.
Lemma answers_one k r p n : answers k r [(p, n)] = replicate (S n) (answer k p r).
Proof. unfold answers. cbn [fmap list_fmap concat fst snd]. by rewrite app_nil_r. Qed.

Lemma stage_trans k d l1 l2 r evs1 evs2 d1 d2 x1 x2 :
  stage k d l1 r evs1 d1 x1 -> stage k d1 l2 r evs2 d2 x2 -> stage k d (l1 ++ l2) r (evs2 ++ evs1) d2 x2.
Proof.
  intros [_ U1 S1 F1] [L2 U2 S2 F2]. split; [done|by rewrite U2, U1, app_assoc| |].
  - by rewrite S2, S1, answers_app, <-app_assoc.
  - intros q Hq Hn. rewrite !fmap_app, not_elem_of_app in Hn. destruct Hn. auto.
Qed.

Lemma asks_bytes k req p : asks k req p -> bytes (request_payload req).
Proof. intros ([_ Hb] & _ & _ & Ed). rewrite Ed in Hb. by apply Forall_app in Hb as [? _]. Qed.
Lemma asks_length k req p : asks k req p -> len (request_payload req) + AUTH_TAG_SIZE <= PROTOCOL_MAX_PAYLOAD.
Proof.
  intros ([Hp _] & _ & _ & Ed). pose proof (zlen_pkt_data p Hp) as Hl.
  rewrite Ed, zlen_app, zlen_request_tag in Hl. destruct Hp as [_ Hp]. lia.
Qed.

Lemma own_silent evs : Forall (fun e => ~ foreign e) evs -> sent evs = [].
Proof. induction 1 as [|e evs He _ IH]; [done|]. destruct e; try done; by destruct He. Qed.
Lemma own_updates evs t : Forall (fun e => ~ foreign e) evs -> updates (evs ++ t) = evs ++ updates t.
Proof.
  intros He. rewrite updates_app. f_equal. induction He as [|e evs He _ IH]; [done|].
  unfold updates in *. by rewrite filter_cons_True, IH by done.
Qed.

Lemma one_stage k d p n req x :
  on_link k d x -> asks k req p -> cached (d_auth d) p = None ->
  exists junk, forall r u x' evs,
    ota_call req junk (view device_updater d) = Done r u -> ota_rel (u_ota u) x' ->
    trace (u_io u) = evs ++ trace_of d -> Forall (fun e => ~ foreign e) evs ->
    exists d', serve (wire [(p, n)]) d = Done tt d' /\ stage k d [(p, n)] r evs d' x' /\
      steady (world (u_io u)) (world (d_io d')).
Proof.
  intros Hl Hask Hca. destruct (deliver_all k d p req x n Hl Hask Hca) as (junk & Hj). exists junk.
  intros r u x' evs Ec Hrel Ht He.
  destruct (Hj r u x' Ec Hrel) as (d' & E & [Dl Du Ds Dst _ Df]).
  { by rewrite Ht, sent_app, (own_silent evs He), app_nil_r. }
  exists d'. rewrite wire_one. split; [done|]. split; [|done].
  split; [done|by rewrite Du, Ht, own_updates|by rewrite answers_one|].
  intros q Hq Hn. apply Df; [done|]. intros E'. apply Hn. cbn [fmap list_fmap fst]. rewrite E'. by left.
Qed.

Lemma begin_stage k d p n size digest part :
  on_link k d None -> asks k (ReqBegin (le32 size ++ digest)) p -> cached (d_auth d) p = None ->
  esp_ota_get_next_update_partition (world (d_io d)) = Some part -> 0 < size <= part_size part ->
  len digest = OTA_SHA256_SIZE ->
  exists h d', let x := mk_session part size h digest [] in
    serve (wire [(p, n)]) d = Done tt d' /\
    stage k d [(p, n)] ERR_OK [EvOtaBegin part size ESP_OK h] d' (Some x) /\ on_flash (world (d_io d')) x.
Proof.
  intros Hl Hask Hca Hpart Hsz Hdg. destruct (one_stage k d p n _ None Hl Hask Hca) as (junk & Hj).
  pose proof (asks_bytes _ _ _ Hask) as Hb. cbn [request_payload] in Hb. apply Forall_app in Hb as [_ Hb].
  destruct (serve_begin junk (view device_updater d) size digest part (device_ota_rel _ _ (on_ok _ _ _ Hl))
    Hpart Hsz Hdg Hb) as (h & u & Ec & Hrel & Ht & Hf).
  destruct (Hj _ _ _ [EvOtaBegin part size ESP_OK h] Ec Hrel Ht) as (d' & E & Hs & Hst); [by repeat constructor; intros []|].
  exists h, d'. split; [done|]. split; [done|]. by eapply steady_on_flash.
Qed.

Lemma chunk_stage k d p n (x : session) i c :
  on_link k d (Some x) -> asks k (ReqData (le32 i ++ le32 (len (ses_image x)) ++ c)) p ->
  cached (d_auth d) p = None -> u32 i -> u32 (len (ses_image x)) -> 1 <= len c ->
  len (ses_image x) + len c <= ses_size x -> on_flash (world (d_io d)) x ->
  head (ses_image x ++ c) = Some ESP_IMAGE_HEADER_MAGIC ->
  exists d', serve (wire [(p, n)]) d = Done tt d' /\
    stage k d [(p, n)] ERR_OK [EvOtaWrite (ses_handle x) c ESP_OK] d' (Some (accept c x)) /\
    on_flash (world (d_io d')) (accept c x).
Proof.
  intros Hl Hask Hca Hi Ho Hc Hfit Hfl Hm. destruct (one_stage k d p n _ _ Hl Hask Hca) as (junk & Hj).
  pose proof (asks_bytes _ _ _ Hask) as Hb. cbn [request_payload] in Hb.
  apply Forall_app in Hb as [_ Hb]. apply Forall_app in Hb as [_ Hb].
  pose proof (asks_length _ _ _ Hask) as Hlen. cbn [request_payload] in Hlen.
  destruct (serve_new junk (view device_updater d) x i _ c (device_ota_rel _ _ (on_ok _ _ _ Hl)) Hi Ho Hb
    ltac:(sizes) eq_refl Hfit Hfl Hm) as (u & Ec & Hrel & Ht & Hf).
  destruct (Hj _ _ _ [EvOtaWrite (ses_handle x) c ESP_OK] Ec Hrel Ht) as (d' & E & Hs & Hst);
    [by repeat constructor; intros []|].
  exists d'. split; [done|]. split; [done|]. by eapply steady_on_flash.
Qed.

Lemma end_stage k d p n (x : session) :
  on_link k d (Some x) -> asks k ReqEnd p -> cached (d_auth d) p = None ->
  len (ses_image x) = ses_size x -> on_flash (world (d_io d)) x ->
  let r := end_answer (ses_digest x) (ses_image x) in
  exists evs d', serve (wire [(p, n)]) d = Done tt d' /\ stage k d [(p, n)] r evs d' None /\
    end_outcome r (ses_partition x) evs (world (d_io d')).
Proof.
  intros Hl Hask Hca Hlen Hfl r. destruct (one_stage k d p n _ _ Hl Hask Hca) as (junk & Hj).
  destruct (serve_end junk (view device_updater d) x (device_ota_rel _ _ (on_ok _ _ _ Hl)) Hlen Hfl)
    as (evs & u & Ec & Hrel & Ht & Hown & Hok).
  destruct (Hj _ _ _ evs Ec Hrel Ht Hown) as (d' & E & Hs & Hst).
  exists evs, d'. split; [done|]. split; [done|]. fold r in Hok. unfold end_outcome in *.
  destruct (bool_decide (r = ERR_OK)); [|done]. by destruct Hst as (_ & _ & -> & _).
Qed.

(** The chunks one after the other, each delivered any number of times. *)
Lemma chunks_stage k cs : forall d (x : session) i l,
  on_link k d (Some x) -> Forall2 (asks k) (data_requests i (len (ses_image x)) cs) l.*1 ->
  NoDup (request_id <$> l.*1) -> Forall (fun p => cached (d_auth d) p = None) l.*1 ->
  0 <= i <= len (ses_image x) -> Forall (fun c => 1 <= len c) cs ->
  len (ses_image x) + len (concat cs) <= ses_size x -> on_flash (world (d_io d)) x ->
  head (ses_image x ++ concat cs) = Some ESP_IMAGE_HEADER_MAGIC ->
  exists d', serve (wire l) d = Done tt d' /\
    stage k d l ERR_OK (reverse ((fun c => EvOtaWrite (ses_handle x) c ESP_OK) <$> cs)) d' (Some (accept_all cs x)) /\
    on_flash (world (d_io d')) (accept_all cs x).
Proof.
  induction cs as [|c cs IH]; intros d x i l Hl Hask Hnd Hca Hi Hcs Hfit Hfl Hm; cbn [data_requests] in Hask.
  { apply Forall2_nil_inv_l, fmap_nil_inv in Hask as ->. exists d. split; [done|]. split; [|done].
    split; [done|done|cbn; by rewrite app_nil_r|done]. }
  apply Forall2_cons_inv_l in Hask as (p & ps & Hp & Hps & El).
  destruct l as [|[p' n] l]; [done|]. injection El as Ep Eps. cbn [fst] in Ep. subst p' ps.
  cbn [fmap list_fmap fst] in Hnd, Hca. inversion_clear Hnd as [|?? Hni Hnd']. inversion_clear Hca as [|?? Hc Hca'].
  inversion_clear Hcs as [|?? Hlen Hcs']. cbn [concat] in Hfit, Hm. rewrite zlen_app in Hfit.
  pose proof (zlen_nonneg (concat cs)).
  pose proof (device_ota_rel _ _ (on_ok _ _ _ Hl)) as [_ _ [Hx Hpf]]. pose proof (rel_fits _ _ Hx) as Hsz.
  unfold partition_fits in Hpf. rewrite app_assoc in Hm.
  destruct (chunk_stage k d p n x i c Hl Hp Hc) as (d1 & E1 & S1 & F1); [sizes|sizes|done|lia|done| |].
  { rewrite <-Hm. symmetry. apply head_app_long. sizes. }
  pose proof S1 as [L1 _ _ Fr1].
  destruct (IH d1 (accept c x) (i + 1) l L1) as (d2 & E2 & S2 & F2); try done.
  - by rewrite ses_image_accept, zlen_app.
  - apply Forall_forall. intros q Hq. apply Fr1; [by eapply Forall_forall in Hca'|].
    cbn [fmap list_fmap fst]. intros Hin%list_elem_of_singleton. apply Hni. rewrite <-Hin.
    by apply list_elem_of_fmap_2.
  - rewrite ses_image_accept, zlen_app. lia.
  - rewrite ses_image_accept, zlen_app. cbn [accept ses_size]. lia.
  - by rewrite ses_image_accept.
  - exists d2. split; [|split; [|done]].
    + change ((p, n) :: l) with ([(p, n)] ++ l). by rewrite wire_app, (serve_app _ _ _ _ E1).
    + change ((p, n) :: l) with ([(p, n)] ++ l). cbn [fmap list_fmap]. rewrite reverse_cons.
      change (accept_all (c :: cs) x) with (accept_all cs (accept c x)). by eapply stage_trans.
Qed.
End Stages.

(** * Lemmas: the handshake *)

Section Handshake.
Context {W : Type} `{EspIdf W, !EspIdfSpec W, !FlashSpec W, Sha256Spec, !HealthyFlash W}.
Implicit Types (d : device W) (p : protocol_packet_t) (x : option session) (k : list Z).

Lemma cached_zero a p : replay_cache a = cache_zero -> cached a p = None.
Proof.
  intros E. unfold cached. rewrite E. apply fmap_None, list_find_None. by apply Forall_replicate.
Qed.

Lemma auth_dispatch p d s' :
  pkt_version p = PROTOCOL_VERSION -> pkt_command p = command_byte CMD_AUTH ->
  auth_handle_packet p (view device_authed d) = Done ERR_OK s' ->
  commands_handle_packet p d = Done tt (set device_authed s' d).
Proof.
  intros Hv Hc E. unfold commands_handle_packet. rewrite Hv, Hc, Z.eqb_refl.
  cbn -[handle_auth]. unfold handle_auth.
  by rewrite (bind_Done _ _ _ _ _ (zoom_Done _ _ _ _ _ E)).
Qed.

(** An accepted handshake packet keeps the device and sends one answer. *)
Lemma auth_step p d x s' :
  device_ok d x -> received p -> auth_handle_packet p (view device_authed d) = Done ERR_OK s' ->
  device_ok (set device_authed s' d) x.
Proof.
  intros Hd [Hp _] E.
  destruct (auth_handle_packet_safe p _ (device_authed_ok _ _ Hd) Hp) as (e & s & E' & Hsafe & _).
  rewrite E in E'. injection E' as <- <-.
  destruct (zoom_authed_quiet _ d x _ _ _ Hd E Hsafe) as (_ & Hq & _). by eapply quiet_ok.
Qed.

Definition server_nonce_of d : list Z := (esp_fill_random AUTH_NONCE_SIZE (world (d_io d))).1.

(** The answers of the handshake. *)
Definition challenge_reply (key : list Z) p (server : list Z) : list Z :=
  encode_frame (sent_frame (command_byte CMD_ACK) (pkt_sequence p)
    ([error_byte ERR_OK] ++ server ++ device_proof_tag key (pkt_data p) server)).
Definition ack_frame p : list Z :=
  encode_frame (sent_frame (command_byte CMD_ACK) (pkt_sequence p) [error_byte ERR_OK]).

(** The two packets of a host that knows the key. *)
Record handshake (key : list Z) d p1 p2 : Prop := {
  hs_received : received p1 /\ received p2;
  hs_version : pkt_version p1 = PROTOCOL_VERSION /\ pkt_version p2 = PROTOCOL_VERSION;
  hs_command : pkt_command p1 = command_byte CMD_AUTH /\ pkt_command p2 = command_byte CMD_AUTH;
  hs_challenge : pkt_length p1 = AUTH_NONCE_SIZE;
  hs_proof : pkt_data p2 = pkt_data p1 ++ proof_tag key (pkt_data p1) (server_nonce_of d)
}.

(** A device before the handshake, over a link that leaves its flash alone. *)
Record awaiting (key : list Z) d : Prop := {
  aw_ok : device_ok d None;
  aw_required : required (d_auth d) = true;
  aw_key : psk (d_auth d) = key;
  aw_steady : link_steady (d_proto d);
  aw_random n (w : W) : steady w (esp_fill_random n w).2
}.

Lemma challenge_stage key d p1 p2 :
  awaiting key d -> handshake key d p1 p2 ->
  exists d', commands_handle_packet p1 d = Done tt d' /\ device_ok d' None /\ link_steady (d_proto d') /\
    d_auth d' = challenged (pkt_data p1) (server_nonce_of d) (d_auth d) /\
    steady (world (d_io d)) (world (d_io d')) /\
    sent (trace_of d') = sent (trace_of d) ++ [challenge_reply key p1 (server_nonce_of d)] /\
    updates (trace_of d') = updates (trace_of d).
Proof.
  intros [Hd Hr Hk Hst Hrnd] [[Hp1 _] [Hv1 _] [Hc1 _] Hl _].
  pose proof (auth_challenge_run p1 _ (device_authed_ok _ _ Hd) (proj1 Hp1) Hl) as Hrun.
  rewrite <-handle_challenge in Hrun by done. unfold draw_random in Hrun. unfold server_nonce_of.
  pose proof (Hrnd AUTH_NONCE_SIZE (world (d_io d))) as Hw. cbn [device_authed view a_auth a_link l_io l_proto] in Hrun.
  destruct (esp_fill_random AUTH_NONCE_SIZE (world (d_io d))) as [server w]. cbn [fst snd a_link] in *.
  set (s := mk_authed (challenged _ _ _) _) in Hrun. set (s' := reply _ _ _ s) in Hrun.
  exists (set device_authed s' d). split; [by apply auth_dispatch|]. split; [by apply (auth_step p1)|].
  destruct (after_send_steady (encode_frame (sent_frame (command_byte CMD_ACK) (pkt_sequence p1)
    (challenge_answer (d_auth d) (pkt_data p1) server))) (a_link s) Hst) as [Hw' Hst'].
  destruct (reply_trace (command_byte CMD_ACK) (pkt_sequence p1)
    (challenge_answer (d_auth d) (pkt_data p1) server) s) as [err T].
  assert (trace_of (set device_authed s' d) = EvTx (challenge_reply key p1 server) err :: EvRandom server :: trace_of d)
    as T'. { rewrite <-Hk. exact T. }
  split; [exact Hst'|]. split; [done|]. split; [by eapply steady_trans|].
  rewrite T'. split; [done|]. rewrite updates_tx. unfold updates. rewrite filter_cons_False; [done|]. by intros [].
Qed.

Lemma handshake_stage key d p1 p2 :
  awaiting key d -> handshake key d p1 p2 ->
  let k := derived AUTH_SESSION_PREFIX key (pkt_data p1) (server_nonce_of d) in
  exists d', serve [p1; p2] d = Done tt d' /\ on_link k d' None /\
    (forall q, cached (d_auth d') q = None) /\ steady (world (d_io d)) (world (d_io d')) /\
    sent (trace_of d') = sent (trace_of d) ++ [challenge_reply key p1 (server_nonce_of d); ack_frame p2] /\
    updates (trace_of d') = updates (trace_of d).
Proof.
  intros Haw Hhs k. destruct (challenge_stage key d p1 p2 Haw Hhs) as (d1 & E1 & Hd1 & Hst1 & Ea & Hw1 & Se1 & Up1).
  destruct Haw as [Hd Hr Hk _ _], Hhs as [[Hp1 Hp2] [_ Hv2] [_ Hc2] Hl Hdata].
  assert (required (d_auth d1) = true) as Hr1 by (by rewrite Ea).
  assert (pkt_length p2 = AUTH_NONCE_SIZE + AUTH_TAG_SIZE) as Hl2.
  { rewrite <-(zlen_pkt_data p2 (proj1 Hp2)), Hdata, zlen_app, (zlen_pkt_data p1 (proj1 Hp1)), Hl. unfold proof_tag.
    by rewrite zlen_tag_of by apply zlen_hmac. }
  pose proof (auth_proof_run p2 _ (device_authed_ok _ _ Hd1) (proj1 Hp2) Hl2) as Hrun.
  assert (proof_good (d_auth d1) p2 = true) as Hg.
  { unfold proof_good. rewrite Ea. apply bool_decide_true. rewrite Hdata, <-Hk. done. }
  cbn [device_authed view a_auth a_link] in Hrun. rewrite Hg in Hrun.
  change (mk_authed (d_auth d1) _) with (view device_authed d1) in Hrun at 1.
  rewrite <-handle_proof in Hrun by done.
  set (s := mk_authed (set_flags false true (d_auth d1)) _) in Hrun. set (s' := reply _ _ _ s) in Hrun.
  exists (set device_authed s' d1).
  destruct (after_send_steady (encode_frame (sent_frame (command_byte CMD_ACK) (pkt_sequence p2) [error_byte ERR_OK]))
    (a_link s) Hst1) as [Hw2 Hst2].
  destruct (reply_trace (command_byte CMD_ACK) (pkt_sequence p2) [error_byte ERR_OK] s) as [err T].
  assert (trace_of (set device_authed s' d1) = EvTx (ack_frame p2) err :: trace_of d1) as T' by exact T.
  split; [|split; [|split; [|split; [|split]]]].
  - cbn [serve]. rewrite (bind_Done _ _ _ _ _ E1). by rewrite (bind_Done _ _ _ _ _ (auth_dispatch p2 d1 s' Hv2 Hc2 Hrun)).
  - split; [by apply (auth_step p2)| |exact Hst2].
    split; [exact Hr1|]. split; [done|]. change (session_key (d_auth d1) = k). rewrite Ea. subst k. by rewrite <-Hk.
  - intros q. apply cached_zero. change (replay_cache (d_auth d1) = cache_zero). by rewrite Ea.
  - by eapply steady_trans.
  - rewrite T'. cbn [sent]. by rewrite Se1, <-app_assoc.
  - by rewrite T', updates_tx.
Qed.
End Handshake.

(** * Properties *)

Section Properties.
Context {W : Type} `{EspIdf W, !EspIdfSpec W, !FlashSpec W, Sha256Spec, !HealthyFlash W}.

(** What the host sends for an image in a session: the announcement, the chunks
    and the end, each tagged, under request ids of their own. *)
Record host_update (k digest : list Z) (chunks : list (list Z)) (first : delivery) (l : list delivery)
    (last : delivery) : Prop := {
  hu_begin : asks k (ReqBegin (le32 (len (concat chunks)) ++ digest)) first.1;
  hu_chunks : Forall2 (asks k) (data_requests 0 0 chunks) l.*1;
  hu_end : asks k ReqEnd last.1;
  hu_ids : NoDup (request_id <$> ((first :: l) ++ [last]).*1)
}.

(** C37 (liveness): a host that knows the key installs an image over a lossy link.
    The device requires authentication and is idle; flash works, and sending and
    drawing random bytes leave it alone. The host completes the handshake, then
    announces an image, sends its chunks and ends the update, every packet of
    the update tagged and sent any number of times. Then every packet is
    answered, the update packets with signed answers, the same for every
    repetition; flash sees one OTA_BEGIN and each chunk once and in order; and
    OTA_END is acknowledged and the slot is the boot choice exactly if ESP-IDF
    takes the bytes for an application image with the announced digest. *)
Theorem host_installs_the_image (d : device W) key part p1 p2 digest chunks first l last :
  awaiting key d -> handshake key d p1 p2 ->
  esp_ota_get_next_update_partition (world (d_io d)) = Some part ->
  let k := derived AUTH_SESSION_PREFIX key (pkt_data p1) (server_nonce_of d) in
  let image := concat chunks in
  host_update k digest chunks first l last ->
  Forall (fun c => 1 <= len c) chunks -> len image <= part_size part ->
  head image = Some ESP_IMAGE_HEADER_MAGIC -> len digest = OTA_SHA256_SIZE ->
  let result := end_answer digest image in
  exists d' h evs,
    serve ([p1; p2] ++ wire ((first :: l) ++ [last])) d = Done tt d' /\ device_ok d' None /\
    sent (trace_of d') = sent (trace_of d) ++ [challenge_reply key p1 (server_nonce_of d); ack_frame p2] ++
      answers k ERR_OK (first :: l) ++ answers k result [last] /\
    updates (trace_of d') = evs ++ reverse ((fun c => EvOtaWrite h c ESP_OK) <$> chunks) ++
      EvOtaBegin part (len image) ESP_OK h :: updates (trace_of d) /\
    if bool_decide (image_digest image = Some digest)
    then result = ERR_OK /\ esp_ota_get_boot_partition (world (d_io d')) = Some part
    else result <> ERR_OK /\ Forall (fun e => match e with EvSetBoot _ _ => False | _ => True end) evs.
Proof.
  intros Haw Hhs Hpart k image [Hb Hcs He Hids] Hlen Hsize Hmagic Hdg result.
  destruct (handshake_stage key d p1 p2 Haw Hhs) as (d0 & E0 & L0 & Hca & Hw0 & Se0 & Up0). fold k in L0.
  destruct first as [bp nb], last as [ep ne]. cbn [fst] in *.
  rewrite fmap_app, (fmap_app _ (((bp, nb) :: l).*1)) in Hids. apply NoDup_app in Hids as (Hnd & Hend & _).
  cbn [fmap list_fmap fst] in Hnd, Hend. inversion_clear Hnd as [|?? Hni Hnd'].
  assert (0 < len image <= part_size part) as Hs.
  { split; [|done]. destruct image; [done|]. rewrite zlen_cons. pose proof (zlen_nonneg image). lia. }
  destruct (begin_stage k d0 bp nb (len image) digest part L0 Hb (Hca bp)) as (h & d1 & E1 & S1 & F1); [|done..|].
  { destruct Hw0 as (_ & _ & _ & ->). exact Hpart. }
  set (x0 := mk_session part (len image) h digest []) in *.
  destruct (chunks_stage k chunks d1 x0 0 l (st_link _ _ _ _ _ _ _ S1) Hcs Hnd') as (d2 & E2 & S2 & F2); try done.
  { apply Forall_forall. intros q Hq. apply (st_fresh _ _ _ _ _ _ _ S1); [apply Hca|].
    cbn [fmap list_fmap fst]. intros Hin%list_elem_of_singleton. apply Hni. rewrite <-Hin.
    by apply list_elem_of_fmap_2. }
  pose proof (accept_all_fields chunks x0) as (P1 & P2 & P3 & P4).
  assert (ses_image (accept_all chunks x0) = image) as Ei by apply accept_all_image.
  pose proof (stage_trans _ _ _ _ _ _ _ _ _ _ _ S1 S2) as S12.
  destruct (end_stage k d2 ep ne _ (st_link _ _ _ _ _ _ _ S2) He) as (evs & d3 & E3 & S3 & Hout); [|by rewrite Ei, P2|done|].
  { apply (st_fresh _ _ _ _ _ _ _ S12); [apply Hca|]. intros Hin. eapply Hend; [exact Hin|]. by left. }
  rewrite P1, P4, Ei in *. fold result in S3, Hout.
  exists d3, h, evs. split; [|split; [|split; [|split]]].
  - rewrite (serve_app _ _ _ _ E0). change ((bp, nb) :: l) with ([(bp, nb)] ++ l).
    by rewrite !wire_app, <-app_assoc, (serve_app _ _ _ _ E1), (serve_app _ _ _ _ E2).
  - apply (on_ok _ _ _ (st_link _ _ _ _ _ _ _ S3)).
  - rewrite (st_sent _ _ _ _ _ _ _ S3), (st_sent _ _ _ _ _ _ _ S12), Se0. by rewrite <-!app_assoc.
  - rewrite (st_updates _ _ _ _ _ _ _ S3), (st_updates _ _ _ _ _ _ _ S12), Up0. by rewrite <-!app_assoc.
  - by apply end_outcome_spec.
Qed.
End Properties.

(** ** Concrete instances *)

(** The host of [example_host], with its chunks, some packets sent repeatedly. *)
Definition example_parts : list (list Z) := [take 2 example_image; drop 2 example_image].
Definition session_packet (command sequence : Z) (data : list Z) : protocol_packet_t :=
  tagged_packet example_session command sequence data.
Definition example_challenge : protocol_packet_t := make_packet 0x05 1 example_nonce.
Definition example_response : protocol_packet_t :=
  make_packet 0x05 2 (example_nonce ++ proof_tag example_key example_nonce (zeros 16)).
Definition example_first : delivery := (session_packet 0x10 3 (le32 35 ++ example_digest), 1%nat).
Definition example_middle : list delivery :=
  [(session_packet 0x11 4 (le32 0 ++ le32 0 ++ take 2 example_image), 2%nat);
   (session_packet 0x11 5 (le32 1 ++ le32 2 ++ drop 2 example_image), 0%nat)].
Definition example_last : delivery := (session_packet 0x12 6 [], 3%nat).

Lemma key_device_awaiting : awaiting example_key key_device.
Proof. split; [apply key_device_ok|vm_compute; reflexivity..|by intros data w|by intros n w]. Qed.

Lemma example_packets_received :
  Forall received ([example_challenge; example_response] ++ ((example_first :: example_middle) ++ [example_last]).*1).
Proof. apply (bool_decide_eq_true_1 (Forall received _)). vm_compute. reflexivity. Qed.

Lemma example_handshake_packets : handshake example_key key_device example_challenge example_response.
Proof.
  pose proof example_packets_received as Hall. apply Forall_cons in Hall as [H1 Hall].
  apply Forall_cons in Hall as [H2 _]. split; [done|done|done|reflexivity|]. vm_compute. reflexivity.
Qed.

Lemma example_session_key :
  derived AUTH_SESSION_PREFIX example_key (pkt_data example_challenge) (server_nonce_of key_device) = example_session.
Proof. vm_compute. reflexivity. Qed.

#[export] Instance asks_dec k req p : Decision (asks k req p).
Proof. unfold asks. apply _. Defined.

Lemma example_update : host_update example_session example_digest example_parts example_first example_middle example_last.
Proof.
  split.
  - apply (bool_decide_eq_true_1 (asks _ _ _)). vm_compute. reflexivity.
  - apply (bool_decide_eq_true_1 (Forall2 (asks _) _ _)). vm_compute. reflexivity.
  - apply (bool_decide_eq_true_1 (asks _ _ _)). vm_compute. reflexivity.
  - apply (bool_decide_eq_true_1 (NoDup _)). vm_compute. reflexivity.
Qed.

Lemma example_parts_image : concat example_parts = example_image.
Proof. vm_compute. reflexivity. Qed.
Lemma example_parts_length : Forall (fun c => 1 <= len c) example_parts.
Proof. vm_compute. repeat constructor; discriminate. Qed.

Lemma host_installs_the_image_witness :
  exists d' h evs,
    serve ([example_challenge; example_response] ++ wire ((example_first :: example_middle) ++ [example_last]))
      key_device = Done tt d' /\
    updates (trace_of d') = evs ++ reverse ((fun c => EvOtaWrite h c ESP_OK) <$> example_parts) ++
      [EvOtaBegin sim_ota_1 35 ESP_OK h] /\
    sim_boot (world (d_io d')) = Some sim_ota_1.
Proof.
  pose proof (host_installs_the_image key_device example_key sim_ota_1 example_challenge example_response
    example_digest example_parts example_first example_middle example_last key_device_awaiting
    example_handshake_packets eq_refl) as P.
  cbv zeta in P. rewrite example_session_key, example_parts_image in P.
  destruct (P example_update example_parts_length) as (d' & h & evs & E & _ & _ & Eu & Hboot);
    [vm_compute; discriminate|vm_compute; reflexivity|vm_compute; reflexivity|].
  rewrite bool_decide_true in Hboot by exact example_image_good.
  exists d', h, evs. split; [exact E|]. split; [exact Eu|apply Hboot].
Defined.
