(* ===== verification/OtaLink.v ===== *)
(** ota_link.h and ota_link.c: the configuration, the start of the component, the
    command loop and the task that confirms the application; the whole program as
    steps of its tasks, and what bytes on the link can cause. *)
From stdpp Require Import sets.
From S2P Require Import Prelude Machine EspIdf SimEnv Protocol Hmac Auth OtaManager DeviceInfo Lifecycle Commands.

(** * Data *)

Record ota_link_transport_t (W : Type) : Type := mk_transport {
  tr_read : option (reader W);
  tr_write : option (writer W)
}.
Arguments mk_transport {W}. Arguments tr_read {W}. Arguments tr_write {W}.

Record ota_link_config_t (W : Type) : Type := mk_config {
  cfg_uart_port : Z;
  cfg_baud_rate : Z;
  cfg_tx_io_num : Z;
  cfg_rx_io_num : Z;
  cfg_rts_io_num : Z;
  cfg_cts_io_num : Z;
  cfg_rx_buffer_size : Z;
  cfg_task_stack_size : Z;
  cfg_task_priority : Z;
  cfg_auto_mark_app_valid : bool;
  cfg_auto_mark_valid_delay_ms : Z;
  cfg_auth_key : option (list Z);
  cfg_auth_key_len : Z;
  cfg_require_authentication : bool;
  cfg_transport : option (ota_link_transport_t W);
  cfg_transport_context : Z
}.
Arguments mk_config {W}. Arguments cfg_uart_port {W}. Arguments cfg_baud_rate {W}.
Arguments cfg_tx_io_num {W}. Arguments cfg_rx_io_num {W}. Arguments cfg_rts_io_num {W}.
Arguments cfg_cts_io_num {W}. Arguments cfg_rx_buffer_size {W}. Arguments cfg_task_stack_size {W}.
Arguments cfg_task_priority {W}. Arguments cfg_auto_mark_app_valid {W}.
Arguments cfg_auto_mark_valid_delay_ms {W}. Arguments cfg_auth_key {W}. Arguments cfg_auth_key_len {W}.
Arguments cfg_require_authentication {W}. Arguments cfg_transport {W}. Arguments cfg_transport_context {W}.

Definition UART_NUM_0 : Z := 0.
Definition UART_PIN_NO_CHANGE : Z := -1.

Definition OTA_LINK_DEFAULT_CONFIG {W} : ota_link_config_t W :=
  mk_config UART_NUM_0 115200 UART_PIN_NO_CHANGE UART_PIN_NO_CHANGE UART_PIN_NO_CHANGE
    UART_PIN_NO_CHANGE 2048 8192 5 false 5000 None 0 false None 0.

Definition set_transport {W} (t : option (ota_link_transport_t W)) (context : Z)
    (c : ota_link_config_t W) : ota_link_config_t W :=
  mk_config (cfg_uart_port c) (cfg_baud_rate c) (cfg_tx_io_num c) (cfg_rx_io_num c) (cfg_rts_io_num c)
    (cfg_cts_io_num c) (cfg_rx_buffer_size c) (cfg_task_stack_size c) (cfg_task_priority c)
    (cfg_auto_mark_app_valid c) (cfg_auto_mark_valid_delay_ms c) (cfg_auth_key c) (cfg_auth_key_len c)
    (cfg_require_authentication c) t context.

(** The statics of ota_link.c, with those of the components below; a NULL task
    handle is 0. *)
Record system (W : Type) : Type := mk_system {
  y_device : device W;
  s_parser : protocol_parser_t;
  s_packet : protocol_packet_t;
  s_config : ota_link_config_t W;
  s_task_handle : Z;
  s_mark_valid_task_handle : Z
}.
Arguments mk_system {W}. Arguments y_device {W}. Arguments s_parser {W}. Arguments s_packet {W}.
Arguments s_config {W}. Arguments s_task_handle {W}. Arguments s_mark_valid_task_handle {W}.

Definition system_device {W} : lens (system W) (device W) :=
  mk_lens y_device (fun t y => mk_system t (s_parser y) (s_packet y) (s_config y) (s_task_handle y)
                                 (s_mark_valid_task_handle y)).
Definition system_io {W} : lens (system W) (io W) :=
  mk_lens (fun y => view device_io (y_device y))
    (fun t y => set system_device (set device_io t (y_device y)) y).
Definition system_proto {W} : lens (system W) (proto_state W) :=
  mk_lens (fun y => d_proto (y_device y))
    (fun t y => let d := y_device y in
       set system_device (mk_device (d_auth d) t (d_ota d) (d_boot_count d) (d_info_payload d) (d_io d)) y).
Definition system_info {W} : lens (system W) (info_state W) :=
  mk_lens (fun y => mk_info (d_boot_count (y_device y)) (d_io (y_device y)))
    (fun t y => let d := y_device y in
       set system_device (mk_device (d_auth d) (d_proto d) (d_ota d) (s_boot_count t) (d_info_payload d) (i_io t)) y).
Definition set_device_auth {W} (a : auth_state_t) : M (system W) unit :=
  modify (fun y => let d := y_device y in
    set system_device (mk_device a (d_proto d) (d_ota d) (d_boot_count d) (d_info_payload d) (d_io d)) y).
Definition set_parser {W} (p : protocol_parser_t) : M (system W) unit :=
  modify (fun y => mk_system (y_device y) p (s_packet y) (s_config y) (s_task_handle y) (s_mark_valid_task_handle y)).
Definition set_packet {W} (p : protocol_packet_t) : M (system W) unit :=
  modify (fun y => mk_system (y_device y) (s_parser y) p (s_config y) (s_task_handle y) (s_mark_valid_task_handle y)).
Definition set_config {W} (c : ota_link_config_t W) : M (system W) unit :=
  modify (fun y => mk_system (y_device y) (s_parser y) (s_packet y) c (s_task_handle y) (s_mark_valid_task_handle y)).
Definition set_task_handle {W} (h : Z) : M (system W) unit :=
  modify (fun y => mk_system (y_device y) (s_parser y) (s_packet y) (s_config y) h (s_mark_valid_task_handle y)).
Definition set_mark_valid_task_handle {W} (h : Z) : M (system W) unit :=
  modify (fun y => mk_system (y_device y) (s_parser y) (s_packet y) (s_config y) (s_task_handle y) h).

(** * Operations *)

Section Code.
Context {W : Type} `{EspIdf W, Sha256}.

Definition uart_transport_read : reader W := fun context length timeout_ms w =>
  uart_read_bytes context length (pdMS_TO_TICKS timeout_ms) w.
Definition uart_transport_write : writer W := fun context data w =>
  let '(written, w) := uart_write_bytes context data w in
  (if written =? len data then ESP_OK else ESP_FAIL, w).
Definition s_uart_transport : ota_link_transport_t W :=
  mk_transport (Some uart_transport_read) (Some uart_transport_write).

Definition mark_valid_task : M (system W) unit :=
  c ← gets s_config;
  _ ← zoom system_io (delay_ms (cfg_auto_mark_valid_delay_ms c));
  err ← zoom system_io ota_link_mark_app_valid;
  set_mark_valid_task_handle 0.

(** One turn of the command loop (lines 90-96). The buffer is the single local
    [byte], which starts as 0. *)
Definition ota_link_step : M (system W) unit :=
  c ← gets s_config;
  transport ← ub (cfg_transport c);
  read_bytes ← ub (tr_read transport);
  r ← zoom system_io
        (call (read_bytes (cfg_transport_context c) 1 100) (fun r => EvRx r.1 r.2));
  let '(read, data) := r in
  byte ← ub (blit [0] 0 data);
  byte ← ub (zget byte 0);
  if read =? 1 then
    y ← get;
    fed ← ub (protocol_parser_feed (s_parser y) byte (s_packet y));
    let '(complete, parser, packet) := fed in
    _ ← set_parser parser;
    _ ← set_packet packet;
    if complete : bool then zoom system_device (commands_handle_packet packet)
    else mret tt
  else if read <? 0 then zoom system_io (delay_ms 10)
  else mret tt.

(** The command task, for [n] turns of its loop. *)
Definition ota_link_task (n : nat) : M (system W) unit :=
  y ← get;
  _ ← set_parser (protocol_parser_init (s_parser y));
  run_steps n ota_link_step.

(** Lines 123-164: the UART is set up when no transport is configured. *)
Definition start_uart : M (system W) esp_err_t :=
  c ← gets s_config;
  let port := cfg_uart_port c in
  err ← zoom system_io (call (uart_driver_install port (cfg_rx_buffer_size c)) (EvUartInstall port));
  if negb (bool_decide (err = ESP_OK)) then mret err else
  err ← zoom system_io (call (uart_param_config port (cfg_baud_rate c)) (EvUartConfig port));
  if negb (bool_decide (err = ESP_OK)) then
    _ ← zoom system_io (call (uart_driver_delete port) (fun _ => EvUartDelete port));
    mret err
  else
  err ← zoom system_io
          (call (uart_set_pin port (cfg_tx_io_num c) (cfg_rx_io_num c) (cfg_rts_io_num c) (cfg_cts_io_num c))
             (EvUartPins port));
  if negb (bool_decide (err = ESP_OK)) then
    _ ← zoom system_io (call (uart_driver_delete port) (fun _ => EvUartDelete port));
    mret err
  else
  _ ← set_config (set_transport (Some s_uart_transport) port c);
  mret ESP_OK.

(** Lines 174-204: the tasks. *)
Definition start_tasks (config : ota_link_config_t W) : M (system W) esp_err_t :=
  c ← gets s_config;
  created ← zoom system_io
    (call (xTaskCreate task_ota_link (cfg_task_stack_size c) (cfg_task_priority c))
       (fun r => EvTaskCreate task_ota_link r.1));
  _ ← set_task_handle created.2;
  if negb created.1 then
    _ ← (match cfg_transport config with
         | None =>
             _ ← zoom system_io (call (uart_driver_delete (cfg_uart_port c))
                                   (fun _ => EvUartDelete (cfg_uart_port c)));
             mret tt
         | Some _ => mret tt
         end);
    _ ← set_task_handle 0;
    mret ESP_ERR_NO_MEM
  else
  needed ← (if cfg_auto_mark_app_valid c then zoom system_io running_app_needs_validation else mret false);
  _ ← (if needed : bool then
         created ← zoom system_io
           (call (xTaskCreate task_mark_valid 3072 1) (fun r => EvTaskCreate task_mark_valid r.1));
         set_mark_valid_task_handle created.2
       else mret tt);
  mret ESP_OK.

(** Lines 116-117: a required key that is missing, empty or too long. *)
Definition key_missing (c : ota_link_config_t W) : bool :=
  cfg_require_authentication c &&
  (match cfg_auth_key c with None => true | Some _ => false end ||
   (cfg_auth_key_len c =? 0) || (AUTH_KEY_MAX_SIZE <? cfg_auth_key_len c)).

Definition ota_link_start_with_config (config : option (ota_link_config_t W)) : M (system W) esp_err_t :=
  match config with
  | None => mret ESP_ERR_INVALID_ARG
  | Some config =>
      handle ← gets s_task_handle;
      if negb (handle =? 0) then mret ESP_ERR_INVALID_STATE else
      _ ← set_config config;
      if key_missing config then mret ESP_ERR_INVALID_ARG else
      auth ← ub (auth_configure (cfg_auth_key config) (cfg_auth_key_len config)
                   (cfg_require_authentication config));
      _ ← set_device_auth auth;
      _ ← zoom system_info device_info_init;
      err ← (match cfg_transport config with
             | None => start_uart
             | Some t =>
                 match tr_read t, tr_write t with
                 | Some _, Some _ => mret ESP_OK
                 | _, _ => mret ESP_ERR_INVALID_ARG
                 end
             end);
      if negb (bool_decide (err = ESP_OK)) then mret err else
      c ← gets s_config;
      transport ← ub (cfg_transport c);
      _ ← zoom system_proto (protocol_set_writer (tr_write transport) (cfg_transport_context c));
      start_tasks config
  end.

Definition ota_link_start : M (system W) esp_err_t :=
  ota_link_start_with_config (Some OTA_LINK_DEFAULT_CONFIG).
End Code.

(** * Specifications *)

Definition trace_in {W} (y : system W) : list event := trace_of (y_device y).

(** A read callback that keeps to its buffer and stores bytes. *)
Definition reader_ok {W} (r : reader W) : Prop :=
  forall context n timeout w, 0 <= n ->
    bytes (r context n timeout w).1.2 /\ len (r context n timeout w).1.2 <= n.

Definition transport_ok {W} (t : option (ota_link_transport_t W)) : Prop :=
  exists r w, t = Some (mk_transport (Some r) (Some w)) /\ reader_ok r.

(** The packets delivered so far, newest first, carry the frames of the bytes
    read so far. *)
Definition heard (bs : list Z) (acc : list Z) (ps : list protocol_packet_t) : Prop :=
  exists frames, spec_stream [] bs = (acc, frames) /\ Forall2 carries (rev ps) frames.

(** The state of the loop between two turns, with an invariant [I] of the device. *)
Record linked {W} (I : list protocol_packet_t -> device W -> Prop) (ps : list protocol_packet_t)
    (y : system W) : Prop := {
  linked_device : I ps (y_device y);
  linked_parser : exists acc, heard (rx_bytes (trace_in y)) acc ps /\ parser_rel acc (s_parser y);
  linked_packet : packet_ok (s_packet y);
  linked_transport : transport_ok (cfg_transport (s_config y))
}.

(** The chip restarted while the newest of the packets was handled. *)
Definition stopped {W} (J : list protocol_packet_t -> device W -> Prop) (y : system W) : Prop :=
  exists ps acc, heard (rx_bytes (trace_in y)) acc ps /\ J ps (y_device y).

(** * Lemmas: one turn of the loop *)

Lemma read_byte data :
  len data <= 1 -> exists b, blit [0] 0 data = Some b /\ zget b 0 = Some (hd 0 data).
Proof.
  intros Hl. destruct data as [|x [|? ?]]; [by exists [0]|by exists [x]|].
  exfalso. rewrite !zlen_cons in Hl. pose proof (zlen_nonneg l). lia.
Qed.

Lemma heard_more bs acc ps b acc' out p :
  heard bs acc ps -> spec_feed acc b = (acc', out) ->
  match out with None => True | Some f => carries p f end ->
  heard (bs ++ [b]) acc' (if bool_decide (is_Some out) then p :: ps else ps).
Proof.
  intros (fs & E & Hf) Ef Ho. exists (fs ++ option_list out). split.
  - rewrite spec_stream_app, E. cbn [spec_stream]. rewrite Ef. by rewrite app_nil_r.
  - destruct out as [f|]; cbn; [|by rewrite app_nil_r]. apply Forall2_app; [done|]. by constructor.
Qed.

Lemma carries_received p f : carries p f -> received p.
Proof.
  intros Hc. destruct (carries_packet_in _ _ Hc) as [Hp E]. split; [done|]. rewrite E.
  destruct Hc as (_ & _ & (_ & _ & _ & Hb & _) & _). exact Hb.
Qed.

(** An event of the world around the handlers: no update effect, no restart, no
    transmission. *)
Definition outside (e : event) : Prop := foreign e /\ ~ is_restart e /\ tx_count [e] = O.

(** What the loop asks of an invariant of the device: it covers whatever the
    world does, and every delivered packet keeps it or ends in [J]. *)
Class LoopInvariant {W} `{EspIdf W, Sha256} (I J : list protocol_packet_t -> device W -> Prop) : Prop := {
  loop_device_ok ps d : I ps d -> exists x, device_ok d x;
  loop_event ps d e w : I ps d -> outside e -> I ps (set device_io (mk_io w (e :: trace_of d)) d);
  loop_packet ps p d : I ps d -> received p -> wp (commands_handle_packet p) (fun _ => I (p :: ps)) (J (p :: ps)) d
}.

Section Loop.
Context {W : Type} `{EspIdf W, !EspIdfSpec W, !FlashSpec W, Sha256Spec}.
Context (I J : list protocol_packet_t -> device W -> Prop) `{!LoopInvariant I J}.
Implicit Types (y : system W) (ps : list protocol_packet_t) (p : protocol_packet_t).

Lemma linked_event ps y e w :
  linked I ps y -> outside e -> rx_bytes [e] = [] ->
  linked I ps (set system_io (mk_io w (e :: trace_in y)) y).
Proof.
  intros [Hd Hp Hk Ht] He Hr. split; [by apply loop_event| |done..].
  destruct Hp as (acc & Hh & Hrel). exists acc. split; [|done].
  assert (rx_bytes (e :: trace_in y) = rx_bytes (trace_in y)) as E; 
    [|by change (heard (rx_bytes (e :: trace_in y)) acc ps); rewrite E].
  destruct e; try done. cbn [rx_bytes app] in Hr |- *. by rewrite Hr, app_nil_r.
Qed.

(** A delivered packet. *)
Lemma deliver_wp ps p acc y :
  I ps (y_device y) -> heard (rx_bytes (trace_in y)) acc (p :: ps) -> received p ->
  parser_rel acc (s_parser y) -> packet_ok (s_packet y) -> transport_ok (cfg_transport (s_config y)) ->
  wp (zoom system_device (commands_handle_packet p)) (fun _ y' => exists ps', linked I ps' y') (stopped J) y.
Proof.
  intros Hi Hh Hp Hrel Hk Ht. rewrite wp_zoom. cbn [system_device view].
  destruct (loop_device_ok ps (y_device y) Hi) as [x Hd].
  pose proof (wp_and _ _ _ _ _ _ (loop_packet ps p (y_device y) Hi Hp) (commands_wp p _ x Hd Hp)) as Hwp.
  eapply wp_mono; [exact Hwp| |].
  - intros _ d' [Hi' Hs]. pose proof (settles_rx _ _ _ _ Hs) as Hrx. exists (p :: ps). split; [done| |done..].
    exists acc. split; [|done]. unfold trace_in. cbn [system_device set y_device]. by rewrite Hrx.
  - intros d' [Hj Hr]. pose proof (restart_rx _ _ _ _ Hr) as Hrx. exists (p :: ps), acc. split; [|done].
    unfold trace_in. cbn [system_device set y_device]. by rewrite Hrx.
Qed.

Lemma ota_link_step_wp ps y :
  linked I ps y -> wp ota_link_step (fun _ y' => exists ps', linked I ps' y') (stopped J) y.
Proof.
  intros Hl. pose proof Hl as [Hd (acc & Hh & Hrel) Hk (r & w & Etr & Hr)].
  unfold ota_link_step. rewrite wp_bind, wp_gets, wp_bind, Etr. apply wp_ub. eexists. split; [done|].
  rewrite wp_bind. apply wp_ub. exists r. split; [done|].
  rewrite wp_bind, wp_zoom, wp_call.
  destruct (Hr (cfg_transport_context (s_config y)) 1 100 (world (view system_io y)) ltac:(lia)) as [Hb Hlen].
  destruct (r _ 1 100 _) as [[n data] w'] eqn:Er. cbn [fst snd] in *.
  set (y1 := set system_io _ y).
  assert (I ps (y_device y1)) as Hd1 by (by apply loop_event; [|split; [|split; [intros []|]]]).
  destruct (read_byte data Hlen) as (b & Eb & Eg).
  rewrite wp_bind. apply wp_ub. exists b. split; [done|]. rewrite wp_bind. apply wp_ub. eexists. split; [done|].
  assert (rx_bytes (trace_in y1) = rx_bytes (trace_in y) ++ (if n =? 1 then [hd 0 data] else [])) as Erx by done.
  destruct (Z.eqb_spec n 1) as [->|Hn].
  - assert (u8 (hd 0 data)) as Hu by (destruct Hb; [unfold u8; cbn; lia|done]).
    destruct (feed_refines acc (s_parser y) (hd 0 data) (s_packet y) Hrel Hu Hk)
      as (p' & packet' & Ef & Hrel' & Hk' & Hc).
    destruct (spec_feed acc (hd 0 data)) as [acc' out] eqn:Es. cbn [fst snd] in *.
    pose proof (heard_more _ _ _ _ _ _ packet' Hh Es) as Hh'. rewrite <-Erx in Hh'.
    rewrite wp_bind, wp_get, wp_bind. apply wp_ub. eexists. split; [exact Ef|].
    rewrite wp_bind. unfold set_parser at 1. rewrite wp_modify, wp_bind. unfold set_packet at 1. rewrite wp_modify.
    destruct out as [f|].
    + change (bool_decide (is_Some (Some f))) with true in *. cbn iota in *.
      eapply (deliver_wp ps packet' acc'); [exact Hd1|by apply Hh'|by eapply carries_received|done|done|].
      by exists r, w.
    + change (bool_decide (is_Some None)) with false in *. cbn iota in *. rewrite wp_ret.
      exists ps. split; [exact Hd1| |done|by exists r, w].
      exists acc'. split; [by apply Hh'|done].
  - rewrite app_nil_r in Erx.
    assert (linked I ps y1) as Hl1.
    { split; [done| |done|by exists r, w]. exists acc. split; [|done]. by rewrite Erx. }
    destruct (n <? 0); [|by rewrite wp_ret; exists ps].
    rewrite wp_zoom. unfold delay_ms. rewrite wp_call. exists ps. by apply (linked_event ps y1); [|split; [|split; [intros []|]]|].
Qed.
End Loop.

(** ** Invariants of the loop *)

Section Invariants.
Context {W : Type} `{EspIdf W, !EspIdfSpec W, !FlashSpec W, Sha256Spec}.
Implicit Types (d : device W) (ps : list protocol_packet_t).

(** Every delivered packet was answered, nothing else was sent. *)
Definition in_step ps d : Prop := tx_count (trace_of d) = length ps.
Definition serving ps d : Prop := (exists x, device_ok d x) /\ in_step ps d.

#[export] Instance serving_invariant : LoopInvariant serving in_step.
Proof.
  split.
  - by intros ps d [? _].
  - intros ps d e w [(x & Hd) Hn] (_ & _ & He). split; [exists x; by destruct Hd as [[] ? ? ?]|].
    unfold in_step, trace_of in *. cbn [device_io set d_io trace].
    change (e :: ?t) with ([e] ++ t). by rewrite tx_count_app, He.
  - intros ps p d [(x & Hd) Hn] Hp. eapply wp_mono; [by apply (commands_wp p d x)| |].
    + intros [] d' Hs. pose proof (sent_once_count _ _ (settles_tx _ _ _ _ Hs)) as E.
      destruct Hs as (x' & _ & Hd'). split; [by exists x'|]. unfold in_step. by rewrite E, Hn.
    + intros d' Hr. pose proof (sent_once_count _ _ (restart_tx _ _ _ _ Hr)) as E.
      unfold in_step. by rewrite E, Hn.
Qed.

(** With authentication required, under the key. *)
Definition guarded (key : list Z) ps d : Prop := exists x, obeys key ps d x.

#[export] Instance guarded_invariant key : LoopInvariant (guarded key) (accountable key).
Proof.
  split.
  - intros ps d [x Ho]. exists x. apply Ho.
  - intros ps d e w [x Ho] (Hf & Hr & _). exists x. by apply obeys_event.
  - intros ps p d [x Ho] Hp. eapply wp_mono; [apply (commands_wp p d x (obeys_ok _ _ _ _ Ho) Hp)| |].
    + intros _ d' (x' & He & Hd'). exists x'. by eapply effect_obeys.
    + intros d' Hr. by eapply restart_accountable.
Qed.
End Invariants.

(** * Lemmas: the start of the component *)

(** What starting may do outside: the stored boot count, the UART, the tasks. *)
Definition start_event (e : event) : Prop :=
  match e with
  | EvNvsSet _ _ | EvNvsCommit _ | EvUartInstall _ _ | EvUartConfig _ _ | EvUartPins _ _ | EvUartDelete _
  | EvTaskCreate _ _ => True
  | _ => False
  end.

(** The UART driver is left installed. *)
Fixpoint uart_held (t : list event) : bool :=
  match t with
  | [] => false
  | EvUartInstall _ err :: t => if bool_decide (err = ESP_OK) then true else uart_held t
  | EvUartDelete _ :: _ => false
  | _ :: t => uart_held t
  end.

(** The command task was created. *)
Definition task_started (t : list event) : Prop := EvTaskCreate task_ota_link true ∈ t.

Lemma nvs_start_event e : nvs_event e -> start_event e.
Proof. by destruct e. Qed.
Lemma nvs_uart_held t t' : Forall nvs_event t -> uart_held (t ++ t') = uart_held t'.
Proof. induction 1 as [|e t He _ IH]; [done|]. by destruct e. Qed.
Lemma nvs_not_started t : Forall nvs_event t -> ~ task_started t.
Proof. intros Ht Hin. unfold task_started in Hin. rewrite Forall_forall in Ht. by specialize (Ht _ Hin). Qed.

Section Start.
Context {W : Type} `{EspIdf W, !EspIdfSpec W, !FlashSpec W, Sha256Spec}.
Implicit Types (y : system W) (c : ota_link_config_t W).

(** [y] with another outside and configuration. *)
Definition reconfigured y (s : io W) c : system W :=
  set system_io s (mk_system (y_device y) (s_parser y) (s_packet y) c (s_task_handle y) (s_mark_valid_task_handle y)).

Lemma start_uart_wp y Q H' :
  (forall s new err c, trace s = new ++ trace_in y -> Forall start_event new -> ~ task_started new ->
    (err = ESP_OK /\ (forall t, uart_held (new ++ t) = true) /\
       c = set_transport (Some s_uart_transport) (cfg_uart_port (s_config y)) (s_config y) \/
     err <> ESP_OK /\ (forall t, uart_held t = false -> uart_held (new ++ t) = false) /\ c = s_config y) ->
    Q err (reconfigured y s c)) ->
  wp start_uart Q H' y.
Proof.
  intros HQ. unfold start_uart, set_config. repeat (autorewrite with wp).
  set (r1 := uart_driver_install _ _ _). destruct (bool_decide (r1.1 = ESP_OK)) eqn:E1; cbn [negb].
  2:{ rewrite wp_ret. apply bool_decide_eq_false in E1.
      eapply (HQ _ (_ :: [])); [reflexivity|by repeat constructor|unfold task_started; set_solver|].
      right. split; [done|]. split; [|done]. intros t Ht. cbn [app uart_held]. by rewrite bool_decide_false. }
  assert (forall e t, uart_held (EvUartPins (cfg_uart_port (s_config y)) e :: t) = uart_held t) as Hp by done.
  repeat (autorewrite with wp). set (r2 := uart_param_config _ _ _).
  destruct (bool_decide (r2.1 = ESP_OK)) eqn:E2; cbn [negb].
  2:{ repeat (autorewrite with wp). apply bool_decide_eq_false in E2.
      eapply (HQ _ (_ :: _ :: _ :: [])); [reflexivity|by repeat constructor|unfold task_started; set_solver|].
      by right. }
  repeat (autorewrite with wp). set (r3 := uart_set_pin _ _ _ _ _ _).
  destruct (bool_decide (r3.1 = ESP_OK)) eqn:E3; cbn [negb].
  2:{ repeat (autorewrite with wp). apply bool_decide_eq_false in E3.
      eapply (HQ _ (_ :: _ :: _ :: _ :: [])); [reflexivity|by repeat constructor|unfold task_started; set_solver|].
      by right. }
  repeat (autorewrite with wp).
  eapply (HQ _ (_ :: _ :: _ :: [])); [reflexivity|by repeat constructor|unfold task_started; set_solver|].
  left. split; [done|]. split; [|done]. intros t. cbn [app uart_held]. by rewrite E1.
Qed.

Lemma start_tasks_wp config y Q H' :
  (forall s new err h hm, trace s = new ++ trace_in y -> Forall start_event new ->
    (err = ESP_OK /\ h <> 0 /\ task_started new /\ (forall t, uart_held (new ++ t) = uart_held t) \/
     err <> ESP_OK /\ h = 0 /\ ~ task_started new /\
       (forall t, uart_held (new ++ t) = match cfg_transport config with None => false | Some _ => uart_held t end)) ->
    Q err (mk_system (set device_io s (y_device y)) (s_parser y) (s_packet y) (s_config y) h hm)) ->
  wp (start_tasks config) Q H' y.
Proof.
  intros HQ. unfold start_tasks, set_task_handle, set_mark_valid_task_handle. repeat (autorewrite with wp).
  pose proof (xTaskCreate_handle task_ota_link (cfg_task_stack_size (s_config y)) (cfg_task_priority (s_config y))
    (world (view system_io y))) as Hh.
  set (r1 := xTaskCreate _ _ _ _) in *. destruct (r1.1.1) eqn:E1; cbn [negb].
  2:{ destruct (cfg_transport config) eqn:Et; repeat (autorewrite with wp).
      - eapply (HQ _ (_ :: [])); [reflexivity|by repeat constructor|]. right.
        split_and!; try done. unfold task_started. set_solver.
      - eapply (HQ _ (_ :: _ :: [])); [reflexivity|by repeat constructor|]. right.
        split_and!; try done. unfold task_started. set_solver. }
  specialize (Hh eq_refl).
  destruct (cfg_auto_mark_app_valid (s_config y)); repeat (autorewrite with wp).
  2:{ eapply (HQ _ (_ :: [])); [reflexivity|by repeat constructor|]. left. split_and!; try done. by left. }
  rewrite needs_validation_wp. destruct (unconfirmed _); repeat (autorewrite with wp).
  - eapply (HQ _ (_ :: _ :: [])); [reflexivity|by repeat constructor|]. left.
    split_and!; try done. unfold task_started. set_solver.
  - eapply (HQ _ (_ :: [])); [reflexivity|by repeat constructor|]. left. split_and!; try done. by left.
Qed.

(** The statics as they are before the first start, or after a refused one. *)
Record startable y : Prop := {
  startable_handle : s_task_handle y = 0;
  startable_parser : len (prs_buffer (s_parser y)) = PARSER_BUFFER_SIZE;
  startable_packet : packet_ok (s_packet y);
  startable_proto : proto_ok (d_proto (y_device y));
  startable_ota : ota_rel (d_ota (y_device y)) None;
  startable_boot : u32 (d_boot_count (y_device y));
  startable_info : len (d_info_payload (y_device y)) = PROTOCOL_MAX_PAYLOAD
}.

(** A configuration whose key array holds the bytes its length announces. *)
Definition config_ok c : Prop :=
  match cfg_auth_key c with None => True | Some k => 0 <= cfg_auth_key_len c <= len k end.

(** The configuration in force after a start: the UART stands in for a missing
    transport. *)
Definition effective c : ota_link_config_t W :=
  match cfg_transport c with
  | None => set_transport (Some s_uart_transport) (cfg_uart_port c) c
  | Some _ => c
  end.

Record launched c y : Prop := {
  launched_handle : s_task_handle y <> 0;
  launched_key : key_missing c = false;
  launched_auth : auth_configure (cfg_auth_key c) (cfg_auth_key_len c) (cfg_require_authentication c) =
                  Some (d_auth (y_device y));
  launched_ok : device_ok (y_device y) None;
  launched_closed : pending (d_auth (y_device y)) = false /\ authenticated (d_auth (y_device y)) = false;
  launched_config : s_config y = effective c;
  launched_writer : exists r w, cfg_transport (s_config y) = Some (mk_transport (Some r) (Some w)) /\
    s_write (d_proto (y_device y)) = Some w /\
    s_write_context (d_proto (y_device y)) = cfg_transport_context (s_config y)
}.

(** Everything a start with a configuration can end in. *)
Definition start_outcome c y (err : esp_err_t) y' : Prop :=
  s_parser y' = s_parser y /\ s_packet y' = s_packet y /\
  exists new, trace_in y' = new ++ trace_in y /\ Forall start_event new /\
    (err = ESP_OK /\ launched c y' /\ task_started new /\
       uart_held new = (match cfg_transport c with None => true | Some _ => false end) \/
     err <> ESP_OK /\ startable y' /\ ~ task_started new /\ uart_held new = false).

(** The last part: transport and key are in place. *)
Lemma launch_wp c y y0 new0 t auth :
  startable y -> s_config y = effective c -> cfg_transport (effective c) = Some t ->
  (exists r w, t = mk_transport (Some r) (Some w)) -> key_missing c = false ->
  auth_configure (cfg_auth_key c) (cfg_auth_key_len c) (cfg_require_authentication c) = Some auth ->
  auth_ok auth -> pending auth = false -> authenticated auth = false ->
  d_auth (y_device y) = auth -> s_parser y = s_parser y0 -> s_packet y = s_packet y0 ->
  trace_in y = new0 ++ trace_in y0 -> Forall start_event new0 -> ~ task_started new0 ->
  uart_held new0 = (match cfg_transport c with None => true | Some _ => false end) ->
  wp (_ ← zoom system_proto (protocol_set_writer (tr_write t) (cfg_transport_context (s_config y)));
      start_tasks c) (start_outcome c y0) (fun _ => False) y.
Proof.
  intros [Hh Hp Hk Hpr Ho Hb Hi] Hc Ht (r & w & ->) Hkey Hau Haok Hpn Haut <- Ep Ek Et Hn Hns Hu.
  rewrite wp_bind, wp_zoom. unfold protocol_set_writer. rewrite wp_modify. apply start_tasks_wp.
  intros s new err h hm Es Hnew Hcase. split; [done|]. split; [done|].
  exists (new ++ new0). split; [|split; [by apply Forall_app|]].
  { unfold trace_in, trace_of. cbn [y_device device_io set d_io]. rewrite Es, <-app_assoc. by f_equal. }
  destruct Hcase as [(-> & Hh' & Hst & Hheld)|(Herr & -> & Hst & Hheld)]; rewrite Hheld; [left|right].
  - split; [done|]. split; [|split; [|done]].
    + split; [exact Hh'|exact Hkey|exact Hau| |by split|exact Hc|].
      * split; [by split|exact Ho|exact Hb|exact Hi].
      * exists r, w. split; [|by split]. rewrite <-Ht, <-Hc. done.
    + apply elem_of_app. by left.
  - split; [done|]. split; [by split|]. split.
    + intros [?|?]%elem_of_app; [by apply Hst|by apply Hns].
    + rewrite Hu. by destruct (cfg_transport c).
Qed.

Lemma start_wp c y :
  startable y -> config_ok c ->
  wp (ota_link_start_with_config (Some c)) (start_outcome c y) (fun _ => False) y.
Proof.
  intros [Hh Hp Hk Hpr Ho Hb Hi] Hc. unfold ota_link_start_with_config.
  rewrite wp_bind, wp_gets, Hh. cbn [Z.eqb negb].
  rewrite wp_bind. unfold set_config at 1. rewrite wp_modify.
  destruct (key_missing c) eqn:Hkey.
  { rewrite wp_ret. split; [done|]. split; [done|]. exists []. split; [done|]. split; [done|]. right.
    split; [done|]. split; [by split|]. split; [|done]. by intros ?%elem_of_nil. }
  destruct (auth_configure_total (cfg_auth_key c) (cfg_auth_key_len c) (cfg_require_authentication c) Hc)
    as (auth & Eau & Haok & Hpn & Haut).
  rewrite wp_bind. apply wp_ub. exists auth. split; [done|].
  rewrite wp_bind. unfold set_device_auth at 1. rewrite wp_modify.
  rewrite wp_bind, wp_zoom. apply device_info_init_wp; [exact Hb|].
  intros s' new Hb' Et Hnvs. set (y1 := set system_info s' _).
  assert (startable y1) as Hst by by split.
  assert (trace_in y1 = new ++ trace_in y) as Et1 by exact Et.
  assert (Forall start_event new) as Hnew by (eapply Forall_impl; [exact Hnvs|apply nvs_start_event]).
  pose proof (nvs_not_started _ Hnvs) as Hns.
  assert (uart_held new = false) as Hun by (pose proof (nvs_uart_held new [] Hnvs) as E; by rewrite app_nil_r in E).
  rewrite wp_bind. destruct (cfg_transport c) as [t|] eqn:Etr.
  - assert (forall r w, t = mk_transport (Some r) (Some w) ->
      wp (c ← gets s_config; transport ← ub (cfg_transport c);
          _ ← zoom system_proto (protocol_set_writer (tr_write transport) (cfg_transport_context c));
          start_tasks c) (start_outcome c y) (fun _ => False) y1) as Hgo.
    { intros r w ->. rewrite wp_bind, wp_gets, wp_bind. apply wp_ub.
      exists (mk_transport (Some r) (Some w)). split; [exact Etr|].
      eapply (launch_wp c y1 y new _ auth);
        try done; try (by do 2 eexists); try (unfold effective; by rewrite Etr); rewrite Etr; done. }
    destruct t as [[r|] [w|]]; cbn [tr_read tr_write]; rewrite wp_ret; [by apply (Hgo r w)|..];
      (change (bool_decide _) with false; cbn [negb]; rewrite wp_ret; split; [done|]; split; [done|];
       exists new; split; [done|]; split; [done|]; right; split; [done|]; by split).
  - apply start_uart_wp. intros s new1 err c' Es Hnew1 Hns1 Hcase. rewrite wp_if.
    assert (trace s = (new1 ++ new) ++ trace_in y) as Es' by (by rewrite Es, Et1, app_assoc).
    destruct Hcase as [(-> & Hu & ->)|(Herr & Hu & ->)].
    + change (bool_decide (ESP_OK = ESP_OK)) with true. cbn [negb].
      rewrite wp_bind, wp_gets, wp_bind. apply wp_ub. eexists. split; [reflexivity|].
      eapply (launch_wp c _ y (new1 ++ new) _ auth);
        try done; try (by do 2 eexists); try (unfold effective; by rewrite Etr).
      * by apply Forall_app.
      * intros [?|?]%elem_of_app; [by apply Hns1|by apply Hns].
    + rewrite bool_decide_false by done. cbn [negb]. rewrite wp_ret. split; [done|]. split; [done|].
      exists (new1 ++ new). split; [done|]. split; [by apply Forall_app|]. right. split; [done|].
      split; [by split|]. split; [|by apply Hu]. intros [?|?]%elem_of_app; [by apply Hns1|by apply Hns].
Qed.
End Start.

(** * Lemmas: the command task after a start *)

Lemma start_rx t : Forall start_event t -> rx_bytes t = [].
Proof. induction 1 as [|e t He _ IH]; [done|]. by destruct e. Qed.
Lemma start_tx t : Forall start_event t -> tx_count t = O.
Proof. induction 1 as [|e t He _ IH]; [done|]. by destruct e. Qed.
Lemma start_outside e : start_event e -> outside e.
Proof. by destruct e; intros He; (split; [|split; [intros []|]]). Qed.

Section Task.
Context {W : Type} `{EspIdf W, !EspIdfSpec W, !FlashSpec W, Sha256Spec}.
Implicit Types (y : system W) (c : ota_link_config_t W).

(** A custom transport, if there is one, reads into the buffer it is given. *)
Definition config_reader_ok c : Prop :=
  match cfg_transport c with
  | None => True
  | Some t => forall r, tr_read t = Some r -> reader_ok r
  end.

Lemma uart_reader_ok : reader_ok (uart_transport_read (W := W)).
Proof.
  intros context n timeout w Hn. unfold uart_transport_read.
  split; [apply uart_read_bytes_bytes|by apply uart_read_bytes_len].
Qed.

Lemma effective_transport c y : launched c y -> config_reader_ok c -> transport_ok (cfg_transport (s_config y)).
Proof.
  intros Hl Hr. destruct (launched_writer _ _ Hl) as (r & w & Et & _). exists r, w. split; [done|].
  rewrite (launched_config _ _ Hl) in Et. unfold effective, config_reader_ok in *.
  destruct (cfg_transport c) as [t|] eqn:E.
  - rewrite E in Et. injection Et as ->. by apply Hr.
  - injection Et as <- <-. apply uart_reader_ok.
Qed.

(** The state in which the task enters its loop. *)
Definition entered y : system W :=
  mk_system (y_device y) (protocol_parser_init (s_parser y)) (s_packet y) (s_config y) (s_task_handle y)
    (s_mark_valid_task_handle y).

Lemma launched_linked (I : list protocol_packet_t -> device W -> Prop) c y :
  launched c y -> config_reader_ok c -> len (prs_buffer (s_parser y)) = PARSER_BUFFER_SIZE ->
  packet_ok (s_packet y) -> Forall start_event (trace_in y) -> I [] (y_device y) -> linked I [] (entered y).
Proof.
  intros Hl Hr Hb Hk Ht Hi. split; [done| |done|exact (effective_transport c y Hl Hr)].
  exists []. split; [|by apply parser_init_rel]. exists []. split; [|constructor].
  change (trace_in (entered y)) with (trace_in y). by rewrite start_rx.
Qed.

Lemma loop_wp (I J : list protocol_packet_t -> device W -> Prop) `{!LoopInvariant I J} n y :
  (exists ps, linked I ps y) ->
  wp (run_steps n ota_link_step) (fun _ y' => exists ps, linked I ps y') (stopped J) y.
Proof.
  intros Hl. apply (run_steps_invariant (fun y => exists ps, linked I ps y)); [|done].
  intros y' (ps & Hl'). by eapply (ota_link_step_wp I J).
Qed.

(** The component is started, and its command task runs [n] turns. *)
Definition start_and_serve c (n : nat) : M (system W) unit :=
  err ← ota_link_start_with_config (Some c);
  if bool_decide (err = ESP_OK) then ota_link_task n else mret tt.

Lemma serving_frames ps acc y :
  heard (rx_bytes (trace_in y)) acc ps -> in_step ps (y_device y) ->
  tx_count (trace_in y) = length (spec_stream [] (rx_bytes (trace_in y))).2.
Proof.
  intros (fs & -> & Hf) Hn. cbn [snd]. unfold in_step in Hn. unfold trace_in at 1.
  by rewrite Hn, <-(Forall2_length _ _ _ Hf), length_rev.
Qed.
End Task.

(** * Properties *)

Section Properties.
Context {W : Type} `{EspIdf W, !EspIdfSpec W, !FlashSpec W, Sha256Spec}.
Implicit Types (y : system W) (c : ota_link_config_t W).

(** C7 (safety): every frame on the link is answered exactly once. Started with
    any configuration and run for any number of turns, whatever bytes arrive
    and however the chip answers, the command task has no undefined behaviour,
    every turn returns unless the chip restarts, and the number of packets
    transmitted is the number of frames in the bytes received. *)
Theorem command_task_answers_every_frame c y n :
  startable y -> trace_in y = [] -> config_ok c -> config_reader_ok c ->
  let in_step y' := tx_count (trace_in y') = length (spec_stream [] (rx_bytes (trace_in y'))).2 in
  wp (start_and_serve c n) (fun _ => in_step) in_step y.
Proof.
  intros Hy Ht Hc Hr in_step. unfold start_and_serve. rewrite wp_bind.
  eapply wp_mono; [by apply start_wp| |done].
  intros err y1 (Hp & Hk & new & Et & Hnew & Hcase). rewrite Ht, app_nil_r in Et.
  destruct Hcase as [(-> & Hl & _ & _)|(Herr & _)].
  - change (bool_decide (ESP_OK = ESP_OK)) with true. cbn iota. unfold ota_link_task.
    rewrite wp_bind, wp_get, wp_bind. unfold set_parser at 1. rewrite wp_modify.
    eapply wp_mono; [apply (loop_wp serving OtaLink.in_step)| |].
    + exists []. apply (launched_linked serving c); try done.
      * rewrite Hp. apply Hy.
      * rewrite Hk. apply Hy.
      * by rewrite Et.
      * split; [exists None; apply Hl|]. unfold OtaLink.in_step. change (trace_of (y_device y1)) with (trace_in y1).
        by rewrite Et, start_tx.
    + intros _ y' (ps & [[_ Hn] (acc & Hh & _) _ _]). by eapply serving_frames.
    + intros y' (ps & acc & Hh & Hn). by eapply serving_frames.
  - rewrite bool_decide_false by done. rewrite wp_ret. unfold in_step. by rewrite Et, start_rx, start_tx.
Qed.

(** C18 (functional): a start succeeds completely or not at all. With
    [ESP_OK], the command task exists, the key and the writer are configured
    and the transport is the given one or the installed UART; with any other
    result no command task exists, the UART driver is not left installed, and
    the start can be tried again. Nothing but the stored boot count, the UART
    and the tasks is touched. *)
Theorem start_is_all_or_nothing c y :
  startable y -> config_ok c ->
  wp (ota_link_start_with_config (Some c))
    (fun err y' => exists new, trace_in y' = new ++ trace_in y /\ Forall start_event new /\
       if bool_decide (err = ESP_OK)
       then launched c y' /\ task_started new /\
            uart_held new = (match cfg_transport c with None => true | Some _ => false end)
       else startable y' /\ ~ task_started new /\ uart_held new = false)
    (fun _ => False) y.
Proof.
  intros Hy Hc. eapply wp_mono; [by apply start_wp| |done].
  intros err y' (_ & _ & new & Et & Hnew & Hcase). exists new. split; [done|]. split; [done|].
  destruct Hcase as [(-> & ? & ? & ?)|(Herr & ? & ? & ?)]; [done|]. by rewrite bool_decide_false.
Qed.
End Properties.

(** C20 (error): a start that cannot work is refused at once. NULL and a missing,
    empty or too long required key are invalid arguments, a second start an
    invalid state; nothing outside is touched, and only the stored configuration
    can have changed. *)
Theorem impossible_starts_are_refused {W} `{EspIdf W, Sha256} (y : system W) :
  ota_link_start_with_config None y = Done ESP_ERR_INVALID_ARG y /\
  (forall c, s_task_handle y <> 0 -> ota_link_start_with_config (Some c) y = Done ESP_ERR_INVALID_STATE y) /\
  (forall c, s_task_handle y = 0 -> key_missing c = true ->
     exists y', ota_link_start_with_config (Some c) y = Done ESP_ERR_INVALID_ARG y' /\
       y_device y' = y_device y /\ s_task_handle y' = 0) /\
  (forall c : ota_link_config_t W, key_missing c = true <->
     cfg_require_authentication c = true /\
     (cfg_auth_key c = None \/ cfg_auth_key_len c = 0 \/ AUTH_KEY_MAX_SIZE < cfg_auth_key_len c)).
Proof.
  split; [done|]. split; [|split].
  - intros c Hh. unfold ota_link_start_with_config. erewrite bind_Done by reflexivity.
    by destruct (Z.eqb_spec (s_task_handle y) 0).
  - intros c Hh Hk. eexists. unfold ota_link_start_with_config. erewrite bind_Done by reflexivity.
    rewrite Hh. cbn [Z.eqb negb]. erewrite bind_Done by reflexivity. by rewrite Hk.
  - intros c. unfold key_missing. rewrite andb_true_iff, !orb_true_iff, Z.eqb_eq, Z.ltb_lt.
    destruct (cfg_auth_key c); naive_solver.
Qed.

(** ** Concrete instances *)

(** The statics of a device that just started, with [bs] waiting on its UART. *)
Definition fresh_system (bs : list Z) : system sim :=
  mk_system
    (mk_device auth_zero (mk_proto 0 None 0 (zeros TX_BUFFER_SIZE)) ota_statics_zero 0 (zeros PROTOCOL_MAX_PAYLOAD)
       (sim_io (mk_sim bs [] (Some sim_ota_0) (Some 6) 2500)))
    example_parser example_packet OTA_LINK_DEFAULT_CONFIG 0 0.

Lemma fresh_startable bs : startable (fresh_system bs).
Proof.
  split; try done.
Qed.

Definition keyed_config : ota_link_config_t sim :=
  mk_config 1 115200 4 5 (-1) (-1) 2048 8192 5 true 5000 (Some (example_key ++ [0])) 4 true None 0.

Lemma keyed_config_ok : config_ok keyed_config.
Proof. split; [done|]. vm_compute. discriminate. Qed.

Lemma command_task_answers_every_frame_witness :
  let in_step (y' : system sim) := tx_count (trace_in y') = length (spec_stream [] (rx_bytes (trace_in y'))).2 in
  wp (start_and_serve keyed_config 40) (fun _ => in_step) in_step
    (fresh_system ([1; 2] ++ encode_frame (mk_frame 1 0x01 7 []))).
Proof.
  exact (command_task_answers_every_frame keyed_config
    (fresh_system ([1; 2] ++ encode_frame (mk_frame 1 0x01 7 []))) 40
    (fresh_startable _) eq_refl keyed_config_ok I).
Defined.

Lemma start_is_all_or_nothing_witness :
  wp (ota_link_start_with_config (Some keyed_config))
    (fun err y' => exists new, trace_in y' = new ++ trace_in (fresh_system []) /\ Forall start_event new /\
       if bool_decide (err = ESP_OK)
       then launched keyed_config y' /\ task_started new /\ uart_held new = true
       else startable y' /\ ~ task_started new /\ uart_held new = false)
    (fun _ => False) (fresh_system []).
Proof.
  exact (start_is_all_or_nothing keyed_config (fresh_system []) (fresh_startable []) keyed_config_ok).
Defined.
