(* ===== verification/App.v ===== *)
(** main.c: the application that starts the component and checks its own health;
    the whole program as the turns of its tasks, and what the link can make it do. *)
From stdpp Require Import sets.
From S2P Require Import Prelude Machine EspIdf SimEnv Protocol Hmac Auth OtaManager DeviceInfo Lifecycle Commands OtaLink.

(** * Operations *)

Section Code.
Context {W : Type} `{EspIdf W, Sha256}.

(** [ESP_ERROR_CHECK]: anything but [ESP_OK] aborts the program. *)
Definition ESP_ERROR_CHECK (err : esp_err_t) : M (system W) unit :=
  if bool_decide (err = ESP_OK) then mret tt else halt.

(** [force_invalid] is CONFIG_ESP32_OTA_LINK_EXAMPLE_FORCE_INVALID. *)
Definition app_health_task (force_invalid : bool) : M (system W) unit :=
  _ ← zoom system_io (delay_ms 5000);
  if force_invalid then
    err ← zoom system_io ota_link_mark_app_invalid_and_reboot;
    ESP_ERROR_CHECK err
  else
    _ ← zoom system_io ota_link_mark_app_valid;
    mret tt.

(** Lines 33-40. [auth_key] is CONFIG_ESP32_OTA_LINK_EXAMPLE_AUTH_KEY when
    CONFIG_ESP32_OTA_LINK_EXAMPLE_REQUIRE_AUTH is set; the array of the C string
    ends with a NUL that [sizeof(auth_key) - 1] leaves out. *)
Definition app_config (auth_key : option (list Z)) : ota_link_config_t W :=
  match auth_key with
  | None => OTA_LINK_DEFAULT_CONFIG
  | Some key =>
      mk_config UART_NUM_0 115200 UART_PIN_NO_CHANGE UART_PIN_NO_CHANGE UART_PIN_NO_CHANGE
        UART_PIN_NO_CHANGE 2048 8192 5 false 5000 (Some (key ++ [0])) (len (key ++ [0]) - 1) true None 0
  end.

Definition app_start (auth_key : option (list Z)) : M (system W) unit :=
  err ← ota_link_start_with_config (Some (app_config auth_key));
  _ ← ESP_ERROR_CHECK err;
  _ ← zoom system_io (call (xTaskCreate task_app_health 3072 1) (fun r => EvTaskCreate task_app_health r.1));
  mret tt.

Definition app_main (auth_key : option (list Z)) (n : nat) : M (system W) unit :=
  _ ← app_start auth_key;
  run_steps n (zoom system_io (delay_ms 1000)).
End Code.

(** * Specifications: the program as turns of its tasks *)

(** The tasks of the running program: the idle loop of [app_main], the command
    loop, the one-shot confirmation of ota_link.c and the health check. *)
Inductive turn : Type := turn_main | turn_link | turn_mark_valid | turn_health.

Section Program.
Context {W : Type} `{EspIdf W, Sha256}.

Definition take_turn (force_invalid : bool) (t : turn) : M (system W) unit :=
  match t with
  | turn_main => zoom system_io (delay_ms 1000)
  | turn_link => ota_link_step
  | turn_mark_valid => mark_valid_task
  | turn_health => app_health_task force_invalid
  end.

Fixpoint take_turns (force_invalid : bool) (ts : list turn) : M (system W) unit :=
  match ts with
  | [] => mret tt
  | t :: ts => _ ← take_turn force_invalid t; take_turns force_invalid ts
  end.

(** The start, and then any interleaving of turns. *)
Definition firmware (auth_key : option (list Z)) (force_invalid : bool) (ts : list turn)
  : M (system W) unit :=
  _ ← app_start auth_key;
  _ ← ota_link_task 0;
  take_turns force_invalid ts.
End Program.

(** * Lemmas *)

Section Turns.
Context {W : Type} `{EspIdf W, !EspIdfSpec W, !FlashSpec W, Sha256Spec}.
Context (I J : list protocol_packet_t -> device W -> Prop) `{!LoopInvariant I J}.
Implicit Types (y : system W) (ps : list protocol_packet_t).

Lemma linked_handle ps y h : linked I ps y ->
  linked I ps (mk_system (y_device y) (s_parser y) (s_packet y) (s_config y) (s_task_handle y) h).
Proof. by intros [? ? ? ?]. Qed.

Lemma delay_linked ms ps y Q H' :
  linked I ps y -> (forall y', linked I ps y' -> Q tt y') -> wp (zoom system_io (delay_ms ms)) Q H' y.
Proof.
  intros Hl HQ. rewrite wp_zoom. unfold delay_ms. rewrite wp_call. apply HQ.
  by apply (linked_event I J); [|split; [|split; [intros []|]]|].
Qed.

Lemma mark_valid_linked ps y Q H' :
  linked I ps y -> (forall err y', linked I ps y' -> Q err y') ->
  wp (zoom system_io ota_link_mark_app_valid) Q H' y.
Proof.
  intros Hl HQ. rewrite wp_zoom. apply mark_valid_wp.
  - intros _ err _. apply HQ. by destruct Hl as [? ? ? ?], y as [[] ? ? ? ? ?].
  - intros _ r. apply HQ. by apply (linked_event I J); [|split; [|split; [intros []|]]|].
Qed.

Lemma take_turn_wp ps y t :
  linked I ps y -> wp (take_turn false t) (fun _ y' => exists ps', linked I ps' y') (stopped J) y.
Proof.
  intros Hl. destruct t; cbn [take_turn].
  - apply (delay_linked _ ps); [done|]. intros y' ?. by exists ps.
  - by apply (ota_link_step_wp I J ps).
  - unfold mark_valid_task. rewrite wp_bind, wp_gets, wp_bind. apply (delay_linked _ ps); [done|]. intros y1 Hl1.
    rewrite wp_bind. apply (mark_valid_linked ps); [done|]. intros err y2 Hl2.
    unfold set_mark_valid_task_handle. rewrite wp_modify. exists ps. by apply linked_handle.
  - unfold app_health_task. rewrite wp_bind. apply (delay_linked _ ps); [done|]. intros y1 Hl1.
    rewrite wp_bind. apply (mark_valid_linked ps); [done|]. intros err y2 Hl2. rewrite wp_ret. by exists ps.
Qed.

Lemma take_turns_wp ts : forall y,
  (exists ps, linked I ps y) ->
  wp (take_turns false ts) (fun _ y' => exists ps, linked I ps y') (stopped J) y.
Proof.
  induction ts as [|t ts IH]; intros y (ps & Hl); [by exists ps|].
  cbn [take_turns]. rewrite wp_bind.
  eapply wp_mono; [by eapply take_turn_wp|intros ? y'; apply IH|done].
Qed.
End Turns.

Section Launch.
Context {W : Type} `{EspIdf W, !EspIdfSpec W, !FlashSpec W, Sha256Spec}.
Implicit Types (y : system W).

Lemma app_config_ok key : config_ok (W := W) (app_config key).
Proof.
  destruct key as [key|]; [|done]. unfold config_ok, app_config. cbn [cfg_auth_key cfg_auth_key_len].
  pose proof (zlen_nonneg key). sizes.
Qed.

Lemma app_config_key_len key : cfg_auth_key_len (W := W) (app_config (Some key)) = len key.
Proof. cbn [app_config cfg_auth_key_len]. sizes. Qed.

(** What [app_start] leaves when it returns, and when a check stops it. *)
Lemma app_start_wp key y Q (H' : system W -> Prop) :
  startable y -> trace_in y = [] ->
  (forall y', launched (app_config key) y' -> Forall start_event (trace_in y') ->
     len (prs_buffer (s_parser y')) = PARSER_BUFFER_SIZE -> packet_ok (s_packet y') -> Q tt y') ->
  (forall y', Forall start_event (trace_in y') -> ~ task_started (trace_in y') ->
     uart_held (trace_in y') = false -> H' y') ->
  wp (app_start key) Q H' y.
Proof.
  intros Hy Ht HQ HH. unfold app_start. rewrite wp_bind.
  eapply wp_mono; [by apply start_wp, app_config_ok| |done].
  intros err y1 (Hp & Hk & new & Et & Hnew & Hcase). rewrite Ht, app_nil_r in Et.
  rewrite wp_bind. unfold ESP_ERROR_CHECK.
  destruct Hcase as [(-> & Hl & _ & _)|(Herr & _ & Hs & Hu)].
  - change (bool_decide (ESP_OK = ESP_OK)) with true. cbn iota.
    rewrite wp_ret, wp_bind, wp_zoom, wp_call, wp_ret. set (y2 := set system_io _ y1).
    apply HQ; [| |by rewrite <-(startable_parser _ Hy), <-Hp|by unfold packet_ok; rewrite <-(startable_packet _ Hy), <-Hk].
    + destruct Hl as [? ? ? Hd [? ?] ? ?]. split; try done. by destruct Hd as [[] ? ? ?].
    + change (Forall start_event (EvTaskCreate task_app_health
        (xTaskCreate task_app_health 3072 1 (world (view system_io y1))).1.1 :: trace_in y1)).
      rewrite Et. by constructor.
  - rewrite bool_decide_false by done. rewrite wp_halt. apply HH; by rewrite Et.
Qed.
End Launch.

(** * Properties *)

Section Properties.
Context {W : Type} `{EspIdf W, !EspIdfSpec W, !FlashSpec W, Sha256Spec}.
Implicit Types (y : system W).

(** C1 (safety): the firmware acts for the holder of the key only. The
    application is started with a required key, and its tasks take turns in any
    order and number, while any bytes arrive on the link and the chip answers
    in any way. Nothing is undefined; and whenever the boot partition was
    switched or the chip restarted, the frames in the bytes received carry
    packets, tagged under the key of a session opened by a proof over a nonce
    of the device, that asked for the restart, or for the update with this
    size, this digest and exactly these chunks. *)
Theorem only_the_key_holder_controls_the_firmware key y ts :
  startable y -> trace_in y = [] -> 1 <= len key <= AUTH_KEY_MAX_SIZE ->
  let only y' := exists ps,
    Forall2 carries (rev ps) (spec_stream [] (rx_bytes (trace_in y'))).2 /\ acts_for key ps (trace_in y') in
  wp (firmware (Some key) false ts) (fun _ => only) only y.
Proof.
  intros Hy Ht Hk only.
  assert (forall y', stopped (accountable key) y' -> only y') as Hstop.
  { intros y' (ps & acc & (fs & E & Hf) & Ha). exists ps. rewrite E. split; [done|]. by apply accountable_acts_for. }
  assert (forall y', (exists ps, linked (guarded key) ps y') -> only y') as Hlinked.
  { intros y' (ps & [[x Ho] (acc & Hh & _) _ _]). apply Hstop. exists ps, acc. split; [done|].
    by eapply obeys_accountable. }
  unfold firmware. rewrite wp_bind. apply app_start_wp; [done..| |].
  - intros y1 Hl Htr Hp Hpk. unfold ota_link_task. rewrite !wp_bind, wp_get, wp_bind.
    unfold set_parser at 1. rewrite wp_modify. cbn [run_steps]. rewrite wp_ret.
    eapply wp_mono; [apply (take_turns_wp (guarded key) (accountable key))|intros ? y'; apply Hlinked|apply Hstop].
    exists []. apply (launched_linked (guarded key) (app_config (Some key))); try done.
    exists None. apply obeys_configured; [apply Hl|done| |].
    + exists [0]. pose proof (launched_auth _ _ Hl) as E. by rewrite app_config_key_len in E.
    + eapply Forall_impl; [exact Htr|]. intros e He. by destruct (start_outside _ He) as (? & ? & _).
  - intros y1 Htr _ _. exists []. rewrite start_rx by done. split; [constructor|]. split.
    + intros t1 part err t2 E. rewrite E in Htr. apply Forall_app in Htr as [_ Htr]. by inversion Htr.
    + intros e He Hr. rewrite Forall_forall in Htr. by destruct (start_outside _ (Htr e He)) as (_ & [] & _).
Qed.

(** C19 (error): an unusable key stops the application. When the build requires
    authentication with an empty key or one longer than [AUTH_KEY_MAX_SIZE],
    [app_main] aborts before the link is opened: no task is created and no
    packet is served, so the device never runs without the key it asked for. *)
Theorem unusable_key_stops_the_application key n y :
  s_task_handle y = 0 -> len key = 0 \/ AUTH_KEY_MAX_SIZE < len key ->
  exists y', app_main (Some key) n y = Halted y' /\ y_device y' = y_device y.
Proof.
  intros Hh Hk. unfold app_main, app_start, ota_link_start_with_config. unfold mbind at 1, M_bind at 1.
  assert (key_missing (W := W) (app_config (Some key)) = true) as Em.
  { unfold key_missing. rewrite app_config_key_len. cbn [app_config cfg_require_authentication cfg_auth_key].
    apply andb_true_iff. split; [done|]. rewrite !orb_true_iff, Z.eqb_eq, Z.ltb_lt. tauto. }
  eexists. erewrite bind_Done.
  2:{ erewrite bind_Done by reflexivity. rewrite Hh. cbn [Z.eqb negb]. erewrite bind_Done by reflexivity.
      rewrite Em. reflexivity. }
  unfold ESP_ERROR_CHECK. change (bool_decide (ESP_ERR_INVALID_ARG = ESP_OK)) with false. cbn iota.
  by split.
Qed.

(** C27 (functional): the health check confirms an unconfirmed image, once, and
    nothing else; the forced failure asks for the rollback, never confirms, and
    continues only if the request is granted and yet returns. *)
Theorem health_check_confirms_or_rolls_back y :
  let w := vTaskDelay (pdMS_TO_TICKS 5000) (world (view system_io y)) in
  let r := esp_ota_mark_app_invalid_rollback_and_reboot w in
  (exists y', app_health_task false y = Done tt y' /\
     trace_in y' =
       (if unconfirmed w then [EvMarkValid (esp_ota_mark_app_valid_cancel_rollback w).1] else []) ++
       EvDelay 5000 :: trace_in y) /\
  (exists y', app_health_task true y = (if bool_decide (r.1 = Some ESP_OK) then Done tt y' else Halted y') /\
     trace_in y' = EvMarkInvalidReboot r.1 :: EvDelay 5000 :: trace_in y).
Proof.
  intros w r. split.
  - assert (wp (app_health_task false) (fun _ y' => trace_in y' =
      (if unconfirmed w then [EvMarkValid (esp_ota_mark_app_valid_cancel_rollback w).1] else []) ++
       EvDelay 5000 :: trace_in y) (fun _ => False) y) as Hwp.
    { unfold app_health_task. rewrite wp_bind, wp_zoom. unfold delay_ms at 1. rewrite wp_call, wp_bind, wp_zoom.
      set (y1 := set system_io _ y). apply mark_valid_wp; change (world (view system_io y1)) with w.
      - intros -> err _. by rewrite wp_ret.
      - intros ->. by rewrite wp_ret. }
    unfold wp in Hwp. destruct (app_health_task false y) as [[] y'| |]; [by exists y'|done..].
  - exists (set system_io (mk_io r.2 (EvMarkInvalidReboot r.1 :: EvDelay 5000 :: trace_in y)) y).
    unfold app_health_task. erewrite bind_Done by (by apply zoom_Done). set (y1 := set system_io _ y).
    unfold mbind at 1, M_bind at 1, zoom at 1, ota_link_mark_app_invalid_and_reboot.
    erewrite bind_Done by apply call_run. change (world (view system_io y1)) with w. fold r.
    destruct r.1 as [err|]; [|by split].
    cbn. unfold ESP_ERROR_CHECK. destruct (decide (err = ESP_OK)) as [->|Hne].
    + by split.
    + rewrite !bool_decide_false by congruence. by split.
Qed.
End Properties.

(** ** Concrete instances *)

(** The bytes of the host's update on the wire, behind some noise, and a schedule
    in which the other tasks take turns too. *)
Definition update_stream : list Z := [7; 0xAA; 1] ++ concat ((fun p => encode_frame (packet_frame p)) <$> example_host).
Definition update_turns : list turn :=
  [turn_health; turn_main] ++ replicate 100 turn_link ++ [turn_main; turn_mark_valid] ++ replicate 220 turn_link.
Definition updated_system : system sim :=
  done_state (firmware (Some example_key) false update_turns (fresh_system update_stream)) (fresh_system []).

Lemma updated_system_run :
  firmware (Some example_key) false update_turns (fresh_system update_stream) = Done tt updated_system.
Proof. vm_compute. reflexivity. Qed.
Lemma updated_system_boot : exists t2,
  trace_in updated_system =
  take 83 (trace_in updated_system) ++ EvSetBoot sim_ota_1 ESP_OK :: t2.
Proof. eexists. vm_compute. reflexivity. Qed.

Lemma only_the_key_holder_controls_the_firmware_witness :
  exists ps size digest,
    Forall2 carries (rev ps) (spec_stream [] (rx_bytes (trace_in updated_system))).2 /\
    authorised example_key ps (trace_in updated_system) CMD_OTA_BEGIN (le32 size ++ digest).
Proof.
  pose proof (only_the_key_holder_controls_the_firmware example_key (fresh_system update_stream) update_turns
    (fresh_startable _) eq_refl example_key_length) as Hwp. cbv zeta in Hwp.
  match type of Hwp with wp ?m ?Q ?H ?s =>
    pose proof (@wp_Done_inv (system sim) unit m Q H s tt updated_system Hwp updated_system_run) as Hpost
  end.
  destruct Hpost as (ps & Hps & Hboot & _). destruct updated_system_boot as [t2 Et].
  destruct (Hboot _ sim_ota_1 ESP_OK t2 Et) as (size & digest & h & t3 & chunks & _ & _ & _ & _ & Ha & _).
  exists ps, size, digest. split; [exact Hps|exact Ha].
Defined.

Lemma unusable_key_stops_the_application_witness :
  exists y', app_main (Some []) 3 (fresh_system []) = Halted y' /\ y_device y' = y_device (fresh_system []).
Proof.
  exact (unusable_key_stops_the_application [] 3 (fresh_system []) eq_refl (or_introl eq_refl)).
Defined.
